(* ===== verification/_CoqProject ===== *)
-Q . S2P
Prelude.v
TailQ.v
Ring.v
Hkdf.v
FlowTable.v
Operand.v
Bignum.v
BignumMod.v
BignumEcc.v
PkaEngine.v
RandOperand.v
SyncPka.v
HexString.v
ClientHello.v
TlsPack.v
NicState.v
DpdkIo.v
KeySchedule.v
PkaBench.v
PkaTls.v
BenchKeys.v
PkaHkdf.v
BenchHkdf.v
BenchMain.v
SslPools.v
TcpOut.v
MetaOut.v
NicInit.v
RecordLayer.v
Session.v
SessionInv.v
SessionProps.v
TcpIn.v
PkaLive.v
HostFilter.v
HostConn.v
FlowRules.v
Migration.v
HostHttp.v
HostLoop.v
HostServe.v
