(* ===== verification/Prelude.v ===== *)
(** * XTLS: TLS offloading between a SmartNIC and a Linux host

    ** The program

    XTLS terminates TLS 1.3 connections in two places. A SmartNIC program
    (src/smartnic/offload_ssl) answers the client's TCP handshake, runs the
    TLS 1.3 handshake with the help of a public-key accelerator (PKA), and
    then hands the connection over: it sends the host a raw frame with the
    addresses, the sequence numbers and the application keys. A host program
    (src/host/custom_server) rebuilds the TCP connection in its kernel with
    the repair mode of Linux, gives the keys to kernel TLS, acknowledges the
    migration to the SmartNIC, and serves files over HTTP from then on. When it
    closes the connection it tells the SmartNIC, which releases its own.

    On the SmartNIC a worker core owns its connections; it polls a network port
    and a host port, and exchanges requests with the PKA core through two
    single-producer single-consumer rings. On the host a thread owns its
    connections; it receives the frames of its own EtherType through a BPF
    filter and waits for epoll events.

    Beside them stand the programs that measure the accelerator
    (src/smartnic/bluefield_pka_benchmark). In one of them every thread keeps
    a number of commands of one kind in the accelerator; in the other one thread
    sends what the others, which derive keys, announce to it through rings.
    Their helpers make the keys, and contain software arithmetic to check the
    accelerator against and an engine that gives OpenSSL modular exponentiation
    on the accelerator.

    ** The files

    - Prelude.v: machine integers, byte buffers, faults as values, the
      state-and-fault monad, the invariant calculus ([preserves], tactic
      [pres]), the functions that avoid a fault ([avoids], tactic [avoid]).
    - TailQ.v (the TAILQ macros): linked queues at the level of their links, as
      the pools and the receive queues of the SmartNIC use them.
    - Ring.v (ring.c): [Module Seq], the two calls run alone; [Module Conc], a
      producer and a consumer interleaved at their atomic accesses.
    - Hkdf.v (ssl_crypto.c): P_HASH, PRF, HKDF over an interface for HMAC.
    - FlowTable.v (both fhash.c): the hash table, generic in its key, with the
      hash functions of the two programs as instances of [BinHash].
    - Operand.v (third_party/pka/pka_helper.c, cert.c): numbers for the PKA.
    - Bignum.v, BignumMod.v, BignumEcc.v (benchmark_example/src/pka/pka_helper.c):
      the software arithmetic on operands: addition to long division; modular
      arithmetic and inverse; points of elliptic curves and ECDSA signatures.
    - SyncPka.v (the same file, the sync routines): one request to the accelerator at a
      time, over the class [SyncLib], with the software as the other choice.
    - RandOperand.v (pka_helper.c: rand_operand): numbers of a given length.
    - HexString.v (benchmark_example/src/helpers.c): operands as hexadecimal text.
    - PkaEngine.v (benchmark_example/helper/pka_helper.c): the RSA engine, over
      the class [PkaLib] of the accelerator's library.
    - ClientHello.v (ssl.c: unpack_extensions, the ClientHello case of
      unpack_handshake, the functions that select from its lists): the parser of the client's first message.
    - TlsPack.v (ssl.c: send_handshake, pack_record and the functions it calls, the message builders,
      handle_after_ecdsa_signature): the server's messages.
    - NicState.v (ssloff.h, ssl.h): the state of a worker core ([nic]), packets,
      the classes of what lies outside: [Platform].
    - DpdkIo.v (dpdk_io.c: recv_pkts, get_rptr, get_wptr, send_pkts): the packet
      buffers of a core, over the class [Dpdk] of what the device does.
    - KeySchedule.v (ssl.c: handle_after_ecdhe_shared_secret_calc,
      handle_app_keys_calculation, handle_verify_data_calculation).
    - PkaBench.v, PkaTls.v (benchmark_example/src/pka_benchmark.c): the measuring
      workers, over the classes [Accelerator] and [AccelLaws] of the library with
      its queue of commands; [Module Loop] has their common loop.
    - BenchKeys.v (benchmark_example/src/helpers.c): the keys they use.
    - PkaHkdf.v (pka_with_hkdf/src/pka_benchmark.c, helpers.c): the program whose
      threads talk through rings, run under an explicit schedule; key derivation
      over the class [EvpKdf].
    - BenchHkdf.v, BenchMain.v (benchmark_example/src): the worker that also
      derives keys; options, threads and statistics.
    - SslPools.v (ssl.c): the pools of records and crypto operations.
    - TcpOut.v (tcp.c): insertion, removal and clearing of connections,
      cookies, outgoing segments, SYN-ACKs, resets; the invariant [wf].
    - MetaOut.v (host.c, tcp.c: send_key_meta, send_rst_conn_meta).
    - NicInit.v (tcp.c: thread_local_init): the state a worker core starts in.
    - RecordLayer.v (ssl.c: encrypt_record, decrypt_record, the MAC path), over
      the class [Crypto] of the OpenSSL calls.
    - Session.v (ssl.c): the handshake, from TCP payload to records to messages
      and back, with the PKA requests; SessionInv.v: it preserves the
      invariants; SessionProps.v: its properties.
    - TcpIn.v (tcp.c): received packets, the main loop, the step relation of a
      worker core with the PKA core.
    - PkaLive.v (ssl.c, tcp.c): turns of the PKA core and requests of the worker
      interleaved: progress, and what an aborted session does to it.
    - HostFilter.v (host helpers.c: bpf_filter_for_meta): the BPF program and
      the instructions of the machine it uses.
    - HostConn.v (host mempool.c, meta_pkt.c, set_sock.c, multiplex_io.c): the
      connections of a host thread, over the class [Sys] of what the kernel
      answers; system calls are events of a trace.
    - HostHttp.v (host helpers.c, main.c): requests and responses.
    - HostLoop.v (host main.c: worker_thread): the event dispatch, the step
      relation of a thread and its invariant.
    - HostServe.v: the service of a thread, and what failing calls lead to.
    - FlowRules.v (dpdk_io.c: fill_pattern and fill_action functions and
      templates): the hardware rules and what they match.
    - Migration.v: the two programs together.

    A C object reached through pointers is an entry of a finite map indexed by
    an identifier; a buffer is the list of its bytes; integers are [Z] reduced
    explicitly to their width. A function that changes state is a function of
    the monad [M]: explicit state passing with the result [Ret] or a [Fault]
    (process exit, failed assertion, access outside a buffer, null pointer, use
    of an undefined value). The code is that of the default build: TLS 1.3 with
    TLS_AES_256_GCM_SHA384, X25519 and ECDSA, Linux host, no zero copy.

    ** What is shown

    - State invariants of the two programs: in every state reachable through
      the step relations, with any packets and any results of system calls, the
      tables, the free connections and the counters are consistent (TcpIn.v,
      HostLoop.v), and no packet buffer is lost or freed twice (DpdkIo.v). On
      the SmartNIC the PKA core acts between the tasks of a worker: a packet,
      or a call for one connection. The pools of records and operations are
      kept on their links, so that a double release shows: a record that fails
      authentication leaves a looped pool (SessionProps.v), of which the
      invariant keeps what remains true. A run ends where a task ends the
      program, leaves a buffer, or removes a session twice, which two alerts in
      one packet do and a packet without TLS data never does (TcpIn.v).
      FlowTable.v shows that the tables refine finite maps,
      Ring.v that the ring refines a bounded queue, alone and interleaved.
    - Conformance: HKDF (RFC 5869), PRF (RFC 5246), the key schedule, record
      protection and the encoding of messages (RFC 8446; of the client's records
      only the first can be opened, RecordLayer.v), DER signatures,
      clamped scalars (RFC 7748); the parser inverts the encoding of a client.
    - Progress: every request to the PKA core is answered, in whatever order and
      however slowly the accelerator works, as long as its commands succeed (a
      failed one ends the program) and no session is removed while its request
      waits; then the counter of outstanding requests wraps and the worker is
      never served again. The worker can still lose an answer by clearing the
      flags too late (PkaLive.v).
    - Software arithmetic: sums, products, quotients, remainders and inverses
      are those of the integers; points are added, doubled and multiplied by the
      chord and tangent formulas and stay on the curve; signatures are ECDSA's
      on the inputs where the formulas hold.
      The exceptions of the code (equal values, equal ordinates, the multiplier
      1) are part of the statements. A long division and a Euclidean loop are
      shown to end.
    - The benchmarks: every worker but one ends with all its commands answered,
      whatever the order and the delay of the results (PkaBench.v, PkaTls.v;
      the one for random numbers never ends); what it compares agrees when the
      keys are those of the set-up (BenchKeys.v); in the threaded program no
      operation is lost under any schedule, and under fair ones all threads
      return within the first second (PkaHkdf.v); the total printed falls short
      of the operations counted by those between two reads, and every command
      line starts the threads it names or fails in a stated way (BenchMain.v).
    - The RSA engine: results, states that can be reached, what pka_finish
      leaves behind.
    - TCP: segmentation, what a SYN does; records are reassembled the same
      however TCP cuts the stream, unless it cuts a record header.
    - The hand-over: the frame reaches one thread and is read back there as the
      keys and sequence numbers of the session; the answer is accepted.
    - The service: requests in any pieces, files in any pieces.
    - Error behaviour: short records, records that fail authentication,
      exhausted pools, oversized packets, frames the filter never delivers,
      failed migrations, EAGAIN, closed descriptors, a full transmit queue.
      Several of these are defects of the code; the theorems state what it does.

    ** Parameters, bounds and fuel

    OpenSSL (HMAC, SHA, AES-GCM), DPDK (packet buffers, flow rules, random
    numbers), the PKA library and the Linux kernel are parameters: the classes
    [HmacLaws], [Crypto], [CryptoLaws], [Platform], [Dpdk], [Sys], [PkaLib],
    [PkaLaws], [SyncLib], [SyncLaws], [Accelerator], [AccelLaws], [EvpKdf] and
    [EvpLaws]. Their laws
    are documented behaviour; every theorem that uses them has a witness with a
    concrete instance. Loops that are not structural take fuel. The loops over
    a packet, a ring, a table or a buffer take the length of what they consume,
    which every turn shortens; a theorem that states a result states that the
    loop returns it, and the invariants speak of the runs that return. Five
    loops have no bound in the code: the extension parser (ClientHello.v shows
    a run that never ends), hkdf_expand_internal at 255 blocks (likewise,
    Hkdf.v), the wait of get_wptr for a full queue (likewise, DpdkIo.v), the
    rejection loop of rand_non_zero_integer_wo_syscall, and the
    sendfile loop, whose bound is the number of calls the kernel needs
    (HostServe.v); the wait of the RSA engine is bounded by the polls the
    library needs (PkaEngine.v). The long division takes 256 turns for every
    byte the quotient can have, since every turn adds at least one to one of
    them; the Euclidean loop takes eight turns per byte and three more, since
    the product of its two numbers halves. The inner loop of a measuring worker
    sends at most as many commands as may be outstanding, and a draining loop
    takes at most as many results; the outer loops are shown to end by the
    commands left to send and to answer, with the delay of the accelerator as
    the second component. Emptying a receive queue takes as much fuel as there
    are records, and a queue with a loop, which the code would follow for ever,
    runs out of it. The local arrays of the arithmetic
    start with the arbitrary contents [stack]. In the turns of the PKA core
    [answers] are the results the accelerator has finished: which of the
    commands it holds, and with which status. What two cores do at the same
    time inside one task of the worker is not interleaved further, except in
    Ring.v; the counters a report reads while threads count are pairs of
    reads.

    ** Not modelled

    The set-up of ports and flow tables (dpdk_io.c) and the start-up of the
    SmartNIC program (main.c), which are calls into DPDK; PEM loading
    (cert.c) but for the ECDSA key; the TLS 1.2 paths and the encrypted meta
    frames, which the default build does not reach; the host's command line,
    directory scan, raw socket set-up, statistics and dumps; in the
    benchmarks, the two threads of the SPSC mode, timers and messages, the
    pinning of threads, and the stand-alone test server of OpenSSL; the copies of
    pka_helper.c, ring.c and the key functions under pka_with_hkdf, which have
    the text of files modelled here. *)

From stdpp Require Export base tactics list list_numbers gmap sets.
From Stdlib Require Export ZArith Lia.
From coqutil Require Export Datatypes.RecordSettersUsingExistingGetters.

Global Open Scope Z_scope.

(** ** Machine integers

    A [w]-bit unsigned integer of the C code is a [Z] kept in range by an
    explicit reduction; [s32] reads a 32-bit pattern as a signed value. *)

Definition u8 (z : Z) : Z := z mod 2 ^ 8.
Definition u16 (z : Z) : Z := z mod 2 ^ 16.
Definition u32 (z : Z) : Z := z mod 2 ^ 32.
Definition u64 (z : Z) : Z := z mod 2 ^ 64.

Definition s32 (z : Z) : Z :=
  let r := u32 z in if r <? 2 ^ 31 then r else r - 2 ^ 32.

Definition is_u8 (z : Z) : Prop := 0 <= z < 2 ^ 8.
Definition is_u16 (z : Z) : Prop := 0 <= z < 2 ^ 16.
Definition is_u32 (z : Z) : Prop := 0 <= z < 2 ^ 32.

#[global] Instance is_u8_dec z : Decision (is_u8 z).
Proof. unfold is_u8. apply _. Defined.
#[global] Instance is_u16_dec z : Decision (is_u16 z).
Proof. unfold is_u16. apply _. Defined.
#[global] Instance is_u32_dec z : Decision (is_u32 z).
Proof. unfold is_u32. apply _. Defined.

(** C truth values: [TRUE]/[FALSE] fields are [bool]s of the model. *)
Abbreviation bytes := (list Z).
Abbreviation bytes_ok := (Forall is_u8).

(** ** Faults

    What can end the run of a C function other than its [return]: the
    process calls [exit(EXIT_FAILURE)], an [assert] fails, a null pointer is
    dereferenced, memory outside an object is accessed, an element is unlinked
    from a list that does not hold it, a block is freed twice, or the
    value of a call that ended without a [return] is used. [Out_of_fuel] marks
    a run that the bound of the model cut short: the C loop is still going. *)

Inductive fault : Type :=
| Exit_failure
| Assert_failed
| Null_deref
| Out_of_bounds
| Bad_link
| Undefined_value
| Out_of_fuel.

#[global] Instance fault_eq_dec : EqDecision fault.
Proof. solve_decision. Defined.

Inductive res (A : Type) : Type :=
| Ret (a : A)
| Fault (f : fault).
Arguments Ret {A} a.
Arguments Fault {A} f.

#[global] Instance res_eq_dec {A} `{EqDecision A} : EqDecision (res A).
Proof. solve_decision. Defined.

Definition res_bind {A B} (m : res A) (k : A -> res B) : res B :=
  match m with Ret a => k a | Fault f => Fault f end.

(** A step of a component with state [S]: explicit state passing, with the
    faults as values. *)
Definition M (S A : Type) : Type := S -> res (A * S).

Definition ret {S A} (a : A) : M S A := fun s => Ret (a, s).
Definition bind {S A B} (m : M S A) (k : A -> M S B) : M S B :=
  fun s => match m s with Ret (a, s') => k a s' | Fault f => Fault f end.
Definition mfault {S A} (f : fault) : M S A := fun _ => Fault f.
Definition mget {S} : M S S := fun s => Ret (s, s).
Definition mput {S} (s : S) : M S unit := fun _ => Ret (tt, s).
Definition mmod {S} (f : S -> S) : M S unit := fun s => Ret (tt, f s).
Definition massert {S} (b : bool) : M S unit :=
  if b then ret tt else mfault Assert_failed.
Definition mexit {S A} : M S A := mfault Exit_failure.
Definition mderef {S A} (o : option A) : M S A :=
  match o with Some a => ret a | None => mfault Null_deref end.

Definition mres {S A} (r : res A) : M S A :=
  fun s => match r with Ret a => Ret (a, s) | Fault f => Fault f end.

Declare Scope xtls_scope.
Delimit Scope xtls_scope with xtls.
Notation "'do' x <- m ; k" := (bind m (fun x => k))
  (at level 60, x pattern, m at level 55, k at level 60, right associativity)
  : xtls_scope.
Notation "m ;;; k" := (bind m (fun _ => k))
  (at level 60, right associativity) : xtls_scope.
Global Open Scope xtls_scope.

Arguments const {_} _ _ / : rename.

(** ** Bytes and words *)

(** Little-endian bytes of a word, the layout of a native store. *)
Fixpoint le_bytes (n : nat) (z : Z) : bytes :=
  match n with
  | O => []
  | S n' => z mod 256 :: le_bytes n' (z / 256)
  end.

Fixpoint le_val (l : bytes) : Z :=
  match l with
  | [] => 0
  | b :: l' => b + 256 * le_val l'
  end.

Definition be_bytes (n : nat) (z : Z) : bytes := reverse (le_bytes n z).
Definition be_val (l : bytes) : Z := le_val (reverse l).

(** [htons], [htonl], [bswap_64]: byte reversal of a native word (the two
    machines are little-endian). *)
Definition bswap16 (z : Z) : Z := be_val (le_bytes 2 z).
Definition bswap32 (z : Z) : Z := be_val (le_bytes 4 z).
Definition bswap64 (z : Z) : Z := be_val (le_bytes 8 z).

Abbreviation htons := bswap16.
Abbreviation ntohs := bswap16.
Abbreviation htonl := bswap32.
Abbreviation ntohl := bswap32.

(** Reading a buffer. A buffer is the list of the bytes that were written to
    it; what follows is zero (the objects come from [calloc] and are cleared
    with [memset] before they are used again). *)
Definition rd8 (l : bytes) (off : nat) : Z := default 0 (l !! off).
Fixpoint rdn (n : nat) (l : bytes) (off : nat) : bytes :=
  match n with
  | O => []
  | S n' => rd8 l off :: rdn n' l (S off)
  end.
(** Native (little-endian) loads of 2 and 4 bytes. *)
Definition rd16 (l : bytes) (off : nat) : Z := le_val (rdn 2 l off).
Definition rd32 (l : bytes) (off : nat) : Z := le_val (rdn 4 l off).

(** [memcpy(l + off, src, length src)]. *)
Definition wr (l : bytes) (off : nat) (src : bytes) : bytes :=
  take off l ++ src ++ drop (off + length src) l.

Definition zeros (n : nat) : bytes := replicate n 0.

(** Checked accesses through a pointer into a buffer; [i] is the distance from
    the start of the object and may have left it. *)
Definition ld (l : bytes) (i : Z) : res Z :=
  if 0 <=? i then match l !! Z.to_nat i with Some b => Ret b | None => Fault Out_of_bounds end
  else Fault Out_of_bounds.
Definition st (l : bytes) (i : Z) (b : Z) : res bytes :=
  if (0 <=? i) && (i <? Z.of_nat (length l)) then Ret (<[Z.to_nat i := b]> l)
  else Fault Out_of_bounds.

(** [for (i = i0; i < i0 + n; i++) body]. *)
Fixpoint for_loop {S} (n : nat) (i : nat) (body : nat -> S -> res S) (s : S) : res S :=
  match n with
  | O => Ret s
  | Datatypes.S n' => res_bind (body i s) (for_loop n' (Datatypes.S i) body)
  end.

(** ** Tail queues as lists

    [TAILQ_REMOVE] of an element that the queue holds, for the queues that are
    kept as the lists of their elements; TailQ.v has the macros on links. *)
Fixpoint tq_remove {A} `{EqDecision A} (x : A) (l : list A) : list A :=
  match l with
  | [] => []
  | y :: l' => if decide (y = x) then l' else y :: tq_remove x l'
  end.

(** ** Generic lemmas *)

Create HintDb xtls.
Create HintDb avoid.
Create Rewrite HintDb xtls.
Create Rewrite HintDb xtls_len.

Lemma u8_range z : 0 <= u8 z < 2 ^ 8.
Proof. apply Z.mod_pos_bound. lia. Qed.
Lemma u16_range z : 0 <= u16 z < 2 ^ 16.
Proof. apply Z.mod_pos_bound. lia. Qed.
Lemma u32_range z : 0 <= u32 z < 2 ^ 32.
Proof. apply Z.mod_pos_bound. lia. Qed.
Lemma u64_range z : 0 <= u64 z < 2 ^ 64.
Proof. apply Z.mod_pos_bound. lia. Qed.

Lemma u8_id z : is_u8 z -> u8 z = z.
Proof. apply Z.mod_small. Qed.
Lemma u16_id z : is_u16 z -> u16 z = z.
Proof. apply Z.mod_small. Qed.
Lemma u32_id z : is_u32 z -> u32 z = z.
Proof. apply Z.mod_small. Qed.

#[export] Hint Resolve u8_range u16_range u32_range u64_range : xtls.
#[export] Hint Rewrite u8_id u16_id u32_id using (unfold is_u8, is_u16, is_u32; lia) : xtls.

Lemma s32_range z : - 2 ^ 31 <= s32 z < 2 ^ 31.
Proof. unfold s32. pose proof (u32_range z). case_match; lia. Qed.

(** [(int32_t)] of a difference that fits is the difference itself. *)
Lemma s32_small z : - 2 ^ 31 <= z < 2 ^ 31 -> s32 z = z.
Proof.
  intros H. unfold s32, u32.
  destruct (Z.ltb_spec z 0).
  - replace (z mod 2 ^ 32) with (z + 2 ^ 32)
      by (apply (Z.mod_unique _ _ (-1)); lia).
    case_match; lia.
  - rewrite Z.mod_small by lia. case_match; lia.
Qed.

Lemma s32_u32 z : s32 (u32 z) = s32 z.
Proof. unfold s32, u32. by rewrite Z.mod_mod. Qed.

Lemma u32_add_l a b : u32 (u32 a + b) = u32 (a + b).
Proof. unfold u32. by rewrite Zplus_mod_idemp_l. Qed.
Lemma u32_add_r a b : u32 (a + u32 b) = u32 (a + b).
Proof. unfold u32. by rewrite Zplus_mod_idemp_r. Qed.
Lemma u32_sub_l a b : u32 (u32 a - b) = u32 (a - b).
Proof. unfold u32. by rewrite Zminus_mod_idemp_l. Qed.
Lemma u32_sub_r a b : u32 (a - u32 b) = u32 (a - b).
Proof. unfold u32. by rewrite Zminus_mod_idemp_r. Qed.

(** Or-ing a field into cleared low bits is adding it. *)
Lemma lor_shiftl_add a b n : 0 <= n -> 0 <= b < 2 ^ n -> Z.lor (Z.shiftl a n) b = a * 2 ^ n + b.
Proof.
  intros Hn Hb. rewrite <-Z.shiftl_mul_pow2 by done. symmetry. apply Z.add_nocarry_lor.
  apply Z.bits_inj'. intros i Hi. rewrite Z.land_spec, Z.bits_0.
  destruct (Z.ltb_spec i n).
  - by rewrite Z.shiftl_spec_low.
  - apply andb_false_intro2. destruct (decide (b = 0)) as [->|]; [apply Z.bits_0|].
    apply Z.bits_above_log2; [lia|]. apply Z.lt_le_trans with n; [|done]. apply Z.log2_lt_pow2; lia.
Qed.

(** *** Little- and big-endian words *)

Lemma length_le_bytes n z : length (le_bytes n z) = n.
Proof. revert z. induction n as [|n IH]; intros z; simpl; [done|]. by rewrite IH. Qed.

Lemma le_bytes_ok n z : bytes_ok (le_bytes n z).
Proof.
  revert z. induction n as [|n IH]; intros z; simpl; constructor; [|done].
  apply Z.mod_pos_bound. lia.
Qed.

Lemma le_val_range l : bytes_ok l -> 0 <= le_val l < 256 ^ Z.of_nat (length l).
Proof.
  induction 1 as [|b l Hb _ IH]; cbn [le_val length]; [done|].
  rewrite Nat2Z.inj_succ, Z.pow_succ_r by lia. unfold is_u8 in Hb. lia.
Qed.

Lemma le_val_le_bytes n z : le_val (le_bytes n z) = z mod 256 ^ Z.of_nat n.
Proof.
  revert z. induction n as [|n IH]; intros z; cbn [le_val le_bytes].
  - by rewrite Z.mod_1_r.
  - rewrite IH, Nat2Z.inj_succ, Z.pow_succ_r by lia.
    rewrite (Z.rem_mul_r z 256) by lia. done.
Qed.

Lemma le_bytes_le_val l : bytes_ok l -> le_bytes (length l) (le_val l) = l.
Proof.
  induction 1 as [|b l Hb _ IH]; cbn [le_val le_bytes length]; [done|].
  unfold is_u8 in Hb. rewrite (Z.mul_comm 256), Z.mod_add by lia.
  rewrite Z.div_add by lia. rewrite Z.div_small, Z.mod_small by lia.
  by rewrite Z.add_0_l, IH.
Qed.

Lemma reverse_ok l : bytes_ok l -> bytes_ok (reverse l).
Proof. apply Forall_reverse. Qed.

Lemma length_be_bytes n z : length (be_bytes n z) = n.
Proof. unfold be_bytes. by rewrite length_reverse, length_le_bytes. Qed.
Lemma be_bytes_ok n z : bytes_ok (be_bytes n z).
Proof. apply reverse_ok, le_bytes_ok. Qed.

Lemma be_val_be_bytes n z : be_val (be_bytes n z) = z mod 256 ^ Z.of_nat n.
Proof. unfold be_val, be_bytes. by rewrite reverse_involutive, le_val_le_bytes. Qed.

(** Byte reversal is an involution on words of its width. *)
Lemma le_bytes_be_val n l :
  length l = n -> bytes_ok l -> le_bytes n (be_val l) = reverse l.
Proof.
  intros <- Hl. unfold be_val. rewrite <-(length_reverse l).
  apply le_bytes_le_val, reverse_ok, Hl.
Qed.

Lemma bswap_le_bytes n z :
  be_val (le_bytes n (be_val (le_bytes n z))) = z mod 256 ^ Z.of_nat n.
Proof.
  rewrite le_bytes_be_val by (auto using length_le_bytes, le_bytes_ok).
  unfold be_val. by rewrite reverse_involutive, le_val_le_bytes.
Qed.

Lemma bswap16_involutive z : is_u16 z -> bswap16 (bswap16 z) = z.
Proof. intros H. unfold bswap16. rewrite bswap_le_bytes. apply Z.mod_small, H. Qed.
Lemma bswap32_involutive z : is_u32 z -> bswap32 (bswap32 z) = z.
Proof. intros H. unfold bswap32. rewrite bswap_le_bytes. apply Z.mod_small, H. Qed.

Lemma bswap16_range z : is_u16 (bswap16 z).
Proof.
  unfold bswap16, be_val. pose proof (le_val_range (reverse (le_bytes 2 z))
    (reverse_ok _ (le_bytes_ok _ _))) as H.
  rewrite length_reverse, length_le_bytes in H. exact H.
Qed.
Lemma bswap32_range z : is_u32 (bswap32 z).
Proof.
  unfold bswap32, be_val. pose proof (le_val_range (reverse (le_bytes 4 z))
    (reverse_ok _ (le_bytes_ok _ _))) as H.
  rewrite length_reverse, length_le_bytes in H. exact H.
Qed.
#[export] Hint Resolve bswap16_range bswap32_range le_bytes_ok be_bytes_ok : xtls.

(** *** Buffers *)

Lemma length_rdn n l off : length (rdn n l off) = n.
Proof. revert off. induction n as [|n IH]; intros off; simpl; [done|]. by rewrite IH. Qed.

Lemma rd8_app_l l k off : (off < length l)%nat -> rd8 (l ++ k) off = rd8 l off.
Proof. intros H. unfold rd8. by rewrite lookup_app_l. Qed.
Lemma rd8_app_r l k off : rd8 (l ++ k) (length l + off) = rd8 k off.
Proof. unfold rd8. rewrite lookup_app_r by lia. by rewrite Nat.add_sub_swap, Nat.sub_diag. Qed.

Lemma rdn_app_r n l k off : rdn n (l ++ k) (length l + off) = rdn n k off.
Proof.
  revert off. induction n as [|n IH]; intros off; simpl; [done|].
  rewrite rd8_app_r. f_equal. rewrite <-IH. f_equal. lia.
Qed.

(** Reading back exactly what lies at an offset. *)
Lemma rdn_app n l k : length k = n -> forall r, rdn n (l ++ k ++ r) (length l) = k.
Proof.
  intros Hn r. replace (length l) with (length l + 0)%nat by lia.
  rewrite rdn_app_r. subst n. clear l.
  induction k as [|b k IH]; [done|]. simpl. f_equal.
  etrans; [|exact IH]. exact (rdn_app_r (length k) [b] (k ++ r) 0).
Qed.

Lemma rdn_at n l k r off : off = length l -> length k = n -> rdn n (l ++ k ++ r) off = k.
Proof. intros -> H. by apply rdn_app. Qed.

Lemma rdn_slice n l off :
  (off + n <= length l)%nat -> rdn n l off = take n (drop off l).
Proof.
  intros H. rewrite <-(take_drop off l) at 1.
  rewrite <-(take_drop n (drop off l)) at 1.
  apply rdn_at; rewrite ?length_take, ?length_drop; lia.
Qed.

Lemma rd8_ok l off : bytes_ok l -> is_u8 (rd8 l off).
Proof.
  intros H. unfold rd8. destruct (l !! off) eqn:E; simpl; [|unfold is_u8; lia].
  by eapply Forall_lookup_1.
Qed.
Lemma rdn_ok n l off : bytes_ok l -> bytes_ok (rdn n l off).
Proof.
  intros H. revert off. induction n as [|n IH]; intros off; simpl; constructor;
    auto using rd8_ok.
Qed.

Lemma length_wr l off src :
  (off + length src <= length l)%nat -> length (wr l off src) = length l.
Proof. intros H. unfold wr. rewrite !length_app, length_take, length_drop. lia. Qed.

Lemma rdn_wr_same n l off src :
  (off <= length l)%nat -> length src = n -> rdn n (wr l off src) off = src.
Proof. intros H Hn. unfold wr. apply rdn_at; [rewrite length_take; lia|done]. Qed.

Lemma rd8_wr_ne l off src i :
  (off + length src <= length l)%nat ->
  (i < off \/ off + length src <= i)%nat -> rd8 (wr l off src) i = rd8 l i.
Proof.
  intros Hl Hi. unfold rd8, wr. f_equal. destruct Hi as [Hi|Hi].
  - rewrite lookup_app_l by (rewrite length_take; lia). by rewrite lookup_take_lt.
  - rewrite lookup_app_r by (rewrite length_take; lia).
    rewrite lookup_app_r by (rewrite length_take; lia).
    rewrite lookup_drop. f_equal. rewrite length_take. lia.
Qed.

Lemma rdn_wr_ne n l off src i :
  (off + length src <= length l)%nat ->
  (i + n <= off \/ off + length src <= i)%nat -> rdn n (wr l off src) i = rdn n l i.
Proof.
  revert i. induction n as [|n IH]; intros i Hl Hi; simpl; [done|].
  rewrite rd8_wr_ne by lia. f_equal. apply IH; lia.
Qed.

(** Reading inside what was written. *)
Lemma rd8_wr_in l off src i :
  (off <= length l)%nat -> (off <= i < off + length src)%nat -> rd8 (wr l off src) i = rd8 src (i - off).
Proof.
  intros Hl Hi. unfold rd8, wr. f_equal. rewrite lookup_app_r by (rewrite length_take; lia).
  rewrite length_take, lookup_app_l by lia. f_equal. lia.
Qed.
Lemma rdn_wr_in n l off src i :
  (off <= length l)%nat -> (off <= i)%nat -> (i + n <= off + length src)%nat ->
  rdn n (wr l off src) i = rdn n src (i - off).
Proof.
  revert i. induction n as [|n IH]; intros i Hl Hi Hn; simpl; [done|].
  rewrite rd8_wr_in by lia. f_equal. rewrite IH by lia. f_equal. lia.
Qed.
Lemma rdn_take n k l off : (off + n <= k)%nat -> rdn n (take k l) off = rdn n l off.
Proof.
  revert off. induction n as [|n IH]; intros off Hk; simpl; [done|].
  rewrite IH by lia. f_equal. unfold rd8. by rewrite lookup_take_lt by lia.
Qed.
Lemma rdn_split m n l off : rdn (m + n) l off = rdn m l off ++ rdn n l (off + m).
Proof.
  revert off. induction m as [|m IH]; intros off; simpl; [by rewrite Nat.add_0_r|].
  f_equal. rewrite IH. do 2 f_equal. lia.
Qed.

Lemma ld_in l i : 0 <= i < Z.of_nat (length l) -> ld l i = Ret (rd8 l (Z.to_nat i)).
Proof.
  intros H. unfold ld, rd8. rewrite (proj2 (Z.leb_le _ _)) by lia.
  destruct (lookup_lt_is_Some_2 l (Z.to_nat i)) as [b ->]; [lia|done].
Qed.
Lemma ld_out l i : i < 0 \/ Z.of_nat (length l) <= i -> ld l i = Fault Out_of_bounds.
Proof.
  intros H. unfold ld. destruct (Z.leb_spec 0 i); [|done].
  by rewrite lookup_ge_None_2 by lia.
Qed.
Lemma st_in l i b : 0 <= i < Z.of_nat (length l) -> st l i b = Ret (<[Z.to_nat i := b]> l).
Proof.
  intros H. unfold st. by rewrite (proj2 (Z.leb_le _ _)), (proj2 (Z.ltb_lt _ _)) by lia.
Qed.

Lemma lookup_rd8 l i : (i < length l)%nat -> l !! i = Some (rd8 l i).
Proof. intros H. unfold rd8. destruct (lookup_lt_is_Some_2 l i H) as [b ->]. done. Qed.

(** A loop with an invariant on the index and the state. *)
Lemma for_loop_inv {S} (P : nat -> S -> Prop) body n i s :
  P i s ->
  (forall j s, (i <= j < i + n)%nat -> P j s ->
     exists s', body j s = Ret s' /\ P (Datatypes.S j) s') ->
  exists s', for_loop n i body s = Ret s' /\ P (i + n)%nat s'.
Proof.
  revert i s. induction n as [|n IH]; intros i s Hp Hb; simpl.
  - exists s. by rewrite Nat.add_0_r.
  - destruct (Hb i s) as (s1 & -> & H1); [lia|done|]. simpl.
    destruct (IH (Datatypes.S i) s1 H1) as (s2 & -> & H2).
    { intros j s' Hj. apply Hb. lia. }
    exists s2. split; [done|]. by replace (i + Datatypes.S n)%nat with (Datatypes.S i + n)%nat by lia.
Qed.

(** A loop that fails at the index [k]. *)
Lemma for_loop_fault {S} (P : nat -> S -> Prop) body n i k f s :
  P i s -> (i <= k < i + n)%nat ->
  (forall j s, (i <= j < k)%nat -> P j s -> exists s', body j s = Ret s' /\ P (Datatypes.S j) s') ->
  (forall s, P k s -> body k s = Fault f) ->
  for_loop n i body s = Fault f.
Proof.
  intros Hp Hk Hb Hf. revert i s Hp Hk Hb. induction n as [|n IH]; intros i s Hp Hk Hb; [lia|]. cbn [for_loop].
  destruct (decide (i = k)) as [->|]; [by rewrite Hf|].
  destruct (Hb i s) as (s1 & -> & H1); [lia|done|]. cbn [res_bind]. apply IH; [done|lia|].
  intros j s' Hj. apply Hb. lia.
Qed.

(** A loop that stores [v j] at position [p j] for each [j]. *)
Lemma for_loop_fill (v : nat -> Z) (p : nat -> Z) body n d :
  (forall j d', (j < n)%nat -> length d' = length d -> body j d' = st d' (p j) (v j)) ->
  (forall j, (j < n)%nat -> 0 <= p j < Z.of_nat (length d)) ->
  (forall j k, (j < k < n)%nat -> p j <> p k) ->
  exists d', for_loop n 0 body d = Ret d' /\ length d' = length d /\
    (forall j, (j < n)%nat -> d' !! Z.to_nat (p j) = Some (v j)) /\
    (forall i, (forall j, (j < n)%nat -> i <> Z.to_nat (p j)) -> d' !! i = d !! i).
Proof.
  intros Hb Hp Hd.
  apply (for_loop_inv (fun m d' => length d' = length d /\
    (forall j, (j < m)%nat -> d' !! Z.to_nat (p j) = Some (v j)) /\
    (forall i, (forall j, (j < m)%nat -> i <> Z.to_nat (p j)) -> d' !! i = d !! i))).
  { split; [done|]. split; [lia|done]. }
  intros m d' Hm (Hl & Hs & Ho). rewrite Hb by lia. pose proof (Hp m ltac:(lia)).
  rewrite st_in by lia. eexists. split; [done|]. split; [by rewrite length_insert|]. split.
  - intros j Hj. destruct (decide (j = m)) as [->|Hne].
    + by rewrite list_lookup_insert_eq by lia.
    + rewrite list_lookup_insert_ne; [apply Hs; lia|]. pose proof (Hp j ltac:(lia)).
      pose proof (Hd j m ltac:(lia)). lia.
  - intros i Hi. rewrite list_lookup_insert_ne; [|intros <-; by apply (Hi m); lia].
    apply Ho. intros j Hj. apply Hi. lia.
Qed.

Lemma length_zeros n : length (zeros n) = n.
Proof. apply length_replicate. Qed.
Lemma zeros_ok n : bytes_ok (zeros n).
Proof. apply Forall_replicate. unfold is_u8. lia. Qed.

#[export] Hint Resolve rd8_ok rdn_ok zeros_ok : xtls.
#[export] Hint Rewrite length_rdn length_le_bytes length_be_bytes length_zeros @length_app
  @length_take @length_drop @length_reverse @length_replicate : xtls_len.

(** *** Tail queues *)
Section tail_queue.
Context {A : Type} `{EqDecision A}.
Implicit Types (x y : A) (l : list A).

Lemma tq_remove_perm x l : x ∈ l -> l ≡ₚ x :: tq_remove x l.
Proof.
  induction l as [|y l IH]; [by intros []%not_elem_of_nil|]. simpl. intros Hx.
  case_decide as E; [by subst|]. apply elem_of_cons in Hx as [->|Hx]; [done|].
  rewrite (IH Hx) at 1. apply Permutation_swap.
Qed.

Lemma elem_of_tq_remove x y l : NoDup l -> y ∈ tq_remove x l <-> y ∈ l /\ y <> x.
Proof.
  induction 1 as [|z l Hz Hl IH]; simpl; [set_solver|].
  case_decide as E; [subst; set_solver|]. rewrite elem_of_cons, IH. set_solver.
Qed.

Lemma NoDup_tq_remove x l : NoDup l -> NoDup (tq_remove x l).
Proof.
  induction 1 as [|z l Hz Hl IH]; simpl; [constructor|].
  case_decide as E; [done|]. constructor; [|done]. rewrite elem_of_tq_remove; [|done]. tauto.
Qed.

Lemma length_tq_remove x l : x ∈ l -> length l = S (length (tq_remove x l)).
Proof. intros H. by rewrite (tq_remove_perm x l H) at 1. Qed.
End tail_queue.

(** Solve goals about lengths of byte strings built from the above. *)
Ltac len := autorewrite with xtls_len; simpl length; try lia.

(** Open a run of a monadic definition step by step. *)
Ltac step_in H :=
  unfold bind, ret, mget, mput, mmod, massert, mexit, mfault, mderef in H; simpl in H.
Ltac step := unfold bind, ret, mget, mput, mmod, massert, mexit, mfault, mderef; simpl.

(** ** Invariants of monadic code

    [preserves P m]: from a state with [P], every run of [m] that returns ends
    in a state with [P]. The lemmas follow the constructors of the monad, and
    the tactic [pres] applies them, with the database [pres] for the calls. *)
Definition preserves {S A} (P : S -> Prop) (m : M S A) : Prop :=
  forall s a s', P s -> m s = Ret (a, s') -> P s'.

Create HintDb pres.

Section preserves.
Context {S : Type} (P : S -> Prop).

Lemma pres_ret {A} (a : A) : preserves P (ret a).
Proof. by intros s ? ? Hp [= <- <-]. Qed.
Lemma pres_bind {A B} (m : M S A) (k : A -> M S B) :
  preserves P m -> (forall a, preserves P (k a)) -> preserves P (bind m k).
Proof.
  intros Hm Hk s b s' Hp. unfold bind. destruct (m s) as [[a s1]|f] eqn:E; [|done].
  apply Hk. by eapply Hm.
Qed.
Lemma pres_get : preserves P mget.
Proof. by intros s ? ? Hp [= <- <-]. Qed.
Lemma pres_fault {A} f : preserves (A:=A) P (mfault f).
Proof. done. Qed.
Lemma pres_exit {A} : preserves (A:=A) P mexit.
Proof. done. Qed.
Lemma pres_assert b : preserves P (massert b).
Proof. destruct b; [apply pres_ret|done]. Qed.
Lemma pres_deref {A} (o : option A) : preserves P (mderef o).
Proof. destruct o; [apply pres_ret|done]. Qed.
Lemma pres_res {A} (r : res A) : preserves P (mres r).
Proof. intros s a s' Hp. unfold mres. destruct r; [|done]. by intros [= <- <-]. Qed.
Lemma pres_mod f : (forall s, P s -> P (f s)) -> preserves P (mmod f).
Proof. intros Hf s ? ? Hp [= <- <-]. by apply Hf. Qed.
Lemma pres_if {A} (b : bool) (m n : M S A) :
  preserves P m -> preserves P n -> preserves P (if b then m else n).
Proof. by destruct b. Qed.
End preserves.
#[export] Hint Resolve pres_ret pres_get pres_fault pres_exit pres_assert pres_deref pres_res : pres.

(** Two results of the same call are one. *)
Ltac same_ret :=
  match goal with
  | H1 : ?m = Ret _, H2 : ?m = Ret _ |- _ => rewrite H1 in H2; injection H2 as ->
  end.

Ltac pres := repeat first
  [ solve [auto with pres nocore]
  | progress cbv zeta
  | lazymatch goal with
    | |- preserves _ (bind _ _) => apply pres_bind
    | |- preserves _ (if _ then _ else _) => first [apply pres_if | case_match]
    | |- preserves _ _ => case_match
    | |- forall _, _ => intro
    end ].

(** Runs that do not end in a certain fault. *)
Definition avoids {S A} (f : fault) (m : M S A) : Prop := forall s, m s <> Fault f.
Lemma avoids_at {S A} f (m : M S A) s : avoids f m -> m s <> Fault f.
Proof. intros Hm. apply Hm. Qed.
Lemma avoids_bind {S A B} f (m : M S A) (k : A -> M S B) :
  avoids f m -> (forall a, avoids f (k a)) -> avoids f (bind m k).
Proof.
  intros Hm Hk s. unfold bind. destruct (m s) as [[a s']|g] eqn:E; [apply Hk|].
  intros [= ->]. by apply (Hm s).
Qed.
Lemma avoids_res {S A} f (r : res A) : r <> Fault f -> avoids f (mres r : M S A).
Proof. intros Hr s. unfold mres. destruct r; [done|]. by intros [= ->]. Qed.
(** Code whose faults are written out is decided by its branches. *)
Ltac avoid := repeat first
  [ solve [auto with avoid nocore]
  | progress cbv zeta
  | lazymatch goal with
    | |- avoids _ (bind _ _) => apply avoids_bind
    | |- avoids _ (mres _) => apply avoids_res
    | |- avoids _ (if _ then _ else _) => case_match
    | |- avoids _ (match _ with _ => _ end) => case_match
    | |- forall _, _ => intro
    end
  | (intros ?s; done)
  | (intros ?s; unfold massert, mderef, mexit, mfault; case_match; done) ].

(** The run of a sequence. *)
Lemma bind_assoc {S A B C} (m : M S A) (f : A -> M S B) (g : B -> M S C) s :
  bind (bind m f) g s = bind m (fun x => bind (f x) g) s.
Proof. unfold bind. by destruct (m s) as [[]|]. Qed.
Lemma bind_rel {S A B} (G : res (B * S) -> res (B * S)) (m : M S A) (k k' : A -> M S B) s :
  (forall f, G (Fault f) = Fault f) ->
  (forall a s', m s = Ret (a, s') -> k' a s' = G (k a s')) -> bind m k' s = G (bind m k s).
Proof. intros HG Hk. unfold bind. destruct (m s) as [[a s']|f] eqn:E; [by apply Hk|by rewrite HG]. Qed.
Lemma bind_ret {S A B} (m : M S A) (k : A -> M S B) s a s' :
  m s = Ret (a, s') -> bind m k s = k a s'.
Proof. intros H. unfold bind. by rewrite H. Qed.
Lemma bind_fault {S A B} (m : M S A) (k : A -> M S B) s f :
  m s = Fault f -> bind m k s = Fault f.
Proof. intros H. unfold bind. by rewrite H. Qed.
Lemma bind_inv {S A B} (m : M S A) (k : A -> M S B) s b s' :
  bind m k s = Ret (b, s') -> exists a s1, m s = Ret (a, s1) /\ k a s1 = Ret (b, s').
Proof. unfold bind. destruct (m s) as [[a s1]|f]; [by eauto|done]. Qed.
Lemma mres_inv {S A} (r : res A) (s : S) a s' : mres r s = Ret (a, s') -> r = Ret a /\ s' = s.
Proof. unfold mres. destruct r; [|done]. by intros [= -> ->]. Qed.

(** ** Sums over lists *)
Definition zsum {A} (f : A -> Z) (l : list A) : Z := foldr (fun x n => f x + n) 0 l.
Lemma zsum_cons {A} (f : A -> Z) x l : zsum f (x :: l) = f x + zsum f l.
Proof. done. Qed.
Lemma zsum_app {A} (f : A -> Z) l l' : zsum f (l ++ l') = zsum f l + zsum f l'.
Proof. induction l as [|x l IH]; [done|]. cbn [app]. rewrite !zsum_cons, IH. apply Z.add_assoc. Qed.
Lemma zsum_insert {A} (f : A -> Z) l i x y : l !! i = Some x -> zsum f (<[i := y]> l) = zsum f l - f x + f y.
Proof.
  revert i. induction l as [|z l IH]; intros [|i] E; [done..| |].
  - injection E as ->. cbn. lia.
  - change (f z + zsum f (<[i := y]> l) = f z + zsum f l - f x + f y). rewrite (IH i E). lia.
Qed.
Lemma zsum_zero {A} (f : A -> Z) l : (forall x, x ∈ l -> f x = 0) -> zsum f l = 0.
Proof.
  induction l as [|x l IH]; intros Hf; [done|]. cbn. fold (zsum f l).
  rewrite (Hf x), IH by set_solver. done.
Qed.
Lemma zsum_replicate {A} (f : A -> Z) n x : f x = 0 -> zsum f (replicate n x) = 0.
Proof. intros Hf. apply zsum_zero. intros y [-> _]%elem_of_replicate. done. Qed.
Arguments zsum : simpl never.
