(* ===== verification/TailQ.v ===== *)
(** * Tail queues (the [TAILQ] macros of <sys/queue.h>)

    The pools of records and crypto operations and the receive queues are
    doubly linked lists whose links are fields of the elements. A queue is
    kept here as the code keeps it: a head with the first element and the
    address of the last [next] field, and per element its [next] pointer and
    the address of the [next] field that points to it. The macros test
    nothing: inserting an element that a queue already holds goes on, with
    broken links. [tq_rep] says which list of distinct elements a sound queue
    stands for; [linked_within] is what remains true of a broken one. *)

From S2P Require Import Prelude.

(** The address of a [next] field: the [tqh_first] of a head or the
    [tqe_next] of an element. *)
Inductive cell : Type :=
| Head (q : nat)
| Next (x : nat).
#[export] Instance cell_eq : EqDecision cell.
Proof. solve_decision. Defined.

(** The queues of one kind: their heads by number, and the links of their
    elements. What is not in a map is [NULL]. *)
Record tailq := mk_tailq {
  tqh_first : gmap nat nat;
  tqh_last : gmap nat cell;
  tqe_next : gmap nat nat;
  tqe_prev : gmap nat cell;
}.
Definition tailq0 : tailq := mk_tailq ∅ ∅ ∅ ∅.

(** [*c] and [*c = v]. *)
Definition load (c : cell) (q : tailq) : option nat :=
  match c with Head h => tqh_first q !! h | Next x => tqe_next q !! x end.
Definition store (c : cell) (v : option nat) (q : tailq) : tailq :=
  match c with
  | Head h => q <| tqh_first ::= partial_alter (fun _ => v) h |>
  | Next x => q <| tqe_next ::= partial_alter (fun _ => v) x |>
  end.

Definition TAILQ_INIT (h : nat) (q : tailq) : tailq :=
  q <| tqh_first ::= delete h |> <| tqh_last ::= insert h (Head h) |>.

Definition TAILQ_FIRST (h : nat) (q : tailq) : option nat := tqh_first q !! h.
Definition TAILQ_NEXT (x : nat) (q : tailq) : option nat := tqe_next q !! x.

Definition TAILQ_INSERT_TAIL (h x : nat) (q : tailq) : res tailq :=
  let q := q <| tqe_next ::= delete x |> in
  match tqh_last q !! h with
  | None => Fault Null_deref
  | Some last =>
      let q := q <| tqe_prev ::= insert x last |> in
      Ret ((store last (Some x) q) <| tqh_last ::= insert h (Next x) |>)
  end.

Definition TAILQ_REMOVE (h x : nat) (q : tailq) : res tailq :=
  let q := match tqe_next q !! x with
           | Some y => q <| tqe_prev ::= partial_alter (fun _ => tqe_prev q !! x) y |>
           | None => q <| tqh_last ::= partial_alter (fun _ => tqe_prev q !! x) h |>
           end in
  match tqe_prev q !! x with
  | None => Fault Null_deref
  | Some prev => Ret (store prev (tqe_next q !! x) q)
  end.

(** The links of an element that is cleared with [memset]. *)
Definition clear_links (x : nat) (q : tailq) : tailq :=
  q <| tqe_next ::= delete x |> <| tqe_prev ::= delete x |>.

(** ** Sound queues *)

(** From the field [c] on, the queue holds [l]. *)
Fixpoint tq_seg (q : tailq) (c : cell) (l : list nat) : Prop :=
  match l with
  | [] => load c q = None
  | x :: l' => load c q = Some x /\ tqe_prev q !! x = Some c /\ tq_seg q (Next x) l'
  end.
Fixpoint last_cell (c : cell) (l : list nat) : cell :=
  match l with [] => c | x :: l' => last_cell (Next x) l' end.

Record tq_rep (q : tailq) (h : nat) (l : list nat) : Prop := mk_tq_rep {
  tq_nodup : NoDup l;
  tq_links : tq_seg q (Head h) l;
  tq_last : tqh_last q !! h = Some (last_cell (Head h) l);
}.

Lemma load_store_eq c v q : load c (store c v q) = v.
Proof. destruct c; simpl; by rewrite lookup_partial_alter_eq. Qed.
Lemma load_store_ne c c' v q : c <> c' -> load c (store c' v q) = load c q.
Proof. intros H. destruct c, c'; simpl; rewrite ?lookup_partial_alter_ne; congruence. Qed.
Lemma prev_store c v q : tqe_prev (store c v q) = tqe_prev q.
Proof. by destruct c. Qed.
Lemma last_store c v q : tqh_last (store c v q) = tqh_last q.
Proof. by destruct c. Qed.
#[export] Hint Rewrite prev_store last_store : xtls.

Lemma last_cell_snoc c l x : last_cell c (l ++ [x]) = Next x.
Proof. revert c. by induction l; simpl. Qed.
Lemma last_cell_in c l : last_cell c l = c \/ exists x, x ∈ l /\ last_cell c l = Next x.
Proof.
  revert c. induction l as [|x l IH]; intros c; [by left|]. right. simpl.
  destruct (IH (Next x)) as [->|(y & Hy & ->)]; [exists x|exists y]; (split; [set_solver|done]).
Qed.

(** A segment depends on its own fields only. *)
Lemma tq_seg_frame q q' c l :
  load c q' = load c q ->
  (forall x, x ∈ l -> tqe_next q' !! x = tqe_next q !! x /\ tqe_prev q' !! x = tqe_prev q !! x) ->
  tq_seg q c l -> tq_seg q' c l.
Proof.
  revert c. induction l as [|x l IH]; intros c Hc Hl; simpl; [congruence|].
  intros (E1 & E2 & Hs). destruct (Hl x) as [En Ep]; [set_solver|].
  split; [congruence|]. split; [congruence|]. apply IH; [done| |done]. intros y Hy. apply Hl. set_solver.
Qed.

(** Appending to a segment that ends in the field written to. *)
Lemma tq_seg_snoc q c l x :
  NoDup (x :: l) -> c <> Next x -> (forall y, y ∈ l -> c <> Next y) ->
  tq_seg q c l ->
  tq_seg (store (last_cell c l) (Some x) (q <| tqe_next ::= delete x |> <| tqe_prev ::= insert x (last_cell c l) |>))
    c (l ++ [x]).
Proof.
  revert c. induction l as [|y l IH]; intros c Hn Hx Hc Hs.
  - simpl. split; [apply load_store_eq|]. split; [rewrite prev_store; simpl; apply lookup_insert_eq|].
    destruct c as [h|z]; simpl; [apply lookup_delete_eq|].
    rewrite lookup_partial_alter_ne by congruence. apply lookup_delete_eq.
  - apply NoDup_cons in Hn as [Hxl Hn]. pose proof Hn as Hyl. apply NoDup_cons in Hyl as [Hyl Hnl].
    destruct Hs as (E1 & E2 & Hs). cbn [app tq_seg last_cell].
    assert (c <> last_cell (Next y) l) as Hne.
    { destruct (last_cell_in (Next y) l) as [->|(z & Hz & ->)]; apply Hc; set_solver. }
    assert (x <> y) by set_solver.
    split; [|split].
    + rewrite load_store_ne by done. destruct c as [h|z]; simpl; [done|].
      rewrite lookup_delete_ne by congruence. done.
    + rewrite prev_store. simpl. rewrite lookup_insert_ne by congruence. done.
    + apply IH; [|congruence| |done].
      * apply NoDup_cons. split; [set_solver|done].
      * intros z Hz [= ->]. done.
Qed.

Lemma insert_tail_rep q h l x : tq_rep q h l -> x ∉ l ->
  exists q', TAILQ_INSERT_TAIL h x q = Ret q' /\ tq_rep q' h (l ++ [x]).
Proof.
  intros [Hn Hs Hl] Hx. unfold TAILQ_INSERT_TAIL. simpl. rewrite Hl. eexists. split; [done|]. split.
  - apply NoDup_app. split; [done|]. split; [set_solver|apply NoDup_singleton].
  - eapply tq_seg_frame; [| |apply (tq_seg_snoc q (Head h) l x); [by apply NoDup_cons|done|done|done]].
    + by destruct (last_cell (Head h) l).
    + intros y _. by destruct (last_cell (Head h) l).
  - simpl. rewrite lookup_insert_eq. f_equal. symmetry. apply last_cell_snoc.
Qed.

Lemma remove_first_rep q h x l : tq_rep q h (x :: l) ->
  TAILQ_FIRST h q = Some x /\ exists q', TAILQ_REMOVE h x q = Ret q' /\ tq_rep q' h l.
Proof.
  intros [[Hx Hn]%NoDup_cons (E1 & E2 & Hs) Hl]. split; [done|]. unfold TAILQ_REMOVE.
  destruct l as [|y l].
  - simpl in Hs. rewrite Hs. cbn [tqe_prev]. simpl. rewrite E2. eexists. split; [done|].
    split; [done| |]; simpl; by rewrite lookup_partial_alter_eq, ?Hs.
  - destruct Hs as (E3 & E4 & Hs). cbn [load] in E3. rewrite E3. simpl.
    assert (y <> x) by set_solver. apply NoDup_cons in Hn as [Hy Hn].
    rewrite lookup_partial_alter_ne, E2 by done. eexists. split; [done|]. split; [by apply NoDup_cons| |done].
    split; [simpl; by rewrite lookup_partial_alter_eq|]. split; [simpl; by rewrite lookup_partial_alter_eq|].
    eapply tq_seg_frame; [| |exact Hs]; [done|]. intros z Hz. split; [done|]. simpl.
    rewrite lookup_partial_alter_ne; [done|]. by intros <-.
Qed.

Lemma init_rep q h : tq_rep (TAILQ_INIT h q) h [].
Proof. split; [constructor|apply lookup_delete_eq|apply lookup_insert_eq]. Qed.

(** Clearing the links of an element outside the queue. *)
Lemma clear_links_rep q h l x : tq_rep q h l -> x ∉ l -> tq_rep (clear_links x q) h l.
Proof.
  intros [Hn Hs Hl] Hx. split; [done| |done]. eapply tq_seg_frame; [|intros y Hy|exact Hs]; [done|].
  assert (x <> y) by set_solver. split; simpl; by rewrite lookup_delete_ne.
Qed.

(** ** What holds of every queue, broken or not *)

(** Every pointer leads to an element of [P] that has been inserted; the head
    exists. *)
Definition points_to (q : tailq) (x : nat) : Prop :=
  (exists h, tqh_first q !! h = Some x) \/ (exists y, tqe_next q !! y = Some x).
Record linked_within (q : tailq) (h : nat) (P : nat -> Prop) : Prop := mk_linked {
  lw_points x : points_to q x -> P x /\ is_Some (tqe_prev q !! x);
  lw_last : is_Some (tqh_last q !! h);
}.

Lemma points_store q c v x : points_to (store c v q) x -> points_to q x \/ v = Some x.
Proof.
  intros Hp. destruct c as [h|y]; destruct Hp as [[k E]|[k E]]; simpl in E.
  - rewrite lookup_partial_alter in E. case_decide; [by right|]. left. left. by eauto.
  - left. right. by eauto.
  - left. left. by eauto.
  - rewrite lookup_partial_alter in E. case_decide; [by right|]. left. right. by eauto.
Qed.
Lemma points_delete q x y : points_to (q <| tqe_next ::= delete y |>) x -> points_to q x.
Proof. intros [?|[k E]]; [by left|]. right. exists k. simpl in E. by apply lookup_delete_Some in E as [_ ?]. Qed.

Lemma linked_insert q h P x : linked_within q h P -> P x ->
  exists q', TAILQ_INSERT_TAIL h x q = Ret q' /\ linked_within q' h P.
Proof.
  intros [Hp [c Hc]] Hx. unfold TAILQ_INSERT_TAIL. simpl. rewrite Hc. eexists. split; [done|]. split.
  - intros y Hy. simpl. rewrite prev_store. simpl. rewrite lookup_insert_is_Some'.
    destruct (decide (x = y)) as [->|Hne]; [by auto|].
    assert (points_to q y) as Hq; [|destruct (Hp y Hq); by auto].
    assert (points_to (store c (Some x) (q <| tqe_next ::= delete x |> <| tqe_prev ::= insert x c |>)) y) as Hy'
      by (by destruct c).
    apply points_store in Hy' as [Hy'|[= ->]]; [|done]. by apply (points_delete q y x).
  - simpl. apply lookup_insert_is_Some'. by left.
Qed.
Lemma linked_remove q h P x : linked_within q h P -> TAILQ_FIRST h q = Some x ->
  exists q', TAILQ_REMOVE h x q = Ret q' /\ linked_within q' h P.
Proof.
  intros [Hp Hl] Hf. destruct (Hp x) as [Hx [c Hc]]; [left; by exists h|]. unfold TAILQ_REMOVE.
  destruct (tqe_next q !! x) as [y|] eqn:Ey.
  - simpl. rewrite Hc, lookup_partial_alter.
    assert ((if decide (y = x) then Some c else tqe_prev q !! x) = Some c) as -> by (by case_decide).
    eexists. split; [done|]. split; [|by rewrite last_store].
    intros z Hz. rewrite prev_store. simpl.
    assert (points_to q z) as Hq.
    { apply points_store in Hz as [Hz|Hz]; [done|]. simpl in Hz. right. exists x. congruence. }
    split; [by apply Hp|]. rewrite lookup_partial_alter. case_decide; [done|]. by apply Hp.
  - simpl. rewrite Hc, Ey. eexists. split; [done|]. split.
    + intros z Hz. rewrite prev_store. simpl. apply Hp. by apply points_store in Hz as [Hz|].
    + rewrite last_store. simpl. by rewrite lookup_partial_alter_eq.
Qed.
Lemma linked_mono q h (P Q : nat -> Prop) : (forall x, P x -> Q x) -> linked_within q h P -> linked_within q h Q.
Proof. intros HPQ [Hp Hl]. split; [|done]. intros x Hx. destruct (Hp x Hx). by auto. Qed.

(** Releasing an object: its links are cleared and it goes to the tail. *)
Definition release (h x : nat) (q : tailq) : res tailq := TAILQ_INSERT_TAIL h x (clear_links x q).

(** Clearing the links makes no difference to the queue. *)
Lemma release_insert h x q : release h x q = TAILQ_INSERT_TAIL h x q.
Proof.
  unfold release, TAILQ_INSERT_TAIL, clear_links. destruct q as [f l n p]. unfold set. simpl.
  destruct (l !! h) as [c|]; [|done]. by rewrite delete_delete_eq, insert_delete_eq.
Qed.

(** An element released a second time while it is last points to itself. *)
Lemma release_twice q h l x : tq_rep q h (l ++ [x]) ->
  exists q', TAILQ_INSERT_TAIL h x q = Ret q' /\ tqe_next q' !! x = Some x /\ tqe_prev q' !! x = Some (Next x) /\
    tqh_last q' !! h = Some (Next x).
Proof.
  intros [_ _ Hl]. rewrite last_cell_snoc in Hl. unfold TAILQ_INSERT_TAIL. simpl. rewrite Hl.
  eexists. split; [done|]. simpl. by rewrite lookup_partial_alter_eq, !lookup_insert_eq.
Qed.

(** Such an element, once it is first, is never removed. *)
Lemma remove_loop q h x :
  TAILQ_FIRST h q = Some x -> tqe_next q !! x = Some x -> tqe_prev q !! x = Some (Next x) ->
  TAILQ_REMOVE h x q = Ret q.
Proof.
  intros Hf Hn Hp. unfold TAILQ_REMOVE. rewrite Hn. simpl. rewrite lookup_partial_alter_eq, Hp. simpl.
  f_equal. destruct q as [f l n p]. unfold set. simpl in *. rewrite Hn.
  f_equal; apply map_eq; intros i; rewrite lookup_partial_alter; case_decide; congruence.
Qed.
