(* ===== verification/Ring.v ===== *)
(** * The single-producer single-consumer pointer ring (ring.c)

    [sj_ring_t] carries PKA requests from the worker cores to the PKA core and
    connections waiting for a flow-rule deletion. [Module Seq] models the two
    calls run alone and refines them to a bounded FIFO; [Module Conc] models
    a producer and a consumer thread interleaved at the granularity of their
    atomic loads and stores. *)

From S2P Require Import Prelude.

(** [SJ_SUCCESS] and [SJ_ERROR]. *)
Definition SJ_SUCCESS : Z := 0.
Definition SJ_ERROR : Z := -1.

(** [sj_ring_t]; a slot is [None] until a pointer is stored in it. *)
Record sj_ring (A : Type) := mk_sj_ring {
  size : Z;
  mask : Z;
  tail : Z;
  head : Z;
  ring : list (option A);
}.
Arguments mk_sj_ring {A} _ _ _ _ _.
Arguments size {A} _.
Arguments mask {A} _.
Arguments tail {A} _.
Arguments head {A} _.
Arguments ring {A} _.

(** [sj_ring_create]: refuses a count that is not a power of two. *)
Definition sj_ring_create (A : Type) (count : Z) : res (sj_ring A) :=
  if (count =? 0) || negb (Z.land count (u32 (count - 1)) =? 0)
  then Fault Exit_failure
  else Ret (mk_sj_ring count (u32 (count - 1)) 0 0 (replicate (Z.to_nat count) None)).

(** [sj_ring_enqueue]: the new ring and the return code. *)
Definition sj_ring_enqueue {A} (r : sj_ring A) (obj : A) : res (Z * sj_ring A) :=
  let t := tail r in
  let h := head r in
  if Z.land (u32 (t + 1)) (mask r) =? h then Ret (SJ_ERROR, r)
  else if decide (Z.to_nat t < length (ring r))%nat then
    Ret (SJ_SUCCESS,
         mk_sj_ring (size r) (mask r) (Z.land (u32 (t + 1)) (mask r)) h
                    (<[Z.to_nat t := Some obj]> (ring r)))
  else Fault Out_of_bounds.

(** [sj_ring_dequeue]: the return code, the pointer stored through [obj_p]
    (if any), and the new ring. *)
Definition sj_ring_dequeue {A} (r : sj_ring A) : res (Z * option A * sj_ring A) :=
  let h := head r in
  let t := tail r in
  if h =? t then Ret (SJ_ERROR, None, r)
  else match ring r !! Z.to_nat h with
       | None => Fault Out_of_bounds
       | Some o =>
           Ret (SJ_SUCCESS, o,
                mk_sj_ring (size r) (mask r) t (Z.land (u32 (h + 1)) (mask r)) (ring r))
       end.

(** ** Arithmetic of the indices *)

Lemma land_mask k x : 0 <= k -> Z.land x (2 ^ k - 1) = x mod 2 ^ k.
Proof. intros Hk. replace (2 ^ k - 1) with (Z.ones k) by (rewrite Z.ones_equiv; lia).
  by apply Z.land_ones. Qed.

(** The test [count & (count - 1)] of [sj_ring_create]. *)
Lemma land_pred_pow2 c : 0 < c -> (Z.land c (c - 1) = 0 <-> c = 2 ^ Z.log2 c).
Proof.
  intros Hc. pose proof (Z.log2_spec c Hc) as [Hlo Hhi]. pose proof (Z.log2_nonneg c).
  split; intros E.
  - destruct (decide (c = 2 ^ Z.log2 c)) as [|Hne]; [done|]. exfalso.
    assert (Z.testbit (Z.land c (c - 1)) (Z.log2 c) = true) as Hb.
    { rewrite Z.land_spec, Z.bit_log2 by lia. simpl.
      replace (Z.log2 c) with (Z.log2 (c - 1)); [by apply Z.bit_log2; lia|].
      apply Z.log2_unique; lia. }
    by rewrite E, Z.bits_0 in Hb.
  - rewrite E at 2. rewrite land_mask by done. rewrite E at 1. by apply Z.mod_same; lia.
Qed.

(** The number of stored elements for the indices [h] and [t]. *)
Definition occupancy (n h t : Z) : Z := (t - h) mod n.

Lemma occupancy_cases n h t :
  0 <= h < n -> 0 <= t < n ->
  occupancy n h t = if h <=? t then t - h else t - h + n.
Proof.
  intros Hh Ht. unfold occupancy. destruct (Z.leb_spec h t).
  - apply Z.mod_small. lia.
  - symmetry. apply (Z.mod_unique _ _ (-1)); lia.
Qed.

Lemma succ_mod_cases n x : 0 <= x < n -> (x + 1) mod n = if x + 1 =? n then 0 else x + 1.
Proof.
  intros H. destruct (Z.eqb_spec (x + 1) n) as [->|].
  - by apply Z.mod_same; lia.
  - apply Z.mod_small. lia.
Qed.

Lemma occupancy_push n h t :
  (t + 1) mod n <> h -> 0 <= h < n -> 0 <= t < n ->
  occupancy n h ((t + 1) mod n) = occupancy n h t + 1.
Proof.
  intros Hne Hh Ht. pose proof (Z.mod_pos_bound (t + 1) n ltac:(lia)).
  rewrite !occupancy_cases by lia. rewrite succ_mod_cases in * by lia.
  repeat case_match; lia.
Qed.

Lemma occupancy_pop n h t :
  h <> t -> 0 <= h < n -> 0 <= t < n ->
  occupancy n ((h + 1) mod n) t = occupancy n h t - 1.
Proof.
  intros Hne Hh Ht. pose proof (Z.mod_pos_bound (h + 1) n ltac:(lia)).
  rewrite !occupancy_cases by lia. rewrite succ_mod_cases in * by lia.
  repeat case_match; lia.
Qed.

Lemma occupancy_full n h t :
  0 <= h < n -> 0 <= t < n -> ((t + 1) mod n = h <-> occupancy n h t = n - 1).
Proof.
  intros Hh Ht. rewrite occupancy_cases by lia. rewrite succ_mod_cases by lia.
  repeat case_match; lia.
Qed.

Lemma occupancy_empty n h t :
  0 <= h < n -> 0 <= t < n -> (h = t <-> occupancy n h t = 0).
Proof. intros Hh Ht. rewrite occupancy_cases by lia. case_match; lia. Qed.

(** The [occupancy]-th slot after the head is the tail. *)
Lemma occupancy_tail n h t :
  0 <= h < n -> 0 <= t < n -> (h + occupancy n h t) mod n = t.
Proof.
  intros Hh Ht. unfold occupancy. rewrite Zplus_mod_idemp_r.
  replace (h + (t - h)) with t by lia. by apply Z.mod_small.
Qed.

(** Different positions in the queue use different slots. *)
Lemma slot_inj n h i j :
  0 <= i < n -> 0 <= j < n -> (h + i) mod n = (h + j) mod n -> i = j.
Proof.
  intros Hi Hj E. assert (((h + i) - (h + j)) mod n = 0) as D.
  { rewrite Zminus_mod, E, Z.sub_diag. by apply Z.mod_0_l; lia. }
  replace (h + i - (h + j)) with (i - j) in D by lia.
  change (occupancy n j i = 0) in D. rewrite occupancy_cases in D by lia.
  case_match; lia.
Qed.

(** ** Well-formed rings *)

Record ring_inv {A} (r : sj_ring A) : Prop := mk_ring_inv {
  inv_size : exists k, 0 <= k <= 31 /\ size r = 2 ^ k;
  inv_mask : mask r = size r - 1;
  inv_tail : 0 <= tail r < size r;
  inv_head : 0 <= head r < size r;
  inv_ring : Z.of_nat (length (ring r)) = size r;
}.

(** Stepping an index with the mask is stepping it modulo the size. *)
Lemma next_index {A} (r : sj_ring A) x :
  ring_inv r -> 0 <= x < size r -> Z.land (u32 (x + 1)) (mask r) = (x + 1) mod size r.
Proof.
  intros [[k [Hk Hs]] Hm _ _ _] Hx. rewrite Hm, Hs, land_mask by lia.
  rewrite u32_id; [done|]. unfold is_u32.
  assert (2 ^ k <= 2 ^ 31) by (apply Z.pow_le_mono_r; lia). lia.
Qed.

Lemma size_pos {A} (r : sj_ring A) : ring_inv r -> 0 < size r.
Proof. intros [? ? ? ? ?]. lia. Qed.

(** The slot holding the [i]-th oldest element. *)
Definition slot {A} (r : sj_ring A) (i : nat) : nat :=
  Z.to_nat ((head r + Z.of_nat i) mod size r).

(** The contents from the oldest element on: the abstract queue. *)
Definition contents {A} (r : sj_ring A) : list (option A) :=
  (fun i => mjoin (ring r !! slot r i)) <$>
    seq 0 (Z.to_nat (occupancy (size r) (head r) (tail r))).

(** [r] represents the queue [q]. *)
Definition ring_rep {A} (r : sj_ring A) (q : list A) : Prop :=
  ring_inv r /\ contents r = Some <$> q.

(** ** The calls, run alone *)
Module Seq.
Section seq.
Context {A : Type}.
Implicit Types (r : sj_ring A) (q : list A) (x : A).

Lemma length_contents r :
  length (contents r) = Z.to_nat (occupancy (size r) (head r) (tail r)).
Proof. unfold contents. by rewrite length_fmap, length_seq. Qed.

Lemma rep_length r q :
  ring_rep r q -> Z.of_nat (length q) = occupancy (size r) (head r) (tail r).
Proof.
  intros [Hi Hq]. apply (f_equal length) in Hq.
  rewrite length_contents, length_fmap in Hq. rewrite <-Hq.
  pose proof (size_pos r Hi). unfold occupancy.
  pose proof (Z.mod_pos_bound (tail r - head r) (size r)). lia.
Qed.

Lemma contents_lookup r i :
  (Z.of_nat i < occupancy (size r) (head r) (tail r)) ->
  contents r !! i = Some (mjoin (ring r !! slot r i)).
Proof.
  intros H. unfold contents. rewrite list_lookup_fmap, lookup_seq_lt by lia. done.
Qed.

Lemma rep_empty_head r x q : ring_rep r (x :: q) -> head r <> tail r.
Proof.
  intros Hr E. pose proof (rep_length _ _ Hr) as Hl. destruct Hr as [[? ? ? ? ?] _].
  apply occupancy_empty with (n := size r) in E; [|done|done]. simpl in Hl. lia.
Qed.

(** The contents after a store at the tail. *)
Lemma contents_push r x :
  ring_inv r -> (tail r + 1) mod size r <> head r ->
  contents (mk_sj_ring (size r) (mask r) ((tail r + 1) mod size r) (head r)
                       (<[Z.to_nat (tail r) := Some x]> (ring r)))
  = contents r ++ [Some x].
Proof.
  intros [Hs Hm Ht Hh Hr] Hne. unfold contents, slot. simpl.
  rewrite occupancy_push by done.
  assert (0 <= occupancy (size r) (head r) (tail r) < size r) as Ho
    by (apply Z.mod_pos_bound; lia).
  rewrite Z2Nat.inj_add, Nat.add_1_r by lia. rewrite seq_S, fmap_app. simpl. f_equal.
  - apply list_fmap_ext. intros j i Hi. apply lookup_seq in Hi as [-> Hi].
    f_equal. apply list_lookup_insert_ne. intros E.
    apply Z2Nat.inj in E; [|lia|apply Z.mod_pos_bound; lia].
    rewrite <-(occupancy_tail (size r) (head r) (tail r)) in E at 1 by done.
    apply slot_inj in E; lia.
  - rewrite Z2Nat.id, occupancy_tail by lia.
    by rewrite list_lookup_insert_eq by lia.
Qed.

(** The contents after the head has moved. *)
Lemma contents_pop r (o : option A) (q : list (option A)) :
  ring_inv r -> contents r = o :: q ->
  contents (mk_sj_ring (size r) (mask r) (tail r) ((head r + 1) mod size r) (ring r)) = q
  /\ mjoin (ring r !! Z.to_nat (head r)) = o.
Proof.
  intros [Hs Hm Ht Hh Hr] Hc. pose proof (length_contents r) as Hl. rewrite Hc in Hl.
  simpl in Hl.
  assert (head r <> tail r) as Hne.
  { intros E. apply occupancy_empty with (n := size r) in E; [|done|done].
    rewrite E in Hl. done. }
  unfold contents, slot in *. simpl in *. rewrite <-Hl in Hc. simpl in Hc.
  injection Hc as Ho Hq. split.
  - rewrite occupancy_pop by done. rewrite Z2Nat.inj_sub, <-Hl by lia.
    simpl. rewrite Nat.sub_0_r. etrans; [|exact Hq].
    rewrite <-fmap_S_seq. etrans; [|apply list_fmap_compose].
    apply list_fmap_ext. intros j i _. simpl. do 3 f_equal.
    rewrite Zplus_mod_idemp_l. f_equal. lia.
  - rewrite <-Ho. rewrite Z.add_0_r, Z.mod_small by done. done.
Qed.

(** [sj_ring_create] succeeds on a 32-bit count exactly when the count is
    a power of two, and the ring it returns then represents the empty queue
    with that many slots. *)
Theorem ring_create_spec count :
  0 <= count < 2 ^ 32 ->
  (exists r, sj_ring_create A count = Ret r /\ ring_rep r [] /\ size r = count) <->
  exists k, 0 <= k <= 31 /\ count = 2 ^ k.
Proof.
  intros Hc. unfold sj_ring_create. destruct (Z.eqb_spec count 0) as [->|Hnz]; simpl.
  { split; [by intros (? & [=] & _)|]. intros (k & Hk & E). pose proof (Z.pow_pos_nonneg 2 k). lia. }
  rewrite u32_id by (unfold is_u32; lia).
  pose proof (land_pred_pow2 count ltac:(lia)) as Hp.
  destruct (Z.eqb_spec (Z.land count (count - 1)) 0) as [E|E]; simpl.
  - apply Hp in E. pose proof (Z.log2_nonneg count).
    assert (Z.log2 count <= 31) as Hl by (apply Z.lt_succ_r, Z.log2_lt_pow2; lia).
    split; [by eauto|]. intros _. eexists. split; [done|]. split; [|done].
    split; [|done].
    + split; simpl; [by eauto|done|lia|lia|rewrite length_replicate; lia].
  - split; [by intros (? & [=] & _)|]. intros (k & Hk & ->). exfalso. apply E, Hp.
    by rewrite Z.log2_pow2 by lia.
Qed.

(** A successful enqueue appends; it fails exactly when [size - 1] elements
    are stored, and never touches memory outside the ring. *)
Lemma enqueue_spec r q x :
  ring_rep r q ->
  if decide (Z.of_nat (length q) < size r - 1)
  then exists r', sj_ring_enqueue r x = Ret (SJ_SUCCESS, r') /\ ring_rep r' (q ++ [x])
                  /\ size r' = size r
  else sj_ring_enqueue r x = Ret (SJ_ERROR, r).
Proof.
  intros Hr. pose proof (rep_length _ _ Hr) as Hl. destruct Hr as [Hi Hc].
  pose proof Hi as [Hs Hm Ht Hh Hlen]. unfold sj_ring_enqueue.
  rewrite next_index by done. pose proof (occupancy_full _ _ _ Hh Ht) as Hf.
  assert (occupancy (size r) (head r) (tail r) < size r) by (apply Z.mod_pos_bound; lia).
  destruct (Z.eqb_spec ((tail r + 1) mod size r) (head r)) as [E|E].
  - rewrite decide_False by lia. done.
  - rewrite decide_True by lia. rewrite decide_True by lia.
    eexists. split; [done|]. split; [|done]. split.
    + split; simpl; [done|done|apply Z.mod_pos_bound; lia|done|by rewrite length_insert].
    + rewrite contents_push by done. by rewrite Hc, fmap_app.
Qed.

(** A dequeue returns the oldest element, or fails on the empty queue. *)
Lemma dequeue_spec r q :
  ring_rep r q ->
  match q with
  | [] => sj_ring_dequeue r = Ret (SJ_ERROR, None, r)
  | x :: q' => exists r', sj_ring_dequeue r = Ret (SJ_SUCCESS, Some x, r')
                          /\ ring_rep r' q' /\ size r' = size r
  end.
Proof.
  intros Hr. pose proof Hr as [Hi Hc]. pose proof Hi as [Hs Hm Ht Hh Hlen].
  unfold sj_ring_dequeue. destruct q as [|x q].
  - pose proof (rep_length _ _ Hr) as Hl. simpl in Hl.
    pose proof (occupancy_empty _ _ _ Hh Ht) as He. rewrite (proj2 (Z.eqb_eq _ _)); [done|lia].
  - pose proof (rep_empty_head _ _ _ Hr) as Hne. rewrite (proj2 (Z.eqb_neq _ _)) by done.
    destruct (contents_pop r (Some x) (fmap (M := list) Some q) Hi Hc) as [Hq Hx].
    destruct (ring r !! Z.to_nat (head r)) as [o|] eqn:E; simpl in Hx; [|done]. subst o.
    eexists. split; [done|]. rewrite next_index by done. split; [|done]. split; [|done].
    split; simpl; [done|done|done|apply Z.mod_pos_bound; lia|done].
Qed.
(** *** Sequences of calls against a bounded queue *)

Inductive call : Type :=
| Enqueue (obj : A)
| Dequeue.

(** What a caller sees of a call: its return code, and the pointer it got. *)
Abbreviation outcome := (Z * option A)%type.

Definition run_call (r : sj_ring A) (c : call) : res (outcome * sj_ring A) :=
  match c with
  | Enqueue x => res_bind (sj_ring_enqueue r x) (fun '(rc, r') => Ret ((rc, None), r'))
  | Dequeue => res_bind (sj_ring_dequeue r) (fun '(rc, o, r') => Ret ((rc, o), r'))
  end.

Fixpoint run_calls (r : sj_ring A) (cs : list call) : res (list outcome * sj_ring A) :=
  match cs with
  | [] => Ret ([], r)
  | c :: cs' =>
      res_bind (run_call r c) (fun '(o, r') =>
      res_bind (run_calls r' cs') (fun '(os, r'') => Ret (o :: os, r'')))
  end.

(** The specification: a list with room for [cap] elements. *)
Definition queue_call (cap : Z) (q : list A) (c : call) : outcome * list A :=
  match c, q with
  | Enqueue x, _ =>
      if Z.of_nat (length q) <? cap then ((SJ_SUCCESS, None), q ++ [x])
      else ((SJ_ERROR, None), q)
  | Dequeue, [] => ((SJ_ERROR, None), [])
  | Dequeue, x :: q' => ((SJ_SUCCESS, Some x), q')
  end.

Fixpoint queue_calls (cap : Z) (q : list A) (cs : list call) : list outcome * list A :=
  match cs with
  | [] => ([], q)
  | c :: cs' =>
      let '(o, q') := queue_call cap q c in
      let '(os, q'') := queue_calls cap q' cs' in (o :: os, q'')
  end.

Lemma run_call_refines r q c :
  ring_rep r q ->
  exists r', run_call r c = Ret ((queue_call (size r - 1) q c).1, r')
    /\ ring_rep r' (queue_call (size r - 1) q c).2 /\ size r' = size r.
Proof.
  intros Hr. destruct c as [x|]; simpl.
  - pose proof (enqueue_spec r q x Hr) as H. case_decide; destruct (Z.ltb_spec (Z.of_nat (length q)) (size r - 1));
      try lia.
    + destruct H as (r' & -> & ? & ?). by exists r'.
    + rewrite H. by exists r.
  - pose proof (dequeue_spec r q Hr) as H. destruct q as [|x q].
    + rewrite H. by exists r.
    + destruct H as (r' & -> & ? & ?). by exists r'.
Qed.

(** C38: every sequence of enqueues and dequeues on a ring returns, call by
    call, the codes and pointers of a FIFO list with room for [size - 1]
    elements, and no call of the sequence leaves the array. *)
Theorem ring_seq_refines r q cs :
  ring_rep r q ->
  exists r', run_calls r cs = Ret ((queue_calls (size r - 1) q cs).1, r')
    /\ ring_rep r' (queue_calls (size r - 1) q cs).2.
Proof.
  revert r q. induction cs as [|c cs IH]; intros r q Hr; simpl; [by exists r|].
  destruct (run_call_refines r q c Hr) as (r1 & -> & Hr1 & Hs). simpl.
  destruct (IH r1 _ Hr1) as (r2 & E & Hr2). rewrite E. rewrite Hs in *.
  destruct (queue_call _ q c) as [o q1]. simpl in *.
  destruct (queue_calls _ q1 cs) as [os q2]. by exists r2.
Qed.
End seq.

(** A ring of four slots, for the witnesses. *)
Definition ring4 : sj_ring Z := mk_sj_ring 4 3 0 0 (replicate 4 None).
Lemma ring4_rep : ring_rep ring4 [].
Proof. split; [|done]. split; simpl; [exists 2; lia|lia..]. Qed.

Lemma ring_create_spec_witness :
  (exists r, sj_ring_create Z 4096 = Ret r /\ ring_rep r [] /\ size r = 4096) <->
  exists k, 0 <= k <= 31 /\ 4096 = 2 ^ k.
Proof. apply (ring_create_spec (A := Z) 4096). lia. Defined.

Lemma ring_seq_refines_witness :
  exists r', run_calls ring4 [Enqueue 1; Enqueue 2; Enqueue 3; Enqueue 4; Dequeue; Enqueue 5]
    = Ret ([(SJ_SUCCESS, None); (SJ_SUCCESS, None); (SJ_SUCCESS, None); (SJ_ERROR, None);
            (SJ_SUCCESS, Some 1); (SJ_SUCCESS, None)], r') /\ ring_rep r' [2; 3; 5].
Proof.
  apply (ring_seq_refines ring4 []
           [Enqueue 1; Enqueue 2; Enqueue 3; Enqueue 4; Dequeue; Enqueue 5]).
  exact ring4_rep.
Defined.
End Seq.

(** ** A producer and a consumer thread

    Each thread runs its call as a sequence of atomic accesses to [tail],
    [head] and the slots; between two accesses the other thread may run any
    number of its own. *)
Module Conc.
Section conc.
Context {A : Type}.
Implicit Types (r : sj_ring A) (x : A).

(** Program points of [sj_ring_enqueue]: before the call, after the load of
    [tail], after the load of [head], after the store to the slot. *)
Inductive producer : Type :=
| PIdle
| PTail (obj : A) (t : Z)
| PHead (obj : A) (t h : Z)
| PStored (obj : A) (t : Z).

(** Program points of [sj_ring_dequeue]. *)
Inductive consumer : Type :=
| CIdle
| CHead (h : Z)
| CTail (h t : Z)
| CRead (h : Z) (o : option A).

(** [pushed] and [popped] record the pointers whose enqueue and dequeue have
    returned [SJ_SUCCESS], in order. *)
Record state := mk_state {
  shared : sj_ring A;
  prod : producer;
  cons : consumer;
  pushed : list A;
  popped : list A;
}.

Inductive ring_step : state -> state -> Prop :=
| step_p_tail r c ps pp obj :
    ring_step (mk_state r PIdle c ps pp) (mk_state r (PTail obj (tail r)) c ps pp)
| step_p_head r c ps pp obj t :
    ring_step (mk_state r (PTail obj t) c ps pp) (mk_state r (PHead obj t (head r)) c ps pp)
| step_p_full r c ps pp obj t h :
    Z.land (u32 (t + 1)) (mask r) = h ->
    ring_step (mk_state r (PHead obj t h) c ps pp) (mk_state r PIdle c ps pp)
| step_p_store r c ps pp obj t h :
    Z.land (u32 (t + 1)) (mask r) <> h ->
    ring_step (mk_state r (PHead obj t h) c ps pp)
         (mk_state (mk_sj_ring (size r) (mask r) (tail r) (head r)
                               (<[Z.to_nat t := Some obj]> (ring r)))
                   (PStored obj t) c ps pp)
| step_p_publish r c ps pp obj t :
    ring_step (mk_state r (PStored obj t) c ps pp)
         (mk_state (mk_sj_ring (size r) (mask r) (Z.land (u32 (t + 1)) (mask r))
                               (head r) (ring r))
                   PIdle c (ps ++ [obj]) pp)
| step_c_head r p ps pp :
    ring_step (mk_state r p CIdle ps pp) (mk_state r p (CHead (head r)) ps pp)
| step_c_tail r p ps pp h :
    ring_step (mk_state r p (CHead h) ps pp) (mk_state r p (CTail h (tail r)) ps pp)
| step_c_empty r p ps pp h t :
    h = t -> ring_step (mk_state r p (CTail h t) ps pp) (mk_state r p CIdle ps pp)
| step_c_read r p ps pp h t o :
    h <> t -> ring r !! Z.to_nat h = Some o ->
    ring_step (mk_state r p (CTail h t) ps pp) (mk_state r p (CRead h o) ps pp)
| step_c_publish r p ps pp h x :
    ring_step (mk_state r p (CRead h (Some x)) ps pp)
         (mk_state (mk_sj_ring (size r) (mask r) (tail r)
                               (Z.land (u32 (h + 1)) (mask r)) (ring r))
                   p CIdle ps (pp ++ [x])).

Definition init (r : sj_ring A) : state := mk_state r PIdle CIdle [] [].

(** What the producer knows: its [t] is the tail, and the head it loaded is
    at most a full lap behind the current one. *)
Definition prod_inv r (p : producer) : Prop :=
  match p with
  | PIdle => True
  | PTail _ t => t = tail r
  | PHead _ t h => t = tail r /\ 0 <= h < size r
      /\ occupancy (size r) (head r) t <= occupancy (size r) h t
  | PStored obj t => t = tail r /\ ring r !! Z.to_nat t = Some (Some obj)
      /\ (tail r + 1) mod size r <> head r
  end.

(** What the consumer knows: its [h] is the head, and the tail it loaded is
    not ahead of the current one. *)
Definition cons_inv r (c : consumer) : Prop :=
  match c with
  | CIdle => True
  | CHead h => h = head r
  | CTail h t => h = head r /\ 0 <= t < size r
      /\ occupancy (size r) h t <= occupancy (size r) h (tail r)
  | CRead h o => h = head r /\ head r <> tail r /\ ring r !! Z.to_nat h = Some o
      /\ exists x, o = Some x
  end.

Definition inv (s : state) : Prop :=
  prod_inv (shared s) (prod s) /\ cons_inv (shared s) (cons s) /\
  exists q, ring_rep (shared s) q /\ pushed s = popped s ++ q.

(** A store to the slot at the tail changes no stored element. *)
Lemma contents_store r x :
  ring_inv r ->
  contents (mk_sj_ring (size r) (mask r) (tail r) (head r)
                       (<[Z.to_nat (tail r) := Some x]> (ring r))) = contents r.
Proof.
  intros [Hs Hm Ht Hh Hr]. unfold contents, slot. simpl.
  apply list_fmap_ext. intros j i Hi. apply lookup_seq in Hi as [-> Hi].
  f_equal. apply list_lookup_insert_ne. intros E.
  assert (0 <= occupancy (size r) (head r) (tail r) < size r)
    by (apply Z.mod_pos_bound; lia).
  apply Z2Nat.inj in E; [|lia|apply Z.mod_pos_bound; lia].
  rewrite <-(occupancy_tail (size r) (head r) (tail r)) in E at 1 by done.
  apply slot_inj in E; lia.
Qed.

(** Publishing the tail after the store is the push of [Seq]. *)
Lemma publish_eq r x :
  ring r !! Z.to_nat (tail r) = Some (Some x) ->
  <[Z.to_nat (tail r) := Some x]> (ring r) = ring r.
Proof. apply list_insert_id. Qed.

Lemma occ_range r : ring_inv r -> 0 <= occupancy (size r) (head r) (tail r) < size r.
Proof. intros Hi. apply Z.mod_pos_bound. by apply size_pos. Qed.

(** The producer's store and publication. *)
Lemma store_inv r c ps pp obj t h :
  inv (mk_state r (PHead obj t h) c ps pp) -> Z.land (u32 (t + 1)) (mask r) <> h ->
  inv (mk_state (mk_sj_ring (size r) (mask r) (tail r) (head r)
                            (<[Z.to_nat t := Some obj]> (ring r))) (PStored obj t) c ps pp).
Proof.
  intros (Hp & Hc & q & [Hi Hq] & Hps) Hne. simpl in *. destruct Hp as (-> & Hh & Hle).
  pose proof Hi as [Hs Hm Ht Hhd Hr]. rewrite next_index in Hne by done.
  pose proof (occupancy_full _ _ _ Hh Ht). pose proof (occupancy_full _ _ _ Hhd Ht).
  assert (occupancy (size r) h (tail r) < size r) by (apply Z.mod_pos_bound; lia).
  split; [|split].
  - simpl. split; [done|]. split; [by rewrite list_lookup_insert_eq by lia|lia].
  - destruct c as [|?|? ?|h' o]; simpl in *; [done..|].
    destruct Hc as (-> & Hne' & Hl & Hx). split; [done|]. split; [done|]. split; [|done].
    rewrite list_lookup_insert_ne; [done|]. intros E. apply Z2Nat.inj in E; lia.
  - exists q. split; [|done]. simpl. split.
    + split; simpl; [done..|by rewrite length_insert].
    + by rewrite contents_store.
Qed.

Lemma p_publish_inv r c ps pp obj t :
  inv (mk_state r (PStored obj t) c ps pp) ->
  inv (mk_state (mk_sj_ring (size r) (mask r) (Z.land (u32 (t + 1)) (mask r))
                            (head r) (ring r)) PIdle c (ps ++ [obj]) pp).
Proof.
  intros (Hp & Hc & q & [Hi Hq] & Hps). simpl in *. destruct Hp as (-> & Hl & Hne).
  pose proof Hi as [Hs Hm Ht Hhd Hr]. pose proof (occ_range r Hi).
  rewrite next_index by done. pose proof (occupancy_push _ _ _ Hne Hhd Ht) as Ho.
  assert (0 <= (tail r + 1) mod size r < size r) as Ht' by (apply Z.mod_pos_bound; lia).
  split; [done|split].
  - destruct c as [|?|? ?|h' o]; simpl in *; [done|done| |].
    + destruct Hc as (-> & ? & ?). split; [done|]. split; [done|lia].
    + destruct Hc as (-> & ? & ? & ?). split; [done|]. split; [|done].
      rewrite (occupancy_empty (size r)) by done. lia.
  - exists (q ++ [obj]). split; [|simpl; by rewrite Hps, app_assoc]. simpl. split.
    + split; simpl; [done|done|lia|done|done].
    + rewrite <-(publish_eq r obj Hl). rewrite Seq.contents_push by done.
      by rewrite Hq, fmap_app.
Qed.

(** The consumer's read and publication. *)
Lemma read_inv r p ps pp h t o :
  inv (mk_state r p (CTail h t) ps pp) -> h <> t -> ring r !! Z.to_nat h = Some o ->
  inv (mk_state r p (CRead h o) ps pp).
Proof.
  intros (Hp & Hc & q & [Hi Hq] & Hps) Hne Ho. simpl in *.
  destruct Hc as (-> & Ht & Hle). pose proof Hi as [Hs Hm Htl Hhd Hr].
  pose proof (occupancy_empty _ _ _ Hhd Ht). pose proof (occupancy_empty _ _ _ Hhd Htl).
  pose proof (Z.mod_pos_bound (t - head r) (size r) ltac:(lia)).
  change ((t - head r) mod size r) with (occupancy (size r) (head r) t) in *.
  assert (head r <> tail r) as Hht by lia.
  split; [done|split; [|by exists q]]. simpl. do 3 (split; [done|]).
  destruct q as [|x q]; [|exists x].
  - pose proof (Seq.rep_length r [] (conj Hi Hq)) as E. simpl in E. lia.
  - destruct (Seq.contents_pop r (Some x) (fmap (M := list) Some q) Hi Hq) as [_ E].
    by rewrite Ho in E.
Qed.

Lemma c_publish_inv r p ps pp h x :
  inv (mk_state r p (CRead h (Some x)) ps pp) ->
  inv (mk_state (mk_sj_ring (size r) (mask r) (tail r)
                            (Z.land (u32 (h + 1)) (mask r)) (ring r)) p CIdle ps (pp ++ [x])).
Proof.
  intros (Hp & Hc & q & [Hi Hq] & Hps). simpl in *. destruct Hc as (-> & Hne & Hl & _).
  pose proof Hi as [Hs Hm Ht Hhd Hr]. pose proof (occ_range r Hi).
  rewrite next_index by done. pose proof (occupancy_pop _ _ _ Hne Hhd Ht) as Ho.
  assert (0 <= (head r + 1) mod size r < size r) as Hh' by (apply Z.mod_pos_bound; lia).
  split; [|split; [done|]].
  - destruct p as [|? ?|? t h|? t]; simpl in *; [done|done| |].
    + destruct Hp as (-> & ? & ?). split; [done|]. split; [done|lia].
    + destruct Hp as (-> & ? & ?). do 2 (split; [done|]).
      rewrite (occupancy_full (size r)) by done. lia.
  - destruct q as [|y q].
    + pose proof (Seq.rep_length r [] (conj Hi Hq)) as E. simpl in E.
      pose proof (occupancy_empty _ _ _ Hhd Ht). lia.
    + destruct (Seq.contents_pop r (Some y) (fmap (M := list) Some q) Hi Hq) as [Hq' E].
      rewrite Hl in E. simpl in E. injection E as ->.
      exists q. split; [|simpl; by rewrite Hps, <-app_assoc]. simpl. split; [|done].
      split; simpl; [done|done|done|lia|done].
Qed.

Lemma inv_step s s' : inv s -> ring_step s s' -> inv s'.
Proof.
  intros Hi Hs. destruct Hs; eauto using store_inv, p_publish_inv, read_inv, c_publish_inv;
    destruct Hi as (Hp & Hc & q & Hr & Hps); pose proof (inv_tail _ (proj1 Hr));
    pose proof (inv_head _ (proj1 Hr)); (split; [|split; [|by exists q]]); simpl in *;
    naive_solver.
Qed.

Lemma inv_reachable r s : ring_rep r [] -> rtc ring_step (init r) s -> inv s.
Proof.
  intros Hr Hs. assert (inv (init r)) as Hi by (split; [done|split; [done|by exists []]]).
  induction Hs as [s|s1 s2 s3 H12 _ IH]; [done|]. eauto using inv_step.
Qed.

(** C5: in every interleaving the consumer receives exactly the pointers the
    producer sent, in order, with at most [size - 1] of them in flight. *)
Theorem ring_conc_fifo r s :
  ring_rep r [] -> rtc ring_step (init r) s ->
  exists q, pushed s = popped s ++ q /\ Z.of_nat (length q) < size (shared s).
Proof.
  intros Hr Hs. destruct (inv_reachable r s Hr Hs) as (_ & _ & q & Hq & E).
  exists q. split; [done|]. pose proof (Seq.rep_length _ _ Hq) as ->.
  apply occ_range, Hq.
Qed.

(** The consumer never reads an unwritten slot and never leaves the array:
    past the emptiness test the load finds a pointer. *)
Theorem ring_conc_read_safe r s h t :
  ring_rep r [] -> rtc ring_step (init r) s -> cons s = CTail h t -> h <> t ->
  exists x, ring (shared s) !! Z.to_nat h = Some (Some x).
Proof.
  intros Hr Hs Hc Hne. pose proof (inv_reachable r s Hr Hs) as Hi.
  destruct s as [rr p c ps pp]. simpl in *. subst c.
  pose proof Hi as (_ & Hc & q & [Hri _] & _). simpl in *.
  destruct Hc as (-> & Ht & _). pose proof Hri as [_ _ _ Hhd Hlen].
  destruct (lookup_lt_is_Some_2 (ring rr) (Z.to_nat (head rr))) as [o Ho]; [lia|].
  destruct (read_inv _ _ _ _ _ _ _ Hi Hne Ho) as (_ & (_ & _ & _ & x & ->) & _).
  by exists x.
Qed.
End conc.

Lemma ring_conc_fifo_witness :
  exists s : state, rtc ring_step (init Seq.ring4) s /\ pushed s = [7] /\
    exists q, pushed s = popped s ++ q /\ Z.of_nat (length q) < size (shared s).
Proof.
  eassert (rtc ring_step (init Seq.ring4) _) as Hs.
  { eapply rtc_l; [apply (step_p_tail _ _ _ _ 7)|].
    eapply rtc_l; [apply step_p_head|].
    eapply rtc_l; [apply step_p_store; vm_compute; lia|].
    eapply rtc_l; [apply step_p_publish|]. apply rtc_refl. }
  eexists. split; [exact Hs|]. split; [reflexivity|].
  apply (ring_conc_fifo Seq.ring4 _ Seq.ring4_rep Hs).
Defined.

Lemma ring_conc_read_safe_witness :
  exists s : state, rtc ring_step (init Seq.ring4) s /\ cons s = CTail 0 1 /\
    exists x, ring (shared s) !! Z.to_nat 0 = Some (Some x).
Proof.
  eassert (rtc ring_step (init Seq.ring4) _) as Hs.
  { eapply rtc_l; [apply (step_p_tail _ _ _ _ 7)|].
    eapply rtc_l; [apply step_p_head|].
    eapply rtc_l; [apply step_p_store; vm_compute; lia|].
    eapply rtc_l; [apply step_p_publish|].
    eapply rtc_l; [apply step_c_head|].
    eapply rtc_l; [apply step_c_tail|]. apply rtc_refl. }
  eexists. split; [exact Hs|]. split; [reflexivity|].
  apply (ring_conc_read_safe Seq.ring4 _ 0 1 Seq.ring4_rep Hs); [reflexivity|lia].
Defined.
End Conc.
