(* ===== verification/Hkdf.v ===== *)
(** * Key derivation (ssl_crypto.c: [P_HASH], [PRF], [hkdf_extract],
      [hkdf_expand_internal], [hkdf_expand_label])

    The HMAC implementation is OpenSSL's. [hmac_ops] lists the calls the code
    makes on an [HMAC_CTX]; [HmacLaws] states their documented behaviour, so
    that the theorems hold for every implementation that has it. The
    reference definitions are those of RFC 5246 (section 5), RFC 5869 and
    RFC 8446 (section 7.1). *)

From S2P Require Import Prelude.

(** ** The OpenSSL interface *)

(** [HMAC_Init_ex] with a key, [HMAC_Init_ex] with a null key (which keeps the
    key of the context), [HMAC_Update], [HMAC_Final], [HMAC_CTX_reset], for
    one digest. [None] is a return value [<= 0]. *)
Record hmac_ops := mk_hmac_ops {
  hctx : Type;
  HMAC_Init_ex : hctx -> bytes -> option hctx;
  HMAC_Init_null : hctx -> option hctx;
  HMAC_Update : hctx -> bytes -> option hctx;
  HMAC_Final : hctx -> option (bytes * hctx);
  HMAC_CTX_reset : hctx -> hctx;
  md_size : nat;
}.

(** [hmac k m] is the value the calls compute; [keyed c k d]: the context
    [c] has the key [k] and has absorbed [d]. *)
Class HmacLaws (ops : hmac_ops) (hmac : bytes -> bytes -> bytes)
    (keyed : hctx ops -> bytes -> bytes -> Prop) : Prop := {
  hmac_init c k : exists c', HMAC_Init_ex ops c k = Some c' /\ keyed c' k [];
  hmac_init_null c k d : keyed c k d ->
    exists c', HMAC_Init_null ops c = Some c' /\ keyed c' k [];
  hmac_update c k d x : keyed c k d ->
    exists c', HMAC_Update ops c x = Some c' /\ keyed c' k (d ++ x);
  hmac_final c k d : keyed c k d ->
    exists c' d', HMAC_Final ops c = Some (hmac k d, c') /\ keyed c' k d';
  hmac_length k d : length (hmac k d) = md_size ops;
  md_size_pos : (0 < md_size ops)%nat;
}.

(** What a call that fills a caller's buffer yields: its return value, the
    buffer and the context, or no result within the given number of loop
    iterations. *)
Inductive run (C : Type) : Type :=
| Returned (rc : Z) (out : bytes) (c : C)
| Out_of_fuel.
Arguments Returned {C} rc out c.
Arguments Out_of_fuel {C}.

Section code.
Context (ops : hmac_ops).
Abbreviation ctx := (hctx ops).

(** [hkdf_extract]; [out] is the caller's buffer. *)
Definition hkdf_extract (c : ctx) (out : bytes) (salt key : bytes) : run ctx :=
  match HMAC_Init_ex ops c salt with
  | None => Returned 0 out c
  | Some c1 =>
    match HMAC_Update ops c1 key with
    | None => Returned 0 out c1
    | Some c2 =>
      match HMAC_Final ops c2 with
      | None => Returned 0 out c2
      | Some (d, c3) => Returned 1 (wr out 0 d) (HMAC_CTX_reset ops c3)
      end
    end
  end.

(** One pass of the loop of [hkdf_expand_internal]: the block [T] of
    counter [i], or [None] for [return 0]. *)
Definition expand_block (c : ctx) (prk info T : bytes) (i : Z) : option (bytes * ctx) :=
  c1 ← (if i =? 1 then HMAC_Init_ex ops c prk else HMAC_Init_null ops c);
  c2 ← (if (0 <? length T)%nat then HMAC_Update ops c1 T else Some c1);
  c3 ← HMAC_Update ops c2 info;
  c4 ← HMAC_Update ops c3 [i];
  HMAC_Final ops c4.

(** The loop [for (uint8_t i = 1; i <= n; i++)]: the counter is 8 bits
    wide and wraps. *)
Fixpoint expand_loop (fuel : nat) (n : Z) (i : Z) (c : ctx) (prk info T : bytes)
    (done out_len : nat) (out : bytes) : run ctx :=
  match fuel with
  | O => Out_of_fuel
  | S fuel' =>
    if i <=? n then
      match expand_block c prk info T i with
      | None => Returned 0 out c
      | Some (T', c') =>
          let copy := if (out_len <? done + length T')%nat
                      then (out_len - done)%nat else length T' in
          expand_loop fuel' n (u8 (i + 1)) c' prk info T' (done + copy) out_len
                      (wr out done (take copy T'))
      end
    else Returned 1 out c
  end.

Definition hkdf_expand_internal (fuel : nat) (c : ctx) (out : bytes) (out_len : nat)
    (prk info : bytes) : run ctx :=
  let n := (Z.of_nat out_len + Z.of_nat (md_size ops) - 1) / Z.of_nat (md_size ops) in
  if 255 <? n then Returned 0 out c
  else expand_loop fuel n 1 c prk info [] 0 out_len out.

(** The string ["tls13 "]. *)
Definition tls13_prefix : bytes := [0x74; 0x6c; 0x73; 0x31; 0x33; 0x20].

(** The [info] array of [hkdf_expand_label], 520 bytes wide. *)
Definition INFO_SIZE : nat := 2 + 1 + 6 + 255 + 1 + 255.

Definition label_info (out_len : nat) (label cx : bytes) : bytes :=
  [Z.land (Z.shiftr (Z.of_nat out_len) 8) 255; Z.land (Z.of_nat out_len) 255;
   u8 (6 + Z.of_nat (length label))]
  ++ tls13_prefix ++ label ++ [u8 (Z.of_nat (length cx))] ++ cx.

Definition hkdf_expand_label (fuel : nat) (c : ctx) (out : bytes) (out_len : nat)
    (key label cx : bytes) : res (run ctx) :=
  let info := label_info out_len label cx in
  if (INFO_SIZE <? length info)%nat then Fault Out_of_bounds
  else Ret (hkdf_expand_internal fuel c out out_len key info).
End code.

(** [P_HASH] and [PRF] of TLS 1.2 call the one-shot [HMAC]. *)
Section prf.
Context (HMAC : bytes -> bytes -> bytes).

Definition MAX_HASH_SIZE : nat := 256.
Definition MAX_PHASH_INPUT : nat := 768.
Definition MAX_PRF_INPUT : Z := 16384.

Definition hmac_len_ok (d : bytes) : bool :=
  (length d <? MAX_HASH_SIZE)%nat && (0 <? length d)%nat.

(** The [while] loop: [a] is the current [A(i)] at the start of [buf], the
    seed follows it; [out] is what has been written so far. *)
Fixpoint phash_loop (fuel : nat) (secret seed a out : bytes) (out_len : nat) :
    option (res bytes) :=
  match fuel with
  | O => None
  | S fuel' =>
    if (length out <? out_len)%nat then
      let a' := HMAC secret a in
      if negb (hmac_len_ok a') then Some (Fault Assert_failed) else
      let o := HMAC secret (a' ++ seed) in
      if negb (hmac_len_ok o) then Some (Fault Assert_failed) else
      phash_loop fuel' secret seed a' (out ++ o) out_len
    else Some (Ret out)
  end.

Definition P_HASH (fuel : nat) (secret seed : bytes) (out_len : nat) : option (res bytes) :=
  let a := HMAC secret seed in
  if negb (hmac_len_ok a) then Some (Fault Assert_failed) else
  if (MAX_PHASH_INPUT <? length a + length seed)%nat then Some (Fault Out_of_bounds) else
  let o := HMAC secret (a ++ seed) in
  if negb (hmac_len_ok o) then Some (Fault Assert_failed) else
  phash_loop fuel secret seed a o out_len.

Definition PRF (fuel : nat) (secret label seed : bytes) (out_len : nat) : option (res bytes) :=
  if negb (Z.of_nat (out_len + 20 + (length label + length seed)) <? MAX_PRF_INPUT)
  then Some (Fault Assert_failed)
  else match P_HASH fuel secret (label ++ seed) out_len with
       | Some (Ret o) => Some (Ret (take out_len o))
       | r => r
       end.
End prf.

(** ** Reference definitions *)

Section spec.
Context (hmac : bytes -> bytes -> bytes).

(** RFC 5869, section 2.3: [T(0)] is empty,
    [T(i) = HMAC(PRK, T(i-1) | info | i)]. *)
Fixpoint rfc5869_T (prk info : bytes) (i : nat) : bytes :=
  match i with
  | O => []
  | S i' => hmac prk (rfc5869_T prk info i' ++ info ++ [Z.of_nat i])
  end.

(** [T(1) | ... | T(n)]. *)
Fixpoint rfc5869_blocks (prk info : bytes) (n : nat) : bytes :=
  match n with
  | O => []
  | S n' => rfc5869_blocks prk info n' ++ rfc5869_T prk info n
  end.

Definition rfc5869_expand (hash_len : nat) (prk info : bytes) (len : nat) : bytes :=
  take len (rfc5869_blocks prk info ((len + hash_len - 1) / hash_len)).

(** RFC 8446, section 7.1: the [HkdfLabel] structure and
    [HKDF-Expand-Label]. *)
Definition HkdfLabel (len : nat) (label cx : bytes) : bytes :=
  be_bytes 2 (Z.of_nat len)
  ++ be_bytes 1 (Z.of_nat (length (tls13_prefix ++ label))) ++ tls13_prefix ++ label
  ++ be_bytes 1 (Z.of_nat (length cx)) ++ cx.

Definition rfc8446_expand_label (hash_len : nat) (secret label cx : bytes) (len : nat) : bytes :=
  rfc5869_expand hash_len secret (HkdfLabel len label cx) len.

(** RFC 5246, section 5: [A(0) = seed], [A(i) = HMAC(secret, A(i-1))],
    [P_hash = HMAC(secret, A(1) + seed) + HMAC(secret, A(2) + seed) + ...]. *)
Fixpoint rfc5246_A (secret seed : bytes) (i : nat) : bytes :=
  match i with
  | O => seed
  | S i' => hmac secret (rfc5246_A secret seed i')
  end.

Fixpoint rfc5246_P_hash (secret seed : bytes) (n : nat) : bytes :=
  match n with
  | O => []
  | S n' => rfc5246_P_hash secret seed n' ++ hmac secret (rfc5246_A secret seed n ++ seed)
  end.
End spec.

(** ** Proofs *)

Section proofs.
Context (ops : hmac_ops) (hmac : bytes -> bytes -> bytes)
  (keyed : hctx ops -> bytes -> bytes -> Prop) {L : HmacLaws ops hmac keyed}.
Implicit Types (c : hctx ops) (prk info T out : bytes).
Abbreviation h := (md_size ops).

(** The context can serve counter [i]: the first block sets the key, the
    others find it. *)
Definition ready c prk (i : Z) : Prop := i = 1 \/ exists d, keyed c prk d.

Lemma expand_block_spec c prk info T i :
  ready c prk i ->
  exists c' d, expand_block ops c prk info T i = Some (hmac prk (T ++ info ++ [i]), c')
               /\ keyed c' prk d.
Proof.
  intros Hr. unfold expand_block.
  assert (exists c1, (if i =? 1 then HMAC_Init_ex ops c prk else HMAC_Init_null ops c)
                     = Some c1 /\ keyed c1 prk []) as (c1 & -> & K1).
  { destruct (Z.eqb_spec i 1) as [|Hi]; [apply hmac_init|].
    destruct Hr as [|[d Hd]]; [done|]. by eapply hmac_init_null. }
  simpl.
  assert (exists c2, (if (0 <? length T)%nat then HMAC_Update ops c1 T else Some c1)
                     = Some c2 /\ keyed c2 prk T) as (c2 & -> & K2).
  { destruct T as [|b T]; [by eauto|]. exact (hmac_update _ _ _ (b :: T) K1). }
  simpl. destruct (hmac_update _ _ _ info K2) as (c3 & -> & K3). simpl.
  destruct (hmac_update _ _ _ [i] K3) as (c4 & -> & K4). simpl.
  destruct (hmac_final _ _ _ K4) as (c5 & d & -> & K5).
  exists c5, d. split; [|done]. by rewrite <-app_assoc.
Qed.

Lemma length_T prk info i : (0 < i)%nat -> length (rfc5869_T hmac prk info i) = h.
Proof. destruct i; [lia|]. intros _. cbn [rfc5869_T]. apply hmac_length. Qed.

Lemma length_blocks prk info n : length (rfc5869_blocks hmac prk info n) = (n * h)%nat.
Proof.
  induction n as [|n IH]; [done|]. cbn [rfc5869_blocks].
  rewrite length_app, IH, length_T by lia. lia.
Qed.

(** Filling the buffer block by block. *)
Lemma fill_step prk info (j len : nat) out0 :
  length out0 = len -> (j * h < len)%nat ->
  let copy := if (len <? j * h + h)%nat then (len - j * h)%nat else h in
  wr (take (j * h) (rfc5869_blocks hmac prk info j) ++ drop (j * h) out0) (j * h)
     (take copy (rfc5869_T hmac prk info (S j)))
  = take (Nat.min (S j * h) len) (rfc5869_blocks hmac prk info (S j))
    ++ drop (Nat.min (S j * h) len) out0
  /\ (j * h + copy = Nat.min (S j * h) len)%nat.
Proof.
  intros Hlen Hj copy. pose proof (length_blocks prk info j) as HB.
  pose proof (length_T prk info (S j) ltac:(lia)) as HT.
  assert (j * h + copy = Nat.min (S j * h) len)%nat as Hc.
  { unfold copy. destruct (Nat.ltb_spec len (j * h + h)); lia. }
  split; [|done]. assert (copy <= h)%nat as Hch by (unfold copy; case_match; lia).
  rewrite (take_ge (rfc5869_blocks hmac prk info j)) by lia. unfold wr.
  rewrite take_app_le, take_ge by lia. cbn [rfc5869_blocks].
  rewrite (take_app_ge (rfc5869_blocks hmac prk info j)) by lia.
  rewrite <-app_assoc. f_equal. f_equal; [f_equal; lia|].
  rewrite length_take. rewrite drop_app_ge by lia. rewrite drop_drop. f_equal. lia.
Qed.

Lemma expand_loop_spec prk info (n len : nat) out0 :
  (n <= 254)%nat -> length out0 = len -> (forall m, (m < n -> m * h < len)%nat) ->
  (len <= n * h)%nat ->
  forall k j c fuel, n = (j + k)%nat -> (k < fuel)%nat -> ready c prk (Z.of_nat j + 1) ->
  exists c', expand_loop ops fuel (Z.of_nat n) (Z.of_nat j + 1) c prk info
               (rfc5869_T hmac prk info j) (Nat.min (j * h) len) len
               (take (Nat.min (j * h) len) (rfc5869_blocks hmac prk info j)
                ++ drop (Nat.min (j * h) len) out0)
             = Returned 1 (take len (rfc5869_blocks hmac prk info n)) c'.
Proof.
  intros Hn Hlen Hlt Hle. induction k as [|k IH]; intros j c fuel Hj Hf Hr;
    (destruct fuel as [|fuel]; [lia|]); cbn [expand_loop].
  - assert (j = n) as -> by lia. rewrite (proj2 (Z.leb_gt _ _)) by lia.
    rewrite Nat.min_r by lia. rewrite (drop_ge out0) by lia. rewrite app_nil_r. by eauto.
  - rewrite (proj2 (Z.leb_le _ _)) by lia. specialize (Hlt j ltac:(lia)).
    destruct (expand_block_spec c prk info (rfc5869_T hmac prk info j) _ Hr)
      as (c' & d & -> & Hk).
    rewrite hmac_length. rewrite Nat.min_l by lia.
    destruct (fill_step prk info j len out0 Hlen Hlt) as [Hw Hd].
    cbn [rfc5869_T] in Hw. replace (Z.of_nat (S j)) with (Z.of_nat j + 1) in Hw by lia.
    rewrite Hw, Hd. replace (u8 (Z.of_nat j + 1 + 1)) with (Z.of_nat (S j) + 1)
      by (rewrite u8_id by (unfold is_u8; lia); lia).
    replace (hmac prk (rfc5869_T hmac prk info j ++ info ++ [Z.of_nat j + 1]))
      with (rfc5869_T hmac prk info (S j))
      by (cbn [rfc5869_T]; do 3 f_equal; f_equal; lia).
    apply IH; [lia|lia|right; by eauto].
Qed.

(** Once the counter has wrapped the loop has no exit. *)
Lemma expand_loop_wraps prk info len fuel : forall i c T done out,
  0 <= i <= 255 -> ready c prk i ->
  expand_loop ops fuel 255 i c prk info T done len out = Out_of_fuel.
Proof.
  induction fuel as [|fuel IH]; intros i c T dn out Hi Hr; [done|]. cbn [expand_loop].
  rewrite (proj2 (Z.leb_le _ _)) by lia.
  destruct (expand_block_spec c prk info T i Hr) as (c' & d & -> & Hk).
  apply IH; [|right; by eauto]. pose proof (u8_range (i + 1)). lia.
Qed.

(** The number of blocks. *)
Lemma blocks_bounds (len : nat) :
  let n := ((len + h - 1) / h)%nat in
  (forall m, (m < n -> m * h < len)%nat) /\ (len <= n * h)%nat.
Proof.
  pose proof md_size_pos as Hp. simpl. set (n := ((len + h - 1) / h)%nat).
  pose proof (Nat.div_mod_eq (len + h - 1) h) as E. fold n in E.
  pose proof (Nat.mod_upper_bound (len + h - 1) h ltac:(lia)). split; [|nia].
  intros m Hm. nia.
Qed.

Lemma blocks_Z (len : nat) :
  (Z.of_nat len + Z.of_nat h - 1) / Z.of_nat h = Z.of_nat ((len + h - 1) / h).
Proof. pose proof md_size_pos. rewrite Nat2Z.inj_div. f_equal. lia. Qed.

Lemma expand_internal_spec c out len prk info fuel :
  length out = len -> (Z.of_nat len <= 254 * Z.of_nat h) -> (254 < fuel)%nat ->
  exists c', hkdf_expand_internal ops fuel c out len prk info
             = Returned 1 (rfc5869_expand hmac h prk info len) c'.
Proof.
  intros Hlen Hb Hf. pose proof (blocks_bounds len) as [Hlt Hle]. cbv zeta in *.
  unfold hkdf_expand_internal, rfc5869_expand. rewrite blocks_Z.
  set (n := ((len + h - 1) / h)%nat) in *.
  assert (n <= 254)%nat as Hn.
  { destruct (decide (n <= 254)%nat); [done|]. specialize (Hlt 254%nat ltac:(lia)). lia. }
  rewrite (proj2 (Z.ltb_ge _ _)) by lia.
  apply (expand_loop_spec prk info n len out Hn Hlen Hlt Hle n 0 c fuel); [lia|lia|].
  by left.
Qed.

(** C37: for every request of at most 254 blocks, [hkdf_expand_internal]
    returns 1 and fills the caller's buffer with the output of HKDF-Expand
    of RFC 5869 (255 iterations of the loop are enough). *)
Theorem hkdf_expand_correct c out len prk info fuel :
  length out = len -> (Z.of_nat len <= 254 * Z.of_nat h) -> (254 < fuel)%nat ->
  exists c', hkdf_expand_internal ops fuel c out len prk info
             = Returned 1 (rfc5869_expand hmac h prk info len) c'.
Proof. apply expand_internal_spec. Qed.

(** A request of exactly 255 blocks, which the test [n > 255] lets
    through and RFC 5869 allows, never returns: the 8-bit counter wraps to
    0 and [i <= 255] stays true. *)
Theorem hkdf_expand_255_diverges c out len prk info :
  254 * Z.of_nat h < Z.of_nat len <= 255 * Z.of_nat h ->
  forall fuel, hkdf_expand_internal ops fuel c out len prk info = Out_of_fuel.
Proof.
  intros Hb fuel. unfold hkdf_expand_internal. rewrite blocks_Z.
  pose proof (blocks_bounds len) as [Hlt Hle]. cbv zeta in *.
  set (n := ((len + h - 1) / h)%nat) in *. pose proof md_size_pos.
  assert (n = 255)%nat as ->.
  { destruct (decide (n <= 254)%nat); [nia|].
    destruct (decide (n = 255)%nat); [done|]. specialize (Hlt 255%nat ltac:(lia)). lia. }
  apply expand_loop_wraps; [lia|by left].
Qed.

(** The bytes [hkdf_expand_label] assembles are the [HkdfLabel] structure. *)
Lemma label_info_HkdfLabel len label cx :
  Z.of_nat len < 2 ^ 16 -> (length label <= 249)%nat -> (length cx <= 255)%nat ->
  label_info len label cx = HkdfLabel len label cx.
Proof.
  intros Hl Hlab Hcx. unfold label_info, HkdfLabel, be_bytes. cbn [le_bytes reverse rev_append].
  change 255 with (Z.ones 8). rewrite !Z.land_ones, Z.shiftr_div_pow2 by lia.
  unfold u8. rewrite length_app, Nat2Z.inj_add. done.
Qed.

Lemma expand_label_spec c out len key label cx fuel :
  length out = len -> Z.of_nat len < 2 ^ 16 -> Z.of_nat len <= 254 * Z.of_nat h ->
  (length label <= 249)%nat -> (length cx <= 255)%nat -> (254 < fuel)%nat ->
  exists c', hkdf_expand_label ops fuel c out len key label cx
             = Ret (Returned 1 (rfc8446_expand_label hmac h key label cx len) c').
Proof.
  intros Hlen H16 Hb Hlab Hcx Hf. unfold hkdf_expand_label.
  rewrite (proj2 (Nat.ltb_ge _ _)); [|unfold label_info, INFO_SIZE; len].
  rewrite label_info_HkdfLabel by done. unfold rfc8446_expand_label.
  destruct (expand_internal_spec c out len key (HkdfLabel len label cx) fuel Hlen Hb Hf)
    as [c' ->]. by exists c'.
Qed.

(** [hkdf_expand_label] computes HKDF-Expand-Label of RFC 8446 and stays
    inside its [info] array, for every label of at most 249 bytes, every
    context of at most 255 bytes and every output of at most 254 blocks. *)
Theorem hkdf_expand_label_correct c out len key label cx fuel :
  length out = len -> Z.of_nat len < 2 ^ 16 -> Z.of_nat len <= 254 * Z.of_nat h ->
  (length label <= 249)%nat -> (length cx <= 255)%nat -> (254 < fuel)%nat ->
  exists c', hkdf_expand_label ops fuel c out len key label cx
             = Ret (Returned 1 (rfc8446_expand_label hmac h key label cx len) c').
Proof. apply expand_label_spec. Qed.

Lemma length_expand_label key label cx len :
  length (rfc8446_expand_label hmac h key label cx len) = len.
Proof.
  unfold rfc8446_expand_label, rfc5869_expand. rewrite length_take, length_blocks.
  pose proof (blocks_bounds len) as [_ Hle]. cbv zeta in Hle. lia.
Qed.

Lemma hkdf_extract_spec c out salt key :
  length out = h -> exists c', hkdf_extract ops c out salt key = Returned 1 (hmac salt key) c'.
Proof.
  intros Hl. unfold hkdf_extract. destruct (hmac_init c salt) as (c1 & -> & K1).
  destruct (hmac_update _ _ _ key K1) as (c2 & -> & K2).
  destruct (hmac_final _ _ _ K2) as (c3 & d & -> & K3). eexists.
  unfold wr. rewrite drop_ge by (rewrite hmac_length; lia). simpl.
  by rewrite app_nil_r.
Qed.
End proofs.

Section prf_proofs.
Context (HMAC : bytes -> bytes -> bytes) (hlen : nat).
Context (HMAC_len : forall k m, length (HMAC k m) = hlen) (hlen_pos : (0 < hlen < 256)%nat).

Lemma hmac_len_ok_true k m : hmac_len_ok (HMAC k m) = true.
Proof.
  unfold hmac_len_ok, MAX_HASH_SIZE. rewrite HMAC_len.
  apply andb_true_intro; split; apply Nat.ltb_lt; lia.
Qed.

Lemma length_P_hash secret seed n : length (rfc5246_P_hash HMAC secret seed n) = (n * hlen)%nat.
Proof.
  induction n as [|n IH]; [done|]. cbn [rfc5246_P_hash].
  rewrite length_app, IH, HMAC_len. lia.
Qed.

Lemma phash_loop_spec secret seed out_len fuel : forall j,
  (out_len < j * hlen + fuel)%nat ->
  exists n, (out_len <= n * hlen)%nat /\
    phash_loop HMAC fuel secret seed (rfc5246_A HMAC secret seed j)
               (rfc5246_P_hash HMAC secret seed j) out_len
    = Some (Ret (rfc5246_P_hash HMAC secret seed n))
    \/ (fuel = 0)%nat.
Proof.
  induction fuel as [|fuel IH]; intros j Hf; [by exists 0%nat; right|].
  cbn [phash_loop]. rewrite length_P_hash.
  destruct (Nat.ltb_spec (j * hlen) out_len) as [Hlt|Hge]; [|exists j; by left].
  rewrite !hmac_len_ok_true. simpl negb. cbv iota.
  destruct (IH (S j)) as [n [Hn|Hn]]; [lia| |].
  - exists n. left. exact Hn.
  - lia.
Qed.

(** The TLS 1.2 [PRF] returns the first [out_len] bytes of [P_hash] of
    RFC 5246 over the label followed by the seed, when they fit the
    function's buffers. *)
Theorem PRF_correct secret label seed out_len fuel :
  Z.of_nat (out_len + 20 + (length label + length seed)) < MAX_PRF_INPUT ->
  (hlen + length (label ++ seed) <= MAX_PHASH_INPUT)%nat -> (out_len < fuel)%nat ->
  exists n, (out_len <= n * hlen)%nat /\
    PRF HMAC fuel secret label seed out_len
    = Some (Ret (take out_len (rfc5246_P_hash HMAC secret (label ++ seed) n))).
Proof.
  intros Hin Hp Hf. unfold PRF, P_HASH. rewrite (proj2 (Z.ltb_lt _ _)) by lia. simpl negb.
  cbv iota. rewrite !hmac_len_ok_true, HMAC_len. simpl negb. cbv iota.
  rewrite (proj2 (Nat.ltb_ge _ _)) by lia.
  destruct (phash_loop_spec secret (label ++ seed) out_len fuel 1) as [n [[Hn E]|Hn]];
    [lia| |lia].
  cbn [rfc5246_A rfc5246_P_hash app] in E. rewrite E. by exists n.
Qed.
End prf_proofs.

(** ** A concrete HMAC for the witnesses

    A stand-in with the right shape: the key and the data are summed into a
    two-byte tag. *)
Definition toy_hmac (k d : bytes) : bytes :=
  [u8 (foldr Z.add 7 k + 3 * foldr Z.add 1 d); u8 (Z.of_nat (length d))].
Definition toy_ops : hmac_ops :=
  mk_hmac_ops (bytes * bytes) (fun _ k => Some (k, [])) (fun c => Some (c.1, []))
    (fun c x => Some (c.1, c.2 ++ x)) (fun c => Some (toy_hmac c.1 c.2, c)) (fun c => c) 2.

#[export] Instance toy_laws : HmacLaws toy_ops toy_hmac (fun c k d => c = (k, d)).
Proof. split; simpl; intros; subst; simpl; eauto. Qed.

Lemma hkdf_expand_correct_witness : exists c',
  hkdf_expand_internal toy_ops 255 ([], []) (zeros 5) 5 [1; 2] [3]
  = Returned 1 (rfc5869_expand toy_hmac 2 [1; 2] [3] 5) c'.
Proof.
  apply (hkdf_expand_correct toy_ops toy_hmac (fun c k d => c = (k, d))
           ([], []) (zeros 5) 5 [1; 2] [3] 255); [reflexivity|simpl; lia|lia].
Defined.

Lemma hkdf_expand_255_diverges_witness :
  hkdf_expand_internal toy_ops 1000 ([], []) (zeros 510) 510 [1; 2] [3] = Out_of_fuel.
Proof.
  apply (hkdf_expand_255_diverges toy_ops toy_hmac (fun c k d => c = (k, d))
           ([], []) (zeros 510) 510 [1; 2] [3]). simpl; lia.
Defined.

Lemma hkdf_expand_label_correct_witness : exists c',
  hkdf_expand_label toy_ops 255 ([], []) (zeros 12) 12 [9; 9] [0x69; 0x76] []
  = Ret (Returned 1 (rfc8446_expand_label toy_hmac 2 [9; 9] [0x69; 0x76] [] 12) c').
Proof.
  apply (hkdf_expand_label_correct toy_ops toy_hmac (fun c k d => c = (k, d))
           ([], []) (zeros 12) 12 [9; 9] [0x69; 0x76] [] 255);
    [reflexivity|simpl; lia|simpl; lia|simpl; lia|simpl; lia|lia].
Defined.

Lemma PRF_correct_witness : exists n, (5 <= n * 2)%nat /\
  PRF toy_hmac 6 [1] [2; 3] [4] 5
  = Some (Ret (take 5 (rfc5246_P_hash toy_hmac [1] ([2; 3] ++ [4]) n))).
Proof.
  apply (PRF_correct toy_hmac 2 (fun _ _ => eq_refl) ltac:(lia) [1] [2; 3] [4] 5 6);
    [reflexivity|apply Nat.leb_le; reflexivity|lia].
Defined.
