(* ===== verification/FlowTable.v ===== *)
(** * The connection hash tables (fhash.c of the SmartNIC and of the host)

    Both programs keep their live connections in a table of 1024 chained bins
    indexed by Jenkins' one-at-a-time hash of the flow. The two tables differ
    in their key (the 4-tuple on the SmartNIC, the client address and port on
    the host) and in nothing else, so the operations are written once over a
    class of keys that hash into the bins; the two programs' hash functions
    are its instances. The theorems say that a table refines a finite map
    from keys to connections. *)

From S2P Require Import Prelude.

Definition NUM_BINS : Z := 1024.

(** What the table needs of a key. *)
Class BinHash (K : Type) := {
  bin : K -> Z;
  bin_range : forall k, 0 <= bin k < NUM_BINS;
}.

(** ** Jenkins' one-at-a-time hash, on 32-bit words *)

Definition jenkins_byte (hash b : Z) : Z :=
  let hash := u32 (hash + b) in
  let hash := u32 (hash + u32 (Z.shiftl hash 10)) in
  Z.lxor hash (Z.shiftr hash 6).

Definition jenkins (key : bytes) : Z :=
  let hash := foldl jenkins_byte 0 key in
  let hash := u32 (hash + u32 (Z.shiftl hash 3)) in
  let hash := Z.lxor hash (Z.shiftr hash 11) in
  u32 (hash + u32 (Z.shiftl hash 15)).

(** The flow of a connection, in the field order of [tcp_connection_t]. *)
Record flow := mk_flow {
  client_ip : Z;
  server_ip : Z;
  client_port : Z;
  server_port : Z;
}.
#[export] Instance flow_eq_dec : EqDecision flow.
Proof. solve_decision. Defined.
#[export] Instance flow_countable : Countable flow.
Proof.
  apply (inj_countable' (fun f => (client_ip f, server_ip f, client_port f, server_port f))
           (fun '(a, b, c, d) => mk_flow a b c d)).
  by intros [].
Defined.

(** [calculate_hash] of the SmartNIC: the 12 bytes from [client_ip] on. *)
Definition calculate_hash (f : flow) : Z :=
  let key := le_bytes 4 (client_ip f) ++ le_bytes 4 (server_ip f)
             ++ le_bytes 2 (client_port f) ++ le_bytes 2 (server_port f) in
  Z.land (jenkins key) (NUM_BINS - 1).

(** The host's key: [meta_info.client_ip] and [meta_info.client_port]. *)
Record client := mk_client {
  cl_ip : Z;
  cl_port : Z;
}.
#[export] Instance client_eq_dec : EqDecision client.
Proof. solve_decision. Defined.
#[export] Instance client_countable : Countable client.
Proof.
  apply (inj_countable' (fun f => (cl_ip f, cl_port f)) (fun '(a, b) => mk_client a b)).
  by intros [].
Defined.

(** [calculate_hash] of the host: a 6-byte key. *)
Definition calculate_hash_host (f : client) : Z :=
  let key := le_bytes 4 (cl_ip f) ++ le_bytes 2 (cl_port f) in
  Z.land (jenkins key) (NUM_BINS - 1).

Lemma land_bins_range z : 0 <= Z.land z (NUM_BINS - 1) < NUM_BINS.
Proof.
  unfold NUM_BINS. replace (1024 - 1) with (Z.ones 10) by done.
  rewrite Z.land_ones by lia. apply Z.mod_pos_bound. lia.
Qed.

#[export] Instance flow_bin : BinHash flow :=
  {| bin := calculate_hash; bin_range f := land_bins_range _ |}.
#[export] Instance client_bin : BinHash client :=
  {| bin := calculate_hash_host; bin_range f := land_bins_range _ |}.

(** ** The table *)

(** [hashtable_t]: the elements of a bin are connection identifiers; their
    keys are fields of the connections, read through [key_of]. *)
Record hashtable := mk_hashtable {
  bins : Z;
  ht_table : list (list nat);
  ht_count : Z;
}.

(** [create_ht] ([calloc] does not fail in the model). *)
Definition create_ht (n : Z) : hashtable :=
  mk_hashtable n (replicate (Z.to_nat n) []) 0.

Section ops.
Context {K : Type} `{Countable K} `{BinHash K}.
Context (key_of : nat -> option K).

(** [ht_insert]: the item is appended to the bin of its own key. *)
Definition ht_insert (ht : hashtable) (item : nat) : res hashtable :=
  match key_of item with
  | None => Fault Null_deref
  | Some k =>
      let idx := bin k in
      if negb ((0 <=? idx) && (idx <? NUM_BINS)) then Fault Assert_failed else
      match ht_table ht !! Z.to_nat idx with
      | None => Fault Out_of_bounds
      | Some b => Ret (mk_hashtable (bins ht)
                         (<[Z.to_nat idx := b ++ [item]]> (ht_table ht)) (ht_count ht + 1))
      end
  end.

(** [ht_remove]. *)
Definition ht_remove (ht : hashtable) (item : nat) : res hashtable :=
  match key_of item with
  | None => Fault Null_deref
  | Some k =>
      let idx := bin k in
      match ht_table ht !! Z.to_nat idx with
      | None => Fault Out_of_bounds
      | Some b =>
          if decide (item ∈ b) then
            Ret (mk_hashtable (bins ht)
                   (<[Z.to_nat idx := tq_remove item b]> (ht_table ht)) (ht_count ht - 1))
          else Fault Bad_link
      end
  end.

(** The walk of [ht_search] over a bin; [idle] is the assertion of the
    SmartNIC's version, that no element is in state [TCP_SESSION_IDLE]. *)
Fixpoint ht_walk (idle : nat -> bool) (k : K) (l : list nat) : res (option nat) :=
  match l with
  | [] => Ret None
  | walk :: l' =>
      if idle walk then Fault Assert_failed
      else if decide (key_of walk = Some k) then Ret (Some walk)
      else ht_walk idle k l'
  end.

(** [ht_search]. *)
Definition ht_search (idle : nat -> bool) (ht : hashtable) (k : K) : res (option nat) :=
  match ht_table ht !! Z.to_nat (bin k) with
  | None => Fault Out_of_bounds
  | Some b => ht_walk idle k b
  end.

(** ** Refinement to a finite map *)

(** The table represents the map [m]. *)
Record table_rep (ht : hashtable) (m : gmap K nat) : Prop := mk_table_rep {
  rep_len : length (ht_table ht) = Z.to_nat NUM_BINS;
  rep_sound : forall i b x, ht_table ht !! i = Some b -> x ∈ b ->
    exists k, key_of x = Some k /\ m !! k = Some x /\ i = Z.to_nat (bin k);
  rep_complete : forall k x, m !! k = Some x ->
    key_of x = Some k /\ exists b, ht_table ht !! Z.to_nat (bin k) = Some b /\ x ∈ b;
  rep_nodup : forall i b, ht_table ht !! i = Some b -> NoDup b;
  rep_count : ht_count ht = Z.of_nat (base.size m);
}.

Lemma bin_lookup ht m k : table_rep ht m -> exists b, ht_table ht !! Z.to_nat (bin k) = Some b.
Proof.
  intros Hr. apply lookup_lt_is_Some_2. rewrite (rep_len _ _ Hr).
  pose proof (bin_range k). unfold NUM_BINS in *. lia.
Qed.

(** Two keys bound to one connection are the same key. *)
Lemma rep_inj ht m k k' x : table_rep ht m -> m !! k = Some x -> m !! k' = Some x -> k = k'.
Proof.
  intros Hr H1 H2. apply (rep_complete _ _ Hr) in H1 as [H1 _].
  apply (rep_complete _ _ Hr) in H2 as [H2 _]. congruence.
Qed.

(** A pool and a table that share out the objects hold each of them once. *)
Lemma partition_perm ht m (objects : gset nat) (pool : list nat) :
  table_rep ht m -> NoDup pool -> (forall i, i ∈ pool -> i ∈ objects) ->
  (forall k i, m !! k = Some i -> i ∈ objects /\ i ∉ pool) ->
  (forall i, i ∈ objects -> i ∈ pool \/ exists k, m !! k = Some i) ->
  elements objects ≡ₚ pool ++ (map_to_list m).*2.
Proof.
  intros Hr Hnd Hp Hm Hc. apply NoDup_Permutation; [apply NoDup_elements| |].
  - apply NoDup_app. split; [done|]. split.
    + intros i Hi ([k j] & -> & Hk)%list_elem_of_fmap. apply elem_of_map_to_list in Hk.
      by destruct (Hm k j Hk).
    + apply (NoDup_fmap_2_strong snd); [|apply NoDup_map_to_list].
      intros [k i] [k' i'] Hk%elem_of_map_to_list Hk'%elem_of_map_to_list. simpl. intros ->.
      f_equal. exact (rep_inj _ m k k' i' Hr Hk Hk').
  - intros i. rewrite elem_of_elements, elem_of_app, list_elem_of_fmap. split.
    + intros [?|[k Hk]]%Hc; [by left|]. right. exists (k, i). by rewrite elem_of_map_to_list.
    + intros [Hi|([k j] & -> & Hk%elem_of_map_to_list)]; [by apply Hp|]. by apply (Hm k j).
Qed.

(** The members of the table are the range of the map. *)
Lemma rep_member ht m x k b : table_rep ht m -> key_of x = Some k ->
  ht_table ht !! Z.to_nat (bin k) = Some b -> x ∈ b <-> m !! k = Some x.
Proof.
  intros Hr Hk Hb. split.
  - intros Hx. destruct (rep_sound _ _ Hr _ _ _ Hb Hx) as (k' & ? & ? & _). congruence.
  - intros Hm. destruct (rep_complete _ _ Hr _ _ Hm) as (_ & b' & ? & ?). congruence.
Qed.

Lemma walk_spec idle k l :
  (forall x, x ∈ l -> idle x = false) ->
  ht_walk idle k l = Ret (head (filter (fun x => key_of x = Some k) l)).
Proof.
  induction l as [|x l IH]; intros Hi; [done|]. cbn [ht_walk]. rewrite Hi by set_solver.
  rewrite filter_cons. case_decide; [done|]. apply IH. set_solver.
Qed.

Lemma ht_insert_spec ht m x k :
  table_rep ht m -> key_of x = Some k -> m !! k = None ->
  exists ht', ht_insert ht x = Ret ht' /\ table_rep ht' (<[k := x]> m).
Proof.
  intros Hr Hk Hn. unfold ht_insert. rewrite Hk. pose proof (bin_range k).
  rewrite (proj2 (Z.leb_le _ _)), (proj2 (Z.ltb_lt _ _)) by lia. simpl.
  destruct (bin_lookup ht m k Hr) as [b Hb]. rewrite Hb. eexists. split; [done|].
  assert (Z.to_nat (bin k) < length (ht_table ht))%nat by (by eapply lookup_lt_Some).
  assert (x ∉ b) as Hx by (rewrite (rep_member ht m) by done; congruence).
  destruct Hr as [Hl Hs Hc Hd Hct]. split; simpl.
  - by rewrite length_insert.
  - intros i b' y [(<- & <- & _)|[Hne Hb']]%list_lookup_insert_Some Hy.
    + apply elem_of_app in Hy as [Hy| ->%list_elem_of_singleton].
      * destruct (Hs _ _ _ Hb Hy) as (k' & ? & ? & ?). exists k'. split; [done|].
        split; [|done]. rewrite lookup_insert_ne; [done|]. congruence.
      * exists k. by rewrite lookup_insert_eq.
    + destruct (Hs _ _ _ Hb' Hy) as (k' & ? & ? & ?). exists k'. split; [done|].
      split; [|done]. rewrite lookup_insert_ne; [done|]. congruence.
  - intros k' y [(<- & <-)|[Hne Hm]]%lookup_insert_Some.
    + split; [done|]. rewrite list_lookup_insert_eq by done. eexists. split; [done|]. set_solver.
    + destruct (Hc _ _ Hm) as (? & b' & Hb' & ?). split; [done|].
      destruct (decide (Z.to_nat (bin k) = Z.to_nat (bin k'))) as [E|E].
      * rewrite <-E in *. rewrite list_lookup_insert_eq by done. eexists. split; [done|]. set_solver.
      * rewrite list_lookup_insert_ne by done. by eauto.
  - intros i b' [(<- & <- & _)|[Hne Hb']]%list_lookup_insert_Some; [|by eauto].
    apply NoDup_app. split; [by eauto|]. split; [set_solver|]. apply NoDup_singleton.
  - rewrite map_size_insert_None by done. lia.
Qed.

Lemma ht_remove_spec ht m x k :
  table_rep ht m -> key_of x = Some k -> m !! k = Some x ->
  exists ht', ht_remove ht x = Ret ht' /\ table_rep ht' (delete k m).
Proof.
  intros Hr Hk Hm. unfold ht_remove. rewrite Hk.
  destruct (bin_lookup ht m k Hr) as [b Hb]. rewrite Hb.
  rewrite decide_True by (by apply (rep_member ht m x k b)). eexists. split; [done|].
  assert (Z.to_nat (bin k) < length (ht_table ht))%nat by (by eapply lookup_lt_Some).
  destruct Hr as [Hl Hs Hc Hd Hct]. split; simpl.
  - by rewrite length_insert.
  - intros i b' y [(<- & <- & _)|[Hne Hb']]%list_lookup_insert_Some Hy.
    + apply elem_of_tq_remove in Hy as [Hy Hyx]; [|by eauto].
      destruct (Hs _ _ _ Hb Hy) as (k' & ? & ? & ?). exists k'. split; [done|].
      split; [|done]. rewrite lookup_delete_ne; [done|]. congruence.
    + destruct (Hs _ _ _ Hb' Hy) as (k' & ? & ? & ?). exists k'. split; [done|].
      split; [|done]. rewrite lookup_delete_ne; [done|]. congruence.
  - intros k' y [Hne Hm']%lookup_delete_Some. destruct (Hc _ _ Hm') as (? & b' & Hb' & ?).
    split; [done|]. destruct (decide (Z.to_nat (bin k) = Z.to_nat (bin k'))) as [E|E].
    + rewrite <-E in *. rewrite list_lookup_insert_eq by done. eexists. split; [done|].
      apply elem_of_tq_remove; [by eauto|]. split; congruence.
    + rewrite list_lookup_insert_ne by done. by eauto.
  - intros i b' [(<- & <- & _)|[Hne Hb']]%list_lookup_insert_Some; [|by eauto].
    apply NoDup_tq_remove. by eauto.
  - rewrite map_size_delete, Hm.
    pose proof (map_size_ne_0_lookup_2 m k (mk_is_Some _ _ Hm)). lia.
Qed.

Lemma ht_search_spec idle ht m k :
  table_rep ht m -> (forall k x, m !! k = Some x -> idle x = false) ->
  ht_search idle ht k = Ret (m !! k).
Proof.
  intros Hr Hi. unfold ht_search. destruct (bin_lookup ht m k Hr) as [b Hb]. rewrite Hb.
  rewrite walk_spec.
  2: { intros x Hx. destruct (rep_sound _ _ Hr _ _ _ Hb Hx) as (k' & _ & ? & _). by eauto. }
  f_equal. destruct (filter _ b) as [|x l] eqn:E; simpl.
  - destruct (m !! k) as [y|] eqn:Hm; [|done]. exfalso.
    pose proof (proj1 (rep_complete _ _ Hr _ _ Hm)) as Hy.
    assert (y ∈ filter (fun x => key_of x = Some k) b) as Hf; [|rewrite E in Hf; set_solver].
    apply list_elem_of_filter. split; [done|]. by apply (rep_member ht m y k b).
  - assert (x ∈ filter (fun x => key_of x = Some k) b) as Hx by (rewrite E; set_solver).
    apply list_elem_of_filter in Hx as [Hk Hx]. symmetry. by apply (rep_member ht m x k b).
Qed.
End ops.

Lemma create_ht_rep {K} `{Countable K} `{BinHash K} (key_of : nat -> option K) :
  table_rep key_of (create_ht NUM_BINS) ∅.
Proof.
  split; cbn [ht_table ht_count create_ht].
  - apply length_replicate.
  - intros i b x [-> _]%lookup_replicate. set_solver.
  - intros k x. by rewrite lookup_empty.
  - intros i b [-> _]%lookup_replicate. constructor.
  - done.
Qed.

(** Only the keys of the stored connections matter. *)
Lemma table_rep_ext {K} `{Countable K} `{BinHash K} (k1 k2 : nat -> option K) ht m :
  (forall k x, m !! k = Some x -> k2 x = k1 x) -> table_rep k1 ht m -> table_rep k2 ht m.
Proof.
  intros He [Hl Hs Hc Hd Hct]. split; [done| | |done|done].
  - intros i b x Hb Hx. destruct (Hs _ _ _ Hb Hx) as (k & ? & Hm & ?). exists k.
    by rewrite (He _ _ Hm).
  - intros k x Hm. rewrite (He _ _ Hm). by apply Hc.
Qed.

Section refinement.
Context {K : Type} `{Countable K} `{BinHash K}.
Context (key_of : nat -> option K) (idle : nat -> bool).

(** C27: on a table that represents a finite map from flows to connections,
    [ht_insert] of a connection with a fresh flow inserts into the map,
    [ht_remove] of a stored connection deletes from it, and [ht_search]
    returns exactly its lookup; none of the three can fault. A new table
    represents the empty map. *)
Theorem flow_table_refines_map ht (m : gmap K nat) :
  table_rep key_of ht m -> (forall k x, m !! k = Some x -> idle x = false) ->
  (forall x k, key_of x = Some k -> m !! k = None ->
     exists ht', ht_insert key_of ht x = Ret ht' /\ table_rep key_of ht' (<[k := x]> m)) /\
  (forall x k, m !! k = Some x ->
     exists ht', ht_remove key_of ht x = Ret ht' /\ table_rep key_of ht' (delete k m)) /\
  (forall k, ht_search key_of idle ht k = Ret (m !! k)) /\
  table_rep key_of (create_ht NUM_BINS) ∅.
Proof.
  intros Hr Hi. split; [|split; [|split]].
  - intros x k. by apply ht_insert_spec.
  - intros x k Hm. eapply ht_remove_spec; [done| |done]. by apply (rep_complete _ _ _ Hr).
  - intros k. by apply ht_search_spec.
  - apply create_ht_rep.
Qed.
End refinement.

(** Three connections of the SmartNIC, the first two of one client host. *)
Definition sample_key (x : nat) : option flow :=
  match x with
  | 0%nat => Some (mk_flow 0x0100000a 0x0200000a 0x5000 0xbb01)
  | 1%nat => Some (mk_flow 0x0100000a 0x0200000a 0x5100 0xbb01)
  | 2%nat => Some (mk_flow 0x0900000a 0x0200000a 0x5000 0xbb01)
  | _ => None
  end.

Lemma flow_table_refines_map_witness :
  ht_search sample_key (fun _ => false) (create_ht NUM_BINS) (mk_flow 1 2 3 4) = Ret None /\
  exists ht', ht_insert sample_key (create_ht NUM_BINS) 1%nat = Ret ht' /\
    table_rep sample_key ht' {[ mk_flow 0x0100000a 0x0200000a 0x5100 0xbb01 := 1%nat ]}.
Proof.
  destruct (flow_table_refines_map sample_key (fun _ => false) (create_ht NUM_BINS) ∅)
    as (Hins & _ & Hs & _); [apply create_ht_rep|reflexivity|].
  split; [apply Hs|]. apply Hins; reflexivity.
Defined.

(** The sample connections, inserted and looked up by evaluation. *)
Example sample_lookup :
  res_bind (ht_insert sample_key (create_ht NUM_BINS) 0%nat) (fun h0 =>
  res_bind (ht_insert sample_key h0 1%nat) (fun h1 =>
  res_bind (ht_insert sample_key h1 2%nat) (fun h2 =>
  res_bind (ht_remove sample_key h2 0%nat) (fun h3 =>
  Ret (ht_search sample_key (fun _ => false) h2 (mk_flow 0x0100000a 0x0200000a 0x5000 0xbb01),
       ht_search sample_key (fun _ => false) h3 (mk_flow 0x0100000a 0x0200000a 0x5000 0xbb01),
       ht_search sample_key (fun _ => false) h3 (mk_flow 0x0900000a 0x0200000a 0x5000 0xbb01),
       ht_count h3)))))
  = Ret (Ret (Some 0%nat), Ret None, Ret (Some 2%nat), 2).
Proof. vm_compute. reflexivity. Qed.
