(* ===== verification/Operand.v ===== *)
(** * Multi-precision operands for the PKA engine (third_party/pka/pka_helper.c)

    The public-key accelerator takes numbers as [pka_operand_t] buffers in
    either byte order. This file models the conversions between byte strings,
    OpenSSL bignums and operands, the length, comparison and random-number
    helpers, and the loading of the ECDSA key (cert.c). The theorems relate
    each helper to the number an operand denotes. *)

From S2P Require Import Prelude.

(** [pka_operand_t]; [buf_ptr] is the whole allocated buffer. *)
Record pka_operand := mk_operand {
  buf_ptr : bytes;
  buf_len : Z;
  actual_len : Z;
  is_encrypted : Z;
  big_endian : bool;
}.

(** An operand fresh from [memset(operand, 0, sizeof(pka_operand_t))]. *)
Definition operand0 : pka_operand := mk_operand [] 0 0 0 false.

(** [memcpy] and [memset] to zero at the start of a buffer. *)
Definition memcpy (dest src : bytes) (n : Z) : res bytes :=
  if (n <=? Z.of_nat (length dest)) && (n <=? Z.of_nat (length src))
  then Ret (take (Z.to_nat n) src ++ drop (Z.to_nat n) dest)
  else Fault Out_of_bounds.
Definition memset0 (dest : bytes) (n : Z) : res bytes :=
  if n <=? Z.of_nat (length dest)
  then Ret (zeros (Z.to_nat n) ++ drop (Z.to_nat n) dest)
  else Fault Out_of_bounds.

(** ** Conversions *)

Definition byte_swap_copy (dest src : bytes) (len : Z) : res bytes :=
  for_loop (Z.to_nat len) 0
    (fun idx d => res_bind (ld src (len - 1 - Z.of_nat idx)) (fun b => st d (Z.of_nat idx) b))
    dest.

Definition operand_byte_copy (operand : pka_operand) (big_endian_buf : bytes) (len : Z)
    : res pka_operand :=
  if negb (len <=? buf_len operand) then Fault Assert_failed else
  res_bind (if big_endian operand then memcpy (buf_ptr operand) big_endian_buf len
            else byte_swap_copy (buf_ptr operand) big_endian_buf len)
    (fun buf => Ret (operand <| buf_ptr := buf |> <| actual_len := len |>)).

Definition copy_operand (original copy : pka_operand) : res pka_operand :=
  res_bind (memcpy (buf_ptr copy) (buf_ptr original) (actual_len original))
    (fun buf => Ret (original <| buf_ptr := buf |>)).

Definition string_to_operand (str : bytes) (op : pka_operand) (len : Z) (endian : bool)
    : res pka_operand :=
  res_bind (memset0 (buf_ptr op) (buf_len op)) (fun buf0 =>
  res_bind
    (for_loop (Z.to_nat len) 0
       (fun i buf => res_bind (ld str (Z.of_nat i)) (fun b =>
          st buf (if endian then Z.of_nat i else len - 1 - Z.of_nat i) b)) buf0)
    (fun buf => Ret (mk_operand buf (buf_len op) len 0 endian))).

Definition operand_to_string (op : pka_operand) (str : bytes) (max_len : Z) : res bytes :=
  let len := Z.min max_len (actual_len op) in
  for_loop (Z.to_nat len) 0
    (fun i s =>
       res_bind (ld (buf_ptr op) (if big_endian op then Z.of_nat i else len - 1 - Z.of_nat i))
         (fun b => st s (Z.of_nat i) b))
    str.

(** [make_operand_buf], [make_operand] and [set_pka_operand]. *)
Definition make_operand_buf (operand : pka_operand) (buf : bytes) (len : Z) : res pka_operand :=
  operand_byte_copy
    (mk_operand (zeros (Z.to_nat len)) len len (is_encrypted operand) (big_endian operand)) buf len.

Definition make_operand (buf : bytes) (len : Z) (be : bool) : res pka_operand :=
  make_operand_buf (operand0 <| big_endian := be |>) buf len.

Definition set_pka_operand (operand : pka_operand) (buf : bytes) (len : Z) (be : bool)
    : res pka_operand :=
  let b0 := zeros (Z.to_nat len) in
  res_bind (if be then memcpy b0 buf len else byte_swap_copy b0 buf len)
    (fun b => Ret (mk_operand b len len (is_encrypted operand) be)).

(** *** OpenSSL bignums: [top] of the [dmax] 64-bit limbs are in use. *)
Record pka_bignum := mk_bignum {
  bn_d : option (list Z);
  bn_top : Z;
  bn_dmax : Z;
}.
Definition PKA_BYTES : Z := 8.

(** The bytes a limb array occupies. *)
Definition limb_bytes (d : list Z) : bytes := d ≫= le_bytes 8.

Definition make_operand_rsa (d : option (list Z)) (len max_len : Z) (be : bool)
    : res (option pka_operand) :=
  match d with
  | None => Ret None
  | Some limbs =>
      if max_len =? 0 then Ret None else
      res_bind (operand_byte_copy (mk_operand (zeros (Z.to_nat max_len)) max_len 0 0 be)
                  (limb_bytes limbs) len) (fun op => Ret (Some op))
  end.

Definition bignum_to_operand_rsa (bignum : option pka_bignum) : res (option pka_operand) :=
  match bignum with
  | None => Ret None
  | Some bn =>
      make_operand_rsa (bn_d bn) (u32 (bn_top bn * PKA_BYTES)) (u32 (bn_dmax bn * PKA_BYTES)) true
  end.

(** [make_operand_ecdsa] records [buf_len], not the allocated size. *)
Definition make_operand_ecdsa (d : option (list Z)) (len max_len : Z) (be : bool)
    : res (option pka_operand) :=
  match d with
  | None => Ret None
  | Some limbs =>
      if max_len =? 0 then Ret None else
      res_bind (operand_byte_copy (mk_operand (zeros (Z.to_nat max_len)) len 0 0 be)
                  (limb_bytes limbs) len) (fun op => Ret (Some op))
  end.

Definition bignum_to_operand (bignum : option pka_bignum) : res (option pka_operand) :=
  match bignum with
  | None => Ret None
  | Some bn =>
      make_operand_ecdsa (bn_d bn) (u32 (bn_top bn * PKA_BYTES)) (u32 (bn_dmax bn * PKA_BYTES)) true
  end.

(** [pka_load_key_ecdsa]: the field [ecdsa.priv_key] of the new [pka_t]. *)
Definition pka_load_key_ecdsa (priv : option pka_bignum) : res (option pka_operand) :=
  match priv with
  | None => Ret None
  | Some bn =>
      res_bind (bignum_to_operand (Some bn)) (fun o =>
      match o with
      | None => Fault Null_deref
      | Some op => Ret (Some (op <| big_endian := false |>))
      end)
  end.

(** ** Lengths *)

(** [for (bit_num = 7; bit_num >= 0; bit_num--)]. *)
Fixpoint bits_in_byte_loop (n : nat) (byte : Z) : Z :=
  match n with
  | O => 0
  | S n' =>
      let bit_num := Z.of_nat n' in
      if negb (Z.land byte (Z.shiftl 1 bit_num) =? 0) then bit_num + 1
      else bits_in_byte_loop n' byte
  end.
Definition bits_in_byte (byte : Z) : Z :=
  if byte =? 0 then 0 else bits_in_byte_loop 8 byte.

(** [while ((byte_ptr[0] == 0) && (1 <= byte_len))]: the byte is read before
    the length is tested. *)
Fixpoint skip_zeros (buf : bytes) (dir p : Z) (byte_len : nat) : res (Z * nat) :=
  res_bind (ld buf p) (fun b =>
  if b =? 0 then
    match byte_len with
    | O => Ret (p, O)
    | S n => skip_zeros buf dir (p + dir) n
    end
  else Ret (p, byte_len)).

(** [while ((1 <= byte_len) && (byte_ptr[0] == 0))]. *)
Fixpoint skip_zeros_safe (buf : bytes) (dir p : Z) (byte_len : nat) : res nat :=
  match byte_len with
  | O => Ret O
  | S n => res_bind (ld buf p) (fun b =>
           if b =? 0 then skip_zeros_safe buf dir (p + dir) n else Ret (S n))
  end.

(** The pointer to the most significant byte and the direction in which the
    less significant ones lie. *)
Definition msb_ptr (op : pka_operand) : Z := if big_endian op then 0 else actual_len op - 1.
Definition msb_dir (op : pka_operand) : Z := if big_endian op then 1 else -1.

Definition operand_bit_len (op : pka_operand) : res Z :=
  let byte_len := actual_len op in
  if byte_len =? 0 then Ret 0 else
  res_bind (ld (buf_ptr op) (msb_ptr op)) (fun b =>
  if negb (b =? 0) then Ret (8 * (byte_len - 1) + bits_in_byte b) else
  res_bind (skip_zeros (buf_ptr op) (msb_dir op) (msb_ptr op) (Z.to_nat byte_len))
    (fun '(p, n) =>
       if (Z.of_nat n =? 0) then Ret 0
       else res_bind (ld (buf_ptr op) p)
              (fun b => Ret (8 * (Z.of_nat n - 1) + bits_in_byte b)))).

Definition operand_byte_len (op : pka_operand) : res Z :=
  let byte_len := actual_len op in
  if byte_len =? 0 then Ret 0 else
  res_bind (ld (buf_ptr op) (msb_ptr op)) (fun b =>
  if negb (b =? 0) then Ret byte_len else
  res_bind (skip_zeros_safe (buf_ptr op) (msb_dir op) (msb_ptr op) (Z.to_nat byte_len))
    (fun n => Ret (Z.of_nat n))).

Definition is_zero (op : pka_operand) : res bool :=
  res_bind (operand_byte_len op) (fun len =>
  if len =? 0 then Ret true
  else if len =? 1 then res_bind (ld (buf_ptr op) 0) (fun b => Ret (b =? 0))
  else Ret false).

(** ** Comparison *)

Inductive pka_cmp_code : Type :=
| RC_COMPARE_EQUAL
| RC_LEFT_IS_SMALLER
| RC_RIGHT_IS_SMALLER.

(** [while ((buf_ptr[0] == 0) && (2 <= len))], moving down. *)
Fixpoint skip_leading (buf : bytes) (p : Z) (len : nat) : res (Z * nat) :=
  res_bind (ld buf p) (fun b =>
  if b =? 0 then
    match len with
    | S ((S _) as n) => skip_leading buf (p - 1) n
    | _ => Ret (p, len)
    end
  else Ret (p, len)).

Fixpoint compare_loop (n : nat) (l r : bytes) (pl pr : Z) : res pka_cmp_code :=
  match n with
  | O => Ret RC_COMPARE_EQUAL
  | S n' =>
      res_bind (ld l pl) (fun bl => res_bind (ld r pr) (fun br =>
      if bl <? br then Ret RC_LEFT_IS_SMALLER
      else if br <? bl then Ret RC_RIGHT_IS_SMALLER
      else compare_loop n' l r (pl - 1) (pr - 1)))
  end.

Definition pki_compare (left right : pka_operand) : res pka_cmp_code :=
  res_bind (is_zero left) (fun zl => res_bind (is_zero right) (fun zr =>
  if zl then (if zr then Ret RC_COMPARE_EQUAL else Ret RC_LEFT_IS_SMALLER)
  else if zr then Ret RC_RIGHT_IS_SMALLER else
  res_bind (skip_leading (buf_ptr left) (actual_len left - 1) (Z.to_nat (actual_len left)))
    (fun '(pl, nl) =>
  res_bind (skip_leading (buf_ptr right) (actual_len right - 1) (Z.to_nat (actual_len right)))
    (fun '(pr, nr) =>
  if (nl <? nr)%nat then Ret RC_LEFT_IS_SMALLER
  else if (nr <? nl)%nat then Ret RC_RIGHT_IS_SMALLER
  else compare_loop nl (buf_ptr left) (buf_ptr right) pl pr)))).

(** [get_msb_idx]; an unsigned index that may wrap below zero. *)
Fixpoint msb_loop (buf : bytes) (dir p : Z) (msb : Z) (byte_len : nat) : res Z :=
  res_bind (ld buf p) (fun b =>
  if b =? 0 then
    match byte_len with
    | O => Ret msb
    | S n => msb_loop buf dir (p + dir) (u32 (msb + dir)) n
    end
  else Ret msb).
Definition get_msb_idx (op : pka_operand) : res Z :=
  res_bind (ld (buf_ptr op) (msb_ptr op)) (fun b =>
  if negb (b =? 0) then Ret (u32 (msb_ptr op))
  else msb_loop (buf_ptr op) (msb_dir op) (msb_ptr op) (u32 (msb_ptr op))
         (Z.to_nat (actual_len op))).

(** ** Random numbers

    [get_rand_bytes] and [pka_get_rand_bytes] fill a prefix of a buffer with
    the bytes a device returns; [rte_rand] returns a 64-bit word. *)

Definition fill (buf : bytes) (rand : bytes) : res bytes :=
  memcpy buf rand (Z.of_nat (length rand)).

(** [rand_non_zero_integer]: the [do]-[while] takes successive draws from the
    device; [None] when the draws run out. *)
Fixpoint draw_non_zero (draws : list bytes) (op : pka_operand) : option (res pka_operand) :=
  match draws with
  | [] => None
  | d :: draws' =>
      match res_bind (fill (buf_ptr op) d) (fun b =>
              res_bind (is_zero (op <| buf_ptr := b |>)) (fun z => Ret (b, z))) with
      | Fault f => Some (Fault f)
      | Ret (b, true) => draw_non_zero draws' (op <| buf_ptr := b |>)
      | Ret (b, false) => Some (Ret (op <| buf_ptr := b |>))
      end
  end.

Definition reduce_msb (result max_plus_1 : pka_operand) : res pka_operand :=
  res_bind (pki_compare result max_plus_1) (fun c =>
  match c with
  | RC_LEFT_IS_SMALLER => Ret result
  | _ =>
      res_bind (get_msb_idx max_plus_1) (fun mi =>
      res_bind (ld (buf_ptr max_plus_1) mi) (fun max_plus_msb =>
      if max_plus_msb =? 0 then Fault Assert_failed else
      res_bind (get_msb_idx result) (fun ri =>
      res_bind (ld (buf_ptr result) ri) (fun result_msb =>
      res_bind (st (buf_ptr result) ri (result_msb mod max_plus_msb)) (fun b =>
      Ret (result <| buf_ptr := b |>))))))
  end).

Definition rand_non_zero_integer (ring_order : bool) (draws : list bytes)
    (result max_plus_1 : pka_operand) : option (res pka_operand) :=
  match operand_byte_len max_plus_1 with
  | Fault f => Some (Fault f)
  | Ret byte_len =>
      match draw_non_zero draws (result <| big_endian := ring_order |> <| actual_len := byte_len |>) with
      | None => None
      | Some r => Some (res_bind r (fun result => reduce_msb result max_plus_1))
      end
  end.

(** [rand_non_zero_integer_wo_syscall]: four 64-bit draws at a time until the
    number is in range; [fuel] bounds the [do]-[while]. *)
Fixpoint rand_wo_syscall_loop (fuel : nat) (rte_rand : nat -> Z) (i : nat)
    (result max_plus_1 : pka_operand) : option (res pka_operand) :=
  match fuel with
  | O => None
  | S fuel' =>
      let d := limb_bytes (rte_rand <$> seq i 4) in
      match res_bind (fill (buf_ptr result) d) (fun b =>
              let r := result <| buf_ptr := b |> in
              res_bind (is_zero r) (fun z =>
              if z then Ret (r, true) else
              res_bind (pki_compare r max_plus_1) (fun c =>
              Ret (r, match c with RC_LEFT_IS_SMALLER => false | _ => true end)))) with
      | Fault f => Some (Fault f)
      | Ret (r, true) => rand_wo_syscall_loop fuel' rte_rand (i + 4) r max_plus_1
      | Ret (r, false) => Some (Ret r)
      end
  end.
Definition rand_non_zero_integer_wo_syscall (fuel : nat) (ring_order : bool) (order_len : Z)
    (rte_rand : nat -> Z) (i : nat) (result max_plus_1 : pka_operand)
    : option (res pka_operand) :=
  rand_wo_syscall_loop fuel rte_rand i
    (result <| big_endian := ring_order |> <| actual_len := order_len |>) max_plus_1.

(** The clamping of RFC 7748, on bytes 0 and 31 of the buffer. *)
Definition clamp (buf : bytes) : res bytes :=
  res_bind (ld buf 0) (fun b0 => res_bind (st buf 0 (Z.land b0 248)) (fun buf =>
  res_bind (ld buf 31) (fun b31 => res_bind (st buf 31 (Z.land b31 127)) (fun buf =>
  res_bind (ld buf 31) (fun b31 => st buf 31 (Z.lor b31 64)))))).

Definition rand_non_zero_integer_w_pka_hwrng_and_clamping (ring_order : bool)
    (pka_get_rand_bytes : Z -> bytes) (result max_plus_1 : pka_operand) : res pka_operand :=
  res_bind (operand_byte_len max_plus_1) (fun len =>
  res_bind (memcpy (buf_ptr result) (pka_get_rand_bytes len) len) (fun b =>
  res_bind (clamp b) (fun b =>
  Ret (mk_operand b (buf_len result) len (is_encrypted result) ring_order)))).

Definition rand_non_zero_integer_w_rte_rand_and_clamping (ring_order : bool) (order_len : Z)
    (rte_rand : nat -> Z) (i : nat) (result : pka_operand) : res pka_operand :=
  res_bind (fill (buf_ptr result) (limb_bytes (rte_rand <$> seq i 4))) (fun b =>
  res_bind (clamp b) (fun b =>
  Ret (mk_operand b (buf_len result) order_len (is_encrypted result) ring_order))).

(** ** The number an operand denotes *)

(** The bytes in use, most significant first. *)
Definition digits (op : pka_operand) : bytes :=
  let d := take (Z.to_nat (actual_len op)) (buf_ptr op) in
  if big_endian op then d else reverse d.
Definition operand_val (op : pka_operand) : Z := be_val (digits op).

Record operand_ok (op : pka_operand) : Prop := mk_operand_ok {
  ok_bytes : bytes_ok (buf_ptr op);
  ok_actual : 0 <= actual_len op <= Z.of_nat (length (buf_ptr op));
}.

(** *** Copy loops

    Storing [v 0 .. v (n-1)] upwards from the start of a buffer, or downwards
    from its [n]-th byte. *)

Lemma copy_up (v : nat -> Z) body n d :
  (forall j d', (j < n)%nat -> body j d' = st d' (Z.of_nat j) (v j)) -> (n <= length d)%nat ->
  for_loop n 0 body d = Ret ((v <$> seq 0 n) ++ drop n d).
Proof.
  intros Hb Hd. destruct (for_loop_fill v Z.of_nat body n d) as (d' & -> & Hl & Hin & Hout);
    [by auto|intros; lia|intros; lia|].
  f_equal. apply list_eq. intros i. destruct (decide (i < n)%nat).
  - rewrite <-(Nat2Z.id i) at 1. rewrite Hin by lia. rewrite lookup_app_l by (rewrite length_fmap, length_seq; lia).
    by rewrite list_lookup_fmap, lookup_seq_lt by lia.
  - rewrite Hout by lia. rewrite lookup_app_r by (rewrite length_fmap, length_seq; lia).
    rewrite lookup_drop, length_fmap, length_seq. f_equal. lia.
Qed.

Lemma copy_down (v : nat -> Z) body n d :
  (forall j d', (j < n)%nat -> body j d' = st d' (Z.of_nat n - 1 - Z.of_nat j) (v j)) ->
  (n <= length d)%nat ->
  for_loop n 0 body d = Ret (reverse (v <$> seq 0 n) ++ drop n d).
Proof.
  intros Hb Hd.
  destruct (for_loop_fill v (fun j => Z.of_nat n - 1 - Z.of_nat j) body n d)
    as (d' & -> & Hl & Hin & Hout); [by auto|intros; lia|intros; lia|].
  assert (length (v <$> seq 0 n) = n) as Hn by (by rewrite length_fmap, length_seq).
  f_equal. apply list_eq. intros i. destruct (decide (i < n)%nat).
  - replace i with (Z.to_nat (Z.of_nat n - 1 - Z.of_nat (n - 1 - i))) at 1 by lia.
    rewrite Hin by lia. rewrite lookup_app_l by (rewrite length_reverse; lia).
    rewrite reverse_lookup by lia. rewrite Hn, list_lookup_fmap, lookup_seq_lt by lia.
    simpl. do 2 f_equal. lia.
  - rewrite Hout by (intros j Hj; lia). rewrite lookup_app_r by (rewrite length_reverse; lia).
    rewrite lookup_drop, length_reverse, Hn. f_equal. lia.
Qed.

Lemma map_rd8_up l n : (n <= length l)%nat -> (rd8 l <$> seq 0 n) = take n l.
Proof.
  intros H. apply list_eq. intros i. destruct (decide (i < n)%nat).
  - rewrite list_lookup_fmap, lookup_seq_lt, lookup_take_lt by lia. simpl.
    by rewrite <-lookup_rd8 by lia.
  - rewrite lookup_ge_None_2 by (rewrite length_fmap, length_seq; lia).
    by rewrite lookup_ge_None_2 by len.
Qed.

Lemma map_rd8_down l n : (n <= length l)%nat ->
  ((fun j => rd8 l (n - 1 - j)%nat) <$> seq 0 n) = reverse (take n l).
Proof.
  intros H. apply list_eq. intros i. destruct (decide (i < n)%nat).
  - rewrite list_lookup_fmap, lookup_seq_lt, reverse_lookup, lookup_take_lt by len. simpl.
    rewrite <-lookup_rd8 by lia. f_equal. len.
  - rewrite lookup_ge_None_2 by (rewrite length_fmap, length_seq; lia).
    by rewrite lookup_ge_None_2 by len.
Qed.

(** *** Conversions *)

Lemma byte_swap_copy_spec dest src len :
  0 <= len <= Z.of_nat (length src) -> len <= Z.of_nat (length dest) ->
  byte_swap_copy dest src len
  = Ret (reverse (take (Z.to_nat len) src) ++ drop (Z.to_nat len) dest).
Proof.
  intros Hs Hd. unfold byte_swap_copy.
  rewrite (copy_up (fun j => rd8 src (Z.to_nat len - 1 - j)%nat)); [|intros j d' Hj|lia].
  - by rewrite map_rd8_down by lia.
  - rewrite ld_in by lia. simpl. do 2 f_equal. lia.
Qed.

(** Both byte orders store the same digits. *)
Lemma string_to_operand_spec str op e :
  (length str <= length (buf_ptr op))%nat -> 0 <= buf_len op <= Z.of_nat (length (buf_ptr op)) ->
  exists op', string_to_operand str op (Z.of_nat (length str)) e = Ret op'
    /\ digits op' = str /\ actual_len op' = Z.of_nat (length str)
    /\ length (buf_ptr op') = length (buf_ptr op) /\ big_endian op' = e.
Proof.
  intros Hl Hb. unfold string_to_operand, memset0. rewrite (proj2 (Z.leb_le _ _)) by lia. simpl.
  rewrite Nat2Z.id. set (z := zeros _ ++ _).
  assert (length z = length (buf_ptr op)) as Hz by (subst z; len).
  assert (for_loop (length str) 0 (fun i buf => res_bind (ld str (Z.of_nat i)) (fun b =>
            st buf (if e then Z.of_nat i else Z.of_nat (length str) - 1 - Z.of_nat i) b)) z
          = Ret ((if e then str else reverse str) ++ drop (length str) z)) as ->.
  { destruct e; [rewrite (copy_up (rd8 str))|rewrite (copy_down (rd8 str))];
      [|intros j d' Hj; by rewrite ld_in, Nat2Z.id by lia|lia
      |  |intros j d' Hj; by rewrite ld_in, Nat2Z.id by lia|lia];
      by rewrite map_rd8_up, firstn_all by lia. }
  simpl. eexists. split; [done|]. unfold digits. simpl. rewrite Nat2Z.id.
  split_and!; [|done| |done].
  - destruct e; rewrite take_app_length' by len; [done|apply reverse_involutive].
  - rewrite length_app, length_drop. destruct e; len.
Qed.

Lemma operand_to_string_spec op str n :
  operand_ok op -> actual_len op <= n -> actual_len op <= Z.of_nat (length str) ->
  operand_to_string op str n = Ret (digits op ++ drop (Z.to_nat (actual_len op)) str).
Proof.
  intros [Hb Ha] Hn Hs. unfold operand_to_string, digits. rewrite Z.min_r by lia.
  destruct (big_endian op).
  - rewrite (copy_up (rd8 (buf_ptr op))); [|intros j d' Hj|lia].
    + by rewrite map_rd8_up by lia.
    + by rewrite ld_in, Nat2Z.id by lia.
  - rewrite (copy_up (fun j => rd8 (buf_ptr op) (Z.to_nat (actual_len op) - 1 - j)%nat));
      [|intros j d' Hj|lia].
    + by rewrite map_rd8_down by lia.
    + rewrite ld_in by lia. simpl. do 2 f_equal. lia.
Qed.

(** *** Digits and numbers *)

Lemma be_val_app l k : be_val (l ++ k) = be_val l * 256 ^ Z.of_nat (length k) + be_val k.
Proof.
  unfold be_val. rewrite reverse_app. generalize (reverse l) as a. intros a.
  rewrite <-(length_reverse k). induction (reverse k) as [|b r IH]; cbn [app le_val length].
  - lia.
  - rewrite IH, Nat2Z.inj_succ, Z.pow_succ_r by lia. lia.
Qed.

Lemma be_val_cons b l : be_val (b :: l) = b * 256 ^ Z.of_nat (length l) + be_val l.
Proof. change (b :: l) with ([b] ++ l). rewrite be_val_app. f_equal. f_equal. unfold be_val. simpl. lia. Qed.

Lemma be_val_range l : bytes_ok l -> 0 <= be_val l < 256 ^ Z.of_nat (length l).
Proof. intros H. unfold be_val. rewrite <-length_reverse. by apply le_val_range, reverse_ok. Qed.

(** Leading zeros do not count. *)
Fixpoint strip (l : bytes) : bytes :=
  match l with
  | [] => []
  | b :: l' => if b =? 0 then strip l' else l
  end.

Lemma be_val_strip l : be_val (strip l) = be_val l.
Proof.
  induction l as [|b l IH]; [done|]. cbn [strip]. destruct (Z.eqb_spec b 0) as [->|]; [|done].
  rewrite IH, be_val_cons. lia.
Qed.
Lemma strip_ok l : bytes_ok l -> bytes_ok (strip l).
Proof. induction 1; simpl; [constructor|]. case_match; [done|by constructor]. Qed.
Lemma length_strip l : (length (strip l) <= length l)%nat.
Proof. induction l as [|b l IH]; simpl; [lia|]. case_match; simpl; lia. Qed.

(** The number of significant digits. *)
Lemma strip_bounds l : bytes_ok l ->
  be_val l < 256 ^ Z.of_nat (length (strip l)) /\
  (strip l = [] \/ 256 ^ (Z.of_nat (length (strip l)) - 1) <= be_val l).
Proof.
  intros Hl. rewrite <-(be_val_strip l). pose proof (strip_ok l Hl) as Hs.
  split; [by apply be_val_range|]. destruct (strip l) as [|b r] eqn:E; [by left|]. right.
  assert (b <> 0) as Hb.
  { clear Hl Hs. induction l as [|c l IH]; simpl in E; [done|].
    destruct (Z.eqb_spec c 0); [by auto|]. by injection E as -> ->. }
  apply Forall_cons in Hs as [Hb8 Hr]. unfold is_u8 in Hb8. pose proof (be_val_range r Hr).
  rewrite be_val_cons. cbn [length]. replace (Z.of_nat (S (length r)) - 1) with (Z.of_nat (length r)) by lia.
  pose proof (Z.pow_pos_nonneg 256 (Z.of_nat (length r))). nia.
Qed.

Lemma strip_nil_iff l : bytes_ok l -> strip l = [] <-> be_val l = 0.
Proof.
  intros Hl. pose proof (strip_bounds l Hl) as [_ Hb]. split.
  - intros E. rewrite <-be_val_strip, E. done.
  - intros E. destruct Hb as [|Hb]; [done|]. destruct (strip l) as [|b r] eqn:Es; [done|].
    exfalso. rewrite E in Hb. cbn [length] in Hb.
    pose proof (Z.pow_pos_nonneg 256 (Z.of_nat (S (length r)) - 1)). lia.
Qed.

Lemma length_digits op : operand_ok op -> length (digits op) = Z.to_nat (actual_len op).
Proof. intros [_ H]. unfold digits. case_match; len. Qed.
Lemma digits_ok op : operand_ok op -> bytes_ok (digits op).
Proof.
  intros [H _]. unfold digits. case_match; [|apply reverse_ok]; by apply Forall_take.
Qed.

(** Walking from the most significant byte reads the digits. *)
Lemma digit_ld op k :
  operand_ok op -> (k < Z.to_nat (actual_len op))%nat ->
  ld (buf_ptr op) (msb_ptr op + msb_dir op * Z.of_nat k) = Ret (rd8 (digits op) k).
Proof.
  intros [_ Ha] Hk. unfold msb_ptr, msb_dir, digits, rd8. destruct (big_endian op).
  - rewrite ld_in by lia. unfold rd8. rewrite lookup_take_lt by lia. do 3 f_equal. lia.
  - rewrite ld_in by lia. unfold rd8. rewrite reverse_lookup by len.
    rewrite lookup_take_lt by len. do 3 f_equal. len.
Qed.

Lemma strip_drop ds n : (n < length ds)%nat ->
  strip (drop n ds) = if rd8 ds n =? 0 then strip (drop (S n) ds) else drop n ds.
Proof.
  intros H. unfold rd8. destruct (lookup_lt_is_Some_2 ds n H) as [b Hb]. rewrite Hb.
  by rewrite (drop_S ds b n Hb).
Qed.

Lemma skip_zeros_safe_spec op k n :
  operand_ok op -> (k + n)%nat = Z.to_nat (actual_len op) ->
  skip_zeros_safe (buf_ptr op) (msb_dir op) (msb_ptr op + msb_dir op * Z.of_nat k) n
  = Ret (length (strip (drop k (digits op)))).
Proof.
  intros Hok. revert k. induction n as [|n IH]; intros k Hk; cbn [skip_zeros_safe].
  - by rewrite drop_ge by (rewrite length_digits by done; lia).
  - rewrite digit_ld by (done || lia). cbn [res_bind].
    rewrite strip_drop by (rewrite length_digits by done; lia).
    case_match.
    + rewrite <-IH by lia. f_equal. lia.
    + f_equal. rewrite length_drop, length_digits by done. lia.
Qed.

Lemma operand_byte_len_spec op :
  operand_ok op -> operand_byte_len op = Ret (Z.of_nat (length (strip (digits op)))).
Proof.
  intros Hok. pose proof (length_digits op Hok) as Hl. pose proof Hok as [_ Ha].
  unfold operand_byte_len. destruct (Z.eqb_spec (actual_len op) 0) as [E|E].
  - rewrite E in Hl. by destruct (digits op).
  - pose proof (digit_ld op 0 Hok ltac:(lia)) as H0. rewrite Z.mul_0_r, Z.add_0_r in H0.
    rewrite H0. cbn [res_bind]. pose proof (strip_drop (digits op) 0 ltac:(lia)) as Hs.
    rewrite drop_0 in Hs. destruct (Z.eqb_spec (rd8 (digits op) 0) 0) as [Ez|Ez]; simpl.
    + pose proof (skip_zeros_safe_spec op 0 (Z.to_nat (actual_len op)) Hok ltac:(lia)) as Hz.
      rewrite Z.mul_0_r, Z.add_0_r in Hz. rewrite Hz. by rewrite drop_0.
    + rewrite Hs. f_equal. lia.
Qed.

Lemma bits_in_byte_spec b : is_u8 b -> bits_in_byte b = if b =? 0 then 0 else Z.log2 b + 1.
Proof.
  assert (Forall (fun b => bits_in_byte b = if b =? 0 then 0 else Z.log2 b + 1) (seqZ 0 256)) as H
    by (apply (bool_decide_unpack _); vm_compute; exact I).
  intros Hb. rewrite Forall_forall in H. apply H, elem_of_seqZ. unfold is_u8 in Hb. lia.
Qed.

Lemma log2_cons b l : is_u8 b -> b <> 0 -> bytes_ok l ->
  Z.log2 (be_val (b :: l)) = 8 * Z.of_nat (length l) + Z.log2 b.
Proof.
  intros Hb Hnz Hl. unfold is_u8 in Hb. pose proof (be_val_range l Hl) as Hr.
  rewrite be_val_cons. change 256 with (2 ^ 8) in *. rewrite <-Z.pow_mul_r in * by lia.
  set (k := 8 * Z.of_nat (length l)) in *. pose proof (Z.log2_spec b ltac:(lia)).
  pose proof (Z.log2_nonneg b). apply Z.log2_unique; [lia|].
  rewrite Z.pow_succ_r by lia. rewrite !Z.pow_add_r by lia. 
  rewrite Z.pow_succ_r in H by lia. nia.
Qed.

(** On a non-zero operand the scanning loop stops at its first digit. *)
Lemma skip_zeros_spec op k n :
  operand_ok op -> (k + n)%nat = Z.to_nat (actual_len op) ->
  strip (drop k (digits op)) <> [] ->
  exists j, (k <= j < Z.to_nat (actual_len op))%nat /\
    skip_zeros (buf_ptr op) (msb_dir op) (msb_ptr op + msb_dir op * Z.of_nat k) n
    = Ret (msb_ptr op + msb_dir op * Z.of_nat j, (Z.to_nat (actual_len op) - j)%nat) /\
    strip (drop k (digits op)) = drop j (digits op) /\ rd8 (digits op) j <> 0.
Proof.
  intros Hok. revert k. induction n as [|n IH]; intros k Hk Hne.
  - rewrite drop_ge in Hne by (rewrite length_digits by done; lia). done.
  - cbn [skip_zeros]. rewrite digit_ld by (done || lia). cbn [res_bind].
    rewrite strip_drop in * by (rewrite length_digits by done; lia).
    destruct (Z.eqb_spec (rd8 (digits op) k) 0) as [E|E].
    + destruct (IH (S k)) as (j & Hj & Hs & ?); [lia|done|]. exists j. split; [lia|].
      split; [|done]. rewrite <-Hs. f_equal. lia.
    + exists k. split; [lia|]. split; [|done]. do 2 f_equal. lia.
Qed.

Lemma operand_bit_len_spec op :
  operand_ok op -> 0 < operand_val op -> operand_bit_len op = Ret (Z.log2 (operand_val op) + 1).
Proof.
  intros Hok Hv. pose proof (length_digits op Hok) as Hl. pose proof (digits_ok op Hok) as Hd.
  assert (strip (digits op) <> []) as Hne by (rewrite strip_nil_iff by done; unfold operand_val in Hv; lia).
  assert (Z.to_nat (actual_len op) <> 0)%nat as Hnz by (intros E; destruct (digits op); simpl in *; try lia; done).
  pose proof (skip_zeros_spec op 0 (Z.to_nat (actual_len op)) Hok ltac:(lia) Hne) as (j & Hj & Hs & Hst & Hb).
  rewrite drop_0 in Hst. rewrite Z.mul_0_r, Z.add_0_r in Hs.
  pose proof (Forall_drop _ j _ Hd) as Hdj.
  assert (drop j (digits op) = rd8 (digits op) j :: drop (S j) (digits op)) as Ej
    by (apply drop_S, lookup_rd8; lia).
  rewrite Ej in Hdj. apply Forall_cons in Hdj as [Hb8 Htl].
  assert (Z.log2 (operand_val op)
          = 8 * (Z.of_nat (Z.to_nat (actual_len op) - j) - 1) + Z.log2 (rd8 (digits op) j)) as ->.
  { unfold operand_val. rewrite <-be_val_strip, Hst, Ej, log2_cons by done.
    f_equal. rewrite length_drop, Hl. lia. }
  unfold operand_bit_len. destruct (Z.eqb_spec (actual_len op) 0); [lia|].
  pose proof (digit_ld op 0 Hok ltac:(lia)) as H0. rewrite Z.mul_0_r, Z.add_0_r in H0.
  rewrite H0. cbn [res_bind]. pose proof (strip_drop (digits op) 0 ltac:(lia)) as Hs0.
  rewrite drop_0 in Hs0. destruct (Z.eqb_spec (rd8 (digits op) 0) 0) as [Ez|Ez]; simpl.
  - rewrite Hs. simpl. destruct (Z.eqb_spec (Z.of_nat (Z.to_nat (actual_len op) - j)) 0); [lia|].
    rewrite digit_ld by (done || lia). simpl. rewrite bits_in_byte_spec by done.
    destruct (Z.eqb_spec (rd8 (digits op) j) 0); [done|]. f_equal. lia.
  - assert (j = 0)%nat as ->.
    { rewrite Hs0 in Hst. apply (f_equal length) in Hst. rewrite length_drop in Hst. lia. }
    rewrite bits_in_byte_spec by (by apply rd8_ok).
    destruct (Z.eqb_spec (rd8 (digits op) 0) 0); [done|]. f_equal. lia.
Qed.

(** *** Comparison of little-endian operands *)

Lemma is_zero_spec op :
  operand_ok op -> big_endian op = false -> is_zero op = Ret (operand_val op =? 0).
Proof.
  intros Hok He. pose proof (digits_ok op Hok) as Hd. pose proof (length_digits op Hok) as Hl.
  unfold is_zero. rewrite operand_byte_len_spec by done. cbn [res_bind].
  pose proof (strip_nil_iff (digits op) Hd) as Hz. fold (operand_val op) in Hz.
  destruct (strip (digits op)) as [|b r] eqn:E; cbn [length].
  - by rewrite (proj1 Hz).
  - assert (operand_val op <> 0) as Hnz by (intros Hv; by apply Hz in Hv).
    rewrite (proj2 (Z.eqb_neq (operand_val op) 0) Hnz).
    rewrite (proj2 (Z.eqb_neq (Z.of_nat (S (length r))) 0)) by lia.
    destruct r as [|c r]; cbn [length];
      [simpl|by rewrite (proj2 (Z.eqb_neq (Z.of_nat (S (S (length r)))) 1)) by lia].
    pose proof (length_strip (digits op)) as Hls. rewrite E in Hls. simpl in Hls.
    pose proof (digit_ld op (Z.to_nat (actual_len op) - 1) Hok ltac:(lia)) as H0.
    unfold msb_ptr, msb_dir in H0. rewrite He in H0.
    match type of H0 with ld _ ?i = _ => replace i with 0 in H0 by lia end.
    rewrite H0. simpl. f_equal. apply Z.eqb_neq.
    assert (strip (drop (Z.to_nat (actual_len op) - 1) (digits op)) = [b]) as Hs.
    { destruct (skip_zeros_spec op 0 (Z.to_nat (actual_len op)) Hok) as (j & ? & _ & Hj & Hb);
        [lia|by rewrite drop_0, E|]. rewrite drop_0, E in Hj.
      apply (f_equal length) in Hj as Hlj. rewrite length_drop in Hlj. simpl in Hlj.
      replace (Z.to_nat (actual_len op) - 1)%nat with j by lia. rewrite strip_drop by lia.
      destruct (Z.eqb_spec (rd8 (digits op) j) 0); [done|]. done. }
    rewrite strip_drop in Hs by lia. case_match eqn:Eb; [|by apply Z.eqb_neq].
    by rewrite drop_ge in Hs by lia.
Qed.

(** A little-endian operand's digits from its [j]-th most significant byte. *)
Lemma le_digit_ld op j k :
  operand_ok op -> big_endian op = false -> (j + k < Z.to_nat (actual_len op))%nat ->
  ld (buf_ptr op) (actual_len op - 1 - Z.of_nat j - Z.of_nat k)
  = Ret (rd8 (drop j (digits op)) k).
Proof.
  intros Hok He Hk. pose proof (digit_ld op (j + k) Hok Hk) as H. unfold msb_ptr, msb_dir in H.
  rewrite He in H. replace (actual_len op - 1 - Z.of_nat j - Z.of_nat k)
    with (actual_len op - 1 + -1 * Z.of_nat (j + k)) by lia.
  rewrite H. unfold rd8. by rewrite lookup_drop.
Qed.

Lemma skip_leading_spec op k n :
  operand_ok op -> big_endian op = false -> (k + n)%nat = Z.to_nat (actual_len op) ->
  strip (drop k (digits op)) <> [] ->
  exists j, (j < Z.to_nat (actual_len op))%nat /\ strip (drop k (digits op)) = drop j (digits op) /\
    skip_leading (buf_ptr op) (actual_len op - 1 - Z.of_nat k) n
    = Ret (actual_len op - 1 - Z.of_nat j, (Z.to_nat (actual_len op) - j)%nat).
Proof.
  intros Hok He. revert k. induction n as [|n IH]; intros k Hk Hne.
  - rewrite drop_ge in Hne by (rewrite length_digits by done; lia). done.
  - pose proof (length_digits op Hok) as Hl.
    pose proof (le_digit_ld op k 0 Hok He ltac:(lia)) as H0.
    rewrite Z.sub_0_r in H0. unfold rd8 in H0. rewrite lookup_drop, Nat.add_0_r in H0.
    fold (rd8 (digits op) k) in H0. cbn [skip_leading]. rewrite H0. cbn [res_bind].
    rewrite strip_drop in * by lia. destruct (Z.eqb_spec (rd8 (digits op) k) 0) as [E|E].
    + destruct n as [|n].
      { by rewrite drop_ge in Hne by lia. }
      destruct (IH (S k) ltac:(lia) Hne) as (j & Hj & Hs & Hr). exists j. split; [lia|].
      split; [done|]. rewrite <-Hr. f_equal. lia.
    + exists k. split; [lia|]. split; [done|]. do 2 f_equal. lia.
Qed.

Definition code_of (c : comparison) : pka_cmp_code :=
  match c with Eq => RC_COMPARE_EQUAL | Lt => RC_LEFT_IS_SMALLER | Gt => RC_RIGHT_IS_SMALLER end.

Lemma compare_loop_spec n l r pl pr dl dr :
  length dl = n -> length dr = n -> bytes_ok dl -> bytes_ok dr ->
  (forall k, (k < n)%nat -> ld l (pl - Z.of_nat k) = Ret (rd8 dl k)) ->
  (forall k, (k < n)%nat -> ld r (pr - Z.of_nat k) = Ret (rd8 dr k)) ->
  compare_loop n l r pl pr = Ret (code_of (be_val dl ?= be_val dr)).
Proof.
  revert pl pr dl dr. induction n as [|n IH]; intros pl pr dl dr Hl Hr Hbl Hbr Hgl Hgr.
  - by destruct dl, dr.
  - destruct dl as [|a dl], dr as [|b dr]; try done. cbn [compare_loop].
    pose proof (Hgl 0%nat ltac:(lia)) as Ha. pose proof (Hgr 0%nat ltac:(lia)) as Hb.
    rewrite Z.sub_0_r in Ha, Hb. rewrite Ha, Hb. cbn [res_bind].
    change (rd8 (a :: dl) 0) with a. change (rd8 (b :: dr) 0) with b. rewrite !be_val_cons.
    apply Forall_cons in Hbl as [Ha8 Hbl]. apply Forall_cons in Hbr as [Hb8 Hbr].
    simpl in Hl, Hr. injection Hl as Hl. injection Hr as Hr. rewrite Hl, Hr.
    pose proof (be_val_range dl Hbl) as Rl. pose proof (be_val_range dr Hbr) as Rr. rewrite Hl in Rl. rewrite Hr in Rr.
    destruct (Z.ltb_spec a b).
    { f_equal. replace (_ ?= _) with Lt; [done|]. symmetry. apply Z.compare_lt_iff. nia. }
    destruct (Z.ltb_spec b a).
    { f_equal. replace (_ ?= _) with Gt; [done|]. symmetry. apply Z.compare_gt_iff. nia. }
    assert (a = b) as -> by lia. rewrite (IH _ _ dl dr); try done.
    + f_equal. f_equal. symmetry. apply Z.add_compare_mono_l.
    + intros k Hk. pose proof (Hgl (S k) ltac:(lia)) as E. rewrite <-Z.sub_add_distr.
      replace (1 + Z.of_nat k) with (Z.of_nat (S k)) by lia. exact E.
    + intros k Hk. pose proof (Hgr (S k) ltac:(lia)) as E. rewrite <-Z.sub_add_distr.
      replace (1 + Z.of_nat k) with (Z.of_nat (S k)) by lia. exact E.
Qed.

(** A number with more significant digits is larger. *)
Lemma strip_length_lt l r : bytes_ok l -> bytes_ok r ->
  (length (strip l) < length (strip r))%nat -> be_val l < be_val r.
Proof.
  intros Hl Hr H. pose proof (strip_bounds l Hl) as [Hu _].
  pose proof (strip_bounds r Hr) as [_ [E|Hd]]; [rewrite E in H; simpl in H; lia|].
  assert (256 ^ Z.of_nat (length (strip l)) <= 256 ^ (Z.of_nat (length (strip r)) - 1))
    by (apply Z.pow_le_mono_r; lia). lia.
Qed.

Lemma pki_compare_spec l r :
  operand_ok l -> operand_ok r -> big_endian l = false -> big_endian r = false ->
  pki_compare l r = Ret (code_of (operand_val l ?= operand_val r)).
Proof.
  intros Hl Hr Hel Her. pose proof (digits_ok l Hl) as Dl. pose proof (digits_ok r Hr) as Dr.
  pose proof (length_digits l Hl) as Ll. pose proof (length_digits r Hr) as Lr.
  unfold pki_compare. rewrite !is_zero_spec by done. cbn [res_bind].
  pose proof (be_val_range _ Dl). pose proof (be_val_range _ Dr).
  fold (operand_val l) in *. fold (operand_val r) in *.
  destruct (Z.eqb_spec (operand_val l) 0) as [Zl|Zl], (Z.eqb_spec (operand_val r) 0) as [Zr|Zr].
  - by rewrite Zl, Zr.
  - by rewrite (proj2 (Z.compare_lt_iff _ _)) by lia.
  - by rewrite (proj2 (Z.compare_gt_iff _ _)) by lia.
  - destruct (skip_leading_spec l 0 (Z.to_nat (actual_len l)) Hl Hel) as (i & Hi & Si & Ei);
      [lia|rewrite drop_0, strip_nil_iff by done; done|].
    destruct (skip_leading_spec r 0 (Z.to_nat (actual_len r)) Hr Her) as (j & Hj & Sj & Ej);
      [lia|rewrite drop_0, strip_nil_iff by done; done|].
    rewrite Z.sub_0_r in Ei, Ej. rewrite Ei. cbn [res_bind]. rewrite Ej. cbn [res_bind].
    rewrite drop_0 in Si, Sj.
    pose proof (strip_length_lt _ _ Dl Dr) as H1. pose proof (strip_length_lt _ _ Dr Dl) as H2.
    rewrite Si, Sj, !length_drop in H1, H2. fold (operand_val l) in *. fold (operand_val r) in *.
    destruct (Nat.ltb_spec (Z.to_nat (actual_len l) - i) (Z.to_nat (actual_len r) - j)).
    { rewrite (proj2 (Z.compare_lt_iff _ _)); [done|]. lia. }
    destruct (Nat.ltb_spec (Z.to_nat (actual_len r) - j) (Z.to_nat (actual_len l) - i)).
    { rewrite (proj2 (Z.compare_gt_iff _ _)); [done|]. lia. }
    rewrite (compare_loop_spec _ _ _ _ _ (drop i (digits l)) (drop j (digits r)));
      rewrite ?length_drop; try lia; auto using Forall_drop.
    + unfold operand_val. by rewrite <-(be_val_strip (digits l)), <-(be_val_strip (digits r)), Si, Sj.
    + intros k Hk. apply le_digit_ld; [done|done|lia].
    + intros k Hk. apply le_digit_ld; [done|done|lia].
Qed.

(** *** Bignums *)

(** The number held by an array of 64-bit limbs, least significant first. *)
Definition bn_val (d : list Z) : Z := foldr (fun l acc => l + 2 ^ 64 * acc) 0 d.

Lemma limb_bytes_cons l d : limb_bytes (l :: d) = le_bytes 8 l ++ limb_bytes d.
Proof. done. Qed.
Lemma length_limb_bytes d : length (limb_bytes d) = (8 * length d)%nat.
Proof.
  induction d as [|l d IH]; [done|]. rewrite limb_bytes_cons, length_app, length_le_bytes, IH.
  simpl. lia.
Qed.
Lemma limb_bytes_ok d : bytes_ok (limb_bytes d).
Proof.
  induction d as [|l d IH]; [constructor|]. rewrite limb_bytes_cons.
  apply Forall_app. split; [apply le_bytes_ok|done].
Qed.
Lemma le_val_app l k : le_val (l ++ k) = le_val l + 256 ^ Z.of_nat (length l) * le_val k.
Proof.
  induction l as [|b l IH]; cbn [app le_val length]; [lia|].
  rewrite IH, Nat2Z.inj_succ, Z.pow_succ_r by lia. lia.
Qed.
Lemma le_val_limb_bytes d :
  Forall (fun l => 0 <= l < 2 ^ 64) d -> le_val (limb_bytes d) = bn_val d.
Proof.
  induction 1 as [|l d Hl _ IH]; [done|]. cbn [bn_val foldr]. fold (bn_val d).
  rewrite limb_bytes_cons, le_val_app, le_val_le_bytes, length_le_bytes, IH.
  change (256 ^ Z.of_nat 8) with (2 ^ 64). by rewrite Z.mod_small by done.
Qed.
Lemma take_limb_bytes d n : take (8 * n) (limb_bytes d) = limb_bytes (take n d).
Proof.
  revert n. induction d as [|l d IH]; intros [|n]; [done..|].
  cbn [take]. rewrite !limb_bytes_cons, <-IH.
  replace (8 * S n)%nat with (8 + 8 * n)%nat by lia.
  rewrite take_app_ge by (rewrite length_le_bytes; lia). rewrite length_le_bytes.
  do 2 f_equal. lia.
Qed.

(** A well-formed bignum of OpenSSL whose limb array fits the 32-bit sizes. *)
Record bignum_ok (d : list Z) (top dmax : Z) : Prop := mk_bignum_ok {
  bn_len : Z.of_nat (length d) = dmax;
  bn_used : 0 < top <= dmax;
  bn_small : dmax < 2 ^ 28;
  bn_limbs : Forall (fun l => 0 <= l < 2 ^ 64) d;
}.

Lemma bignum_to_operand_spec d top dmax :
  bignum_ok d top dmax ->
  exists op, bignum_to_operand (Some (mk_bignum (Some d) top dmax)) = Ret (Some op) /\
    take (Z.to_nat (actual_len op)) (buf_ptr op) = limb_bytes (take (Z.to_nat top) d) /\
    big_endian op = true.
Proof.
  intros [Hl Hu Hs Hd]. unfold bignum_to_operand, make_operand_ecdsa, PKA_BYTES. simpl.
  rewrite !u32_id by (unfold is_u32; lia). rewrite (proj2 (Z.eqb_neq _ _)) by lia.
  unfold operand_byte_copy. simpl. rewrite Z.leb_refl. simpl. unfold memcpy.
  rewrite (proj2 (Z.leb_le _ _)) by (len). rewrite (proj2 (Z.leb_le _ _)) by (rewrite length_limb_bytes; lia).
  simpl. eexists. split; [done|]. simpl. split; [|done].
  rewrite take_app_le by (len; rewrite length_limb_bytes; lia).
  rewrite take_idemp. rewrite <-take_limb_bytes. f_equal. lia.
Qed.

(** *** Clamping *)

Lemma land_248 b : is_u8 b -> Z.land b 248 = 8 * (b / 8).
Proof.
  assert (Forall (fun b => Z.land b 248 = 8 * (b / 8)) (seqZ 0 256)) as H
    by (apply (bool_decide_unpack _); vm_compute; exact I).
  intros Hb. rewrite Forall_forall in H. apply H, elem_of_seqZ. unfold is_u8 in Hb. lia.
Qed.
Lemma clamp_top b : is_u8 b -> 64 <= Z.lor (Z.land b 127) 64 < 128.
Proof.
  assert (Forall (fun b => 64 <= Z.lor (Z.land b 127) 64 < 128) (seqZ 0 256)) as H
    by (apply (bool_decide_unpack _); vm_compute; exact I).
  intros Hb. rewrite Forall_forall in H. apply H, elem_of_seqZ. unfold is_u8 in Hb. lia.
Qed.

(** The scalars X25519 expects. *)
Definition clamped (v : Z) : Prop := v mod 8 = 0 /\ 2 ^ 254 <= v < 2 ^ 255.

Lemma clamp_spec b :
  bytes_ok b -> (32 <= length b)%nat ->
  exists b', clamp b = Ret b' /\ length b' = length b /\ bytes_ok b' /\
    clamped (le_val (take 32 b')).
Proof.
  intros Hb Hl. rewrite <-(take_drop 32 b) in Hb |- *.
  destruct (take 32 b) as [|b0 r] eqn:E; [apply (f_equal length) in E; rewrite length_take in E; cbn [length] in E; lia|].
  assert (length r = 31)%nat as Hr by (apply (f_equal length) in E; rewrite length_take in E; cbn [length] in E; lia).
  destruct r as [|b31 m _] using rev_ind; [done|]. rewrite length_app in Hr. simpl in Hr.
  assert (length m = 30)%nat as Hm by lia.
  set (z := drop 32 b) in *. apply Forall_app in Hb as [Hb Hz].
  apply Forall_cons in Hb as [H0 Hb]. apply Forall_app in Hb as [Hbm H31].
  pose proof (Z.div_mod b0 8 ltac:(lia)). pose proof (Z.mod_pos_bound b0 8 ltac:(lia)).
  apply Forall_cons in H31 as [H31 _]. pose proof (clamp_top b31 H31) as Ht.
  exists ((Z.land b0 248 :: m ++ [Z.lor (Z.land b31 127) 64]) ++ z).
  assert (forall x y : Z, 32 <= Z.of_nat (length ((x :: m ++ [y]) ++ z))) as Hlen.
  { intros x y. rewrite length_app. cbn [length]. rewrite length_app. cbn [length]. lia. }
  assert (forall x y : Z, ld ((x :: m ++ [y]) ++ z) 31 = Ret y) as Hlk.
  { intros x y. rewrite ld_in by (pose proof (Hlen x y); lia). unfold rd8.
    change (((x :: m ++ [y]) ++ z) !! Z.to_nat 31) with (((m ++ [y]) ++ z) !! 30%nat).
    rewrite <-app_assoc, lookup_app_r by lia. by rewrite Hm. }
  assert (forall x y w : Z, st ((x :: m ++ [y]) ++ z) 31 w = Ret ((x :: m ++ [w]) ++ z)) as Hin.
  { intros x y w. rewrite st_in by (pose proof (Hlen x y); lia).
    change (<[Z.to_nat 31:=w]> ((x :: m ++ [y]) ++ z)) with (x :: <[30%nat:=w]> ((m ++ [y]) ++ z)).
    rewrite <-app_assoc, insert_app_r_alt by lia. rewrite Hm. simpl. by rewrite <-app_assoc. }
  split; [|split; [|split]].
  - unfold clamp. rewrite ld_in by (pose proof (Hlen b0 b31); lia).
    change (rd8 ((b0 :: m ++ [b31]) ++ z) (Z.to_nat 0)) with b0. cbn [res_bind].
    rewrite st_in by (pose proof (Hlen b0 b31); lia).
    change (<[Z.to_nat 0:=Z.land b0 248]> ((b0 :: m ++ [b31]) ++ z))
      with ((Z.land b0 248 :: m ++ [b31]) ++ z). cbn [res_bind].
    rewrite Hlk. cbn [res_bind]. rewrite Hin. cbn [res_bind]. rewrite Hlk. apply Hin.
  - rewrite !length_app. simpl. rewrite !length_app. simpl. done.
  - apply Forall_app. split; [|done]. apply Forall_cons. split; [rewrite land_248 by done; unfold is_u8 in *; lia|].
    apply Forall_app. split; [done|]. apply Forall_singleton. unfold is_u8. lia.
  - rewrite take_app_length' by (simpl; rewrite length_app, Hm; done).
    cbn [le_val]. rewrite le_val_app, Hm, land_248 by done. cbn [le_val].
    pose proof (le_val_range m Hbm) as Rm. rewrite Hm in Rm. unfold is_u8 in H0. split.
    + change (256 ^ Z.of_nat 30) with (8 * (256 ^ 29 * 32)).
      replace (8 * (b0 / 8) + 256 * (le_val m + 8 * (256 ^ 29 * 32) * (Z.lor (Z.land b31 127) 64 + 256 * 0)))
        with ((b0 / 8 + 32 * (le_val m + 8 * (256 ^ 29 * 32) * Z.lor (Z.land b31 127) 64)) * 8) by lia.
      apply Z.mod_mul. lia.
    + assert (0 <= b0 / 8 < 32) by (unfold is_u8 in *; lia).
      change (256 ^ Z.of_nat 30) with (2 ^ 240) in *. lia.
Qed.

(** ** Properties *)

(** A byte string written with [string_to_operand], in either byte order,
    denotes the big-endian number of the string, and [operand_to_string]
    gives the string back and leaves the rest of its destination alone. *)
Theorem string_operand_roundtrip str op e dst n :
  bytes_ok str -> bytes_ok (buf_ptr op) ->
  (length str <= length (buf_ptr op))%nat -> 0 <= buf_len op <= Z.of_nat (length (buf_ptr op)) ->
  (length str <= length dst)%nat -> Z.of_nat (length str) <= n ->
  exists op', string_to_operand str op (Z.of_nat (length str)) e = Ret op' /\
    operand_val op' = be_val str /\
    operand_to_string op' dst n = Ret (str ++ drop (length str) dst).
Proof.
  intros Hs Hb Hl Hbl Hd Hn.
  destruct (string_to_operand_spec str op e Hl Hbl) as (op' & E & Hdg & Ha & Hlen & He).
  exists op'. split; [done|]. split; [unfold operand_val; by rewrite Hdg|].
  unfold operand_to_string. rewrite Ha, Z.min_r by lia. rewrite Nat2Z.id.
  assert (forall k, (k < length str)%nat ->
    ld (buf_ptr op') (if big_endian op' then Z.of_nat k else Z.of_nat (length str) - 1 - Z.of_nat k)
    = Ret (rd8 str k)) as Hk.
  { intros k Hk. replace (rd8 str k) with (rd8 (digits op') k) by (by rewrite Hdg).
    unfold digits. rewrite Ha, Nat2Z.id.
    destruct (big_endian op'); rewrite ld_in by lia; unfold rd8.
    - rewrite Nat2Z.id, lookup_take_lt by lia. done.
    - rewrite reverse_lookup by len. rewrite lookup_take_lt by len. do 3 f_equal. len. }
  rewrite (copy_up (rd8 str)); [|intros j d' Hj|lia].
  - by rewrite map_rd8_up, firstn_all by lia.
  - by rewrite Hk.
Qed.

Lemma string_operand_roundtrip_witness :
  exists op', string_to_operand [1; 2; 3] (mk_operand (zeros 4) 4 0 0 true) 3 false = Ret op' /\
    operand_val op' = be_val [1; 2; 3] /\
    operand_to_string op' (zeros 5) 5 = Ret ([1; 2; 3] ++ drop 3 (zeros 5)).
Proof.
  apply (string_operand_roundtrip [1; 2; 3] (mk_operand (zeros 4) 4 0 0 true) false (zeros 5) 5);
    [repeat constructor; unfold is_u8; lia|apply zeros_ok|simpl; lia|simpl; lia|simpl; lia|simpl; lia].
Defined.

(** [operand_byte_len] returns the least number of bytes that holds the
    operand, and [operand_bit_len] of a non-zero operand its bit length. *)
Theorem operand_lengths_correct op :
  operand_ok op ->
  (exists n, operand_byte_len op = Ret n /\ operand_val op < 256 ^ n /\
     (n = 0 \/ 256 ^ (n - 1) <= operand_val op)) /\
  (0 < operand_val op -> operand_bit_len op = Ret (Z.log2 (operand_val op) + 1)).
Proof.
  intros Hok. split; [|by apply operand_bit_len_spec].
  destruct (strip_bounds (digits op) (digits_ok op Hok)) as [Hu Hd].
  eexists. split; [by apply operand_byte_len_spec|]. split; [done|].
  destruct Hd as [E|Hd]; [left; by rewrite E|by right].
Qed.

Lemma operand_lengths_correct_witness :
  operand_bit_len (mk_operand [5; 1; 0; 0] 4 4 0 false) = Ret (Z.log2 261 + 1).
Proof.
  refine (proj2 (operand_lengths_correct (mk_operand [5; 1; 0; 0] 4 4 0 false) _) _).
  - split; [repeat constructor; unfold is_u8; lia|simpl; lia].
  - reflexivity.
Defined.

(** On an operand that is zero and fills its buffer, [operand_bit_len]
    reads outside the buffer, because the scanning loop loads a byte before it
    tests the remaining length. *)
Theorem operand_bit_len_zero_reads_outside n e :
  (0 < n)%nat ->
  operand_bit_len (mk_operand (zeros n) (Z.of_nat n) (Z.of_nat n) 0 e) = Fault Out_of_bounds.
Proof.
  intros Hn. set (op := mk_operand _ _ _ _ _).
  assert (operand_ok op) as Hok by (split; [apply zeros_ok|simpl; len]).
  assert (forall k, rd8 (digits op) k = 0) as Hz.
  { intros k. unfold digits, op, rd8. simpl. rewrite Nat2Z.id, firstn_all2 by len.
    unfold zeros. destruct e; [|rewrite reverse_replicate];
      destruct (replicate n 0 !! k) eqn:E; try done; by apply lookup_replicate in E as [-> _]. }
  assert (forall k m, (k + m)%nat = n ->
    skip_zeros (buf_ptr op) (msb_dir op) (msb_ptr op + msb_dir op * Z.of_nat k) m
    = Fault Out_of_bounds) as Hs.
  { intros k m. revert k. induction m as [|m IH]; intros k Hk; cbn [skip_zeros].
    - rewrite ld_out; [done|]. unfold msb_ptr, msb_dir, op. simpl. rewrite length_zeros. destruct e; lia.
    - rewrite digit_ld by (done || (simpl; lia)). cbn [res_bind]. rewrite Hz. cbn.
      rewrite <-(IH (S k)) by lia. f_equal. lia. }
  pose proof (Hs 0%nat n eq_refl) as E. rewrite Z.mul_0_r, Z.add_0_r in E.
  pose proof (digit_ld op 0 Hok ltac:(simpl; lia)) as H0. rewrite Z.mul_0_r, Z.add_0_r, Hz in H0.
  unfold operand_bit_len. change (actual_len op) with (Z.of_nat n).
  rewrite (proj2 (Z.eqb_neq _ _)) by lia. rewrite H0. cbn [res_bind]. simpl negb. cbn iota.
  rewrite Nat2Z.id, E. done.
Qed.

Lemma operand_bit_len_zero_reads_outside_witness :
  operand_bit_len (mk_operand (zeros 32) 32 32 0 false) = Fault Out_of_bounds.
Proof. apply (operand_bit_len_zero_reads_outside 32 false). lia. Defined.

(** On little-endian operands [pki_compare] decides the order of the two
    numbers, whatever leading zeros they have. *)
Theorem pki_compare_correct l r :
  operand_ok l -> operand_ok r -> big_endian l = false -> big_endian r = false ->
  pki_compare l r = Ret (code_of (operand_val l ?= operand_val r)).
Proof. apply pki_compare_spec. Qed.

Lemma pki_compare_correct_witness :
  pki_compare (mk_operand [5; 1; 0] 3 3 0 false) (mk_operand [6; 1] 2 2 0 false)
  = Ret RC_LEFT_IS_SMALLER.
Proof.
  apply (pki_compare_correct (mk_operand [5; 1; 0] 3 3 0 false) (mk_operand [6; 1] 2 2 0 false));
    [split; [repeat constructor; unfold is_u8; lia|simpl; lia]
    |split; [repeat constructor; unfold is_u8; lia|simpl; lia]|reflexivity|reflexivity].
Defined.

(** On big-endian operands it does not: 5 is taken for zero. *)
Example pki_compare_big_endian :
  pki_compare (mk_operand [0; 5] 2 2 0 true) (mk_operand [0; 0] 2 2 0 true)
  = Ret RC_COMPARE_EQUAL.
Proof. reflexivity. Qed.

(** The comment "between 1 .. max_plus_1 - 1" of [rand_non_zero_integer] does
    not hold: a draw that is a multiple of the top byte is reduced to zero. *)
Example rand_non_zero_integer_zero :
  exists op, rand_non_zero_integer false [[0; 7]] (mk_operand [0; 0] 2 2 0 false)
    (mk_operand [0; 7] 2 2 0 false) = Some (Ret op) /\ operand_val op = 0.
Proof. eexists. split; vm_compute; reflexivity. Qed.

(** The private scalar drawn for X25519 is a multiple of 8 in
    [2^254 .. 2^255 - 1], the form RFC 7748 requires, for every output of the
    hardware generator. *)
Theorem ecdhe_scalar_clamped pka_get_rand_bytes result order :
  operand_ok order -> bytes_ok (buf_ptr result) -> length (buf_ptr result) = 32%nat ->
  bytes_ok (pka_get_rand_bytes 32) -> length (pka_get_rand_bytes 32) = 32%nat ->
  2 ^ 248 <= operand_val order < 2 ^ 256 ->
  exists op, rand_non_zero_integer_w_pka_hwrng_and_clamping false pka_get_rand_bytes result order
             = Ret op /\ clamped (operand_val op).
Proof.
  intros Hok Hb Hl Hrb Hrl Hv. unfold rand_non_zero_integer_w_pka_hwrng_and_clamping.
  rewrite operand_byte_len_spec by done. cbn [res_bind].
  destruct (strip_bounds (digits order) (digits_ok order Hok)) as [Hu Hd].
  fold (operand_val order) in Hu, Hd.
  assert (length (strip (digits order)) = 32%nat) as ->.
  { destruct Hd as [E|Hd]; [rewrite E in Hu; simpl in Hu; lia|].
    change 256 with (2 ^ 8) in Hu, Hd. rewrite <-Z.pow_mul_r in Hu by lia.
    destruct (decide (length (strip (digits order)) = 0%nat)) as [E0|Hne].
    { rewrite E0 in Hu. simpl in Hu. lia. }
    rewrite <-Z.pow_mul_r in Hd by lia.
    assert (248 < 8 * Z.of_nat (length (strip (digits order)))) by (apply (Z.pow_lt_mono_r_iff 2); lia).
    assert (8 * (Z.of_nat (length (strip (digits order))) - 1) < 256) by (apply (Z.pow_lt_mono_r_iff 2); lia).
    lia. }
  unfold memcpy. change (Z.of_nat 32) with 32. rewrite Hl, Hrl.
  rewrite (Z.leb_refl (Z.of_nat 32) : (32 <=? Z.of_nat 32) = true). cbn [andb res_bind].
  set (b := take (Z.to_nat 32) (pka_get_rand_bytes 32) ++ drop (Z.to_nat 32) (buf_ptr result)).
  destruct (clamp_spec b) as (b' & -> & Hl' & Hok' & Hc).
  - apply Forall_app. split; [by apply Forall_take|by apply Forall_drop].
  - subst b. rewrite length_app, length_take, length_drop. change (Z.to_nat 32) with 32%nat. lia.
  - cbn [res_bind]. eexists. split; [done|]. unfold operand_val, digits, be_val.
    cbn [big_endian actual_len buf_ptr]. rewrite reverse_involutive. exact Hc.
Qed.

Lemma ecdhe_scalar_clamped_witness :
  exists op, rand_non_zero_integer_w_pka_hwrng_and_clamping false (fun n => replicate (Z.to_nat n) 255)
    (mk_operand (zeros 32) 32 0 0 false) (mk_operand (replicate 32 16) 32 32 0 false)
    = Ret op /\ clamped (operand_val op).
Proof.
  apply (ecdhe_scalar_clamped (fun n => replicate (Z.to_nat n) 255)
           (mk_operand (zeros 32) 32 0 0 false) (mk_operand (replicate 32 16) 32 32 0 false)).
  - split; [apply Forall_replicate; unfold is_u8; lia|simpl; lia].
  - apply zeros_ok.
  - reflexivity.
  - apply Forall_replicate. unfold is_u8. lia.
  - reflexivity.
  - vm_compute. split; [discriminate|reflexivity].
Defined.

(** [pka_load_key_ecdsa] gives the PKA engine an operand that denotes the
    private key held in OpenSSL's limbs. *)
Theorem ecdsa_key_loaded d top dmax :
  bignum_ok d top dmax ->
  exists op, pka_load_key_ecdsa (Some (mk_bignum (Some d) top dmax)) = Ret (Some op) /\
    operand_val op = bn_val (take (Z.to_nat top) d).
Proof.
  intros Hbn. destruct (bignum_to_operand_spec d top dmax Hbn) as (op & E & Hd & _).
  unfold pka_load_key_ecdsa. rewrite E. simpl. eexists. split; [done|].
  unfold operand_val, digits, be_val. simpl. rewrite reverse_involutive, Hd.
  apply le_val_limb_bytes, Forall_take. apply Hbn.
Qed.

Lemma ecdsa_key_loaded_witness :
  exists op, pka_load_key_ecdsa (Some (mk_bignum (Some [7; 9; 0]) 2 3)) = Ret (Some op) /\
    operand_val op = 7 + 2 ^ 64 * 9.
Proof.
  apply (ecdsa_key_loaded [7; 9; 0] 2 3).
  split; [reflexivity|lia|lia|repeat constructor; lia].
Defined.

(** Without that correction of the byte-order flag, as in [pka_load_key_rsa],
    an operand denotes another number: 1 is loaded as [2^56]. *)
Example rsa_key_reversed :
  exists op, bignum_to_operand_rsa (Some (mk_bignum (Some [1]) 1 1)) = Ret (Some op) /\
    operand_val op = 2 ^ 56.
Proof. eexists. split; vm_compute; reflexivity. Qed.
