(* ===== verification/Bignum.v ===== *)
(** * Software big numbers (bluefield_pka_benchmark/.../pka_helper.c)

    The benchmark that drives the public-key accelerator checks the engine's
    signatures against a signature computed in software, with byte-by-byte
    arithmetic on [pka_operand_t] buffers. This file models the arithmetic:
    addition, subtraction, multiplication and the division with remainder that
    estimates quotient bytes from the leading two or three bytes. The theorems
    relate each routine to the integers its operands denote, and show that the
    division loop ends. The routines index the buffers from the least
    significant byte, so the theorems are about little-endian operands.

    Every operand owns its buffer, so a routine returns the operand it wrote;
    the sources never pass one operand as an input and as the result. *)

From S2P Require Import Prelude Operand.

Definition MAX_BUF : Z := 260 * 4.
Definition MAX_ECC_BUF : Z := 25 * 4.

(** The [pka_result_code_t] values the routines return. *)
Inductive pka_result_code : Type :=
| RC_NO_ERROR
| RC_INVALID_ARGUMENT
| RC_CALCULATION_ERR
| RC_NO_MODULAR_INVERSE
| RC_INTERMEDIATE_PAI
| RC_OPERAND_VALUE_ERR.

Definition init_operand (buf : bytes) (len : Z) (be : bool) : res pka_operand :=
  res_bind (memset0 buf len) (fun buf => Ret (mk_operand buf len 0 0 be)).

(** The least significant byte first, upwards or downwards in memory. *)
Definition set_step (be : bool) (len : Z) (idx : nat) (s : bytes * Z) : res (bytes * Z) :=
  let '(buf, integer) := s in
  res_bind (st buf (if be then len - 1 - Z.of_nat idx else Z.of_nat idx) (Z.land integer 0xFF))
    (fun buf => Ret (buf, Z.shiftr integer 8)).
Definition set_operand (operand : pka_operand) (integer : Z) : res pka_operand :=
  let len := if integer =? 0 then 0
             else if integer <? 0x100 then 1
             else if integer <? 0x10000 then 2
             else if integer <? 0x1000000 then 3
             else 4 in
  res_bind
    (for_loop (Z.to_nat len) 0 (set_step (big_endian operand) len) (buf_ptr operand, integer))
    (fun '(buf, _) => Ret (operand <| buf_ptr := buf |> <| actual_len := len |>)).

(** ** Lengths and leading bytes *)

(** [for (leading_zeros = 0; leading_zeros <= byte_len; leading_zeros++)]. *)
Fixpoint clz_loop (n : nat) (buf : bytes) (be : bool) (byte_len leading_zeros : Z) : res Z :=
  match n with
  | O => Fault Assert_failed
  | S n' =>
      res_bind (ld buf (if be then leading_zeros else byte_len - 1 - leading_zeros)) (fun ms_byte =>
      if negb (ms_byte =? 0) then Ret leading_zeros
      else clz_loop n' buf be byte_len (leading_zeros + 1))
  end.
Definition count_leading_zeros (operand : pka_operand) : res Z :=
  res_bind (is_zero operand) (fun z =>
  if z then Ret (u32 (actual_len operand - 1)) else
  let byte_len := if actual_len operand =? 0 then buf_len operand else actual_len operand in
  clz_loop (S (Z.to_nat byte_len)) (buf_ptr operand) (big_endian operand) byte_len 0).

Definition get_two_ms_bytes (operand : pka_operand) : res Z :=
  res_bind (operand_byte_len operand) (fun byte_len =>
  res_bind (get_msb_idx operand) (fun msb_idx =>
  if byte_len =? 0 then Fault Assert_failed else
  res_bind (ld (buf_ptr operand) msb_idx) (fun b =>
  let result := Z.shiftl b 8 in
  if byte_len <=? 1 then Ret result else
  res_bind (ld (buf_ptr operand) (u32 (msb_idx - 1))) (fun b => Ret (result + b))))).

Definition get_three_ms_bytes (operand : pka_operand) (two_ms_bytes : Z) : res Z :=
  res_bind (operand_byte_len operand) (fun byte_len =>
  let result := Z.shiftl two_ms_bytes 8 in
  if byte_len <? 3 then Ret result else
  res_bind (get_msb_idx operand) (fun msb_idx =>
  res_bind (ld (buf_ptr operand) (u32 (msb_idx - 2))) (fun b => Ret (result + b)))).

(** The loop is that of [pki_compare], over the [divisor_byte_len] most
    significant bytes of both. *)
Definition cmp_ms_dividend_to_ms_divisor (dividend divisor : pka_operand) : res pka_cmp_code :=
  res_bind (operand_byte_len divisor) (fun divisor_byte_len =>
  res_bind (get_msb_idx divisor) (fun divisor_msb_idx =>
  res_bind (get_msb_idx dividend) (fun dividend_msb_idx =>
  compare_loop (Z.to_nat divisor_byte_len) (buf_ptr dividend) (buf_ptr divisor)
    dividend_msb_idx divisor_msb_idx))).

(** Removes the leading zeros; [abort] ends the process. *)
Definition adjust_actual_len (operand : pka_operand) : res pka_operand :=
  res_bind (is_zero operand) (fun z =>
  if z then Ret (operand <| actual_len := 1 |>) else
  res_bind (count_leading_zeros operand) (fun leading_zeros =>
  if leading_zeros =? 0 then Ret operand else
  if MAX_BUF <? actual_len operand then Fault Exit_failure else
  let byte_len := if actual_len operand =? 0 then buf_len operand else actual_len operand in
  let operand := operand <| actual_len := u32 (byte_len - leading_zeros) |> in
  Ret (if big_endian operand
       then operand <| buf_ptr := drop (Z.to_nat leading_zeros) (buf_ptr operand) |>
       else operand))).

Definition is_one (operand : pka_operand) : res bool :=
  res_bind (operand_byte_len operand) (fun len =>
  if negb (len =? 1) then Ret false
  else res_bind (ld (buf_ptr operand) 0) (fun b => Ret (b =? 1))).

Definition operand_to_uint32 (operand : pka_operand) : res Z :=
  res_bind (operand_byte_len operand) (fun operand_len =>
  if 4 <? operand_len then Ret 0 else
  res_bind (get_msb_idx operand) (fun msb_idx =>
  res_bind
    (for_loop (Z.to_nat operand_len) 0
       (fun _ '(p, value) =>
          res_bind (ld (buf_ptr operand) p) (fun b =>
          Ret (if big_endian operand then p + 1 else p - 1, Z.lor (u32 (Z.shiftl value 8)) b)))
       (msb_idx, 0))
    (fun '(_, value) => Ret value))).

Definition get_bit (operand : pka_operand) (bit_idx : Z) : res Z :=
  let bit_in_byte_idx := Z.land bit_idx 7 in
  res_bind (ld (buf_ptr operand) (bit_idx / 8)) (fun byte =>
  Ret (Z.land (Z.shiftr byte bit_in_byte_idx) 1)).

(** A copy without the leading zeros, in a buffer of its own. *)
Definition malloc_operand (len : Z) : pka_operand := mk_operand (zeros (Z.to_nat len)) len 0 0 false.
Definition dup_operand (src_operand : option pka_operand) : res (option pka_operand) :=
  match src_operand with
  | None => Ret None
  | Some src =>
      res_bind (count_leading_zeros src) (fun leading_zeros =>
      let len := u32 (actual_len src - leading_zeros) in
      let from := if big_endian src then drop (Z.to_nat leading_zeros) (buf_ptr src) else buf_ptr src in
      res_bind (memcpy (buf_ptr (malloc_operand len)) from len) (fun buf =>
      Ret (Some (mk_operand buf len len 0 (big_endian src)))))
  end.

(** ** Addition, subtraction, multiplication *)

(** The byte of an operand, zero beyond its length. *)
Definition byte_or_0 (buf : bytes) (len idx : Z) : res Z :=
  if idx <? len then ld buf idx else Ret 0.

(** [for (idx = n; idx != 0; idx--) if (buf[idx] != 0) break;] *)
Fixpoint last_nonzero (buf : bytes) (n : nat) : res Z :=
  match n with
  | O => Ret 0
  | S n' => res_bind (ld buf (Z.of_nat n)) (fun b =>
            if negb (b =? 0) then Ret (Z.of_nat n) else last_nonzero buf n')
  end.

(** The bodies of the loops are named after their routine: this is that of
    [pki_add], on the result buffer and the carry. *)
Definition add_step (value addend : pka_operand) (idx : nat) (s : bytes * Z) : res (bytes * Z) :=
  let '(buf, carry) := s in
  res_bind (byte_or_0 (buf_ptr value) (actual_len value) (Z.of_nat idx)) (fun value_byte =>
  res_bind (byte_or_0 (buf_ptr addend) (actual_len addend) (Z.of_nat idx)) (fun addend_byte =>
  let sum_byte := value_byte + addend_byte + carry in
  res_bind (st buf (Z.of_nat idx) (Z.land sum_byte 0xFF)) (fun buf =>
  Ret (buf, Z.shiftr sum_byte 8)))).

Definition pki_add (value addend result : pka_operand) : res (pka_result_code * pka_operand) :=
  let result_byte_len := Z.max (actual_len value) (actual_len addend) + 1 in
  res_bind
    (for_loop (Z.to_nat (result_byte_len - 1)) 0 (add_step value addend) (buf_ptr result, 0))
    (fun '(buf, carry) =>
  res_bind (st buf (result_byte_len - 1) carry) (fun buf =>
  res_bind (last_nonzero buf (Z.to_nat (result_byte_len - 1))) (fun idx =>
  Ret (RC_NO_ERROR, result <| buf_ptr := buf |> <| actual_len := idx + 1 |>)))).

(** One byte of a difference: the byte stored and the borrow. *)
Definition sub_byte (minuend_byte subtrahend_byte : Z) : Z * Z :=
  if subtrahend_byte <=? minuend_byte then (minuend_byte - subtrahend_byte, 0)
  else (256 + minuend_byte - subtrahend_byte, 1).

Definition sub_step (value subtrahend : pka_operand) (byte_cnt : nat) (s : bytes * Z)
    : res (bytes * Z) :=
  let '(buf, borrow) := s in
  res_bind (ld (buf_ptr value) (Z.of_nat byte_cnt)) (fun minuend_byte =>
  res_bind (byte_or_0 (buf_ptr subtrahend) (actual_len subtrahend) (Z.of_nat byte_cnt)) (fun b =>
  let '(result_byte, borrow) := sub_byte minuend_byte (b + borrow) in
  res_bind (st buf (Z.of_nat byte_cnt) (u8 result_byte)) (fun buf =>
  Ret (buf, borrow)))).

Definition pki_subtract (value subtrahend result : pka_operand)
    : res (pka_result_code * pka_operand) :=
  res_bind (pki_compare value subtrahend) (fun c =>
  match c with
  | RC_LEFT_IS_SMALLER => Ret (RC_CALCULATION_ERR, result)
  | _ =>
      let minuend_byte_len := actual_len value in
      res_bind
        (for_loop (Z.to_nat minuend_byte_len) 0 (sub_step value subtrahend) (buf_ptr result, 0))
        (fun '(buf, _) =>
      res_bind (adjust_actual_len (result <| buf_ptr := buf |> <| actual_len := minuend_byte_len |>))
        (fun result => Ret (RC_NO_ERROR, result)))
  end).

(** The inner and the outer loop of [pki_multiply]. *)
Definition mul_step (value_byte : Z) (multiplier : pka_operand) (val_idx mul_idx : nat)
    (s : bytes * Z) : res (bytes * Z) :=
  let '(buf, carry) := s in
  res_bind (ld (buf_ptr multiplier) (Z.of_nat mul_idx)) (fun mul_byte =>
  let result_idx := Z.of_nat val_idx + Z.of_nat mul_idx in
  if MAX_BUF <? result_idx then Fault Exit_failure else
  res_bind (ld buf result_idx) (fun result_byte =>
  let result_byte := result_byte + value_byte * mul_byte + carry in
  res_bind (st buf result_idx (Z.land result_byte 0xFF)) (fun buf =>
  Ret (buf, Z.shiftr result_byte 8)))).
Definition mul_row (value multiplier : pka_operand) (val_idx : nat) (buf : bytes) : res bytes :=
  res_bind (ld (buf_ptr value) (Z.of_nat val_idx)) (fun value_byte =>
  res_bind
    (for_loop (Z.to_nat (actual_len multiplier)) 0 (mul_step value_byte multiplier val_idx) (buf, 0))
    (fun '(buf, carry) =>
  let result_idx := Z.of_nat val_idx + actual_len multiplier in
  res_bind (st buf result_idx (u8 carry)) (fun buf =>
  if MAX_BUF <? result_idx then Fault Exit_failure else Ret buf))).

Definition pki_multiply (value multiplier result : pka_operand)
    : res (pka_result_code * pka_operand) :=
  let val_byte_len := actual_len value in
  let mul_byte_len := actual_len multiplier in
  let result_byte_len := val_byte_len + mul_byte_len in
  if (MAX_BUF <? val_byte_len) || (MAX_BUF <? mul_byte_len) || (MAX_BUF <? result_byte_len)
  then Fault Exit_failure else
  res_bind (memset0 (buf_ptr result) result_byte_len) (fun buf =>
  res_bind (for_loop (Z.to_nat val_byte_len) 0 (mul_row value multiplier) buf) (fun buf =>
  res_bind (adjust_actual_len (result <| buf_ptr := buf |> <| actual_len := result_byte_len |>))
    (fun result => Ret (RC_NO_ERROR, result)))).

(** ** Division *)

Definition product_step (divisor : pka_operand) (quot_byte quot_byte_shift : Z) (byte_cnt : nat)
    (s : bytes * Z * Z) : res (bytes * Z * Z) :=
  let '(buf, carry, borrow) := s in
  res_bind (ld (buf_ptr divisor) (Z.of_nat byte_cnt)) (fun divisor_byte =>
  res_bind (ld buf (quot_byte_shift + Z.of_nat byte_cnt)) (fun dividend_byte =>
  let product := quot_byte * divisor_byte + carry in
  let '(result_byte, borrow) := sub_byte dividend_byte (Z.land product 0xFF + borrow) in
  res_bind (st buf (quot_byte_shift + Z.of_nat byte_cnt) (u8 result_byte)) (fun buf =>
  Ret (buf, Z.shiftr product 8, borrow)))).

(** [dividend -= divisor * quot_byte << (8 * quot_byte_shift)], in place. *)
Definition subtract_product (dividend divisor : pka_operand) (quot_byte quot_byte_shift : Z)
    : res pka_operand :=
  let divisor_byte_len := actual_len divisor in
  res_bind
    (if (actual_len dividend =? divisor_byte_len) && (quot_byte =? 1)
     then res_bind (pki_compare dividend divisor) (fun c =>
          Ret (match c with RC_COMPARE_EQUAL => true | _ => false end))
     else Ret false) (fun equal =>
  if equal then
    res_bind (memset0 (buf_ptr dividend) (actual_len dividend)) (fun buf =>
    Ret (dividend <| buf_ptr := buf |> <| actual_len := 1 |>))
  else
    res_bind
      (for_loop (Z.to_nat divisor_byte_len) 0 (product_step divisor quot_byte quot_byte_shift)
         (buf_ptr dividend, 0, 0))
      (fun '(buf, carry, borrow) =>
    res_bind
      (if negb (carry =? 0) || negb (borrow =? 0) then
         let p := quot_byte_shift + divisor_byte_len in
         res_bind (ld buf p) (fun dividend_byte =>
         if carry + borrow <=? dividend_byte
         then st buf p (u8 (dividend_byte - (carry + borrow))) else Fault Assert_failed)
       else Ret buf) (fun buf =>
    adjust_actual_len (dividend <| buf_ptr := buf |>)))).

Definition add_quot_byte (quotient : pka_operand) (quot_byte quot_byte_shift : Z)
    : res pka_operand :=
  if negb (quot_byte_shift <? actual_len quotient) then Fault Assert_failed else
  res_bind (ld (buf_ptr quotient) quot_byte_shift) (fun old_quot_byte =>
  let new_quot_byte := old_quot_byte + quot_byte in
  if negb (new_quot_byte <=? 255) then Fault Assert_failed else
  res_bind (st (buf_ptr quotient) quot_byte_shift new_quot_byte) (fun buf =>
  Ret (quotient <| buf_ptr := buf |>))).

(** The quotient byte and its position for the current dividend. *)
Definition quot_estimate (dividend divisor : pka_operand) (divisor_len ms_divisor : Z)
    : res (Z * Z) :=
  res_bind (get_two_ms_bytes dividend) (fun ms_dividend =>
  res_bind (operand_byte_len dividend) (fun dividend_len =>
  let quot_byte_shift := u32 (dividend_len - divisor_len) in
  res_bind
    (if ms_dividend =? ms_divisor then cmp_ms_dividend_to_ms_divisor dividend divisor
     else if ms_dividend <? ms_divisor then Ret RC_LEFT_IS_SMALLER
     else Ret RC_RIGHT_IS_SMALLER) (fun cmp =>
  match cmp with
  | RC_LEFT_IS_SMALLER =>
      res_bind (get_three_ms_bytes dividend ms_dividend) (fun ms_dividend =>
      Ret (ms_dividend / (ms_divisor + 1), u32 (quot_byte_shift - 1)))
  | RC_COMPARE_EQUAL => Ret (1, quot_byte_shift)
  | RC_RIGHT_IS_SMALLER =>
      Ret (if ms_dividend =? ms_divisor then 1 else ms_dividend / (ms_divisor + 1),
           quot_byte_shift)
  end))).

(** The [while] loop of [bignum_div_mod]; [fuel] bounds its iterations. *)
Fixpoint div_mod_loop (fuel : nat) (dividend divisor quotient : pka_operand)
    (divisor_len ms_divisor : Z) : res (pka_operand * pka_operand) :=
  match fuel with
  | O => Fault Out_of_fuel
  | S fuel' =>
      res_bind (pki_compare dividend divisor) (fun c =>
      match c with
      | RC_LEFT_IS_SMALLER => Ret (dividend, quotient)
      | _ =>
          res_bind (quot_estimate dividend divisor divisor_len ms_divisor)
            (fun '(quot_byte, quot_byte_shift) =>
          if negb ((1 <=? quot_byte) && (quot_byte <=? 255)) then Fault Assert_failed else
          res_bind (subtract_product dividend divisor quot_byte quot_byte_shift) (fun dividend =>
          res_bind (add_quot_byte quotient quot_byte quot_byte_shift) (fun quotient =>
          div_mod_loop fuel' dividend divisor quotient divisor_len ms_divisor)))
      end)
  end.

(** Returns the dividend, which now holds the remainder, and the quotient. At
    most 255 is added to each quotient byte, so 256 rounds for each byte are
    enough. *)
Definition bignum_div_mod (dividend divisor quotient : pka_operand)
    : res (pka_operand * pka_operand) :=
  res_bind (operand_byte_len dividend) (fun dividend_len =>
  if negb (actual_len dividend <=? dividend_len + 4) then Fault Assert_failed else
  res_bind (operand_byte_len divisor) (fun divisor_len =>
  res_bind (get_two_ms_bytes divisor) (fun ms_divisor =>
  if negb ((0x100 <=? ms_divisor) && (ms_divisor <=? 0xFFFF)) then Fault Assert_failed else
  div_mod_loop (Z.to_nat (256 * actual_len quotient)) dividend divisor quotient
    divisor_len ms_divisor))).

(** [if (p != NULL) f(p)]. *)
Definition if_not_null {A} (f : A -> res A) (p : option A) : res (option A) :=
  match p with None => Ret None | Some a => res_bind (f a) (fun a => Ret (Some a)) end.

(** [a / b] and [a % b] on [uint32_t]. *)
Definition div_u32 (a b : Z) : res Z := if b =? 0 then Fault Undefined_value else Ret (a / b).
Definition mod_u32 (a b : Z) : res Z := if b =? 0 then Fault Undefined_value else Ret (a mod b).

(** [stack] is what a local array holds before it is written. *)
Definition divide_with_remainder (stack : bytes) (dividend divisor : pka_operand)
    (quotient remainder : option pka_operand)
    : res (option pka_operand * option pka_operand) :=
  let both fq fr := res_bind (if_not_null fq quotient) (fun q =>
                    res_bind (if_not_null fr remainder) (fun r => Ret (q, r))) in
  if negb (eqb (big_endian dividend) (big_endian divisor)) then Fault Assert_failed else
  res_bind (pki_compare dividend divisor) (fun comparison =>
  match comparison with
  | RC_LEFT_IS_SMALLER => both (fun q => set_operand q 0) (fun r => copy_operand dividend r)
  | RC_COMPARE_EQUAL => both (fun q => set_operand q 1) (fun r => set_operand r 0)
  | RC_RIGHT_IS_SMALLER =>
      res_bind (is_one divisor) (fun one =>
      if one then both (fun q => copy_operand dividend q) (fun r => set_operand r 0) else
      res_bind (operand_byte_len dividend) (fun dividend_byte_len =>
      res_bind (operand_byte_len divisor) (fun divisor_byte_len =>
      if (dividend_byte_len <? 4) && (divisor_byte_len <? 4) then
        res_bind (operand_to_uint32 dividend) (fun dividend_uint32 =>
        res_bind (operand_to_uint32 divisor) (fun divisor_uint32 =>
        both (fun q => res_bind (div_u32 dividend_uint32 divisor_uint32) (set_operand q))
             (fun r => res_bind (mod_u32 dividend_uint32 divisor_uint32) (set_operand r))))
      else
        let quot_buf_len := dividend_byte_len + 1 - divisor_byte_len in
        res_bind (init_operand stack dividend_byte_len (big_endian dividend)) (fun remain =>
        res_bind (init_operand stack quot_buf_len (big_endian dividend)) (fun quot =>
        res_bind (copy_operand dividend remain) (fun remain =>
        res_bind (set_operand quot 0) (fun quot =>
        res_bind (bignum_div_mod remain divisor (quot <| actual_len := quot_buf_len |>))
          (fun '(remain, quot) =>
        both (fun q => copy_operand quot q) (fun r => copy_operand remain r)))))))))
  end).

(** ** Bytes of a number *)

(** Digit [i] of [v] in base 256, and the number of digits. *)
Definition byte_at (v i : Z) : Z := (v / 256 ^ i) mod 256.
Definition nbytes (v : Z) : Z := if v <=? 0 then 0 else Z.log2 v / 8 + 1.

Lemma byte_at_range v i : 0 <= byte_at v i < 256.
Proof. apply Z.mod_pos_bound. lia. Qed.

Lemma pow256_pos i : 0 < 256 ^ i \/ i < 0.
Proof. destruct (Z.lt_ge_cases i 0); [by right|left; by apply Z.pow_pos_nonneg]. Qed.

Lemma mod_pow_succ v i : 0 <= i -> v mod 256 ^ (i + 1) = v mod 256 ^ i + 256 ^ i * byte_at v i.
Proof.
  intros Hi. unfold byte_at. rewrite Z.pow_add_r, Z.pow_1_r by lia.
  apply Z.rem_mul_r; [|lia]. pose proof (Z.pow_pos_nonneg 256 i). lia.
Qed.

Lemma byte_at_above v n i : 0 <= v < 256 ^ n -> n <= i -> byte_at v i = 0.
Proof.
  intros Hv Hi. unfold byte_at. rewrite Z.div_small; [done|]. split; [lia|].
  destruct (Z.lt_ge_cases n 0) as [Hn|Hn]; [rewrite Z.pow_neg_r in Hv by done; lia|].
  pose proof (Z.pow_le_mono_r 256 n i). lia.
Qed.

Lemma nbytes_nonneg v : 0 <= nbytes v.
Proof.
  unfold nbytes. destruct (Z.leb_spec v 0); [done|]. pose proof (Z.log2_nonneg v).
  pose proof (Z.div_pos (Z.log2 v) 8). lia.
Qed.
Lemma nbytes_zero v : v <= 0 -> nbytes v = 0.
Proof. intros H. unfold nbytes. by rewrite (proj2 (Z.leb_le _ _)). Qed.
Lemma nbytes_0 : nbytes 0 = 0.
Proof. done. Qed.
Lemma nbytes_1 : nbytes 1 = 1.
Proof. done. Qed.
Lemma nbytes_bounds v : 0 < v -> 0 < nbytes v /\ 256 ^ (nbytes v - 1) <= v < 256 ^ nbytes v.
Proof.
  intros Hv. unfold nbytes. rewrite (proj2 (Z.leb_gt _ _)) by done.
  pose proof (Z.log2_nonneg v). pose proof (Z.log2_spec v Hv) as [Hl Hu].
  pose proof (Z.div_mod (Z.log2 v) 8 ltac:(lia)). pose proof (Z.mod_pos_bound (Z.log2 v) 8 ltac:(lia)).
  change 256 with (2 ^ 8). rewrite <-!Z.pow_mul_r by lia.
  split; [lia|]. split.
  - etransitivity; [|exact Hl]. apply Z.pow_le_mono_r; lia.
  - eapply Z.lt_le_trans; [exact Hu|]. apply Z.pow_le_mono_r; lia.
Qed.
Lemma nbytes_unique v n : 0 < n -> 256 ^ (n - 1) <= v < 256 ^ n -> nbytes v = n.
Proof.
  intros Hn [Hl Hu]. pose proof (Z.pow_pos_nonneg 256 (n - 1)).
  destruct (nbytes_bounds v) as (Hp & Hl' & Hu'); [lia|].
  assert (n - 1 < nbytes v) by (apply (Z.pow_lt_mono_r_iff 256); lia).
  assert (nbytes v - 1 < n) by (apply (Z.pow_lt_mono_r_iff 256); lia). lia.
Qed.
Lemma nbytes_le v n : 0 <= n -> v < 256 ^ n -> nbytes v <= n.
Proof.
  intros Hn Hv. destruct (Z.lt_ge_cases 0 v) as [Hp|Hp]; [|rewrite nbytes_zero by lia; lia].
  destruct (nbytes_bounds v Hp) as (_ & Hl & _).
  assert (nbytes v - 1 < n) by (apply (Z.pow_lt_mono_r_iff 256); lia). lia.
Qed.
Lemma nbytes_mono v w : v <= w -> nbytes v <= nbytes w.
Proof.
  intros H. apply nbytes_le; [apply nbytes_nonneg|]. destruct (Z.lt_ge_cases 0 w) as [Hw|Hw].
  - pose proof (nbytes_bounds w Hw). lia.
  - rewrite (nbytes_zero w) by done. simpl. lia.
Qed.
Lemma nbytes_pos v : 0 < v -> 1 <= nbytes v.
Proof. intros H. pose proof (nbytes_bounds v H). lia. Qed.
(** The leading byte is not zero. *)
Lemma byte_at_top v : 0 < v -> 1 <= byte_at v (nbytes v - 1).
Proof.
  intros Hv. destruct (nbytes_bounds v Hv) as (Hn & Hl & Hu). unfold byte_at.
  assert (0 < 256 ^ (nbytes v - 1)) by (apply Z.pow_pos_nonneg; lia).
  assert (256 ^ nbytes v = 256 ^ (nbytes v - 1) * 256) as E
    by (rewrite (Z.mul_comm _ 256), <-Z.pow_succ_r by lia; f_equal; lia).
  rewrite Z.mod_small; [|split; [apply Z.div_pos; lia|apply Z.div_lt_upper_bound; lia]].
  apply Z.div_le_lower_bound; lia.
Qed.

(** *** Bytes of a buffer *)

Lemma rd8_byte_at l i : bytes_ok l -> rd8 l i = byte_at (le_val l) (Z.of_nat i).
Proof.
  intros Hl. revert i. induction Hl as [|b l Hb Hl IH]; intros i.
  - unfold rd8, byte_at. simpl. by rewrite Z.div_0_l by (pose proof (Z.pow_pos_nonneg 256 (Z.of_nat i)); lia).
  - unfold is_u8 in Hb. unfold byte_at. cbn [le_val]. destruct i as [|i].
    + change (256 ^ Z.of_nat 0) with 1. rewrite Z.div_1_r, (Z.mul_comm 256), Z_mod_plus_full.
      symmetry. by apply Z.mod_small.
    + change (rd8 (b :: l) (S i)) with (rd8 l i). rewrite IH. unfold byte_at.
      rewrite Nat2Z.inj_succ, Z.pow_succ_r, <-Z.div_div by (try apply Z.pow_pos_nonneg; lia).
      rewrite (Z.mul_comm 256 (le_val l)), Z.div_add by lia. rewrite (Z.div_small b) by lia. done.
Qed.

Lemma le_val_insert l i b : (i < length l)%nat ->
  le_val (<[i := b]> l) = le_val l + 256 ^ Z.of_nat i * (b - rd8 l i).
Proof.
  revert i. induction l as [|a l IH]; intros i Hi; cbn [length] in Hi; [lia|].
  destruct i as [|i]; cbn [insert list_insert le_val].
  - unfold rd8. simpl. lia.
  - change (list_insert i b l) with (<[i:=b]> l).
    rewrite IH by lia. change (rd8 (a :: l) (S i)) with (rd8 l i).
    rewrite Nat2Z.inj_succ, Z.pow_succ_r by lia. lia.
Qed.

Lemma le_val_take_S l i : (i < length l)%nat ->
  le_val (take (S i) l) = le_val (take i l) + 256 ^ Z.of_nat i * rd8 l i.
Proof.
  intros Hi. rewrite (take_S_r l i (rd8 l i)) by (by apply lookup_rd8).
  rewrite le_val_app, length_take, Nat.min_l by lia. cbn [le_val]. lia.
Qed.

Lemma le_val_take_st l i b : (i < length l)%nat ->
  le_val (take (S i) (<[i := b]> l)) = le_val (take i l) + 256 ^ Z.of_nat i * b.
Proof.
  intros Hi. rewrite le_val_take_S by (rewrite length_insert; lia).
  rewrite take_insert_ge by lia. unfold rd8. by rewrite list_lookup_insert_eq by lia.
Qed.

Lemma le_val_take_mod l n : bytes_ok l -> (n <= length l)%nat ->
  le_val (take n l) = le_val l mod 256 ^ Z.of_nat n.
Proof.
  intros Hl Hn. rewrite <-(take_drop n l) at 2. rewrite le_val_app, length_take, Nat.min_l by lia.
  rewrite Z.mul_comm, Z_mod_plus_full. symmetry. apply Z.mod_small.
  pose proof (le_val_range (take n l) (Forall_take _ _ _ Hl)) as H.
  by rewrite length_take, Nat.min_l in H by lia.
Qed.

Lemma le_val_zeros n : le_val (zeros n) = 0.
Proof. induction n as [|n IH]; [done|]. cbn. fold (zeros n). rewrite IH. done. Qed.

Lemma bytes_ok_insert l i b : bytes_ok l -> is_u8 b -> bytes_ok (<[i := b]> l).
Proof. intros Hl Hb. by apply Forall_insert. Qed.

Lemma land_255 z : Z.land z 0xFF = z mod 256.
Proof. apply (Z.land_ones z 8). lia. Qed.
Lemma shiftr_8 z : Z.shiftr z 8 = z / 256.
Proof. apply (Z.shiftr_div_pow2 z 8). lia. Qed.
Lemma shiftl_8 z : Z.shiftl z 8 = z * 256.
Proof. apply (Z.shiftl_mul_pow2 z 8). lia. Qed.

(** ** Operands that denote a number

    [lop v op]: a well-formed little-endian operand with value [v]. *)
Record lop (v : Z) (op : pka_operand) : Prop := mk_lop {
  lop_ok : operand_ok op;
  lop_le : big_endian op = false;
  lop_val : operand_val op = v;
  lop_u32 : is_u32 (actual_len op);
}.
(** The capacity of the buffer. *)
Abbreviation cap op := (Z.of_nat (length (buf_ptr op))).

Lemma operand_val_le op : big_endian op = false ->
  operand_val op = le_val (take (Z.to_nat (actual_len op)) (buf_ptr op)).
Proof. intros H. unfold operand_val, digits, be_val. by rewrite H, reverse_involutive. Qed.

Lemma mk_lop_le v op : bytes_ok (buf_ptr op) -> 0 <= actual_len op <= cap op ->
  actual_len op < 2 ^ 32 -> big_endian op = false ->
  le_val (take (Z.to_nat (actual_len op)) (buf_ptr op)) = v -> lop v op.
Proof.
  intros Hb Ha Hu He Hv. split; [by split|done|by rewrite operand_val_le|]. unfold is_u32. lia.
Qed.

Section Lop.
Context {v : Z} {op : pka_operand} (H : lop v op).

Lemma lop_bytes : bytes_ok (buf_ptr op).
Proof. apply H. Qed.
Lemma lop_len : 0 <= actual_len op <= cap op.
Proof. apply H. Qed.
Lemma lop_le_val : le_val (take (Z.to_nat (actual_len op)) (buf_ptr op)) = v.
Proof. rewrite <-operand_val_le by apply H. apply H. Qed.

Lemma lop_range : 0 <= v < 256 ^ actual_len op.
Proof.
  pose proof lop_len. rewrite <-lop_le_val.
  pose proof (le_val_range (take (Z.to_nat (actual_len op)) (buf_ptr op))
                (Forall_take _ _ _ lop_bytes)) as R.
  rewrite length_take in R. by replace (Z.of_nat (Z.to_nat (actual_len op) `min` length (buf_ptr op)))
    with (actual_len op) in R by lia.
Qed.

Lemma lop_nbytes : 0 <= nbytes v <= actual_len op.
Proof.
  split; [apply nbytes_nonneg|]. pose proof lop_len. apply nbytes_le; [lia|apply lop_range].
Qed.

Lemma lop_ld i : 0 <= i < actual_len op -> ld (buf_ptr op) i = Ret (byte_at v i).
Proof.
  intros Hi. pose proof lop_len. rewrite ld_in by lia. f_equal.
  rewrite <-lop_le_val. rewrite <-(Z2Nat.id i) at 2 by lia.
  rewrite <-rd8_byte_at by (apply Forall_take, lop_bytes). unfold rd8.
  by rewrite lookup_take_lt by lia.
Qed.
Lemma lop_byte_or_0 i : 0 <= i -> byte_or_0 (buf_ptr op) (actual_len op) i = Ret (byte_at v i).
Proof.
  intros Hi. unfold byte_or_0. destruct (Z.ltb_spec i (actual_len op)); [by apply lop_ld|].
  by rewrite (byte_at_above v (actual_len op) i) by (lia || apply lop_range).
Qed.

Lemma lop_byte_len : operand_byte_len op = Ret (nbytes v).
Proof.
  rewrite operand_byte_len_spec by apply H. f_equal.
  destruct (strip_bounds (digits op) (digits_ok op (lop_ok _ _ H))) as [Hu Hd].
  fold (operand_val op) in Hu, Hd. rewrite (lop_val _ _ H) in Hu, Hd.
  destruct Hd as [E|Hd].
  - rewrite E in *. simpl in *. rewrite nbytes_zero; [done|lia].
  - destruct (strip (digits op)) as [|b l] eqn:E.
    + simpl in *. rewrite nbytes_zero; [done|lia].
    + symmetry. apply nbytes_unique; [simpl; lia|done].
Qed.
Lemma lop_is_zero : is_zero op = Ret (v =? 0).
Proof. rewrite is_zero_spec by apply H. by rewrite (lop_val _ _ H). Qed.

Lemma lop_msb_loop p n : nbytes v - 1 <= p < actual_len op -> 0 < v -> (Z.to_nat p < n)%nat ->
  msb_loop (buf_ptr op) (-1) p p n = Ret (nbytes v - 1).
Proof.
  intros Hp Hv Hn. pose proof (lop_u32 _ _ H) as Hu. unfold is_u32 in Hu.
  pose proof (nbytes_pos v Hv) as H1.
  revert p Hp Hn. induction n as [|n IH]; intros p Hp Hn; [lia|]. cbn [msb_loop].
  rewrite lop_ld by lia. cbn [res_bind]. destruct (decide (p = nbytes v - 1)) as [->|Hne].
  - pose proof (byte_at_top v Hv). by rewrite (proj2 (Z.eqb_neq _ _)) by lia.
  - rewrite (byte_at_above v (nbytes v) p) by (destruct (nbytes_bounds v Hv); lia).
    rewrite Z.eqb_refl. rewrite u32_id by (unfold is_u32; lia).
    apply IH; lia.
Qed.
Lemma lop_msb_idx : 0 < v -> get_msb_idx op = Ret (nbytes v - 1).
Proof.
  intros Hv. pose proof (lop_u32 _ _ H) as Hu. unfold is_u32 in Hu. pose proof lop_nbytes.
  pose proof (nbytes_pos v Hv). unfold get_msb_idx, msb_ptr, msb_dir. rewrite (lop_le _ _ H).
  rewrite lop_ld by lia. cbn [res_bind]. rewrite u32_id by (unfold is_u32; lia).
  destruct (Z.eqb_spec (byte_at v (actual_len op - 1)) 0) as [E|E]; cbn [negb].
  - apply lop_msb_loop; [|done|]; lia.
  - f_equal. destruct (decide (actual_len op = nbytes v)) as [->|Hne]; [done|].
    exfalso. apply E. apply (byte_at_above v (nbytes v)); [|lia]. destruct (nbytes_bounds v Hv). lia.
Qed.

Lemma lop_clz_loop k n : 0 < v -> 0 <= k <= actual_len op - nbytes v ->
  (Z.to_nat (actual_len op - nbytes v - k) < n)%nat ->
  clz_loop n (buf_ptr op) false (actual_len op) k = Ret (actual_len op - nbytes v).
Proof.
  intros Hv. pose proof (nbytes_pos v Hv) as H1. revert k. induction n as [|n IH]; intros k Hk Hn; [lia|].
  cbn [clz_loop]. rewrite lop_ld by lia. cbn [res_bind].
  destruct (decide (k = actual_len op - nbytes v)) as [->|Hne].
  - pose proof (byte_at_top v Hv).
    replace (actual_len op - 1 - (actual_len op - nbytes v)) with (nbytes v - 1) by lia.
    by rewrite (proj2 (Z.eqb_neq _ _)) by lia.
  - rewrite (byte_at_above v (nbytes v)) by (destruct (nbytes_bounds v Hv); lia).
    cbn. apply IH; lia.
Qed.
Lemma lop_clz : 0 < v -> count_leading_zeros op = Ret (actual_len op - nbytes v).
Proof.
  intros Hv. pose proof lop_nbytes. pose proof (nbytes_pos v Hv).
  unfold count_leading_zeros. rewrite lop_is_zero. cbn [res_bind].
  rewrite (proj2 (Z.eqb_neq v 0)) by lia. rewrite (proj2 (Z.eqb_neq _ 0)) by lia.
  rewrite (lop_le _ _ H). apply lop_clz_loop; lia.
Qed.
(** The bytes up to the leading one determine the value. *)
Lemma lop_shrink n : nbytes v <= n <= actual_len op -> lop v (op <| actual_len := n |>).
Proof.
  intros Hn. pose proof lop_len. pose proof lop_nbytes. pose proof (lop_u32 _ _ H) as Hu. unfold is_u32 in Hu.
  apply mk_lop_le; simpl; [apply H|lia|lia|apply H|].
  assert (take (Z.to_nat n) (buf_ptr op) = take (Z.to_nat n) (take (Z.to_nat (actual_len op)) (buf_ptr op))) as ->
    by (rewrite take_take; f_equal; lia).
  rewrite le_val_take_mod by (first [apply Forall_take, lop_bytes|rewrite length_take; lia]).
  rewrite lop_le_val. apply Z.mod_small. pose proof lop_range. split; [lia|].
  rewrite Z2Nat.id by lia. destruct (Z.lt_ge_cases 0 v) as [Hv|Hv].
  - destruct (nbytes_bounds v Hv) as (_ & _ & Hb).
    pose proof (Z.pow_le_mono_r 256 (nbytes v) n). lia.
  - pose proof (Z.pow_pos_nonneg 256 n). lia.
Qed.
End Lop.

(** A destination with room for [n] bytes, and what a routine leaves there. *)
Record room (n : Z) (op : pka_operand) : Prop := mk_room {
  room_bytes : bytes_ok (buf_ptr op);
  room_le : big_endian op = false;
  room_cap : n <= cap op;
}.
Record written (op : pka_operand) (v len : Z) (op' : pka_operand) : Prop := mk_written {
  written_lop : lop v op';
  written_len : actual_len op' = len;
  written_cap : length (buf_ptr op') = length (buf_ptr op);
}.
Lemma lop_room v op : lop v op -> room (actual_len op) op.
Proof. intros H. split; [apply H|apply H|apply (lop_len H)]. Qed.
Lemma written_room op v len op' n : written op v len op' -> room n op -> room n op'.
Proof. intros [H _ E] R. split; [apply H|apply H|rewrite E; apply R]. Qed.
Lemma room_mono n m op : room n op -> m <= n -> room m op.
Proof. intros [] ?. split; [done..|lia]. Qed.

Lemma lop_compare {v w l r} : lop v l -> lop w r -> pki_compare l r = Ret (code_of (v ?= w)).
Proof.
  intros Hl Hr. rewrite pki_compare_spec; [|apply Hl|apply Hr|apply Hl|apply Hr].
  by rewrite (lop_val _ _ Hl), (lop_val _ _ Hr).
Qed.

Lemma lop_is_one {v op} : lop v op -> is_one op = Ret (v =? 1).
Proof.
  intros H. unfold is_one. rewrite (lop_byte_len H). cbn [res_bind]. pose proof (lop_range H).
  destruct (Z.eqb_spec (nbytes v) 1) as [E|E]; cbn [negb].
  - assert (0 < v) as Hv by (destruct (Z.lt_ge_cases 0 v); [done|rewrite nbytes_zero in E by lia; done]).
    destruct (nbytes_bounds v Hv) as (_ & _ & Hu). rewrite E in Hu.
    pose proof (lop_nbytes H). rewrite (lop_ld H) by lia. cbn [res_bind]. do 2 f_equal.
    unfold byte_at. change (256 ^ 0) with 1. rewrite Z.div_1_r. apply Z.mod_small. lia.
  - f_equal. symmetry. apply Z.eqb_neq. intros ->. by apply E.
Qed.

Lemma operand_len_eta op : op <| actual_len := actual_len op |> = op.
Proof. by destruct op. Qed.

Lemma lop_adjust {v op} : lop v op -> 0 < actual_len op <= MAX_BUF ->
  adjust_actual_len op = Ret (op <| actual_len := Z.max 1 (nbytes v) |>) /\
  lop v (op <| actual_len := Z.max 1 (nbytes v) |>).
Proof.
  intros H Ha. pose proof (lop_nbytes H). pose proof (lop_range H) as R.
  split; [|apply (lop_shrink H); lia].
  unfold adjust_actual_len. rewrite (lop_is_zero H). cbn [res_bind].
  destruct (Z.eqb_spec v 0) as [->|Hne]; [done|].
  pose proof (nbytes_pos v ltac:(lia)). rewrite (lop_clz H) by lia. cbn [res_bind].
  rewrite Z.max_r by lia.
  destruct (Z.eqb_spec (actual_len op - nbytes v) 0) as [E|E].
  - replace (nbytes v) with (actual_len op) by lia. by rewrite operand_len_eta.
  - rewrite (proj2 (Z.ltb_ge _ _)) by lia. rewrite (proj2 (Z.eqb_neq _ 0)) by lia.
    simpl. rewrite (lop_le _ _ H). unfold MAX_BUF in *.
    replace (actual_len op - (actual_len op - nbytes v)) with (nbytes v) by lia.
    by rewrite u32_id by (unfold is_u32; lia).
Qed.

(** *** Copies *)

Lemma lop_memcpy {v op} (dst : bytes) : lop v op -> bytes_ok dst -> actual_len op <= Z.of_nat (length dst) ->
  exists b, memcpy dst (buf_ptr op) (actual_len op) = Ret b /\ bytes_ok b /\
    length b = length dst /\ le_val (take (Z.to_nat (actual_len op)) b) = v.
Proof.
  intros H Hd Hl. pose proof (lop_len H). unfold memcpy.
  rewrite !(proj2 (Z.leb_le _ _)) by lia. eexists. split; [done|]. split; [|split].
  - apply Forall_app. split; [apply Forall_take, H|by apply Forall_drop].
  - rewrite length_app, length_take, length_drop. lia.
  - rewrite take_app_le by (rewrite length_take; lia). rewrite take_idemp. apply (lop_le_val H).
Qed.

Lemma lop_copy {v op} c n : lop v op -> room n c -> actual_len op <= n ->
  exists c', copy_operand op c = Ret c' /\ written c v (actual_len op) c'.
Proof.
  intros H R Hn. pose proof (room_cap _ _ R).
  destruct (lop_memcpy (buf_ptr c) H) as (b & E & Hb & Hl & Hv); [apply R|lia|].
  unfold copy_operand. rewrite E. cbn [res_bind]. eexists. split; [done|].
  pose proof (lop_len H). pose proof (lop_u32 _ _ H) as Hu. unfold is_u32 in Hu.
  split; [|done|done]. apply mk_lop_le; simpl; [done|lia|lia|apply H|done].
Qed.

Lemma init_operand_spec buf len n : bytes_ok buf -> 0 <= len -> len <= n -> n <= Z.of_nat (length buf) ->
  exists op, init_operand buf len false = Ret op /\ room n op /\ lop 0 op /\ actual_len op = 0 /\
    length (buf_ptr op) = length buf /\ take (Z.to_nat len) (buf_ptr op) = zeros (Z.to_nat len) /\ buf_len op = len.
Proof.
  intros Hb Hl Hn Hc. unfold init_operand, memset0. rewrite (proj2 (Z.leb_le _ _)) by lia.
  cbn [res_bind]. eexists. split; [done|].
  assert (bytes_ok (zeros (Z.to_nat len) ++ drop (Z.to_nat len) buf))
    by (apply Forall_app; split; [apply zeros_ok|by apply Forall_drop]).
  assert (length (zeros (Z.to_nat len) ++ drop (Z.to_nat len) buf) = length buf)
    by (rewrite length_app, length_zeros, length_drop; lia).
  split; [split; simpl; [done|done|lia]|]. split; [apply mk_lop_le; simpl; (done || lia)|].
  split; [done|]. split; [done|]. split; [|done]. simpl.
  by rewrite take_app_length' by (by rewrite length_zeros).
Qed.

(** [set_operand] stores the bytes of a 32-bit integer and no leading zero. *)
Lemma set_operand_len k : is_u32 k ->
  (if k =? 0 then 0 else if k <? 0x100 then 1 else if k <? 0x10000 then 2
   else if k <? 0x1000000 then 3 else 4) = nbytes k.
Proof.
  unfold is_u32. intros Hk. destruct (Z.eqb_spec k 0) as [->|]; [done|].
  destruct (Z.ltb_spec k 0x100); [symmetry; apply nbytes_unique; lia|].
  destruct (Z.ltb_spec k 0x10000); [symmetry; apply nbytes_unique; lia|].
  destruct (Z.ltb_spec k 0x1000000); symmetry; apply nbytes_unique; lia.
Qed.

Lemma set_operand_spec op k n : room n op -> is_u32 k -> nbytes k <= n ->
  exists op', set_operand op k = Ret op' /\ written op k (nbytes k) op'.
Proof.
  intros R Hk Hn. pose proof (room_cap _ _ R) as Hc. pose proof (nbytes_nonneg k).
  unfold set_operand. rewrite set_operand_len by done. rewrite (room_le _ _ R).
  destruct (for_loop_inv (fun i '((b, r) : bytes * Z) => length b = length (buf_ptr op) /\ bytes_ok b /\
      le_val (take i b) + 256 ^ Z.of_nat i * r = k /\ 0 <= r)
    (set_step false (nbytes k)) (Z.to_nat (nbytes k)) 0 (buf_ptr op, k)) as ([b r] & E & Hl & Hb & Hv & Hr).
  - unfold is_u32 in Hk. split; [done|]. split; [apply R|]. split; [|lia].
    change (256 ^ Z.of_nat 0) with 1. simpl. lia.
  - intros i [b r] Hi (Hl & Hb & Hv & Hr). unfold set_step. rewrite st_in by lia. cbn [res_bind].
    eexists. split; [done|]. cbv beta iota. rewrite length_insert, land_255, shiftr_8, Nat2Z.id.
    split; [done|]. pose proof (Z.mod_pos_bound r 256 ltac:(lia)).
    split; [apply bytes_ok_insert; [done|unfold is_u8; lia]|].
    rewrite le_val_take_st by lia.
    rewrite Nat2Z.inj_succ, Z.pow_succ_r by lia. pose proof (Z.div_mod r 256 ltac:(lia)).
    split; [nia|]. apply Z.div_pos; lia.
  - rewrite E. cbn [res_bind]. eexists. split; [done|]. rewrite Nat.add_0_l in Hv.
    assert (nbytes k <= 4) by (unfold is_u32 in Hk; apply nbytes_le; lia).
    split; [|done|done]. apply mk_lop_le; simpl; [done|lia|lia|apply R|].
    rewrite Z2Nat.id in Hv by lia.
    pose proof (le_val_range (take (Z.to_nat (nbytes k)) b) (Forall_take _ _ _ Hb)) as Rg.
    assert (r = 0); [|subst r; lia].
    destruct (Z.lt_ge_cases 0 k) as [Hp|Hp]; [|unfold is_u32 in Hk; replace k with 0 in * by lia; simpl in *; lia].
    destruct (nbytes_bounds k Hp) as (_ & _ & Hu). nia.
Qed.

(** ** Addition and subtraction *)

Lemma last_nonzero_spec b n : bytes_ok b -> (n < length b)%nat ->
  last_nonzero b n = Ret (Z.max 1 (nbytes (le_val (take (S n) b))) - 1).
Proof.
  intros Hb. induction n as [|n IH]; intros Hn; cbn [last_nonzero].
  - f_equal. assert (nbytes (le_val (take 1 b)) <= 1); [|lia].
    apply nbytes_le; [lia|]. pose proof (le_val_range (take 1 b) (Forall_take _ _ _ Hb)) as R.
    rewrite length_take, Nat.min_l in R by lia. apply R.
  - rewrite ld_in by lia. rewrite Nat2Z.id. cbn [res_bind]. rewrite le_val_take_S by lia.
    pose proof (le_val_range (take (S n) b) (Forall_take _ _ _ Hb)) as R.
    rewrite length_take, Nat.min_l in R by lia.
    pose proof (rd8_ok b (S n) Hb) as Hr. unfold is_u8 in Hr.
    destruct (Z.eqb_spec (rd8 b (S n)) 0) as [E|E]; cbn [negb].
    + rewrite IH by lia. rewrite E. do 4 f_equal. lia.
    + rewrite (nbytes_unique _ (Z.of_nat (S n) + 1)); [f_equal; lia|lia|].
      replace (Z.of_nat (S n) + 1 - 1) with (Z.of_nat (S n)) by lia.
      rewrite (Z.pow_add_r 256 _ 1) by lia. nia.
Qed.

Lemma pki_add_spec {v a value addend} result n :
  lop v value -> lop a addend -> room n result ->
  Z.max (actual_len value) (actual_len addend) + 1 <= n < 2 ^ 32 ->
  exists r, pki_add value addend result = Ret (RC_NO_ERROR, r) /\
    written result (v + a) (Z.max 1 (nbytes (v + a))) r.
Proof.
  intros Hv Ha R Hn. pose proof (room_cap _ _ R) as Hc. pose proof (lop_len Hv). pose proof (lop_len Ha).
  unfold pki_add. set (m := Z.max (actual_len value) (actual_len addend)) in *.
  replace (m + 1 - 1) with m by lia.
  destruct (for_loop_inv (fun i '((b, c) : bytes * Z) => length b = length (buf_ptr result) /\ bytes_ok b /\
      le_val (take i b) + 256 ^ Z.of_nat i * c = v mod 256 ^ Z.of_nat i + a mod 256 ^ Z.of_nat i /\ 0 <= c <= 1)
    (add_step value addend) (Z.to_nat m) 0 (buf_ptr result, 0)) as ([b c] & E & Hl & Hb & Hs & Hc1).
  - split; [done|]. split; [apply R|]. split; [|lia]. change (256 ^ Z.of_nat 0) with 1.
    rewrite !Z.mod_1_r. done.
  - intros i [b c] Hi (Hl & Hb & Hs & Hc1). unfold add_step. rewrite (lop_byte_or_0 Hv), (lop_byte_or_0 Ha) by lia.
    cbn [res_bind]. rewrite st_in by lia. cbn [res_bind]. eexists. split; [done|]. cbv beta iota.
    rewrite length_insert, land_255, shiftr_8, Nat2Z.id. split; [done|].
    pose proof (byte_at_range v (Z.of_nat i)). pose proof (byte_at_range a (Z.of_nat i)).
    set (s := byte_at v (Z.of_nat i) + byte_at a (Z.of_nat i) + c) in *.
    pose proof (Z.div_mod s 256 ltac:(lia)). pose proof (Z.mod_pos_bound s 256 ltac:(lia)).
    split; [apply bytes_ok_insert; [done|unfold is_u8; lia]|].
    split; [|lia]. rewrite le_val_take_st by lia. rewrite Nat2Z.inj_succ. unfold Z.succ.
    rewrite !mod_pow_succ, (Z.pow_add_r 256 _ 1) by lia. nia.
  - rewrite E. cbn [res_bind]. rewrite st_in by lia. cbn [res_bind].
    rewrite Nat.add_0_l, Z2Nat.id in Hs by lia.
    assert (forall x op, lop x op -> actual_len op <= m -> x mod 256 ^ m = x) as Hmod.
    { intros x op Hx Hm. apply Z.mod_small. pose proof (lop_range Hx). pose proof (lop_len Hx).
      pose proof (Z.pow_le_mono_r 256 (actual_len op) m). lia. }
    rewrite (Hmod v _ Hv), (Hmod a _ Ha) in Hs by lia.
    assert (bytes_ok (<[Z.to_nat m:=c]> b)) as Hb' by (apply bytes_ok_insert; [done|unfold is_u8; lia]).
    assert (le_val (take (S (Z.to_nat m)) (<[Z.to_nat m:=c]> b)) = v + a) as Hv'
      by (rewrite le_val_take_st, Z2Nat.id by lia; lia).
    rewrite last_nonzero_spec by (try done; rewrite length_insert; lia). cbn [res_bind].
    rewrite Hv'. eexists. split; [done|].
    assert (lop (v + a) (result <| buf_ptr := <[Z.to_nat m:=c]> b |> <| actual_len := m + 1 |>)) as Hlop.
    { apply mk_lop_le; simpl; [done|rewrite length_insert; lia|lia|apply R|].
      by replace (Z.to_nat (m + 1)) with (S (Z.to_nat m)) by lia. }
    replace (Z.max 1 (nbytes (v + a)) - 1 + 1) with (Z.max 1 (nbytes (v + a))) by lia.
    split; [|done|simpl; rewrite length_insert; done].
    pose proof (lop_nbytes Hlop). apply (lop_shrink Hlop (Z.max 1 (nbytes (v + a)))). simpl in *. lia.
Qed.

(** One byte of a difference, as an equation. *)
Lemma sub_byte_eq m s : 0 <= m < 256 -> 0 <= s <= 256 ->
  exists r b, sub_byte m s = (r, b) /\ m - s = r - 256 * b /\ 0 <= r < 256 /\ 0 <= b <= 1.
Proof.
  intros Hm Hs. unfold sub_byte. destruct (Z.leb_spec s m); eexists _, _; (split; [done|lia]).
Qed.

Lemma code_of_ge v w : w <= v ->
  code_of (v ?= w) = RC_COMPARE_EQUAL \/ code_of (v ?= w) = RC_RIGHT_IS_SMALLER.
Proof. intros H. destruct (Z.compare_spec v w); [by left|lia|by right]. Qed.

Lemma pki_subtract_err {v w value subtrahend} result :
  lop v value -> lop w subtrahend -> v < w ->
  pki_subtract value subtrahend result = Ret (RC_CALCULATION_ERR, result).
Proof.
  intros Hv Hw H. unfold pki_subtract. rewrite (lop_compare Hv Hw). cbn [res_bind].
  by rewrite (proj2 (Z.compare_lt_iff v w)).
Qed.

(** The difference in a buffer, before its leading zeros go. *)
Lemma sub_loop_spec {v w value subtrahend} buf :
  lop v value -> lop w subtrahend -> w <= v ->
  bytes_ok buf -> actual_len value <= Z.of_nat (length buf) ->
  exists b c, for_loop (Z.to_nat (actual_len value)) 0 (sub_step value subtrahend) (buf, 0) = Ret (b, c) /\
    length b = length buf /\ bytes_ok b /\ le_val (take (Z.to_nat (actual_len value)) b) = v - w.
Proof.
  intros Hv Hw Hge Hbuf Hc. pose proof (lop_len Hv). pose proof (lop_range Hv) as Rv.
  pose proof (lop_range Hw) as Rw. set (m := actual_len value) in *.
  destruct (for_loop_inv (fun i '((b, c) : bytes * Z) => length b = length buf /\ bytes_ok b /\
      le_val (take i b) + w mod 256 ^ Z.of_nat i = v mod 256 ^ Z.of_nat i + 256 ^ Z.of_nat i * c /\ 0 <= c <= 1)
    (sub_step value subtrahend) (Z.to_nat m) 0 (buf, 0)) as ([b c] & E & Hl & Hb & Hs & Hc1).
  - split; [done|]. split; [done|]. split; [|lia]. change (256 ^ Z.of_nat 0) with 1.
    rewrite !Z.mod_1_r. done.
  - intros i [b c] Hi (Hl & Hb & Hs & Hc1). unfold sub_step.
    rewrite (lop_ld Hv), (lop_byte_or_0 Hw) by lia. cbn [res_bind].
    pose proof (byte_at_range v (Z.of_nat i)). pose proof (byte_at_range w (Z.of_nat i)).
    destruct (sub_byte_eq (byte_at v (Z.of_nat i)) (byte_at w (Z.of_nat i) + c)) as (r & c' & -> & Er & Hr & Hc'); [lia..|].
    rewrite st_in by lia. cbn [res_bind]. eexists. split; [done|]. cbv beta iota.
    rewrite length_insert, Nat2Z.id, u8_id by (unfold is_u8; lia). split; [done|].
    split; [apply bytes_ok_insert; [done|unfold is_u8; lia]|].
    split; [|lia]. rewrite le_val_take_st by lia. rewrite Nat2Z.inj_succ. unfold Z.succ.
    rewrite !mod_pow_succ, (Z.pow_add_r 256 _ 1) by lia. nia.
  - exists b, c. split; [done|]. split; [done|]. split; [done|].
    rewrite Nat.add_0_l, Z2Nat.id in Hs by lia. rewrite !Z.mod_small in Hs by lia.
    pose proof (le_val_range (take (Z.to_nat m) b) (Forall_take _ _ _ Hb)) as R.
    rewrite length_take, Nat.min_l, Z2Nat.id in R by lia. assert (c = 0 \/ c = 1) as [-> | ->] by lia; lia.
Qed.

Lemma pki_subtract_spec {v w value subtrahend} result n :
  lop v value -> lop w subtrahend -> w <= v -> room n result ->
  0 < actual_len value <= n -> actual_len value <= MAX_BUF ->
  exists r, pki_subtract value subtrahend result = Ret (RC_NO_ERROR, r) /\
    written result (v - w) (Z.max 1 (nbytes (v - w))) r.
Proof.
  intros Hv Hw Hge R Hn Hm. pose proof (room_cap _ _ R) as Hc.
  unfold pki_subtract. rewrite (lop_compare Hv Hw). cbn [res_bind].
  destruct (sub_loop_spec (buf_ptr result) Hv Hw Hge (room_bytes _ _ R) ltac:(lia))
    as (b & c & E & Hl & Hb & Hval).
  rewrite E. cbn [res_bind].
  assert (lop (v - w) (result <| buf_ptr := b |> <| actual_len := actual_len value |>)) as Hr.
  { pose proof (lop_u32 _ _ Hv) as Hu. unfold is_u32 in Hu.
    apply mk_lop_le; simpl; [done|lia|lia|apply R|done]. }
  destruct (lop_adjust Hr) as [Ea Hla]; [simpl; lia|]. rewrite Ea. cbn [res_bind].
  destruct (code_of_ge v w Hge) as [-> | ->]; (eexists; split; [done|]; by split).
Qed.

(** ** Multiplication *)

Lemma le_val_take_ins N l i b : (i < N)%nat -> (i < length l)%nat ->
  le_val (take N (<[i := b]> l)) = le_val (take N l) + 256 ^ Z.of_nat i * (b - rd8 l i).
Proof.
  intros HN Hi. rewrite take_insert_lt by lia. rewrite le_val_insert by (rewrite length_take; lia).
  unfold rd8. by rewrite lookup_take_lt by lia.
Qed.
Lemma rd8_insert_ne l i j b : i <> j -> rd8 (<[i := b]> l) j = rd8 l j.
Proof. intros H. unfold rd8. by rewrite list_lookup_insert_ne. Qed.

Lemma mul_row_spec {v m value multiplier} N i b :
  lop v value -> lop m multiplier ->
  Z.of_nat N = actual_len value + actual_len multiplier -> Z.of_nat N <= MAX_BUF ->
  Z.of_nat i < actual_len value -> (N <= length b)%nat -> bytes_ok b ->
  le_val (take N b) = v mod 256 ^ Z.of_nat i * m ->
  (forall k, Z.of_nat i + actual_len multiplier <= Z.of_nat k < Z.of_nat N -> rd8 b k = 0) ->
  exists b', mul_row value multiplier i b = Ret b' /\ length b' = length b /\ bytes_ok b' /\
    le_val (take N b') = v mod 256 ^ Z.of_nat (S i) * m /\
    (forall k, Z.of_nat (S i) + actual_len multiplier <= Z.of_nat k < Z.of_nat N -> rd8 b' k = 0).
Proof.
  intros Hv Hm HN Hmax Hi Hlen Hb Hval Hz. pose proof (lop_len Hv). pose proof (lop_len Hm).
  unfold mul_row. rewrite (lop_ld Hv) by lia. cbn [res_bind].
  pose proof (byte_at_range v (Z.of_nat i)) as Hvb. set (vb := byte_at v (Z.of_nat i)) in *.
  set (ml := actual_len multiplier) in *.
  destruct (for_loop_inv (fun j '((b', c) : bytes * Z) => length b' = length b /\ bytes_ok b' /\
      le_val (take N b') + 256 ^ (Z.of_nat i + Z.of_nat j) * c
        = v mod 256 ^ Z.of_nat i * m + vb * 256 ^ Z.of_nat i * (m mod 256 ^ Z.of_nat j) /\
      0 <= c <= 255 /\
      (forall k, Z.of_nat i + ml <= Z.of_nat k < Z.of_nat N -> rd8 b' k = 0))
    (mul_step vb multiplier i) (Z.to_nat ml) 0 (b, 0)) as ([b' c] & E & Hl & Hb' & Hs & Hc & Hz').
  - split; [done|]. split; [done|]. split; [|split; [lia|done]]. change (256 ^ Z.of_nat 0) with 1.
    rewrite Z.mod_1_r, Hval. lia.
  - intros j [b' c] Hj (Hl & Hb' & Hs & Hc & Hz'). unfold mul_step. fold ml in Hj.
    rewrite (lop_ld Hm) by (fold ml; lia). cbn [res_bind].
    rewrite (proj2 (Z.ltb_ge _ _)) by lia. rewrite ld_in by lia. cbn [res_bind].
    rewrite st_in by lia. cbn [res_bind]. eexists. split; [done|]. cbv beta iota.
    rewrite length_insert, land_255, shiftr_8.
    replace (Z.to_nat (Z.of_nat i + Z.of_nat j)) with (i + j)%nat by lia.
    pose proof (byte_at_range m (Z.of_nat j)) as Hmb.
    pose proof (rd8_ok b' (i + j) Hb') as Hr. unfold is_u8 in Hr.
    set (r := rd8 b' (i + j) + vb * byte_at m (Z.of_nat j) + c) in *.
    assert (0 <= r <= 65535) by (subst r; nia).
    pose proof (Z.div_mod r 256 ltac:(lia)). pose proof (Z.mod_pos_bound r 256 ltac:(lia)).
    split; [done|]. split; [apply bytes_ok_insert; [done|unfold is_u8; lia]|].
    split; [|split; [lia|]].
    + rewrite le_val_take_ins by lia. rewrite !Nat2Z.inj_add, Nat2Z.inj_succ.
      unfold Z.succ. rewrite mod_pow_succ, Z.add_assoc, (Z.pow_add_r 256 (_ + _) 1) by lia.
      rewrite (Z.pow_add_r 256 (Z.of_nat i)) in * by lia.
      change (256 ^ 1) with 256. subst r. nia.
    + intros k Hk. rewrite rd8_insert_ne by lia. by apply Hz'.
  - rewrite E. cbn [res_bind]. rewrite Nat.add_0_l, Z2Nat.id in Hs by lia.
    rewrite st_in by lia. cbn [res_bind]. rewrite (proj2 (Z.ltb_ge _ _)) by lia.
    eexists. split; [done|]. rewrite length_insert, u8_id by (unfold is_u8; lia).
    split; [done|]. split; [apply bytes_ok_insert; [done|unfold is_u8; lia]|]. split.
    + rewrite le_val_take_ins by lia. rewrite Hz' by lia. rewrite Z2Nat.id by lia.
      pose proof (lop_range Hm) as Rm. rewrite (Z.mod_small m) in Hs by (fold ml in Rm; lia).
      rewrite Nat2Z.inj_succ. unfold Z.succ. rewrite mod_pow_succ by lia. fold vb. lia.
    + intros k Hk. rewrite rd8_insert_ne by lia. apply Hz'. lia.
Qed.

Lemma pki_multiply_spec {v m value multiplier} result n :
  lop v value -> lop m multiplier -> room n result ->
  0 < actual_len value + actual_len multiplier <= n ->
  actual_len value + actual_len multiplier <= MAX_BUF ->
  exists r, pki_multiply value multiplier result = Ret (RC_NO_ERROR, r) /\
    written result (v * m) (Z.max 1 (nbytes (v * m))) r.
Proof.
  intros Hv Hm R Hn Hmax. pose proof (room_cap _ _ R) as Hc. pose proof (lop_len Hv). pose proof (lop_len Hm).
  unfold pki_multiply. rewrite !(proj2 (Z.ltb_ge _ _)) by lia. cbn [orb].
  unfold memset0. rewrite (proj2 (Z.leb_le _ _)) by lia. cbn [res_bind].
  set (N := Z.to_nat (actual_len value + actual_len multiplier)).
  set (b0 := zeros N ++ drop N (buf_ptr result)).
  assert (length b0 = length (buf_ptr result)) as Hl0
    by (subst b0; rewrite length_app, length_zeros, length_drop; lia).
  destruct (for_loop_inv (fun i b => length b = length (buf_ptr result) /\ bytes_ok b /\
      le_val (take N b) = v mod 256 ^ Z.of_nat i * m /\
      (forall k, Z.of_nat i + actual_len multiplier <= Z.of_nat k < Z.of_nat N -> rd8 b k = 0))
    (mul_row value multiplier) (Z.to_nat (actual_len value)) 0 b0) as (b & E & Hl & Hb & Hs & _).
  - split; [done|]. split; [apply Forall_app; split; [apply zeros_ok|apply Forall_drop, R]|]. split.
    + change (256 ^ Z.of_nat 0) with 1. rewrite Z.mod_1_r. subst b0.
      rewrite take_app_length' by (by rewrite length_zeros). by rewrite le_val_zeros.
    + intros k Hk. unfold rd8, b0. rewrite lookup_app_l by (rewrite length_zeros; lia).
      unfold zeros. by rewrite lookup_replicate_2 by lia.
  - intros i b Hi (Hl & Hb & Hs & Hz).
    destruct (mul_row_spec N i b Hv Hm) as (b' & E & Hl' & Hb' & Hs' & Hz'); [lia..|done|done|done|].
    exists b'. split; [done|]. split; [lia|]. done.
  - rewrite E. cbn [res_bind]. rewrite Nat.add_0_l, Z2Nat.id in Hs by lia.
    rewrite Z.mod_small in Hs by apply (lop_range Hv).
    assert (lop (v * m) (result <| buf_ptr := b |>
              <| actual_len := actual_len value + actual_len multiplier |>)) as Hr.
    { unfold MAX_BUF in *. apply mk_lop_le; simpl; [done|lia|lia|apply R|done]. }
    destruct (lop_adjust Hr) as [Ea Hla]; [simpl; lia|]. rewrite Ea. cbn [res_bind].
    eexists. split; [done|]. by split.
Qed.

(** ** Leading bytes

    The [k] leading bytes of [v], padded with zeros on the right. *)
Definition ms (k v : Z) : Z := v * 256 ^ k / 256 ^ nbytes v.

Lemma ms_bounds k v : 0 <= k -> ms k v * 256 ^ nbytes v <= v * 256 ^ k < (ms k v + 1) * 256 ^ nbytes v.
Proof.
  intros Hk. pose proof (Z.pow_pos_nonneg 256 (nbytes v) ltac:(lia) (nbytes_nonneg v)).
  unfold ms. pose proof (Z.div_mod (v * 256 ^ k) (256 ^ nbytes v) ltac:(lia)).
  pose proof (Z.mod_pos_bound (v * 256 ^ k) (256 ^ nbytes v) ltac:(lia)). lia.
Qed.
Lemma ms_long k v : 0 <= k <= nbytes v -> ms k v = v / 256 ^ (nbytes v - k).
Proof.
  intros Hk. unfold ms. replace (nbytes v) with (nbytes v - k + k) at 1 by lia.
  rewrite Z.pow_add_r by lia. apply Z.div_mul_cancel_r; apply Z.pow_nonzero; lia.
Qed.
Lemma ms_short k v : nbytes v <= k -> ms k v = v * 256 ^ (k - nbytes v).
Proof.
  intros Hk. pose proof (nbytes_nonneg v). unfold ms. replace k with (k - nbytes v + nbytes v) at 1 by lia.
  rewrite Z.pow_add_r, Z.mul_assoc by lia. apply Z.div_mul, Z.pow_nonzero; lia.
Qed.
Lemma div_pow_succ v i : 0 <= i -> v / 256 ^ i = byte_at v i + 256 * (v / 256 ^ (i + 1)).
Proof.
  intros Hi. unfold byte_at. rewrite Z.pow_add_r, Z.pow_1_r, <-Z.div_div by (try apply Z.pow_nonzero; lia).
  pose proof (Z.div_mod (v / 256 ^ i) 256 ltac:(lia)). lia.
Qed.
Lemma byte_at_msb v : 0 < v -> byte_at v (nbytes v - 1) = v / 256 ^ (nbytes v - 1).
Proof.
  intros Hv. destruct (nbytes_bounds v Hv) as (Hn & Hl & Hu). rewrite (div_pow_succ v (nbytes v - 1)) by lia.
  replace (nbytes v - 1 + 1) with (nbytes v) by lia. rewrite (Z.div_small v (256 ^ nbytes v)) by lia. lia.
Qed.
Lemma ms2_range v : 0 < v -> 256 <= ms 2 v <= 65535.
Proof.
  intros Hv. destruct (nbytes_bounds v Hv) as (Hn & Hl & Hu). pose proof (ms_bounds 2 v ltac:(lia)) as [Hm1 Hm2].
  assert (256 ^ nbytes v = 256 * 256 ^ (nbytes v - 1)) as E
    by (rewrite <-Z.pow_succ_r by lia; f_equal; lia).
  change (256 ^ 2) with 65536 in *. nia.
Qed.

Lemma lop_two_ms {v op} : lop v op -> 0 < v -> get_two_ms_bytes op = Ret (ms 2 v).
Proof.
  intros H Hv. pose proof (lop_nbytes H). pose proof (nbytes_pos v Hv).
  pose proof (lop_u32 _ _ H) as Hu. unfold is_u32 in Hu.
  unfold get_two_ms_bytes. rewrite (lop_byte_len H), (lop_msb_idx H Hv). cbn [res_bind].
  rewrite (proj2 (Z.eqb_neq _ 0)) by lia. rewrite (lop_ld H) by lia. cbn [res_bind].
  rewrite shiftl_8, byte_at_msb by done. destruct (Z.leb_spec (nbytes v) 1).
  - rewrite ms_short by lia. replace (nbytes v) with 1 by lia. change (256 ^ (1 - 1)) with 1.
    by rewrite Z.div_1_r.
  - rewrite u32_id by (unfold is_u32; lia). rewrite (lop_ld H) by lia. cbn [res_bind].
    rewrite ms_long by lia. rewrite (div_pow_succ v (nbytes v - 2)) by lia. f_equal.
    replace (nbytes v - 2 + 1) with (nbytes v - 1) by lia. replace (nbytes v - 1 - 1) with (nbytes v - 2) by lia. lia.
Qed.
Lemma lop_three_ms {v op} : lop v op -> 0 < v -> get_three_ms_bytes op (ms 2 v) = Ret (ms 3 v).
Proof.
  intros H Hv. pose proof (lop_nbytes H). pose proof (nbytes_pos v Hv).
  pose proof (lop_u32 _ _ H) as Hu. unfold is_u32 in Hu.
  unfold get_three_ms_bytes. rewrite (lop_byte_len H), (lop_msb_idx H Hv). cbn [res_bind].
  rewrite shiftl_8. destruct (Z.ltb_spec (nbytes v) 3).
  - f_equal. rewrite !ms_short by lia. replace (3 - nbytes v) with (2 - nbytes v + 1) by lia.
    rewrite Z.pow_add_r by lia. lia.
  - rewrite u32_id by (unfold is_u32; lia). rewrite (lop_ld H) by lia. cbn [res_bind].
    rewrite !ms_long by lia. rewrite (div_pow_succ v (nbytes v - 3)) by lia. f_equal.
    replace (nbytes v - 3 + 1) with (nbytes v - 2) by lia. replace (nbytes v - 1 - 2) with (nbytes v - 3) by lia. lia.
Qed.

Lemma rd8_be_bytes n z k : 0 <= z < 256 ^ Z.of_nat n -> (k < n)%nat ->
  rd8 (be_bytes n z) k = byte_at z (Z.of_nat n - 1 - Z.of_nat k).
Proof.
  intros Hz Hk. unfold be_bytes, rd8. rewrite reverse_lookup by (rewrite length_le_bytes; lia).
  rewrite length_le_bytes. change (default 0 (le_bytes n z !! (n - S k)%nat)) with (rd8 (le_bytes n z) (n - S k)).
  rewrite rd8_byte_at by apply le_bytes_ok. rewrite le_val_le_bytes, Z.mod_small by done. f_equal. lia.
Qed.
Lemma byte_at_div v i j : 0 <= i -> 0 <= j -> byte_at (v / 256 ^ i) j = byte_at v (i + j).
Proof.
  intros Hi Hj. unfold byte_at. rewrite Z.div_div by (try apply Z.pow_nonzero; try apply Z.pow_pos_nonneg; lia).
  by rewrite Z.pow_add_r by lia.
Qed.

(** The comparison of the divisor with as many leading bytes of the dividend. *)
Lemma lop_cmp_ms {v w dividend divisor} : lop v dividend -> lop w divisor -> 0 < w -> nbytes w <= nbytes v ->
  cmp_ms_dividend_to_ms_divisor dividend divisor
  = Ret (code_of (v / 256 ^ (nbytes v - nbytes w) ?= w)).
Proof.
  intros Hv Hw Hp Hn. pose proof (nbytes_pos w Hp). pose proof (lop_nbytes Hv). pose proof (lop_nbytes Hw).
  assert (0 < v) as Hpv by (destruct (Z.lt_ge_cases 0 v); [done|rewrite (nbytes_zero v) in Hn by lia; lia]).
  destruct (nbytes_bounds v Hpv) as (_ & _ & Hvu). destruct (nbytes_bounds w Hp) as (_ & _ & Hwu).
  unfold cmp_ms_dividend_to_ms_divisor. rewrite (lop_byte_len Hw), (lop_msb_idx Hw Hp), (lop_msb_idx Hv Hpv).
  cbn [res_bind]. set (n := Z.to_nat (nbytes w)). set (t := v / 256 ^ (nbytes v - nbytes w)).
  assert (0 <= t < 256 ^ Z.of_nat n) as Ht.
  { subst t n. rewrite Z2Nat.id by lia. split; [apply Z.div_pos; [lia|apply Z.pow_pos_nonneg; lia]|].
    apply Z.div_lt_upper_bound; [apply Z.pow_pos_nonneg; lia|]. rewrite <-Z.pow_add_r by lia.
    by replace (nbytes v - nbytes w + nbytes w) with (nbytes v) by lia. }
  assert (0 <= w < 256 ^ Z.of_nat n) as Hwn by (subst n; rewrite Z2Nat.id by lia; lia).
  rewrite (compare_loop_spec n _ _ _ _ (be_bytes n t) (be_bytes n w)).
  - by rewrite !be_val_be_bytes, !Z.mod_small by done.
  - apply length_be_bytes.
  - apply length_be_bytes.
  - apply be_bytes_ok.
  - apply be_bytes_ok.
  - intros k Hk. rewrite rd8_be_bytes by done. rewrite (lop_ld Hv) by lia. f_equal.
    unfold t. rewrite byte_at_div by lia. f_equal. lia.
  - intros k Hk. rewrite rd8_be_bytes by done. rewrite (lop_ld Hw) by lia. do 2 f_equal. lia.
Qed.

(** ** The quotient estimate

    An estimate from the leading bytes is at least 1 and never above the true
    quotient byte. *)

Lemma estimate_le v w k q : 0 < v -> 0 < w -> 2 <= k -> 0 <= q -> q * (ms 2 w + 1) <= ms k v ->
  q * w * 256 ^ nbytes v <= v * 256 ^ (k - 2 + nbytes w).
Proof.
  intros Hv Hw Hk Hq Hle.
  pose proof (ms_bounds k v ltac:(lia)) as [Hk1 _]. pose proof (ms_bounds 2 w ltac:(lia)) as [_ Hw2].
  assert (0 < 256 ^ nbytes v) by (apply Z.pow_pos_nonneg; [lia|apply nbytes_nonneg]).
  assert (0 < 256 ^ nbytes w) by (apply Z.pow_pos_nonneg; [lia|apply nbytes_nonneg]).
  assert (256 ^ k = 256 ^ (k - 2) * 256 ^ 2) as Ek by (rewrite <-Z.pow_add_r by lia; f_equal; lia).
  rewrite Z.pow_add_r by (try apply nbytes_nonneg; lia).
  set (A := 256 ^ nbytes v) in *. set (B := 256 ^ nbytes w) in *. change (256 ^ 2) with 65536 in *.
  assert (q * (w * 65536) <= q * ((ms 2 w + 1) * B)) by (apply Z.mul_le_mono_nonneg_l; lia).
  assert (q * (ms 2 w + 1) * (A * B) <= ms k v * (A * B)) by (apply Z.mul_le_mono_nonneg_r; [nia|done]).
  assert (ms k v * A * B <= v * 256 ^ k * B) by (apply Z.mul_le_mono_nonneg_r; lia).
  assert (q * (w * 65536) * A <= q * ((ms 2 w + 1) * B) * A) by (apply Z.mul_le_mono_nonneg_r; lia).
  rewrite Ek in *. nia.
Qed.

Lemma ms3_bounds v : 0 < v -> 256 * ms 2 v <= ms 3 v <= 256 * ms 2 v + 255.
Proof.
  intros Hv. pose proof (ms_bounds 2 v ltac:(lia)) as [A1 A2]. pose proof (ms_bounds 3 v ltac:(lia)) as [B1 B2].
  assert (0 < 256 ^ nbytes v) by (apply Z.pow_pos_nonneg; [lia|apply nbytes_nonneg]).
  change (256 ^ 3) with (256 * 65536) in *. change (256 ^ 2) with 65536 in *. split.
  - apply Z.lt_succ_r, (Z.mul_lt_mono_pos_r (256 ^ nbytes v)); lia.
  - assert (ms 3 v < 256 * ms 2 v + 256); [|lia]. apply (Z.mul_lt_mono_pos_r (256 ^ nbytes v)); lia.
Qed.

Section Estimate.
Context (v w : Z) (Hge : 0 < w <= v).
Let s := nbytes v - nbytes w.
(** As many leading bytes of the dividend as the divisor has. *)
Let t := v / 256 ^ s.

Lemma est_shift_nonneg : 0 <= s.
Proof. pose proof (nbytes_mono w v ltac:(lia)). lia. Qed.
Lemma est_pow_v : 256 ^ nbytes v = 256 ^ s * 256 ^ nbytes w.
Proof. pose proof est_shift_nonneg. pose proof (nbytes_nonneg w). rewrite <-Z.pow_add_r by lia. f_equal. lia. Qed.
Lemma est_pow_pos : 0 < 256 ^ s /\ 0 < 256 ^ nbytes w.
Proof. split; apply Z.pow_pos_nonneg; try apply est_shift_nonneg; try apply nbytes_nonneg; lia. Qed.

Lemma est_top : t * 256 ^ s <= v < (t + 1) * 256 ^ s.
Proof.
  destruct est_pow_pos. pose proof (Z.div_mod v (256 ^ s) ltac:(lia)).
  pose proof (Z.mod_pos_bound v (256 ^ s) ltac:(lia)). subst t. lia.
Qed.
Lemma est_upper : v < w * 256 ^ (s + 1).
Proof.
  destruct (nbytes_bounds v) as (_ & _ & Hvu); [lia|]. destruct (nbytes_bounds w) as (Hn & Hwl & _); [lia|].
  pose proof est_shift_nonneg. eapply Z.lt_le_trans; [exact Hvu|].
  replace (nbytes v) with (nbytes w - 1 + (s + 1)) by lia. rewrite Z.pow_add_r by lia.
  apply Z.mul_le_mono_nonneg_r; [apply Z.pow_nonneg; lia|done].
Qed.
Lemma est_same q : 0 <= q -> q * (ms 2 w + 1) <= ms 2 v -> q * w * 256 ^ s <= v.
Proof.
  intros Hq Hle. pose proof (estimate_le v w 2 q ltac:(lia) ltac:(lia) ltac:(lia) ltac:(lia) Hle) as E.
  replace (2 - 2 + nbytes w) with (nbytes w) in E by lia. rewrite est_pow_v, Z.mul_assoc in E.
  destruct est_pow_pos. by apply (Z.mul_le_mono_pos_r _ _ (256 ^ nbytes w)).
Qed.
Lemma est_ms_lt : ms 2 v < ms 2 w -> t < w.
Proof.
  intros Hlt. pose proof (ms_bounds 2 v ltac:(lia)) as [_ A]. pose proof (ms_bounds 2 w ltac:(lia)) as [B _].
  destruct est_pow_pos as [P1 P2]. destruct est_top as [T _]. rewrite est_pow_v in A.
  change (256 ^ 2) with 65536 in *. apply (Z.mul_lt_mono_pos_r (256 ^ s)); [done|].
  apply (Z.mul_lt_mono_pos_r 65536); [done|].
  assert ((ms 2 v + 1) * 256 ^ nbytes w <= w * 65536) as C by (etransitivity; [|exact B]; apply Z.mul_le_mono_nonneg_r; lia).
  apply (Z.mul_le_mono_nonneg_r _ _ (256 ^ s)) in C; lia.
Qed.
Lemma est_below : t < w -> ms 2 v <= ms 2 w ->
  let q := ms 3 v / (ms 2 w + 1) in
  1 <= s /\ 1 <= q <= 255 /\ q * w * 256 ^ (s - 1) <= v < w * 256 ^ s.
Proof.
  intros Ht Hms q. destruct est_pow_pos as [P1 P2]. destruct est_top as [T1 T2].
  pose proof (ms2_range v ltac:(lia)). pose proof (ms2_range w ltac:(lia)).
  pose proof (ms3_bounds v ltac:(lia)).
  assert (v < w * 256 ^ s) as Hup by (eapply Z.lt_le_trans; [exact T2|]; apply Z.mul_le_mono_nonneg_r; lia).
  assert (1 <= s) as Hs1.
  { destruct (Z.lt_ge_cases 0 s); [lia|]. pose proof est_shift_nonneg. replace s with 0 in Hup by lia.
    change (256 ^ 0) with 1 in Hup. lia. }
  pose proof (Z.div_mod (ms 3 v) (ms 2 w + 1) ltac:(lia)) as Hd. fold q in Hd.
  pose proof (Z.mod_pos_bound (ms 3 v) (ms 2 w + 1) ltac:(lia)).
  assert (1 <= q <= 255) by nia. split; [done|]. split; [done|]. split; [|done].
  pose proof (estimate_le v w 3 q ltac:(lia) ltac:(lia) ltac:(lia) ltac:(lia) ltac:(lia)) as E.
  replace (3 - 2 + nbytes w) with (1 + nbytes w) in E by lia.
  rewrite est_pow_v, Z.pow_add_r in E by (try apply nbytes_nonneg; lia).
  assert (256 ^ s = 256 ^ (s - 1) * 256) as Es1 by (rewrite Z.mul_comm, <-Z.pow_succ_r by lia; f_equal; lia).
  rewrite Es1 in E. apply (Z.mul_le_mono_pos_r _ _ (256 * 256 ^ nbytes w)); lia.
Qed.
End Estimate.

Lemma quot_estimate_spec {v w dividend divisor} :
  lop v dividend -> lop w divisor -> 0 < w <= v ->
  exists q s, quot_estimate dividend divisor (nbytes w) (ms 2 w) = Ret (q, s) /\
    1 <= q <= 255 /\ 0 <= s <= nbytes v - nbytes w /\ q * w * 256 ^ s <= v < w * 256 ^ (s + 1).
Proof.
  intros Hv Hw Hge. pose proof (nbytes_mono w v ltac:(lia)) as Hn. pose proof (nbytes_pos w ltac:(lia)) as Hnw.
  pose proof (lop_nbytes Hv). pose proof (lop_u32 _ _ Hv) as Hu. unfold is_u32 in Hu.
  pose proof (ms2_range v ltac:(lia)) as Rv. pose proof (ms2_range w ltac:(lia)) as Rw.
  pose proof (est_upper v w Hge) as Hup. pose proof (est_same v w Hge) as Hq2.
  pose proof (est_below v w Hge) as Hbel. pose proof (est_ms_lt v w Hge) as Hmlt. pose proof (est_top v w Hge) as [Ht1 Ht2].
  unfold quot_estimate. rewrite (lop_two_ms Hv), (lop_byte_len Hv) by lia. cbn [res_bind].
  rewrite (u32_id (nbytes v - nbytes w)) by (unfold is_u32; lia). cbv zeta in *.
  set (s := nbytes v - nbytes w) in *. set (t := v / 256 ^ s) in *.
  assert (0 < 256 ^ s) as Hs by (apply Z.pow_pos_nonneg; lia).
  assert (t < w -> ms 2 v <= ms 2 w -> exists q s', res_bind (get_three_ms_bytes dividend (ms 2 v))
      (fun m => Ret (m / (ms 2 w + 1), u32 (s - 1))) = Ret (q, s') /\
    1 <= q <= 255 /\ 0 <= s' <= s /\ q * w * 256 ^ s' <= v < w * 256 ^ (s' + 1)) as Hleft.
  { intros Htw Hms. rewrite (lop_three_ms Hv) by lia. cbn [res_bind]. eexists _, _. split; [done|].
    destruct (Hbel Htw Hms) as (Hs1 & Hq & Hb). rewrite u32_id by (unfold is_u32; lia).
    replace (s - 1 + 1) with s by lia. split; [done|]. split; [lia|done]. }
  assert (w <= t -> 1 * w * 256 ^ s <= v) as Hone.
  { intros Hle. etransitivity; [|exact Ht1]. rewrite Z.mul_1_l. apply Z.mul_le_mono_nonneg_r; lia. }
  destruct (Z.eqb_spec (ms 2 v) (ms 2 w)) as [Eq|Ne].
  - rewrite (lop_cmp_ms Hv Hw) by lia. cbn [res_bind]. fold s. fold t.
    destruct (Z.compare_spec t w) as [Hc|Hc|Hc]; cbn [code_of]; [|apply Hleft; lia|].
    all: exists 1, s; split; [done|]; split; [lia|]; split; [lia|]; split; [apply Hone; lia|done].
  - destruct (Z.ltb_spec (ms 2 v) (ms 2 w)) as [Hlt|Hgt]; cbn [res_bind]; [apply Hleft; [by apply Hmlt|lia]|].
    eexists _, _. split; [done|].
    pose proof (Z.div_mod (ms 2 v) (ms 2 w + 1) ltac:(lia)) as Hd.
    pose proof (Z.mod_pos_bound (ms 2 v) (ms 2 w + 1) ltac:(lia)).
    set (q := ms 2 v / (ms 2 w + 1)) in *. assert (1 <= q <= 255) by nia.
    split; [done|]. split; [lia|]. split; [|done]. apply Hq2; lia.
Qed.

(** ** Subtracting a multiple of the divisor *)

Lemma product_loop_spec {w divisor} q s buf :
  lop w divisor -> 0 <= q <= 255 -> 0 <= s ->
  bytes_ok buf -> s + actual_len divisor <= Z.of_nat (length buf) ->
  let N := Z.to_nat (s + actual_len divisor) in
  exists b c d,
    for_loop (Z.to_nat (actual_len divisor)) 0 (product_step divisor q s) (buf, 0, 0) = Ret (b, c, d) /\
    length b = length buf /\ bytes_ok b /\ drop N b = drop N buf /\ 0 <= c <= 255 /\ 0 <= d <= 1 /\
    le_val (take N b) + q * w * 256 ^ s = le_val (take N buf) + 256 ^ (s + actual_len divisor) * (c + d).
Proof.
  intros Hw Hq Hs Hbuf Hc N. pose proof (lop_len Hw). pose proof (lop_range Hw) as Rw.
  set (L := actual_len divisor) in *.
  destruct (for_loop_inv (fun i '((b, c, d) : bytes * Z * Z) =>
      length b = length buf /\ bytes_ok b /\ drop N b = drop N buf /\ 0 <= c <= 255 /\ 0 <= d <= 1 /\
      le_val (take N b) + q * (w mod 256 ^ Z.of_nat i) * 256 ^ s
      = le_val (take N buf) + 256 ^ (s + Z.of_nat i) * (c + d))
    (product_step divisor q s) (Z.to_nat L) 0 (buf, 0, 0)) as ([[b c] d] & E & Hl & Hb & Hd & Hc1 & Hd1 & Hi).
  - change (256 ^ Z.of_nat 0) with 1. rewrite Z.mod_1_r. repeat (split; [done || lia|]). lia.
  - intros i [[b c] d] Hi (Hl & Hb & Hd & Hc1 & Hd1 & Hv). unfold product_step.
    rewrite (lop_ld Hw) by (fold L; lia). cbn [res_bind]. rewrite ld_in by lia. cbn [res_bind].
    rewrite land_255, shiftr_8. pose proof (byte_at_range w (Z.of_nat i)) as Rb.
    replace (Z.to_nat (s + Z.of_nat i)) with (Z.to_nat s + i)%nat by lia.
    pose proof (rd8_ok b (Z.to_nat s + i) Hb) as Ro. unfold is_u8 in Ro.
    set (p := q * byte_at w (Z.of_nat i) + c).
    assert (0 <= p <= 65280) by (subst p; nia).
    pose proof (Z.div_mod p 256 ltac:(lia)). pose proof (Z.mod_pos_bound p 256 ltac:(lia)).
    destruct (sub_byte_eq (rd8 b (Z.to_nat s + i)) (p mod 256 + d)) as (r & d' & -> & Er & Hr & Hd'); [lia..|].
    rewrite st_in by lia. cbn [res_bind]. eexists. split; [done|]. cbv beta iota.
    replace (Z.to_nat (s + Z.of_nat i)) with (Z.to_nat s + i)%nat by lia.
    rewrite length_insert, u8_id by (unfold is_u8; lia). split; [done|].
    split; [apply bytes_ok_insert; [done|unfold is_u8; lia]|].
    split; [by rewrite drop_insert_lt by lia|]. split; [lia|]. split; [lia|].
    rewrite le_val_take_ins by lia. rewrite Nat2Z.inj_succ, Nat2Z.inj_add, Z2Nat.id by lia. unfold Z.succ.
    rewrite mod_pow_succ, Z.add_assoc, (Z.pow_add_r 256 (_ + _) 1) by lia.
    rewrite (Z.pow_add_r 256 s) in * by lia. change (256 ^ 1) with 256. subst p. nia.
  - exists b, c, d. rewrite Nat.add_0_l, Z2Nat.id, Z.mod_small in Hi by lia. done.
Qed.

(** What the carry and the borrow left over amount to. *)
Lemma product_carry v P X X' Hi T q c d :
  0 < P -> 0 <= X < P -> 0 <= X' < P -> 0 <= Hi -> 0 <= c + d ->
  X' + q = X + P * (c + d) -> 0 <= T -> q <= v ->
  (v < P -> v <= X) -> (P <= v -> v = X + P * T) ->
  (v < P -> c + d = 0) /\ (P <= v -> c + d <= T).
Proof.
  intros HP HX HX' HHi Hcd E HT Hq H1 H2. split; intros Hv.
  - specialize (H1 Hv). nia.
  - specialize (H2 Hv). nia.
Qed.

(** The bytes of an operand below position [n]. *)
Lemma lop_take {v op} n : lop v op -> 0 <= n <= actual_len op ->
  le_val (take (Z.to_nat n) (buf_ptr op)) = v mod 256 ^ n.
Proof.
  intros H Hn. pose proof (lop_len H).
  replace (take (Z.to_nat n) (buf_ptr op)) with (take (Z.to_nat n) (take (Z.to_nat (actual_len op)) (buf_ptr op)))
    by (rewrite take_take; f_equal; lia).
  rewrite le_val_take_mod by (first [apply Forall_take, H|rewrite length_take; lia]).
  by rewrite (lop_le_val H), Z2Nat.id by lia.
Qed.
Lemma lop_take_ge {v op} n : lop v op -> actual_len op <= n <= cap op ->
  v <= le_val (take (Z.to_nat n) (buf_ptr op)).
Proof.
  intros H Hn. pose proof (lop_len H). rewrite <-(lop_le_val H).
  rewrite <-(take_drop (Z.to_nat (actual_len op)) (take (Z.to_nat n) (buf_ptr op))).
  rewrite le_val_app, take_take, Nat.min_l by lia.
  pose proof (le_val_range (drop (Z.to_nat (actual_len op)) (take (Z.to_nat n) (buf_ptr op)))
    (Forall_drop _ _ _ (Forall_take _ _ _ (lop_bytes H)))).
  pose proof (Z.pow_nonneg 256 (Z.of_nat (length (take (Z.to_nat (actual_len op)) (buf_ptr op)))) ltac:(lia)). nia.
Qed.

Lemma subtract_loop_spec {v w dividend divisor} q s :
  lop v dividend -> lop w divisor -> 0 <= q <= 255 -> 0 <= s ->
  s + actual_len divisor <= cap dividend ->
  q * w * 256 ^ s <= v < 256 ^ (s + actual_len divisor + 1) ->
  exists b c d b',
    for_loop (Z.to_nat (actual_len divisor)) 0 (product_step divisor q s) (buf_ptr dividend, 0, 0)
    = Ret (b, c, d) /\
    (if negb (c =? 0) || negb (d =? 0) then
       let p := s + actual_len divisor in
       res_bind (ld b p) (fun dividend_byte =>
       if c + d <=? dividend_byte
       then st b p (u8 (dividend_byte - (c + d))) else Fault Assert_failed)
     else Ret b) = Ret b' /\
    length b' = length (buf_ptr dividend) /\ bytes_ok b' /\
    le_val b' = le_val (buf_ptr dividend) - q * w * 256 ^ s.
Proof.
  intros Hv Hw Hq Hs Hc Hb. pose proof (lop_len Hw). pose proof (lop_bytes Hv) as Hbuf.
  destruct (product_loop_spec q s (buf_ptr dividend) Hw Hq Hs Hbuf Hc) as (b & c & d & E & Hl & Hbo & Hdr & Hc1 & Hd1 & He).
  exists b, c, d. set (n := s + actual_len divisor) in *. set (buf := buf_ptr dividend) in *.
  set (P := 256 ^ n) in *. assert (0 < P) as HP by (apply Z.pow_pos_nonneg; lia).
  assert (forall l, bytes_ok l -> n <= Z.of_nat (length l) -> 0 <= le_val (take (Z.to_nat n) l) < P) as Hr.
  { intros l Hol Hnl. pose proof (le_val_range (take (Z.to_nat n) l) (Forall_take _ _ _ Hol)) as R.
    by rewrite length_take, Nat.min_l, Z2Nat.id in R by lia. }
  assert (forall l, n <= Z.of_nat (length l) -> le_val l = le_val (take (Z.to_nat n) l) + P * le_val (drop (Z.to_nat n) l)) as Hsp.
  { intros l Hnl. rewrite <-(take_drop (Z.to_nat n) l) at 1. by rewrite le_val_app, length_take, Nat.min_l, Z2Nat.id by lia. }
  pose proof (rd8_ok buf (Z.to_nat n) Hbuf) as RT. unfold is_u8 in RT.
  assert (P <= v -> n < actual_len dividend) as Hlong.
  { intros HPv. pose proof (lop_range Hv). pose proof (lop_len Hv).
    assert (P < 256 ^ actual_len dividend) as Hlt by lia. by apply (Z.pow_lt_mono_r_iff 256) in Hlt; [|lia..]. }
  destruct (product_carry v P (le_val (take (Z.to_nat n) buf)) (le_val (take (Z.to_nat n) b))
              (le_val (drop (Z.to_nat n) buf)) (rd8 buf (Z.to_nat n)) (q * w * 256 ^ s) c d) as [C1 C2].
  - done.
  - apply Hr; [done|lia].
  - apply Hr; [done|lia].
  - apply le_val_range, Forall_drop, Hbuf.
  - lia.
  - done.
  - lia.
  - lia.
  - intros HPv. destruct (Z.le_gt_cases (actual_len dividend) n); [apply (lop_take_ge n Hv); subst buf; lia|].
    subst buf. rewrite (lop_take n Hv) by lia. fold P. rewrite Z.mod_small by (pose proof (lop_range Hv); lia). lia.
  - intros HPv. specialize (Hlong HPv). subst buf. rewrite (lop_take n Hv) by lia. fold P.
    assert (rd8 (buf_ptr dividend) (Z.to_nat n) = v / P) as ->.
    { pose proof (lop_ld Hv n ltac:(lia)) as El. pose proof (lop_len Hv). rewrite ld_in in El by lia. injection El as ->.
      unfold byte_at. fold P. apply Z.mod_small. split; [apply Z.div_pos; lia|].
      apply Z.div_lt_upper_bound; [lia|]. rewrite Z.pow_add_r in Hb by lia. fold P in Hb. lia. }
    pose proof (Z.div_mod v P ltac:(lia)). lia.
  - pose proof (Hsp b ltac:(lia)) as Sb. pose proof (Hsp buf ltac:(lia)) as Sbuf. rewrite Hdr in Sb.
    destruct (Z.lt_ge_cases 0 (c + d)) as [Hpos|Hzero].
    + assert (P <= v) as HPv by (destruct (Z.lt_ge_cases v P) as [Hlt|]; [specialize (C1 Hlt); lia|done]).
      specialize (C2 HPv). specialize (Hlong HPv). pose proof (lop_len Hv) as Hlv. fold buf in Hlv.
      assert (rd8 b (Z.to_nat n) = rd8 buf (Z.to_nat n)) as Erd.
      { unfold rd8. pose proof (lookup_drop b (Z.to_nat n) 0) as L1. pose proof (lookup_drop buf (Z.to_nat n) 0) as L2.
        rewrite Nat.add_0_r in L1, L2. by rewrite <-L1, <-L2, Hdr. }
      exists (<[Z.to_nat n := rd8 buf (Z.to_nat n) - (c + d)]> b). split; [done|]. split.
      * replace (negb (c =? 0) || negb (d =? 0)) with true
          by (destruct (Z.eqb_spec c 0), (Z.eqb_spec d 0); simpl; lia).
        cbv zeta. rewrite ld_in by lia. cbn [res_bind]. rewrite Erd, (proj2 (Z.leb_le _ _)) by lia.
        rewrite st_in by lia. by rewrite u8_id by (unfold is_u8; lia).
      * split; [by rewrite length_insert|]. split; [apply bytes_ok_insert; [done|unfold is_u8; lia]|].
        rewrite le_val_insert by lia. rewrite Erd, Z2Nat.id by lia. fold P. lia.
    + assert (c = 0) as -> by lia. assert (d = 0) as -> by lia. exists b.
      split; [done|]. split; [done|]. split; [done|]. split; [done|]. lia.
Qed.

Lemma subtract_product_spec {v w dividend divisor} q s :
  lop v dividend -> lop w divisor -> 0 < w -> 1 <= q <= 255 -> 0 <= s ->
  s + actual_len divisor <= cap dividend -> 0 < actual_len dividend <= MAX_BUF ->
  q * w * 256 ^ s <= v < 256 ^ (s + actual_len divisor + 1) ->
  exists d, subtract_product dividend divisor q s = Ret d /\
    written dividend (v - q * w * 256 ^ s) (Z.max 1 (nbytes (v - q * w * 256 ^ s))) d.
Proof.
  intros Hv Hw Hwp Hq Hs Hc Ha Hb. pose proof (lop_len Hv). unfold subtract_product.
  set (eq := if _ && _ then _ else _).
  assert (eq = Ret false \/ eq = Ret true /\ v = w /\ q = 1) as [-> | (-> & Evw & ->)].
  { subst eq. destruct (Z.eqb_spec (actual_len dividend) (actual_len divisor)), (Z.eqb_spec q 1); cbn [andb]; try by left.
    rewrite (lop_compare Hv Hw). cbn [res_bind]. destruct (Z.compare_spec v w); cbn [code_of]; [by right|by left..]. }
  - cbn [res_bind].
    destruct (subtract_loop_spec q s Hv Hw ltac:(lia) Hs Hc Hb) as (b & c & d & b' & E & Est & Hl & Hbo & Hval).
    rewrite E. cbn [res_bind]. cbv beta iota zeta in *. rewrite Est. cbn [res_bind].
    assert (lop (v - q * w * 256 ^ s) (dividend <| buf_ptr := b' |>)) as Hr.
    { pose proof (lop_u32 _ _ Hv) as Hu. unfold is_u32 in Hu.
      apply mk_lop_le; simpl; [done|lia|lia|apply Hv|].
      rewrite le_val_take_mod by (done || lia). rewrite Hval, Z2Nat.id by lia.
      pose proof (lop_take (actual_len dividend) Hv ltac:(lia)) as Ht.
      pose proof (lop_range Hv) as Rv. rewrite (Z.mod_small v) in Ht by lia.
      rewrite le_val_take_mod, Z2Nat.id in Ht by (lia || apply Hv).
      rewrite <-Zminus_mod_idemp_l, Ht. apply Z.mod_small. pose proof (Z.pow_nonneg 256 s). nia. }
    destruct (lop_adjust Hr) as [Ea Hla]; [simpl; lia|]. eexists. split; [exact Ea|]. by split.
  - subst w. cbn [res_bind]. unfold memset0. rewrite (proj2 (Z.leb_le _ _)) by lia. cbn [res_bind].
    eexists. split; [done|].
    assert (s = 0) as ->.
    { destruct (decide (s = 0)) as [|Hne]; [done|]. exfalso.
      assert (256 ^ 1 <= 256 ^ s) by (apply Z.pow_le_mono_r; lia). nia. }
    replace (v - 1 * v * 256 ^ 0) with 0 by lia.
    assert (length (zeros (Z.to_nat (actual_len dividend)) ++ drop (Z.to_nat (actual_len dividend)) (buf_ptr dividend))
            = length (buf_ptr dividend)) as Hlen by (rewrite length_app, length_zeros, length_drop; lia).
    split; [|done|done]. apply mk_lop_le; simpl; [|lia|lia|apply Hv|].
    + apply Forall_app. split; [apply zeros_ok|apply Forall_drop, Hv].
    + change (Z.to_nat 1) with 1%nat. rewrite take_app_le by (rewrite length_zeros; lia).
      unfold zeros. rewrite take_replicate. by rewrite Nat.min_l by lia.
Qed.

(** ** The division loop *)

Lemma add_quot_byte_spec {Q quotient} q s :
  lop Q quotient -> 0 <= s < actual_len quotient -> 0 <= q -> byte_at Q s + q <= 255 ->
  exists r, add_quot_byte quotient q s = Ret r /\ written quotient (Q + q * 256 ^ s) (actual_len quotient) r.
Proof.
  intros H Hs Hq Hb. pose proof (lop_len H). pose proof (byte_at_range Q s).
  pose proof (lop_u32 _ _ H) as Hu. unfold is_u32 in Hu.
  unfold add_quot_byte. rewrite (proj2 (Z.ltb_lt _ _)) by lia. cbn [negb].
  pose proof (lop_ld H s Hs) as El. rewrite El. cbn [res_bind].
  rewrite (proj2 (Z.leb_le _ _)) by lia. cbn [negb]. rewrite st_in by lia. cbn [res_bind].
  eexists. split; [done|]. split; [|done|simpl; by rewrite length_insert].
  apply mk_lop_le; simpl; [|rewrite length_insert; lia|lia|apply H|].
  - apply bytes_ok_insert; [apply H|unfold is_u8; lia].
  - rewrite le_val_take_ins by lia. rewrite (lop_le_val H), Z2Nat.id by lia.
    rewrite ld_in in El by lia. injection El as ->. lia.
Qed.

(** What the loop keeps: [s0] is the quotient byte it works on. The bytes below
    it are still zero, and what is left of the dividend is below what one more
    in the next byte would take. *)
Definition quot_inv (w R Q s0 : Z) : Prop :=
  0 <= s0 /\ Q mod 256 ^ s0 = 0 /\ R + Q mod 256 ^ (s0 + 1) * w < w * 256 ^ (s0 + 1).
(** How often the loop can still run. *)
Definition quot_left (Q s0 : Z) : Z := 255 * s0 + 255 - byte_at Q s0.

Lemma pow256_le i j : 0 <= i <= j -> 256 ^ j = 256 ^ (j - i) * 256 ^ i /\ 0 < 256 ^ i /\ 0 < 256 ^ (j - i).
Proof.
  intros H. rewrite <-Z.pow_add_r by lia. split; [f_equal; lia|]. split; apply Z.pow_pos_nonneg; lia.
Qed.
Lemma mod_pow_mono Q i j : 0 <= i <= j -> Q mod 256 ^ j = 0 -> Q mod 256 ^ i = 0.
Proof.
  intros Hij HQ. destruct (pow256_le i j Hij) as (E & Hi & Hj).
  apply Z.mod_divide in HQ; [|lia]. apply Z.mod_divide; [lia|]. etransitivity; [|exact HQ].
  rewrite E. apply Z.divide_factor_r.
Qed.
Lemma byte_at_add Q s q : 0 <= s -> 0 <= q -> byte_at Q s + q <= 255 ->
  byte_at (Q + q * 256 ^ s) s = byte_at Q s + q.
Proof.
  intros Hs Hq Hb. pose proof (byte_at_range Q s). unfold byte_at in *.
  rewrite Z.div_add by (apply Z.pow_nonzero; lia).
  rewrite Z.add_mod by lia. rewrite (Z.mod_small q) by lia. apply Z.mod_small. lia.
Qed.

(** One round: the byte does not overflow and the invariant holds at the
    position that was used. *)
Lemma quot_inv_step w R Q s0 q s :
  quot_inv w R Q s0 -> 0 < w -> 1 <= q -> 0 <= s -> q * w * 256 ^ s <= R < w * 256 ^ (s + 1) ->
  s <= s0 /\ byte_at Q s + q <= 255 /\
  quot_inv w (R - q * w * 256 ^ s) (Q + q * 256 ^ s) s /\
  quot_left (Q + q * 256 ^ s) s < quot_left Q s0.
Proof.
  intros (Hs0 & Hm & Hlt) Hw Hq Hs [Hl Hu].
  assert (0 < 256 ^ s) as Hp by (apply Z.pow_pos_nonneg; lia).
  assert (s <= s0) as Hle.
  { destruct (Z.le_gt_cases s s0) as [|Hgt]; [done|]. exfalso.
    pose proof (Z.pow_le_mono_r 256 (s0 + 1) s ltac:(lia) ltac:(lia)).
    pose proof (Z.mod_pos_bound Q (256 ^ (s0 + 1)) ltac:(apply Z.pow_pos_nonneg; lia)).
    assert (w * 256 ^ (s0 + 1) <= w * 256 ^ s) by (apply Z.mul_le_mono_nonneg_l; lia).
    assert (w * 256 ^ s <= q * (w * 256 ^ s)) by nia.
    assert (0 <= Q mod 256 ^ (s0 + 1) * w) by nia. lia. }
  assert (Q mod 256 ^ s = 0) as Hms by (apply (mod_pow_mono Q s s0); [lia|done]).
  assert (R + Q mod 256 ^ (s + 1) * w < w * 256 ^ (s + 1)) as Hlt'.
  { destruct (decide (s = s0)) as [->|Hne]; [done|].
    rewrite (mod_pow_mono Q (s + 1) s0) by (lia || done). lia. }
  pose proof (mod_pow_succ Q s Hs) as Em. rewrite Hms, Z.add_0_l in Em.
  pose proof (byte_at_range Q s) as Rb.
  rewrite Em in Hlt'. rewrite (Z.pow_add_r 256 s 1), Z.pow_1_r in Hlt' by lia.
  assert (byte_at Q s + q <= 255) as Hb by nia.
  assert (byte_at Q s = 0 \/ s = s0) as Hz.
  { destruct (decide (s = s0)) as [->|Hne]; [by right|left].
    pose proof (mod_pow_mono Q (s + 1) s0 ltac:(lia) Hm) as E0. rewrite Em in E0. nia. }
  split; [done|]. split; [done|]. split.
  - split; [lia|]. split; [by rewrite Z_mod_plus_full|].
    rewrite mod_pow_succ, Z_mod_plus_full, Hms, byte_at_add by lia.
    rewrite (Z.pow_add_r 256 s 1), Z.pow_1_r by lia. lia.
  - unfold quot_left. rewrite byte_at_add by lia. pose proof (byte_at_range Q s0).
    destruct (decide (s = s0)) as [->|Hne]; lia.
Qed.

Lemma div_mod_loop_spec {w divisor} fuel dividend quotient R Q s0 :
  lop w divisor -> 0 < w -> lop R dividend -> lop Q quotient ->
  quot_inv w R Q s0 -> s0 < actual_len quotient -> quot_left Q s0 < Z.of_nat fuel ->
  actual_len dividend <= MAX_BUF -> actual_len dividend + (actual_len divisor - nbytes w) <= cap dividend ->
  exists d q len,
    div_mod_loop fuel dividend divisor quotient (nbytes w) (ms 2 w) = Ret (d, q) /\
    written dividend ((Q * w + R) mod w) len d /\
    written quotient ((Q * w + R) / w) (actual_len quotient) q /\
    (R < w /\ d = dividend \/ len = Z.max 1 (nbytes ((Q * w + R) mod w))).
Proof.
  intros Hw Hwp. revert dividend quotient R Q s0. induction fuel as [|fuel IH];
    intros dividend quotient R Q s0 Hd Hq Hinv Hs0 Hfuel Hmax Hcap.
  { unfold quot_left in Hfuel. destruct Hinv as [Hs _]. pose proof (byte_at_range Q s0). lia. }
  pose proof (lop_range Hd) as RR. pose proof (lop_range Hw) as Rw. pose proof (lop_nbytes Hd).
  cbn [div_mod_loop]. rewrite (lop_compare Hd Hw). cbn [res_bind].
  destruct (Z.lt_ge_cases R w) as [Hlt|Hge].
  - rewrite (proj2 (Z.compare_lt_iff R w)) by done. cbn [code_of].
    rewrite Z.add_comm, Z_mod_plus_full, Z.div_add, (Z.mod_small R), (Z.div_small R) by lia.
    exists dividend, quotient, (actual_len dividend). rewrite Z.add_0_l.
    split; [done|]. split; [by split|]. split; [by split|]. by left.
  - destruct (quot_estimate_spec Hd Hw ltac:(lia)) as (qb & s & -> & Hqb & Hs & Hb). cbn [res_bind].
    rewrite !(proj2 (Z.leb_le _ _)) by lia. cbn [andb negb].
    destruct (quot_inv_step w R Q s0 qb s Hinv) as (Hle & Hbyte & Hinv' & Hleft); [lia..|].
    destruct (subtract_product_spec qb s Hd Hw) as (d & -> & Hwd); [lia..|pose proof (nbytes_pos R); lia| |].
    { split; [apply Hb|]. eapply Z.lt_le_trans; [apply Hb|]. pose proof (lop_len Hw).
      replace (s + actual_len divisor + 1) with (actual_len divisor + (s + 1)) by lia.
      rewrite (Z.pow_add_r 256 (actual_len divisor)) by lia. apply Z.mul_le_mono_nonneg_r; [apply Z.pow_nonneg|]; lia. }
    cbn [res_bind].
    destruct (add_quot_byte_spec qb s Hq ltac:(lia) ltac:(lia) Hbyte) as (q & -> & Hwq). cbn [res_bind].
    destruct Hwd as [Hld Hdl Hdc]. destruct Hwq as [Hlq Hql Hqc].
    pose proof (nbytes_mono (R - qb * w * 256 ^ s) R ltac:(pose proof (Z.pow_nonneg 256 s); nia)).
    pose proof (nbytes_pos R ltac:(lia)).
    destruct (IH d q _ _ s Hld Hlq Hinv') as (d' & q' & len & E & Hd' & Hq' & Hor); [lia..|].
    replace ((Q + qb * 256 ^ s) * w + (R - qb * w * 256 ^ s)) with (Q * w + R) in * by lia.
    exists d', q', len. rewrite Hql in Hq'.
    assert (written dividend ((Q * w + R) mod w) len d') as W1 by (destruct Hd'; split; [done|done|lia]).
    assert (written quotient ((Q * w + R) / w) (actual_len quotient) q') as W2 by (destruct Hq'; split; [done|done|lia]).
    split; [destruct (code_of_ge R w Hge) as [-> | ->]; done|]. split; [done|]. split; [done|]. right.
    destruct Hor as [[Hlt ->]|Hlen]; [|done]. destruct Hd' as [Hl' Hlen' _].
    rewrite <-Hlen', Hdl. do 2 f_equal. pose proof (lop_val _ _ Hld). pose proof (lop_val _ _ Hl'). lia.
Qed.

Lemma lop_to_uint32 {v op} : lop v op -> 0 < v -> nbytes v <= 4 -> operand_to_uint32 op = Ret v.
Proof.
  intros H Hv Hn. pose proof (nbytes_pos v Hv). destruct (nbytes_bounds v Hv) as (_ & _ & Hu).
  pose proof (lop_nbytes H).
  unfold operand_to_uint32. rewrite (lop_byte_len H). cbn [res_bind]. rewrite (proj2 (Z.ltb_ge _ _)) by lia.
  rewrite (lop_msb_idx H Hv). cbn [res_bind]. rewrite (lop_le _ _ H).
  destruct (for_loop_inv (fun i '((p, x) : Z * Z) => p = nbytes v - 1 - Z.of_nat i /\ x = v / 256 ^ (nbytes v - Z.of_nat i))
    (fun _ '(p, value) => res_bind (ld (buf_ptr op) p) (fun b => Ret (p - 1, Z.lor (u32 (Z.shiftl value 8)) b)))
    (Z.to_nat (nbytes v)) 0 (nbytes v - 1, 0)) as ([p x] & E & Hp & Hx).
  - split; [lia|]. rewrite Z.sub_0_r. symmetry. apply Z.div_small. lia.
  - intros i [p x] Hi [-> ->]. rewrite (lop_ld H) by lia. cbn [res_bind]. eexists. split; [done|]. cbv beta iota.
    split; [lia|]. set (k := nbytes v - 1 - Z.of_nat i).
    replace (nbytes v - Z.of_nat i) with (k + 1) by lia. replace (nbytes v - Z.of_nat (S i)) with k by lia.
    assert (0 < 256 ^ (k + 1)) by (apply Z.pow_pos_nonneg; lia).
    assert (0 <= v / 256 ^ (k + 1) < 256 ^ 3) as Hd.
    { split; [apply Z.div_pos; lia|]. apply Z.div_lt_upper_bound; [lia|].
      rewrite <-Z.pow_add_r by lia. pose proof (Z.pow_le_mono_r 256 (nbytes v) (k + 1 + 3)). lia. }
    change (256 ^ 3) with 16777216 in Hd. rewrite u32_id by (rewrite shiftl_8; unfold is_u32; lia).
    rewrite lor_shiftl_add by (try lia; apply byte_at_range). change (2 ^ 8) with 256.
    rewrite (div_pow_succ v k) by lia. lia.
  - rewrite E. cbn [res_bind]. f_equal. rewrite Hx. replace (nbytes v - _) with 0 by lia. by rewrite Z.div_1_r.
Qed.

Lemma bignum_div_mod_spec {v w dividend divisor} quotient :
  lop v dividend -> lop w divisor -> 0 < w < v -> lop 0 quotient ->
  actual_len quotient = nbytes v + 1 - nbytes w ->
  actual_len dividend <= nbytes v + 4 -> actual_len dividend <= MAX_BUF ->
  actual_len dividend + (actual_len divisor - nbytes w) <= cap dividend ->
  exists d q, bignum_div_mod dividend divisor quotient = Ret (d, q) /\
    written dividend (v mod w) (Z.max 1 (nbytes (v mod w))) d /\
    written quotient (v / w) (actual_len quotient) q.
Proof.
  intros Hv Hw Hlt Hq Hql Htrim Hmax Hcap. pose proof (nbytes_mono w v ltac:(lia)).
  unfold bignum_div_mod. rewrite (lop_byte_len Hv). cbn [res_bind]. rewrite (proj2 (Z.leb_le _ _)) by lia. cbn [negb].
  rewrite (lop_byte_len Hw), (lop_two_ms Hw) by lia. cbn [res_bind].
  pose proof (ms2_range w ltac:(lia)). rewrite !(proj2 (Z.leb_le _ _)) by lia. cbn [andb negb].
  set (s := nbytes v - nbytes w).
  assert (0 < 256 ^ s) by (apply Z.pow_pos_nonneg; lia).
  destruct (div_mod_loop_spec (Z.to_nat (256 * actual_len quotient)) dividend quotient v 0 s Hw) as (d & q & len & -> & Hd & Hq' & Hor);
    [lia|done|done| |lia| |done|done|].
  - split; [lia|]. rewrite !Zmod_0_l. split; [done|]. rewrite Z.add_0_r. apply est_upper. lia.
  - unfold quot_left, byte_at. rewrite Z.div_0_l, Zmod_0_l by lia. lia.
  - rewrite Z.mul_0_l, Z.add_0_l in *. exists d, q. split; [done|].
    destruct Hor as [[? _]|Hlen]; [lia|]. by rewrite Hlen in Hd.
Qed.

(** Destinations that may be [NULL]. *)
Definition opt_room (n : Z) (o : option pka_operand) : Prop :=
  match o with None => True | Some op => room n op end.
Definition opt_written (o : option pka_operand) (v : Z) (P : Z -> Prop) (o' : option pka_operand) : Prop :=
  match o, o' with
  | None, None => True
  | Some op, Some op' => exists len, written op v len op' /\ P len
  | _, _ => False
  end.

Lemma if_not_null_spec f o n v (P : Z -> Prop) : opt_room n o ->
  (forall op, room n op -> exists op' len, f op = Ret op' /\ written op v len op' /\ P len) ->
  exists o', if_not_null f o = Ret o' /\ opt_written o v P o'.
Proof.
  intros R Hf. destruct o as [op|]; [|by exists None].
  destruct (Hf op R) as (op' & len & E & H). exists (Some op'). cbn [if_not_null]. rewrite E.
  split; [done|]. by exists len.
Qed.

Lemma both_spec fq fr quotient remainder nq nr q r (Pq Pr : Z -> Prop) :
  opt_room nq quotient -> opt_room nr remainder ->
  (forall op, room nq op -> exists op' len, fq op = Ret op' /\ written op q len op' /\ Pq len) ->
  (forall op, room nr op -> exists op' len, fr op = Ret op' /\ written op r len op' /\ Pr len) ->
  exists q' r', res_bind (if_not_null fq quotient) (fun q =>
      res_bind (if_not_null fr remainder) (fun r => Ret (q, r))) = Ret (q', r') /\
    opt_written quotient q Pq q' /\ opt_written remainder r Pr r'.
Proof.
  intros Rq Rr Hq Hr. destruct (if_not_null_spec fq quotient nq q Pq Rq Hq) as (q' & -> & Wq).
  destruct (if_not_null_spec fr remainder nr r Pr Rr Hr) as (r' & -> & Wr). by exists q', r'.
Qed.

(** What a local array holds before it is written: any bytes. *)
Record stack_ok (stack : bytes) : Prop := mk_stack_ok {
  stack_bytes : bytes_ok stack;
  stack_len : Z.of_nat (length stack) = MAX_BUF;
}.

Lemma lop_extend {v op} n buf : lop v op -> buf_ptr op = buf -> actual_len op = 0 ->
  0 <= n < 2 ^ 32 -> n <= Z.of_nat (length buf) -> take (Z.to_nat n) buf = zeros (Z.to_nat n) ->
  lop 0 (op <| actual_len := n |>).
Proof.
  intros H <- _ Hn Hl Hz. apply mk_lop_le; simpl; [apply H|lia|lia|apply H|]. by rewrite Hz, le_val_zeros.
Qed.

Lemma divide_with_remainder_spec {v w dividend divisor} stack quotient remainder nr :
  stack_ok stack -> lop v dividend -> lop w divisor -> 0 < w ->
  (w < v -> actual_len dividend <= nbytes v + 4) ->
  actual_len dividend + (actual_len divisor - nbytes w) <= MAX_BUF ->
  opt_room (actual_len dividend) quotient -> opt_room nr remainder ->
  nbytes w <= nr -> (v < w -> actual_len dividend <= nr) ->
  exists q r, divide_with_remainder stack dividend divisor quotient remainder = Ret (q, r) /\
    opt_written quotient (v / w) (fun len => len <= actual_len dividend) q /\
    opt_written remainder (v mod w)
      (fun len => if v <? w then len = actual_len dividend else len <= Z.max 1 (nbytes (v mod w))) r.
Proof.
  intros [Hsb Hsl] Hv Hw Hp Htrim Hmax Rq Rr Hnr Hnr'.
  pose proof (lop_range Hv). pose proof (lop_nbytes Hv). pose proof (lop_nbytes Hw). pose proof (nbytes_pos w Hp).
  unfold divide_with_remainder. rewrite (lop_le _ _ Hv), (lop_le _ _ Hw). cbn [eqb negb].
  rewrite (lop_compare Hv Hw). cbn [res_bind].
  assert (0 <= v mod w < w) as Hr by (apply Z.mod_pos_bound; lia).
  pose proof (nbytes_mono (v mod w) w ltac:(lia)) as Hrn.
  destruct (Z.compare_spec v w) as [->|Hlt|Hgt]; cbn [code_of].
  - rewrite Z.div_same, Z.mod_same, Z.ltb_irrefl by lia. eapply both_spec; [done|done|..]; intros op R.
    + destruct (set_operand_spec op 1 _ R) as (op' & E & W); [done|rewrite ?nbytes_0, ?nbytes_1; lia|].
      exists op', 1. split; [done|]. split; [exact W|]. lia.
    + destruct (set_operand_spec op 0 _ R) as (op' & E & W); [done|rewrite ?nbytes_0, ?nbytes_1; lia|].
      exists op', 0. split; [done|]. split; [exact W|]. lia.
  - rewrite Z.div_small, Z.mod_small, (proj2 (Z.ltb_lt _ _)) by lia. eapply both_spec; [done|done|..]; intros op R.
    + destruct (set_operand_spec op 0 _ R) as (op' & E & W); [done|rewrite ?nbytes_0, ?nbytes_1; lia|].
      exists op', 0. split; [done|]. split; [exact W|]. lia.
    + destruct (lop_copy op _ Hv R (Hnr' Hlt)) as (op' & E & W). by exists op', (actual_len dividend).
  - rewrite (proj2 (Z.ltb_ge _ _)) by lia. rewrite (lop_is_one Hw). cbn [res_bind].
    destruct (Z.eqb_spec w 1) as [->|Hne1].
    { rewrite Z.div_1_r, Z.mod_1_r. eapply both_spec; [done|done|..]; intros op R.
      - destruct (lop_copy op _ Hv R) as (op' & E & W); [lia|]. exists op', (actual_len dividend). by split; [|split].
      - destruct (set_operand_spec op 0 _ R) as (op' & E & W); [done|rewrite ?nbytes_0, ?nbytes_1; lia|].
        exists op', 0. split; [done|]. split; [exact W|]. lia. }
    rewrite (lop_byte_len Hv), (lop_byte_len Hw). cbn [res_bind].
    pose proof (nbytes_mono w v ltac:(lia)) as Hmono.
    assert (v / w < v) as Hdlt by (apply Z.div_lt; lia). pose proof (Z.div_pos v w ltac:(lia) ltac:(lia)).
    pose proof (nbytes_mono (v / w) v ltac:(lia)).
    destruct (Z.ltb_spec (nbytes v) 4) as [Hsm|Hbig].
    { rewrite (proj2 (Z.ltb_lt (nbytes w) 4)) by lia. cbn [andb].
      rewrite (lop_to_uint32 Hv), (lop_to_uint32 Hw) by lia. cbn [res_bind]. unfold div_u32, mod_u32.
      rewrite (proj2 (Z.eqb_neq w 0)) by lia. cbn [res_bind].
      assert (v < 2 ^ 32) as Hv32.
      { destruct (nbytes_bounds v) as (_ & _ & Hb); [lia|]. pose proof (Z.pow_le_mono_r 256 (nbytes v) 4). simpl in *. lia. }
      eapply both_spec; [done|done|..]; intros op R.
      - destruct (set_operand_spec op (v / w) _ R) as (op' & E & W); [unfold is_u32; lia|lia|].
        exists op', (nbytes (v / w)). split; [done|]. split; [exact W|]. lia.
      - destruct (set_operand_spec op (v mod w) _ R) as (op' & E & W); [unfold is_u32; lia|lia|].
        exists op', (nbytes (v mod w)). split; [done|]. split; [exact W|]. lia. }
    cbn [andb]. unfold MAX_BUF in *. specialize (Htrim Hgt).
    destruct (init_operand_spec stack (nbytes v) (actual_len dividend) Hsb) as (rem & -> & Rrem & _ & _ & Hcr & _); [lia..|].
    cbn [res_bind].
    destruct (init_operand_spec stack (nbytes v + 1 - nbytes w) (nbytes v + 1 - nbytes w) Hsb)
      as (quo & -> & Rquo & Lquo & Aquo & Hcq & Hzq & _); [lia..|]. cbn [res_bind].
    destruct (lop_copy rem _ Hv Rrem) as (rem' & -> & [Lrem Arem Crem]); [lia|]. cbn [res_bind].
    assert (set_operand quo 0 = Ret quo) as ->.
    { unfold set_operand. simpl. by destruct quo as [b l a e be]; simpl in *; subst a. }
    cbn [res_bind].
    destruct (bignum_div_mod_spec (quo <| actual_len := nbytes v + 1 - nbytes w |>) Lrem Hw) as (d & q & -> & Wd & Wq);
      [lia|by eapply lop_extend; [|done|..]; try lia|done|lia|unfold MAX_BUF; lia|lia|]. cbn [res_bind].
    destruct Wd as [Ld Ad _], Wq as [Lq Aq _]. cbn in Aq.
    eapply both_spec; [done|done|..]; intros op R.
    + destruct (lop_copy op _ Lq R) as (op' & E & W); [lia|]. exists op', (actual_len q). split; [done|]. split; [exact W|]. lia.
    + destruct (lop_copy op _ Ld R) as (op' & E & W); [lia|]. exists op', (actual_len d). split; [done|]. split; [exact W|]. lia.
Qed.

(** ** Properties *)

(** Addition, subtraction and multiplication of little-endian operands give
    the sum, the difference and the product of the numbers, without leading
    zeros, whatever the destination held before; a subtraction that would be
    negative is refused and leaves the destination alone. *)
Theorem pki_arithmetic_correct value addend result :
  operand_ok value -> operand_ok addend -> big_endian value = false -> big_endian addend = false ->
  bytes_ok (buf_ptr result) -> big_endian result = false ->
  0 < actual_len value -> actual_len value + actual_len addend + 1 <= cap result ->
  actual_len value + actual_len addend <= MAX_BUF ->
  (exists r, pki_add value addend result = Ret (RC_NO_ERROR, r) /\
     operand_val r = operand_val value + operand_val addend /\
     actual_len r = Z.max 1 (nbytes (operand_val r))) /\
  (if operand_val value <? operand_val addend
   then pki_subtract value addend result = Ret (RC_CALCULATION_ERR, result)
   else exists r, pki_subtract value addend result = Ret (RC_NO_ERROR, r) /\
     operand_val r = operand_val value - operand_val addend /\
     actual_len r = Z.max 1 (nbytes (operand_val r))) /\
  (exists r, pki_multiply value addend result = Ret (RC_NO_ERROR, r) /\
     operand_val r = operand_val value * operand_val addend /\
     actual_len r = Z.max 1 (nbytes (operand_val r))).
Proof.
  intros Ov Oa Ev Ea Br Er Hp Hc Hm. unfold MAX_BUF in *. pose proof (ok_actual _ Ov). pose proof (ok_actual _ Oa).
  assert (lop (operand_val value) value) as Lv by (split; [done|done|done|unfold is_u32; lia]).
  assert (lop (operand_val addend) addend) as La by (split; [done|done|done|unfold is_u32; lia]).
  assert (room (actual_len value + actual_len addend + 1) result) as R by (split; done).
  split; [|split].
  - destruct (pki_add_spec result _ Lv La R) as (r & E & [Hl Ha _]); [lia|].
    exists r. by rewrite (lop_val _ _ Hl).
  - destruct (Z.ltb_spec (operand_val value) (operand_val addend)) as [Hlt|Hge].
    + by apply (pki_subtract_err result Lv La).
    + destruct (pki_subtract_spec result _ Lv La Hge R) as (r & E & [Hl Ha _]); [lia|unfold MAX_BUF; lia|].
      exists r. by rewrite (lop_val _ _ Hl).
  - destruct (pki_multiply_spec result _ Lv La R) as (r & E & [Hl Ha _]); [lia|unfold MAX_BUF; lia|].
    exists r. by rewrite (lop_val _ _ Hl).
Qed.

Lemma pki_arithmetic_correct_witness :
  exists r, pki_multiply (mk_operand [255; 255; 0] 3 3 0 false) (mk_operand [254; 1] 2 2 0 false)
              (mk_operand (replicate 6 77) 6 0 0 false) = Ret (RC_NO_ERROR, r) /\
    operand_val r = 65535 * 510 /\ actual_len r = Z.max 1 (nbytes (operand_val r)).
Proof.
  refine (proj2 (proj2 (pki_arithmetic_correct (mk_operand [255; 255; 0] 3 3 0 false)
    (mk_operand [254; 1] 2 2 0 false) (mk_operand (replicate 6 77) 6 0 0 false) _ _ _ _ _ _ _ _ _)));
    try done; try (split; [repeat constructor; unfold is_u8; lia|simpl; lia]).
  repeat constructor; unfold is_u8; lia.
Defined.

(** C14: the division loop ends and [divide_with_remainder] gives the quotient
    and the remainder of the two numbers, for every content of its local
    buffers: no estimated quotient byte is too large, no byte of the quotient
    overflows, and no assertion of the routine fails. *)
Theorem division_correct stack dividend divisor quotient remainder :
  stack_ok stack -> operand_ok dividend -> operand_ok divisor ->
  big_endian dividend = false -> big_endian divisor = false ->
  0 < operand_val divisor -> actual_len dividend <= nbytes (operand_val dividend) + 4 ->
  actual_len dividend + actual_len divisor <= MAX_BUF ->
  room (actual_len dividend) quotient -> room (Z.max (actual_len dividend) (actual_len divisor)) remainder ->
  exists q r, divide_with_remainder stack dividend divisor (Some quotient) (Some remainder)
              = Ret (Some q, Some r) /\
    operand_val q = operand_val dividend / operand_val divisor /\
    operand_val r = operand_val dividend mod operand_val divisor.
Proof.
  intros Hs Ov Ow Ev Ew Hp Ht Hm Rq Rr. unfold MAX_BUF in Hm.
  pose proof (ok_actual _ Ov). pose proof (ok_actual _ Ow).
  assert (lop (operand_val dividend) dividend) as Lv by (split; [done|done|done|unfold is_u32; lia]).
  assert (lop (operand_val divisor) divisor) as Lw by (split; [done|done|done|unfold is_u32; lia]).
  pose proof (lop_nbytes Lw).
  destruct (divide_with_remainder_spec stack (Some quotient) (Some remainder)
      (Z.max (actual_len dividend) (actual_len divisor)) Hs Lv Lw Hp (fun _ => Ht))
    as ([q|] & [r|] & E & Wq & Wr); [unfold MAX_BUF; lia|exact Rq|exact Rr|lia|lia|..|done|done|done].
  exists q, r. split; [done|]. destruct Wq as (lq & [Lq _ _] & _), Wr as (lr & [Lr _ _] & _).
  split; [apply Lq|apply Lr].
Qed.

Lemma division_correct_witness :
  exists q r, divide_with_remainder (replicate 1040 77) (mk_operand (le_bytes 10 (3 ^ 50)) 10 10 0 false)
      (mk_operand (le_bytes 5 (7 ^ 12)) 5 5 0 false)
      (Some (mk_operand (zeros 10) 10 0 0 false)) (Some (mk_operand (zeros 10) 10 0 0 false))
    = Ret (Some q, Some r) /\ operand_val q = 3 ^ 50 / 7 ^ 12 /\ operand_val r = 3 ^ 50 mod 7 ^ 12.
Proof.
  apply (division_correct (replicate 1040 77) (mk_operand (le_bytes 10 (3 ^ 50)) 10 10 0 false)
      (mk_operand (le_bytes 5 (7 ^ 12)) 5 5 0 false) (mk_operand (zeros 10) 10 0 0 false) (mk_operand (zeros 10) 10 0 0 false)).
  - split; [apply Forall_replicate; unfold is_u8; lia|reflexivity].
  - split; [apply le_bytes_ok|vm_compute; split; discriminate].
  - split; [apply le_bytes_ok|vm_compute; split; discriminate].
  - reflexivity.
  - reflexivity.
  - vm_compute. reflexivity.
  - vm_compute. discriminate.
  - vm_compute. discriminate.
  - split; [apply zeros_ok|reflexivity|vm_compute; discriminate].
  - split; [apply zeros_ok|reflexivity|vm_compute; discriminate].
Defined.
