(* ===== verification/BignumMod.v ===== *)
(** * Modular arithmetic in software
      (bluefield_pka_benchmark/.../pka_helper.c)

    The modular routines built on the software big numbers (Bignum.v) and the
    modular inverse by the extended Euclidean algorithm. A local array of the C
    code starts with arbitrary bytes: the prefix of [stack] of its size. The
    theorems give the value of each routine on little-endian operands, and show
    that the inverse is found exactly when there is one. *)

From S2P Require Import Prelude Operand Bignum.

Declare Scope res_scope.
Notation "'let*' p := m 'in' k" := (res_bind m (fun p => k))
  (at level 10, p pattern, m at level 100, k at level 200) : res_scope.
Local Open Scope res_scope.

(** [PKA_ASSERT] on the byte orders. *)
Definition same_order (x y : pka_operand) : bool := eqb (big_endian x) (big_endian y).
Definition passert {A} (b : bool) (k : res A) : res A := if b then k else Fault Assert_failed.

Section Routines.
Context (stack : bytes).

(** [uint8_t buf[n]; init_operand(&op, buf, n, big_endian)]. *)
Definition local_operand (n : Z) (be : bool) : res pka_operand :=
init_operand (take (Z.to_nat n) stack) n be.

(** ** Modular arithmetic *)

(** Both destinations of [divide_with_remainder] given. *)
Definition div_rem (dividend divisor quotient remainder : pka_operand)
  : res (pka_operand * pka_operand) :=
let* (q, r) := divide_with_remainder stack dividend divisor (Some quotient) (Some remainder) in
match q, r with
| Some q, Some r => Ret (q, r)
| _, _ => Fault Null_deref
end.

Definition pki_modulo (value modulus result : pka_operand) : res (pka_result_code * pka_operand) :=
passert (same_order value modulus)
(let* quotient := local_operand MAX_BUF (big_endian value) in
 let* (_, result) := div_rem value modulus quotient result in
 Ret (RC_NO_ERROR, result)).

Definition pki_mod_add (value addend modulus result : pka_operand)
  : res (pka_result_code * pka_operand) :=
passert (same_order value modulus && same_order addend modulus)
(let* sum := local_operand MAX_BUF (big_endian value) in
 let* (_, sum) := pki_add value addend sum in
 let* sum := adjust_actual_len sum in
 let* c := pki_compare sum modulus in
 match c with
 | RC_LEFT_IS_SMALLER =>
     let* buf := memcpy (buf_ptr result) (buf_ptr sum) (actual_len sum) in
     Ret (RC_NO_ERROR, result <| buf_ptr := buf |> <| actual_len := actual_len sum |>)
 | _ =>
     let* (rc, result) := pki_subtract sum modulus result in
     let* result := adjust_actual_len result in
     Ret (rc, result)
 end).

Definition pki_mod_subtract (value subtrahend modulus result : pka_operand)
  : res (pka_result_code * pka_operand) :=
passert (same_order value modulus && same_order subtrahend modulus)
(let* reversed_diff := local_operand MAX_BUF (big_endian value) in
 let* comparison := pki_compare value subtrahend in
 match comparison with
 | RC_COMPARE_EQUAL => Ret (RC_INVALID_ARGUMENT, result)
 | RC_RIGHT_IS_SMALLER => pki_subtract value subtrahend result
 | RC_LEFT_IS_SMALLER =>
     let* (_, reversed_diff) := pki_subtract subtrahend value reversed_diff in
     let* (_, result) := pki_subtract modulus reversed_diff result in
     Ret (RC_NO_ERROR, result)
 end).

Definition pki_mod_multiply (value multiplier modulus result : pka_operand)
  : res (pka_result_code * pka_operand) :=
passert (same_order value modulus && same_order multiplier modulus)
(let* product := local_operand MAX_BUF (big_endian value) in
 let* (rc, product) := pki_multiply value multiplier product in
 match rc with
 | RC_NO_ERROR => pki_modulo product modulus result
 | _ => Ret (rc, result)
 end).

(** ** The modular inverse

  The locals of [pki_mod_inverse] that its loop changes. *)
Record inv_state := mk_inv {
inv_a : pka_operand;
inv_b : pka_operand;
inv_quot : pka_operand;
inv_remain : pka_operand;
inv_abs_x : pka_operand;
inv_last_abs_x : pka_operand;
inv_temp_abs_x : pka_operand;
inv_abs_prod : pka_operand;
inv_x_sign : Z;
inv_last_x_sign : Z;
}.

(** The next [x = last_x - quot * x], on sign and magnitude: [abs_x], its sign
  and [abs_prod]. *)
Definition next_x (quot abs_x last_abs_x abs_prod : pka_operand) (x_sign last_x_sign : Z)
  : res (pka_operand * Z * pka_operand) :=
let* skip := (if x_sign =? 0 then Ret true else is_zero quot) in
if skip then
  let* abs_x := copy_operand last_abs_x abs_x in
  Ret (abs_x, last_x_sign, abs_prod)
else
  let* (_, abs_prod) := pki_multiply quot abs_x abs_prod in
  if last_x_sign =? 0 then
    let* abs_x := copy_operand abs_prod abs_x in
    Ret (abs_x, -1 * x_sign, abs_prod)
  else if negb (x_sign =? last_x_sign) then
    let* (_, abs_x) := pki_add last_abs_x abs_prod abs_x in
    Ret (abs_x, last_x_sign, abs_prod)
  else
    let* comparison := pki_compare abs_prod last_abs_x in
    match comparison with
    | RC_COMPARE_EQUAL =>
        let* abs_x := set_operand abs_x 0 in Ret (abs_x, 0, abs_prod)
    | RC_LEFT_IS_SMALLER =>
        let* (_, abs_x) := pki_subtract last_abs_x abs_prod abs_x in
        Ret (abs_x, x_sign, abs_prod)
    | RC_RIGHT_IS_SMALLER =>
        let* (_, abs_x) := pki_subtract abs_prod last_abs_x abs_x in
        Ret (abs_x, -1 * x_sign, abs_prod)
    end.

Definition inverse_step (s : inv_state) : res inv_state :=
let '(mk_inv a b quot remain abs_x last_abs_x temp_abs_x abs_prod x_sign last_x_sign) := s in
let* (quot, remain) := div_rem a b quot remain in
let* a := copy_operand b a in
let* b := copy_operand remain b in
let* temp_abs_x := copy_operand abs_x temp_abs_x in
let temp_x_sign := x_sign in
let* (abs_x, x_sign, abs_prod) := next_x quot abs_x last_abs_x abs_prod x_sign last_x_sign in
let* last_abs_x := copy_operand temp_abs_x last_abs_x in
Ret (mk_inv a b quot remain abs_x last_abs_x temp_abs_x abs_prod x_sign temp_x_sign).

(** [while (! is_zero(&b))]. *)
Fixpoint inv_loop (fuel : nat) (s : inv_state) : res inv_state :=
match fuel with
| O => Fault Out_of_fuel
| S fuel' =>
    let* z := is_zero (inv_b s) in
    if z then Ret s else let* s := inverse_step s in inv_loop fuel' s
end.

(** The loop halves [a * b] after its first round, so it ends within the bits
  of the two. *)
Definition pki_mod_inverse (value modulus result : pka_operand)
  : res (pka_result_code * pka_operand) :=
passert (same_order value modulus)
(let* l := local_operand MAX_BUF (big_endian value) in
 let* comparison := pki_compare value modulus in
 let* a := match comparison with
           | RC_LEFT_IS_SMALLER => copy_operand value l
           | _ => let* (_, a) := pki_modulo value modulus l in Ret a
           end in
 let* b := copy_operand modulus l in
 let* zero := (let* z := is_zero a in if z then Ret true else is_zero b) in
 if zero then Ret (RC_NO_MODULAR_INVERSE, result) else
 let* last_abs_x := set_operand l 1 in
 let* abs_x := set_operand l 0 in
 let* s := inv_loop (Z.to_nat (8 * (actual_len a + actual_len b) + 3))
             (mk_inv a b l l abs_x last_abs_x l l 0 1) in
 let* result :=
   (if inv_last_x_sign s =? -1
    then let* (_, result) := pki_subtract modulus (inv_last_abs_x s) result in Ret result
    else copy_operand (inv_last_abs_x s) result) in
 let* (_, abs_prod) := pki_mod_multiply value result modulus (inv_abs_prod s) in
 let* one := is_one abs_prod in
 Ret (if one then RC_NO_ERROR else RC_NO_MODULAR_INVERSE, result)).

End Routines.

(** Arithmetic with the buffer sizes. *)
Ltac mlia := unfold MAX_BUF, MAX_ECC_BUF in *; lia.

(** ** Fresh operands *)

Definition zero_op (n : Z) : pka_operand := mk_operand (zeros (Z.to_nat n)) n 0 0 false.

Lemma zero_op_lop n : 0 <= n -> lop 0 (zero_op n).
Proof. intros Hn. apply mk_lop_le; simpl; [apply zeros_ok|lia|lia|done|done]. Qed.
Lemma zero_op_room n : 0 <= n -> room n (zero_op n).
Proof. intros Hn. split; simpl; [apply zeros_ok|done|rewrite length_zeros; lia]. Qed.

(** [adjust_actual_len] of an operand of length 0 exposes the byte the buffer
    holds there. *)
Definition adjustable (op : pka_operand) : Prop :=
  0 < actual_len op \/ buf_ptr op !! 0%nat = Some 0.
Lemma zero_op_adjustable n : 0 < n -> adjustable (zero_op n).
Proof. intros Hn. right. simpl. unfold zeros. apply lookup_replicate_2. lia. Qed.

Lemma lop_adjust_any {v op} : lop v op -> adjustable op -> actual_len op <= MAX_BUF ->
  adjust_actual_len op = Ret (op <| actual_len := Z.max 1 (nbytes v) |>) /\
  lop v (op <| actual_len := Z.max 1 (nbytes v) |>).
Proof.
  intros H [Hp|Hb] Hm; [by apply lop_adjust|].
  destruct (Z.lt_ge_cases 0 (actual_len op)) as [Hp|Hz]; [by apply lop_adjust|].
  pose proof (lop_len H). pose proof (lop_range H) as R. replace (actual_len op) with 0 in R by lia.
  change (256 ^ 0) with 1 in R. assert (v = 0) as -> by lia.
  change (Z.max 1 (nbytes 0)) with 1. split.
  - unfold adjust_actual_len. by rewrite (lop_is_zero H).
  - assert (0 < length (buf_ptr op))%nat by (by apply lookup_lt_Some in Hb).
    apply mk_lop_le; simpl; [apply H|lia|lia|apply H|].
    change (Z.to_nat 1) with 1%nat. rewrite le_val_take_S by lia. unfold rd8. rewrite Hb. done.
Qed.

Lemma adjust_written {v op} : lop v op -> adjustable op -> actual_len op <= MAX_BUF ->
  exists op', adjust_actual_len op = Ret op' /\ written op v (Z.max 1 (nbytes v)) op'.
Proof.
  intros H Ha Hm. destruct (lop_adjust_any H Ha Hm) as [E L]. eexists. split; [exact E|]. by split.
Qed.

(** The product in a fresh buffer, empty operands included. *)
Lemma pki_multiply_fresh {v m value multiplier} n :
  lop v value -> lop m multiplier -> 0 < n -> actual_len value + actual_len multiplier <= n <= MAX_BUF ->
  exists r, pki_multiply value multiplier (zero_op n) = Ret (RC_NO_ERROR, r) /\
    lop (v * m) r /\ actual_len r = Z.max 1 (nbytes (v * m)) /\ length (buf_ptr r) = Z.to_nat n.
Proof.
  intros Hv Hm Hn Hl. pose proof (lop_len Hv). pose proof (lop_len Hm).
  destruct (Z.lt_ge_cases 0 (actual_len value + actual_len multiplier)) as [Hp|Hz].
  - destruct (pki_multiply_spec (zero_op n) n Hv Hm) as (r & E & [L A C]); [apply zero_op_room; lia|lia|lia|].
    exists r. split; [done|]. split; [done|]. split; [done|]. rewrite C. simpl. apply length_zeros.
  - assert (actual_len value = 0) as Ev by lia. assert (actual_len multiplier = 0) as Em by lia.
    pose proof (lop_range Hv) as Rv. pose proof (lop_range Hm) as Rm. rewrite Ev in Rv. rewrite Em in Rm.
    change (256 ^ 0) with 1 in *. assert (v = 0) as -> by lia. assert (m = 0) as -> by lia.
    destruct (lop_adjust_any (zero_op_lop n ltac:(lia)) (zero_op_adjustable n Hn)) as [E L]; [simpl; mlia|].
    exists ((zero_op n) <| actual_len := 1 |>). unfold pki_multiply. rewrite Ev, Em.
    split; [|split; [exact L|split; [done|simpl; apply length_zeros]]].
    change ((MAX_BUF <? 0) || (MAX_BUF <? 0) || (MAX_BUF <? 0 + 0)) with false. cbv iota.
    unfold memset0. rewrite (proj2 (Z.leb_le (0 + 0) _)) by (simpl; lia). cbn [res_bind].
    change (for_loop _ _ _ _) with (Ret (zeros (Z.to_nat n))). cbn [res_bind].
    change (adjust_actual_len _) with (adjust_actual_len (zero_op n)). by rewrite E.
Qed.

(** ** Modular arithmetic *)

Section ModularSpecs.
Context (stack : bytes) (Hst : stack_ok stack).

Lemma local_operand_spec n : 0 <= n <= MAX_BUF -> local_operand stack n false = Ret (zero_op n).
Proof.
intros Hn. destruct Hst as [_ Hl]. unfold local_operand, init_operand, memset0.
rewrite length_take. rewrite (proj2 (Z.leb_le _ _)) by lia. cbn [res_bind].
unfold zero_op. rewrite drop_ge by (rewrite length_take; lia). by rewrite app_nil_r.
Qed.

Lemma same_order_lop {v w x y} : lop v x -> lop w y -> same_order x y = true.
Proof. intros Hx Hy. unfold same_order. by rewrite (lop_le _ _ Hx), (lop_le _ _ Hy). Qed.

Lemma div_rem_spec {v w dividend divisor} quotient remainder nr :
lop v dividend -> lop w divisor -> 0 < w ->
(w < v -> actual_len dividend <= nbytes v + 4) ->
actual_len dividend + (actual_len divisor - nbytes w) <= MAX_BUF ->
room (actual_len dividend) quotient -> room nr remainder ->
nbytes w <= nr -> (v < w -> actual_len dividend <= nr) ->
exists q r lq lr, div_rem stack dividend divisor quotient remainder = Ret (q, r) /\
  written quotient (v / w) lq q /\ lq <= actual_len dividend /\
  written remainder (v mod w) lr r /\
  (if v <? w then lr = actual_len dividend else lr <= Z.max 1 (nbytes (v mod w))).
Proof.
intros Hv Hw Hp Ht Hm Rq Rr Hn Hn'.
destruct (divide_with_remainder_spec stack (Some quotient) (Some remainder) nr Hst Hv Hw Hp Ht Hm Rq Rr Hn Hn')
  as ([q|] & [r|] & E & Wq & Wr); [|done|done|done].
destruct Wq as (lq & Wq & Hq), Wr as (lr & Wr & Hr).
exists q, r, lq, lr. unfold div_rem. by rewrite E.
Qed.

Lemma pki_modulo_spec {v m value modulus} result nr :
lop v value -> lop m modulus -> 0 < m ->
(m < v -> actual_len value <= nbytes v + 4) ->
actual_len value + (actual_len modulus - nbytes m) <= MAX_BUF ->
room nr result -> nbytes m <= nr -> (v < m -> actual_len value <= nr) ->
exists r lr, pki_modulo stack value modulus result = Ret (RC_NO_ERROR, r) /\
  written result (v mod m) lr r /\
  (if v <? m then lr = actual_len value else lr <= Z.max 1 (nbytes (v mod m))).
Proof.
intros Hv Hm Hp Ht Hmax R Hn Hn'. pose proof (lop_nbytes Hm).
unfold pki_modulo, passert. rewrite (same_order_lop Hv Hm), (lop_le _ _ Hv).
rewrite local_operand_spec by (mlia). cbn [res_bind].
destruct (div_rem_spec (zero_op MAX_BUF) result nr Hv Hm Hp Ht Hmax) as (q & r & lq & lr & E & Wq & Hlq & Wr & Hlr);
  [eapply room_mono; [apply zero_op_room; mlia|lia]|done|done|done|].
rewrite E. by exists r, lr.
Qed.

Lemma pki_mod_multiply_spec {v u m value multiplier modulus} result nr :
lop v value -> lop u multiplier -> lop m modulus -> 0 < m ->
actual_len value + actual_len multiplier + (actual_len modulus - nbytes m) + 1 <= MAX_BUF ->
room nr result -> nbytes m <= nr ->
exists r lr, pki_mod_multiply stack value multiplier modulus result = Ret (RC_NO_ERROR, r) /\
  written result (v * u mod m) lr r /\ lr <= nbytes m.
Proof.
intros Hv Hu Hm Hp Hmax R Hn. pose proof (lop_nbytes Hm). pose proof (nbytes_pos m Hp).
unfold pki_mod_multiply, passert. rewrite (same_order_lop Hv Hm), (same_order_lop Hu Hm), (lop_le _ _ Hv).
cbn [andb]. rewrite local_operand_spec by (mlia). cbn [res_bind].
destruct (pki_multiply_fresh MAX_BUF Hv Hu) as (pr & -> & Lp & Ap & Cp); [mlia|mlia|].
cbn [res_bind]. pose proof (lop_range Hv) as Rv. pose proof (lop_range Hu) as Ru.
pose proof (lop_len Hv). pose proof (lop_len Hu).
assert (nbytes (v * u) <= actual_len value + actual_len multiplier) as Hnb
  by (apply nbytes_le; [lia|]; rewrite Z.pow_add_r by lia; nia).
pose proof (nbytes_nonneg (v * u)).
assert (v * u < m -> actual_len pr <= nbytes m) as Hsmall
  by (intros Hlt; pose proof (nbytes_mono (v * u) m ltac:(lia)); lia).
destruct (pki_modulo_spec result nr Lp Hm Hp) as (r & lr & -> & W & Hlr); [lia|lia|done|done|lia|].
exists r, lr. split; [done|]. split; [done|].
pose proof (Z.mod_pos_bound (v * u) m Hp). pose proof (nbytes_mono (v * u mod m) m ltac:(lia)).
destruct (Z.ltb_spec (v * u) m); lia.
Qed.

Lemma pki_mod_add_spec {v a m value addend modulus} result nr :
lop v value -> lop a addend -> lop m modulus -> 0 < m -> v <= m -> a <= m ->
actual_len value < MAX_BUF -> actual_len addend < MAX_BUF ->
room nr result -> nbytes m < nr < MAX_BUF ->
exists r, pki_mod_add stack value addend modulus result = Ret (RC_NO_ERROR, r) /\
  let s := if v + a <? m then v + a else v + a - m in
  written result s (Z.max 1 (nbytes s)) r.
Proof.
intros Hv Ha Hm Hp Hvm Ham Hl1 Hl2 R Hn. unfold MAX_BUF in *.
pose proof (lop_range Hv). pose proof (lop_range Ha). pose proof (nbytes_nonneg m).
unfold pki_mod_add, passert. rewrite (same_order_lop Hv Hm), (same_order_lop Ha Hm), (lop_le _ _ Hv).
cbn [andb]. rewrite local_operand_spec by (mlia). cbn [res_bind].
destruct (pki_add_spec (zero_op MAX_BUF) MAX_BUF Hv Ha) as (s & -> & [Ls As Cs]);
  [apply zero_op_room; mlia|mlia|]. cbn [res_bind].
assert (nbytes (v + a) <= nbytes m + 1) as Hnb.
{ apply nbytes_le; [lia|]. rewrite Z.pow_add_r by lia. destruct (nbytes_bounds m Hp) as (_ & _ & Hu). lia. }
destruct (lop_adjust Ls) as [Ea La]; [mlia|]. rewrite Ea. cbn [res_bind].
set (s' := s <| actual_len := Z.max 1 (nbytes (v + a)) |>) in *.
rewrite (lop_compare La Hm). cbn [res_bind]. cbv zeta.
destruct (Z.ltb_spec (v + a) m) as [Hlt|Hge].
- rewrite (proj2 (Z.compare_lt_iff _ _) Hlt). cbn [code_of].
  destruct (lop_memcpy (buf_ptr result) La (room_bytes _ _ R)) as (b & -> & Hb & Hlb & Hvb);
    [pose proof (room_cap _ _ R); simpl; lia|]. cbn [res_bind].
  eexists. split; [done|]. split; [|done|done].
  pose proof (lop_len La). pose proof (room_cap _ _ R).
  apply mk_lop_le; simpl in *; [done|lia|lia|apply R|done].
- destruct (pki_subtract_spec result nr La Hm Hge R) as (r & -> & [Lr Ar Cr]); [simpl; lia|simpl; mlia|].
  cbn [res_bind]. pose proof (nbytes_mono (v + a - m) (v + a) ltac:(lia)).
  destruct (lop_adjust Lr) as [Er Lr']; [mlia|]. rewrite Er. cbn [res_bind].
  destruct (code_of_ge (v + a) m Hge) as [-> | ->]; (eexists; split; [done|]; by split).
Qed.

(** Equal operands are refused and the result stays as it was. *)
Lemma pki_mod_subtract_equal {v value subtrahend m modulus} result :
lop v value -> lop v subtrahend -> lop m modulus ->
pki_mod_subtract stack value subtrahend modulus result = Ret (RC_INVALID_ARGUMENT, result).
Proof.
intros Hv Hw Hm. unfold pki_mod_subtract, passert.
rewrite (same_order_lop Hv Hm), (same_order_lop Hw Hm), (lop_le _ _ Hv).
cbn [andb]. rewrite local_operand_spec by (mlia). cbn [res_bind].
rewrite (lop_compare Hv Hw). cbn [res_bind]. by rewrite Z.compare_refl.
Qed.

Lemma pki_mod_subtract_spec {v w m value subtrahend modulus} result nr :
lop v value -> lop w subtrahend -> lop m modulus -> 0 <= v <= m -> 0 <= w <= m -> v <> w ->
actual_len value <= nr -> actual_len subtrahend <= MAX_BUF -> actual_len modulus <= nr -> nr <= MAX_BUF ->
room nr result ->
exists r, pki_mod_subtract stack value subtrahend modulus result = Ret (RC_NO_ERROR, r) /\
  let d := if w <? v then v - w else m - (w - v) in
  written result d (Z.max 1 (nbytes d)) r.
Proof.
intros Hv Hw Hm Hvm Hwm Hne Hl1 Hl2 Hl3 Hnr R.
unfold pki_mod_subtract, passert. rewrite (same_order_lop Hv Hm), (same_order_lop Hw Hm), (lop_le _ _ Hv).
cbn [andb]. rewrite local_operand_spec by (mlia). cbn [res_bind].
rewrite (lop_compare Hv Hw). cbn [res_bind]. cbv zeta.
assert (forall x op, lop x op -> 0 < x -> 0 < actual_len op) as Hpos
  by (intros x op Hx Hx0; pose proof (lop_nbytes Hx); pose proof (nbytes_pos x Hx0); lia).
destruct (Z.compare_spec v w) as [He|Hlt|Hgt]; [done| |]; cbn [code_of].
- rewrite (proj2 (Z.ltb_ge w v)) by lia.
  destruct (pki_subtract_spec (zero_op MAX_BUF) MAX_BUF Hw Hv) as (d & -> & [Ld Ad Cd]);
    [lia|apply zero_op_room; mlia|split; [by apply (Hpos w); [|lia]|lia]|lia|]. cbn [res_bind].
  destruct (pki_subtract_spec result nr Hm Ld) as (r & -> & W); [lia|done|split; [by apply (Hpos m); [|lia]|lia]|lia|].
  by exists r.
- rewrite (proj2 (Z.ltb_lt w v)) by lia. apply (pki_subtract_spec result nr Hv Hw); [lia|done| |lia].
  split; [apply (Hpos v); [done|lia]|lia].
Qed.
End ModularSpecs.

(** ** The extended Euclidean algorithm

    [A] is the value reduced by the modulus [m]; [a] and [b] are the running
    remainders, [l] and [x] their coefficients. *)
Record euclid (A m a b l x : Z) : Prop := mk_euclid {
  eu_a : 0 < a <= m;
  eu_b : 0 <= b <= m;
  eu_cong_a : (l * A - a) mod m = 0;
  eu_cong_b : (x * A - b) mod m = 0;
  eu_sum : Z.abs x * a + Z.abs l * b = m;
  eu_sign : x * l <= 0;
  eu_l : Z.abs l <= m;
  eu_gcd : Z.gcd a b = Z.gcd A m;
}.

Lemma euclid_init A m : 0 < A < m -> euclid A m A m 1 0.
Proof.
  intros H. split; try lia.
  - rewrite Z.mul_1_l, Z.sub_diag. done.
  - replace (0 * A - m) with (-1 * m) by lia. apply Z.mod_mul. lia.
Qed.

Lemma euclid_x A m a b l x : euclid A m a b l x -> Z.abs x <= m.
Proof. intros [Ha Hb _ _ Hs _ Hl _]. nia. Qed.

Lemma mod_0_sub m u v q : m <> 0 -> u mod m = 0 -> v mod m = 0 -> (u - q * v) mod m = 0.
Proof.
  intros Hm Hu Hv. apply Z.mod_divide in Hu, Hv; [|done..]. apply Z.mod_divide; [done|].
  apply Z.divide_sub_r; [done|]. by apply Z.divide_mul_r.
Qed.

Lemma euclid_step A m a b l x : euclid A m a b l x -> 0 < b ->
  euclid A m b (a mod b) x (l - a / b * x).
Proof.
  intros E Hb. pose proof (euclid_x _ _ _ _ _ _ E) as Hx. destruct E as [Ha Hbm Ca Cb Hs Hsg Hl Hg].
  pose proof (Z.div_mod a b ltac:(lia)) as Hd. pose proof (Z.mod_pos_bound a b Hb) as Hr.
  pose proof (Z.div_pos a b ltac:(lia) Hb) as Hq. set (q := a / b) in *. set (r := a mod b) in *.
  assert (Z.abs (l - q * x) = Z.abs l + q * Z.abs x) as Habs by nia.
  split; [lia|lia|done| | | |done|].
  - replace ((l - q * x) * A - r) with ((l * A - a) - q * (x * A - b)) by lia.
    by apply mod_0_sub; [lia| |].
  - rewrite Habs. replace r with (a - b * q) by lia. lia.
  - nia.
  - rewrite <-Hg. unfold r. rewrite Z.gcd_comm, Z.gcd_mod by lia. apply Z.gcd_comm.
Qed.

(** Rounds left. *)
Definition euclid_left (a b : Z) : Z :=
  if b =? 0 then 0 else (if a <? b then 2 else 1) + Z.log2 (a * b).

Lemma euclid_left_step a b : 0 < a -> 0 < b -> euclid_left b (a mod b) < euclid_left a b.
Proof.
  intros Ha Hb. pose proof (Z.mod_pos_bound a b Hb) as Hr. pose proof (Z.div_mod a b ltac:(lia)) as Hd.
  pose proof (Z.log2_nonneg (a * b)). unfold euclid_left. rewrite (proj2 (Z.eqb_neq b 0)) by lia.
  destruct (Z.eqb_spec (a mod b) 0); [destruct (Z.ltb_spec a b); lia|].
  rewrite (proj2 (Z.ltb_ge b (a mod b))) by lia. destruct (Z.ltb_spec a b) as [Hlt|Hge].
  - rewrite (Z.mod_small a b) by lia. rewrite (Z.mul_comm b a). lia.
  - assert (1 <= a / b) by (apply Z.div_le_lower_bound; lia).
    assert (2 * (b * (a mod b)) <= a * b) as H2 by nia. apply Z.log2_le_mono in H2.
    rewrite Z.log2_double in H2 by nia. lia.
Qed.

Lemma euclid_left_bound a b la lb : 0 < a < 256 ^ la -> 0 < b < 256 ^ lb -> 0 <= la -> 0 <= lb ->
  euclid_left a b < 8 * (la + lb) + 3.
Proof.
  intros Ha Hb Hla Hlb. unfold euclid_left. rewrite (proj2 (Z.eqb_neq b 0)) by lia.
  assert (Z.log2 (a * b) < 8 * (la + lb)); [|destruct (Z.ltb_spec a b); lia].
  apply Z.log2_lt_pow2; [nia|]. rewrite Z.pow_mul_r by lia. change (2 ^ 8) with 256.
  rewrite Z.pow_add_r by lia. nia.
Qed.

(** What the end of the algorithm says. *)
Lemma euclid_end A m a l x : euclid A m a 0 l x ->
  a = Z.gcd A m /\ Z.abs l <= m /\ l * A mod m = Z.gcd A m mod m.
Proof.
  intros [Ha _ Ca _ _ _ Hl Hg]. rewrite Z.gcd_0_r, Z.abs_eq in Hg by lia. split; [done|]. split; [done|].
  rewrite <-Hg. apply Z.mod_divide in Ca; [|lia]. destruct Ca as [k Hk].
  replace (l * A) with (a + k * m) by lia. apply Z.mod_add. lia.
Qed.

(** The loop's locals hold that state. *)
Record inv_ok (m a b l x : Z) (s : inv_state) : Prop := mk_inv_ok {
  io_a : lop a (inv_a s);
  io_a_len : actual_len (inv_a s) <= nbytes a + 4;
  io_b : lop b (inv_b s);
  io_b_len : actual_len (inv_b s) <= nbytes b + 4;
  io_x : lop (Z.abs x) (inv_abs_x s);
  io_x_len : actual_len (inv_abs_x s) <= nbytes m;
  io_l : lop (Z.abs l) (inv_last_abs_x s);
  io_l_len : actual_len (inv_last_abs_x s) <= nbytes m;
  io_x_sign : inv_x_sign s = Z.sgn x;
  io_l_sign : inv_last_x_sign s = Z.sgn l;
  io_rooms : Forall (room MAX_BUF) [inv_a s; inv_b s; inv_quot s; inv_remain s; inv_abs_x s;
                                    inv_last_abs_x s; inv_temp_abs_x s; inv_abs_prod s];
}.

Lemma lop_pos_len {v op} : lop v op -> 0 < v -> 0 < actual_len op.
Proof. intros H Hv. pose proof (lop_nbytes H). pose proof (nbytes_pos v Hv). lia. Qed.

Lemma next_x_spec {q l x quot abs_x last_abs_x} abs_prod n :
  lop q quot -> lop (Z.abs x) abs_x -> lop (Z.abs l) last_abs_x -> x * l <= 0 -> 0 <= q ->
  actual_len quot + actual_len abs_x <= MAX_BUF -> actual_len last_abs_x <= n ->
  0 < n < MAX_BUF -> nbytes (Z.abs (l - q * x)) <= n ->
  room MAX_BUF abs_x -> room MAX_BUF abs_prod ->
  exists ax pr, next_x quot abs_x last_abs_x abs_prod (Z.sgn x) (Z.sgn l)
                = Ret (ax, Z.sgn (l - q * x), pr) /\
    lop (Z.abs (l - q * x)) ax /\ actual_len ax <= n /\ room MAX_BUF ax /\ room MAX_BUF pr.
Proof.
  intros Hq Hx Hl Hsg Hq0 Hm Hln Hn Hx' Rx Rp. unfold next_x.
  destruct (decide (x = 0 \/ q = 0)) as [Hskip|Hgo].
  - assert ((if Z.sgn x =? 0 then Ret true else is_zero quot) = Ret true) as ->.
    { destruct (Z.eqb_spec (Z.sgn x) 0) as [|Hs]; [done|]. rewrite (lop_is_zero Hq).
      destruct Hskip as [->| ->]; [done|]. done. }
    cbn [res_bind]. destruct (lop_copy abs_x _ Hl Rx) as (ax & -> & W); [lia|]. cbn [res_bind].
    replace (l - q * x) with l by (destruct Hskip as [-> | ->]; lia).
    exists ax, abs_prod. split; [done|]. split; [apply W|]. split; [rewrite (written_len _ _ _ _ W); done|].
    split; [by eapply written_room|done].
  - assert (x <> 0 /\ q <> 0) as [Hx0 Hqn] by tauto.
    assert ((if Z.sgn x =? 0 then Ret true else is_zero quot) = Ret false) as ->.
    { rewrite (proj2 (Z.eqb_neq (Z.sgn x) 0)) by lia. rewrite (lop_is_zero Hq). by rewrite (proj2 (Z.eqb_neq q 0)). }
    cbn [res_bind]. pose proof (lop_pos_len Hx ltac:(lia)). pose proof (lop_pos_len Hq ltac:(lia)).
    destruct (pki_multiply_spec abs_prod MAX_BUF Hq Hx Rp) as (pr & -> & Wp); [lia|lia|]. cbn [res_bind].
    pose proof (written_room _ _ _ _ _ Wp Rp) as Rpr. destruct Wp as [Lp Ap _].
    destruct (Z.eqb_spec (Z.sgn l) 0) as [Hl0|Hl0].
    + assert (l = 0) as -> by lia. assert (Z.abs (0 - q * x) = q * Z.abs x) as Ea by nia.
      rewrite Ea in *. destruct (lop_copy abs_x _ Lp Rx) as (ax & -> & W); [lia|]. cbn [res_bind].
      exists ax, pr. split; [do 3 f_equal; nia|]. split; [apply W|].
      split; [rewrite (written_len _ _ _ _ W); lia|]. split; [by eapply written_room|done].
    + assert (Z.sgn x <> Z.sgn l) as Hne by nia. rewrite (proj2 (Z.eqb_neq _ _)) by done. cbn [negb].
      assert (Z.abs (l - q * x) = Z.abs l + q * Z.abs x) as Ea by nia. rewrite Ea in *.
      assert (0 <= q * Z.abs x) by nia. pose proof (nbytes_mono (q * Z.abs x) (Z.abs l + q * Z.abs x) ltac:(lia)).
      destruct (pki_add_spec abs_x MAX_BUF Hl Lp Rx) as (ax & -> & W); [mlia|]. cbn [res_bind].
      exists ax, pr. split; [do 3 f_equal; nia|]. split; [apply W|].
      split; [rewrite (written_len _ _ _ _ W); lia|]. split; [by eapply written_room|done].
Qed.

Lemma inv_step_spec stack A m a b l x s :
  stack_ok stack -> euclid A m a b l x -> inv_ok m a b l x s -> 0 < b -> 2 * nbytes m + 16 <= MAX_BUF ->
  exists s', inverse_step stack s = Ret s' /\ inv_ok m b (a mod b) x (l - a / b * x) s'.
Proof.
  intros Hst E [La Ta Lb Tb Lx Tx Ll Tl Sx Sl R] Hb Hm.
  pose proof (euclid_x _ _ _ _ _ _ (euclid_step _ _ _ _ _ _ E Hb)) as Hx'.
  pose proof (eu_a _ _ _ _ _ _ E). pose proof (eu_b _ _ _ _ _ _ E).
  pose proof (nbytes_mono a m ltac:(lia)). pose proof (nbytes_mono b m ltac:(lia)).
  pose proof (nbytes_mono _ m Hx') as Hnx. pose proof (nbytes_pos b Hb). pose proof (lop_nbytes Lb).
  destruct s as [oa ob oq or ox ol ot op xs ls]. cbn [inv_a inv_b inv_quot inv_remain inv_abs_x
    inv_last_abs_x inv_temp_abs_x inv_abs_prod inv_x_sign inv_last_x_sign] in *. subst xs ls.
  apply Forall_cons in R as [Ra R]. apply Forall_cons in R as [Rb R]. apply Forall_cons in R as [Rq R].
  apply Forall_cons in R as [Rr R]. apply Forall_cons in R as [Rx R]. apply Forall_cons in R as [Rl R].
  apply Forall_cons in R as [Rt R]. apply Forall_cons in R as [Rp _].
  unfold inverse_step.
  destruct (div_rem_spec stack Hst oq or MAX_BUF La Lb Hb) as (q & r & lq & lr & -> & Wq & Hlq & Wr & Hlr);
    [lia|lia|eapply room_mono; [exact Rq|lia]|done|lia|lia|]. cbn [res_bind].
  destruct (lop_copy oa _ Lb Ra) as (a' & -> & Wa); [lia|]. cbn [res_bind].
  assert (lr <= nbytes (a mod b) + 4) as Hlr4.
  { pose proof (nbytes_nonneg (a mod b)). revert Hlr. destruct (Z.ltb_spec a b) as [Hlt|Hge]; intros ->||intros Hlr.
    - by rewrite Z.mod_small by lia.
    - lia. }
  pose proof (Z.mod_pos_bound a b Hb). pose proof (nbytes_mono (a mod b) m ltac:(lia)).
  pose proof (written_len _ _ _ _ Wr) as Hr.
  destruct (lop_copy ob _ (written_lop _ _ _ _ Wr) Rb) as (b' & -> & Wb); [lia|]. cbn [res_bind].
  destruct (lop_copy ot _ Lx Rt) as (t' & -> & Wt); [lia|]. cbn [res_bind]. cbv zeta.
  pose proof (written_len _ _ _ _ Wq) as Hq.
  destruct (next_x_spec op (nbytes m) (written_lop _ _ _ _ Wq) Lx Ll) as (ax & pr & -> & Lax & Tax & Rax & Rpr);
    [apply E|apply Z.div_pos; lia|lia|done|lia|done|done|done|]. cbn [res_bind].
  destruct (lop_copy ol _ (written_lop _ _ _ _ Wt) Rl) as (l' & -> & Wl); [pose proof (written_len _ _ _ _ Wt); lia|].
  cbn [res_bind]. eexists. split; [done|].
  pose proof (written_len _ _ _ _ Wt). pose proof (written_len _ _ _ _ Wl). pose proof (written_len _ _ _ _ Wa).
  pose proof (written_len _ _ _ _ Wb).
  split; simpl; [apply Wa|lia|apply Wb|lia|done|done|apply Wl|lia|done|done|].
  repeat (apply Forall_cons; split; [first [done|by eapply written_room]|]). constructor.
Qed.

Lemma inv_loop_spec stack A m fuel a b l x s :
  stack_ok stack -> euclid A m a b l x -> inv_ok m a b l x s -> 2 * nbytes m + 16 <= MAX_BUF ->
  euclid_left a b < Z.of_nat fuel ->
  exists s' l' x', inv_loop stack fuel s = Ret s' /\
    euclid A m (Z.gcd A m) 0 l' x' /\ inv_ok m (Z.gcd A m) 0 l' x' s'.
Proof.
  intros Hst. revert a b l x s. induction fuel as [|fuel IH]; intros a b l x s E I Hm Hf; cbn [inv_loop].
  - unfold euclid_left in Hf. destruct (Z.eqb_spec b 0); [lia|]. pose proof (Z.log2_nonneg (a * b)).
    destruct (a <? b); lia.
  - rewrite (lop_is_zero (io_b _ _ _ _ _ _ I)). cbn [res_bind]. pose proof (eu_b _ _ _ _ _ _ E).
    destruct (Z.eqb_spec b 0) as [->|Hne].
    + exists s, l, x. destruct (euclid_end _ _ _ _ _ E) as [<- _]. done.
    + destruct (inv_step_spec stack A m a b l x s Hst E I) as (s' & -> & I'); [lia|done|]. cbn [res_bind].
      pose proof (eu_a _ _ _ _ _ _ E).
      apply (IH b (a mod b) x (l - a / b * x) s'); [apply euclid_step; [done|lia]|done|done|].
      pose proof (euclid_left_step a b). lia.
Qed.

Section InverseSpec.
Context (stack : bytes) (Hst : stack_ok stack).
Context {v m : Z} {value modulus : pka_operand} (Hv : lop v value) (Hm : lop m modulus) (Hp : 0 < m).
Context (Tv : actual_len value <= nbytes v + 4) (Tm : actual_len modulus <= nbytes m + 4).
Context (Hsize : 2 * nbytes m + 16 <= MAX_BUF) (Hvalue : actual_len value + nbytes m + 16 <= MAX_BUF).

(** The reduced value that the algorithm starts from. *)
Lemma inverse_start :
exists a, (let* c := pki_compare value modulus in
           match c with
           | RC_LEFT_IS_SMALLER => copy_operand value (zero_op MAX_BUF)
           | _ => let* (_, a) := pki_modulo stack value modulus (zero_op MAX_BUF) in Ret a
           end) = Ret a /\
  lop (v mod m) a /\ actual_len a <= nbytes (v mod m) + 4 /\ room MAX_BUF a.
Proof.
pose proof (lop_range Hv). rewrite (lop_compare Hv Hm). cbn [res_bind].
assert (room MAX_BUF (zero_op MAX_BUF)) as R by (apply zero_op_room; mlia).
pose proof (nbytes_nonneg m). pose proof (nbytes_nonneg (v mod m)).
destruct (Z.lt_ge_cases v m) as [Hlt|Hge].
- rewrite (proj2 (Z.compare_lt_iff v m) Hlt). cbn [code_of].
  destruct (lop_copy (zero_op MAX_BUF) _ Hv R) as (a & -> & W); [lia|].
  exists a. rewrite Z.mod_small by lia. split; [done|]. split; [apply W|].
  rewrite (written_len _ _ _ _ W). split; [done|by eapply written_room].
- destruct (pki_modulo_spec stack Hst (zero_op MAX_BUF) MAX_BUF Hv Hm Hp) as (a & la & E & W & Hla);
    [lia|lia|done|lia|lia|]. rewrite E. cbn [res_bind].
  exists a. split; [destruct (code_of_ge v m Hge) as [-> | ->]; done|]. split; [apply W|].
  rewrite (written_len _ _ _ _ W). rewrite (proj2 (Z.ltb_ge v m)) in Hla by lia.
  split; [lia|by eapply written_room].
Qed.

Lemma inverse_zero result : v mod m = 0 ->
pki_mod_inverse stack value modulus result = Ret (RC_NO_MODULAR_INVERSE, result).
Proof.
intros Hz. destruct inverse_start as (a & E & La & Ta & Ra).
unfold pki_mod_inverse, passert. rewrite (same_order_lop Hv Hm), (lop_le _ _ Hv).
rewrite local_operand_spec by (done || mlia). cbn [res_bind].
destruct (pki_compare value modulus) as [c|]; [|done]. cbn [res_bind] in E |- *. rewrite E. cbn [res_bind].
destruct (lop_copy (zero_op MAX_BUF) MAX_BUF Hm) as (b & -> & W);
  [apply zero_op_room; mlia|pose proof (nbytes_nonneg m); lia|]. cbn [res_bind].
rewrite (lop_is_zero La). cbn [res_bind]. by rewrite Hz.
Qed.

(** The loop from its start. *)
Lemma inverse_loop : v mod m <> 0 -> forall a b, lop (v mod m) a -> actual_len a <= nbytes (v mod m) + 4 ->
room MAX_BUF a -> lop m b -> actual_len b <= nbytes m + 4 -> room MAX_BUF b ->
exists l1 l0 s l, set_operand (zero_op MAX_BUF) 1 = Ret l1 /\ set_operand (zero_op MAX_BUF) 0 = Ret l0 /\
  inv_loop stack (Z.to_nat (8 * (actual_len a + actual_len b) + 3))
    (mk_inv a b (zero_op MAX_BUF) (zero_op MAX_BUF) l0 l1 (zero_op MAX_BUF) (zero_op MAX_BUF) 0 1) = Ret s /\
  lop (Z.abs l) (inv_last_abs_x s) /\ actual_len (inv_last_abs_x s) <= nbytes m /\
  inv_last_x_sign s = Z.sgn l /\ room MAX_BUF (inv_abs_prod s) /\
  Z.abs l <= m /\ l * (v mod m) mod m = Z.gcd (v mod m) m mod m.
Proof.
intros Hnz a b La Ta Ra Lb Tb Rb. pose proof (Z.mod_pos_bound v m Hp).
assert (room MAX_BUF (zero_op MAX_BUF)) as R by (apply zero_op_room; mlia).
destruct (set_operand_spec (zero_op MAX_BUF) 1 _ R) as (l1 & -> & W1); [done|rewrite nbytes_1; mlia|].
destruct (set_operand_spec (zero_op MAX_BUF) 0 _ R) as (l0 & -> & W0); [done|rewrite nbytes_0; mlia|].
pose proof (nbytes_pos m Hp). pose proof (written_len _ _ _ _ W1) as Hl1. pose proof (written_len _ _ _ _ W0) as Hl0.
rewrite nbytes_1 in Hl1. rewrite nbytes_0 in Hl0. pose proof (lop_range La). pose proof (lop_range Lb).
pose proof (lop_len La). pose proof (lop_len Lb).
destruct (inv_loop_spec stack (v mod m) m (Z.to_nat (8 * (actual_len a + actual_len b) + 3)) (v mod m) m 1 0
  (mk_inv a b (zero_op MAX_BUF) (zero_op MAX_BUF) l0 l1 (zero_op MAX_BUF) (zero_op MAX_BUF) 0 1))
  as (s & l & x & Es & Eu & I); [done|apply euclid_init; lia| |done| |].
- split; simpl; [done|done|done|done|apply W0|lia|apply W1|lia|done|done|].
  repeat (apply Forall_cons; split; [first [done|by eapply written_room]|]). constructor.
- pose proof (euclid_left_bound (v mod m) m (actual_len a) (actual_len b)). lia.
- exists l1, l0, s, l. destruct (euclid_end _ _ _ _ _ Eu) as (_ & Hl & Hc). destruct I as [_ _ _ _ _ _ Ll Tl _ Sl Rs].
  repeat (split; [done|]). split; [|done]. repeat (apply Forall_cons in Rs as [? Rs]). done.
Qed.

Lemma pki_mod_inverse_spec result nr : v mod m <> 0 ->
room nr result -> nbytes m <= nr -> actual_len modulus <= nr ->
exists r x lr,
  pki_mod_inverse stack value modulus result
  = Ret (if Z.gcd v m =? 1 then RC_NO_ERROR else RC_NO_MODULAR_INVERSE, r) /\
  written result x lr r /\ 0 <= x <= m /\ lr <= nbytes m /\ v * x mod m = Z.gcd v m mod m.
Proof.
intros Hnz R Hnr Hnr'. destruct inverse_start as (a & E & La & Ta & Ra).
pose proof (Z.mod_pos_bound v m Hp) as Rm. pose proof (nbytes_pos m Hp).
unfold pki_mod_inverse, passert. rewrite (same_order_lop Hv Hm), (lop_le _ _ Hv).
rewrite local_operand_spec by (done || mlia). cbn [res_bind].
destruct (pki_compare value modulus) as [c|]; [|done]. cbn [res_bind] in E |- *. rewrite E. cbn [res_bind].
assert (room MAX_BUF (zero_op MAX_BUF)) as R0 by (apply zero_op_room; mlia).
destruct (lop_copy (zero_op MAX_BUF) MAX_BUF Hm R0) as (b & -> & W); [lia|]. cbn [res_bind].
rewrite (lop_is_zero La). cbn [res_bind]. rewrite (proj2 (Z.eqb_neq _ 0) Hnz).
rewrite (lop_is_zero (written_lop _ _ _ _ W)). cbn [res_bind]. rewrite (proj2 (Z.eqb_neq m 0)) by lia.
destruct (inverse_loop Hnz a b La Ta Ra (written_lop _ _ _ _ W)) as (l1 & l0 & s & l & -> & -> & Es & Ll & Tl & Sl & Rp & Hl & Hc);
  [rewrite (written_len _ _ _ _ W); done|by eapply written_room|].
cbn [res_bind]. rewrite Es. cbn [res_bind]. rewrite Sl.
rewrite Z.gcd_mod, Z.gcd_comm in Hc by lia.
set (x := if Z.sgn l =? -1 then m - Z.abs l else Z.abs l).
assert (exists r lr, (if Z.sgn l =? -1
    then let* (_, result) := pki_subtract modulus (inv_last_abs_x s) result in Ret result
    else copy_operand (inv_last_abs_x s) result) = Ret r /\ written result x lr r /\ lr <= nbytes m)
  as (r & lr & -> & Wr & Hlr).
{ subst x. destruct (Z.eqb_spec (Z.sgn l) (-1)) as [Hs|Hs].
  - destruct (pki_subtract_spec result nr Hm Ll) as (r & -> & Wr); [lia|done|split; [apply (lop_pos_len Hm Hp)|done]|lia|].
    pose proof (nbytes_mono (m - Z.abs l) m ltac:(lia)). eexists _, _. split; [done|]. split; [exact Wr|]. lia.
  - destruct (lop_copy result nr Ll R) as (r & -> & Wr); [lia|]. eexists _, _. split; [done|]. split; [exact Wr|]. done. }
cbn [res_bind]. pose proof (written_len _ _ _ _ Wr) as Hr.
assert (0 <= x <= m) as Hx by (subst x; destruct (Z.eqb_spec (Z.sgn l) (-1)); lia).
assert (v * x mod m = Z.gcd v m mod m) as Hvx.
{ rewrite <-Hc. rewrite Z.mul_mod_idemp_r, Z.mul_comm by lia. unfold x.
  destruct (Z.eqb_spec (Z.sgn l) (-1)).
  - replace ((m - Z.abs l) * v) with (l * v + v * m) by lia. by rewrite Z.mod_add by lia.
  - by replace (Z.abs l) with l by lia. }
destruct (pki_mod_multiply_spec stack Hst (inv_abs_prod s) MAX_BUF Hv (written_lop _ _ _ _ Wr) Hm Hp)
  as (pr & lp & -> & Wp & _); [lia|done|lia|]. cbn [res_bind].
rewrite (lop_is_one (written_lop _ _ _ _ Wp)). cbn [res_bind]. rewrite Hvx.
assert (Z.gcd v m mod m = Z.gcd v m) as Hg.
{ apply Z.mod_small. split; [apply Z.gcd_nonneg|]. rewrite Z.gcd_comm, <-Z.gcd_mod by lia.
  pose proof (Z.gcd_divide_l (v mod m) m) as D. apply Z.divide_pos_le in D; lia. }
exists r, x, lr. rewrite Hg in *. done.
Qed.
End InverseSpec.

(** ** Properties *)

(** Operands of a modular routine: little-endian, with a modulus that is not
    zero and at most four leading zero bytes. *)
Record mod_args (value operand modulus result : pka_operand) : Prop := mk_mod_args {
  ma_value : lop (operand_val value) value;
  ma_operand : lop (operand_val operand) operand;
  ma_modulus : lop (operand_val modulus) modulus;
  ma_value_lt : operand_val value < operand_val modulus;
  ma_operand_lt : operand_val operand < operand_val modulus;
  ma_value_len : actual_len value <= nbytes (operand_val modulus) + 4;
  ma_operand_len : actual_len operand <= nbytes (operand_val modulus) + 4;
  ma_modulus_len : actual_len modulus <= nbytes (operand_val modulus) + 4;
  ma_size : 2 * nbytes (operand_val modulus) + 16 <= MAX_BUF;
  ma_result : room (nbytes (operand_val modulus) + 4) result;
}.

(** On reduced operands [pki_mod_add] and [pki_mod_multiply] give the sum
    and the product modulo the modulus, and [pki_mod_subtract] the difference,
    except that equal operands are refused as an invalid argument and leave in
    the destination what it held before. *)
Theorem modular_arithmetic_correct stack value operand modulus result :
  stack_ok stack -> mod_args value operand modulus result ->
  (exists r, pki_mod_add stack value operand modulus result = Ret (RC_NO_ERROR, r) /\
     operand_val r = (operand_val value + operand_val operand) mod operand_val modulus) /\
  (exists r, pki_mod_multiply stack value operand modulus result = Ret (RC_NO_ERROR, r) /\
     operand_val r = (operand_val value * operand_val operand) mod operand_val modulus) /\
  (if operand_val value =? operand_val operand
   then pki_mod_subtract stack value operand modulus result = Ret (RC_INVALID_ARGUMENT, result)
   else exists r, pki_mod_subtract stack value operand modulus result = Ret (RC_NO_ERROR, r) /\
     operand_val r = (operand_val value - operand_val operand) mod operand_val modulus).
Proof.
  intros Hst [Lv Lw Lm Hvm Hwm Tv Tw Tm Hs R].
  set (v := operand_val value) in *. set (w := operand_val operand) in *. set (m := operand_val modulus) in *.
  pose proof (lop_range Lv). pose proof (lop_range Lw). pose proof (nbytes_nonneg m). assert (0 < m) as Hm by lia.
  split; [|split].
  - destruct (pki_mod_add_spec stack Hst result (nbytes m + 4) Lv Lw Lm Hm) as (r & E & [L _ _]);
      [lia|lia|mlia|mlia|done|mlia|]. exists r. split; [done|]. rewrite (lop_val _ _ L).
    destruct (Z.ltb_spec (v + w) m); [symmetry; apply Z.mod_small; lia|apply (Z.mod_unique_pos _ _ 1); lia].
  - destruct (pki_mod_multiply_spec stack Hst result (nbytes m + 4) Lv Lw Lm Hm) as (r & lr & E & [L _ _] & _);
      [mlia|done|lia|]. exists r. split; [done|apply L].
  - destruct (Z.eqb_spec v w) as [He|Hne].
    + rewrite <-He in Lw. by apply (pki_mod_subtract_equal stack Hst result Lv Lw Lm).
    + destruct (pki_mod_subtract_spec stack Hst result (nbytes m + 4) Lv Lw Lm) as (r & E & [L _ _]);
        [lia|lia|done|lia|mlia|lia|mlia|done|]. exists r. split; [done|]. rewrite (lop_val _ _ L).
      destruct (Z.ltb_spec w v); [symmetry; apply Z.mod_small; lia|apply (Z.mod_unique_pos _ _ (-1)); lia].
Qed.

Lemma modular_arithmetic_correct_witness :
  exists r, pki_mod_subtract (replicate 1040 77) (mk_operand [5; 0] 2 1 0 false) (mk_operand [9] 1 1 0 false)
      (mk_operand [97; 0] 2 1 0 false) (mk_operand (replicate 8 77) 8 0 0 false) = Ret (RC_NO_ERROR, r) /\
    operand_val r = (5 - 9) mod 97.
Proof.
  refine (proj2 (proj2 (modular_arithmetic_correct (replicate 1040 77) (mk_operand [5; 0] 2 1 0 false)
    (mk_operand [9] 1 1 0 false) (mk_operand [97; 0] 2 1 0 false) (mk_operand (replicate 8 77) 8 0 0 false) _ _))).
  - split; [apply Forall_replicate; unfold is_u8; lia|reflexivity].
  - split; try (split; [split; [repeat constructor; unfold is_u8; lia|simpl; lia]|reflexivity|reflexivity|unfold is_u32; simpl; lia]);
      try (vm_compute; first [reflexivity|discriminate]).
    split; [apply Forall_replicate; unfold is_u8; lia|reflexivity|vm_compute; discriminate].
Defined.

(** C17: the extended Euclidean loop of [pki_mod_inverse] ends; the routine
    reports success exactly when the value has an inverse, and then the result
    is one. A value that is a multiple of the modulus is refused at once and
    leaves the result alone. *)
Theorem mod_inverse_correct stack value modulus result :
  stack_ok stack -> lop (operand_val value) value -> lop (operand_val modulus) modulus ->
  0 < operand_val modulus ->
  actual_len value <= nbytes (operand_val value) + 4 ->
  actual_len modulus <= nbytes (operand_val modulus) + 4 ->
  2 * nbytes (operand_val modulus) + 16 <= MAX_BUF ->
  actual_len value + nbytes (operand_val modulus) + 16 <= MAX_BUF ->
  room (nbytes (operand_val modulus) + 4) result ->
  if operand_val value mod operand_val modulus =? 0
  then pki_mod_inverse stack value modulus result = Ret (RC_NO_MODULAR_INVERSE, result)
  else exists rc r, pki_mod_inverse stack value modulus result = Ret (rc, r) /\
    rc = (if Z.gcd (operand_val value) (operand_val modulus) =? 1
          then RC_NO_ERROR else RC_NO_MODULAR_INVERSE) /\
    (rc = RC_NO_ERROR -> 0 <= operand_val r < operand_val modulus /\
       (operand_val value * operand_val r) mod operand_val modulus = 1).
Proof.
  intros Hst Lv Lm Hp Tv Tm H1 H2 R. set (v := operand_val value) in *. set (m := operand_val modulus) in *.
  destruct (Z.eqb_spec (v mod m) 0) as [Hz|Hnz].
  - by apply (inverse_zero stack Hst Lv Lm Hp).
  - destruct (pki_mod_inverse_spec stack Hst Lv Lm Hp Tv Tm H1 H2 result _ Hnz R) as (r & x & lr & E & [L _ _] & Hx & _ & Hc);
      [lia|done|]. eexists _, r. split; [exact E|]. split; [done|]. rewrite (lop_val _ _ L).
    destruct (Z.eqb_spec (Z.gcd v m) 1) as [Hg|Hg]; [|done]. intros _.
    assert (1 < m) as Hm1 by (destruct (decide (m = 1)) as [->|]; [by rewrite Z.mod_1_r in Hnz|lia]).
    rewrite Hg, (Z.mod_small 1) in Hc by lia. split; [|done].
    destruct (decide (x = m)) as [->|]; [rewrite Z.mod_mul in Hc; lia|lia].
Qed.

Lemma mod_inverse_correct_witness :
  exists rc r, pki_mod_inverse (replicate 1040 77) (mk_operand [5; 0] 2 2 0 false)
      (mk_operand (le_bytes 6 (3 ^ 25)) 6 5 0 false) (mk_operand (replicate 9 77) 9 0 0 false) = Ret (rc, r) /\
    rc = (if Z.gcd 5 (3 ^ 25) =? 1 then RC_NO_ERROR else RC_NO_MODULAR_INVERSE) /\
    (rc = RC_NO_ERROR -> 0 <= operand_val r < 3 ^ 25 /\ (5 * operand_val r) mod 3 ^ 25 = 1).
Proof.
  refine (mod_inverse_correct (replicate 1040 77) (mk_operand [5; 0] 2 2 0 false)
      (mk_operand (le_bytes 6 (3 ^ 25)) 6 5 0 false) (mk_operand (replicate 9 77) 9 0 0 false) _ _ _ _ _ _ _ _ _).
  - split; [apply Forall_replicate; unfold is_u8; lia|reflexivity].
  - split; [split; [repeat constructor; unfold is_u8; lia|simpl; lia]|reflexivity|reflexivity|unfold is_u32; simpl; lia].
  - split; [split; [apply le_bytes_ok|vm_compute; split; discriminate]|reflexivity|reflexivity|unfold is_u32; simpl; lia].
  - reflexivity.
  - vm_compute. discriminate.
  - vm_compute. discriminate.
  - vm_compute. discriminate.
  - vm_compute. discriminate.
  - split; [apply Forall_replicate; unfold is_u8; lia|reflexivity|vm_compute; discriminate].
Defined.

(** The difference of equal numbers keeps what was in the result: 5 - 5 modulo
    97 is left as 42. *)
Example mod_subtract_stale :
  exists r, pki_mod_subtract (replicate 1040 0) (mk_operand [5] 1 1 0 false) (mk_operand [5] 1 1 0 false)
      (mk_operand [97] 1 1 0 false) (mk_operand [42] 1 1 0 false) = Ret (RC_INVALID_ARGUMENT, r) /\
    operand_val r = 42.
Proof. eexists. split; vm_compute; reflexivity. Qed.
