(* ===== verification/BignumEcc.v ===== *)
(** * Elliptic curves and ECDSA in software
      (bluefield_pka_benchmark/.../pka_helper.c)

    Doubling, addition and scalar multiplication of points in affine
    coordinates and the ECDSA signature the benchmark compares with that of the
    accelerator, on the modular routines of BignumMod.v. The theorems state
    them against the affine formulas of the curve. *)

From S2P Require Import Prelude Operand Bignum BignumMod.
Local Open Scope res_scope.

Section Routines.
Context (stack : bytes).

(** ** Points *)

Record ecc_point := mk_point { pt_x : pka_operand; pt_y : pka_operand }.
Record ecc_curve := mk_curve { curve_p : pka_operand; curve_a : pka_operand; curve_b : pka_operand }.

Definition init_ecc_point (n : Z) (be : bool) : res ecc_point :=
let* x := local_operand stack n be in let* y := local_operand stack n be in Ret (mk_point x y).
Definition copy_ecc_point (original copy : ecc_point) : res ecc_point :=
let* x := copy_operand (pt_x original) (pt_x copy) in
let* y := copy_operand (pt_y original) (pt_y copy) in Ret (mk_point x y).
Definition adjust_point (pt : ecc_point) : res ecc_point :=
let* x := adjust_actual_len (pt_x pt) in
let* y := adjust_actual_len (pt_y pt) in Ret (mk_point x y).

(** *** Points and curves from byte strings

  The buffers of [malloc_ecc_point] are cleared by [init_operand]; a point is
  not checked against its curve. *)
Definition malloc_ecc_point (x_len y_len : Z) (be : bool) : res ecc_point :=
let* x := init_operand (zeros (Z.to_nat x_len)) x_len be in
let* y := init_operand (zeros (Z.to_nat y_len)) y_len be in Ret (mk_point x y).
Definition make_ecc_curve (p : bytes) (p_len : Z) (a : bytes) (a_len : Z) (b : bytes) (b_len : Z)
  (be : bool) : res ecc_curve :=
let* p := make_operand_buf (operand0 <| big_endian := be |>) p p_len in
let* a := make_operand_buf (operand0 <| big_endian := be |>) a a_len in
let* b := make_operand_buf (operand0 <| big_endian := be |>) b b_len in
Ret (mk_curve p a b).
Definition make_ecc_point (x : bytes) (x_len : Z) (y : bytes) (y_len : Z) (be : bool)
  : res ecc_point :=
let* x := make_operand_buf (operand0 <| big_endian := be |>) x x_len in
let* y := make_operand_buf (operand0 <| big_endian := be |>) y y_len in
Ret (mk_point x y).

Definition curve_order_ok (curve : ecc_curve) (ops : list pka_operand) : bool :=
forallb (same_order (curve_p curve)) (curve_a curve :: curve_b curve :: ops).

(** The result codes of the modular routines are ignored. *)
Definition ecc_double (curve : ecc_curve) (pointA result : ecc_point)
  : res (pka_result_code * ecc_point) :=
let p := curve_p curve in
passert (curve_order_ok curve [pt_x pointA; pt_y pointA])
(let* t := local_operand stack MAX_ECC_BUF (big_endian p) in
 let* (_, x_squared) := pki_mod_multiply stack (pt_x pointA) (pt_x pointA) p t in
 let* (_, temp2) := pki_mod_add stack x_squared x_squared p t in
 let* (_, temp3) := pki_mod_add stack temp2 x_squared p t in
 let* (_, plus_a) := pki_mod_add stack temp3 (curve_a curve) p t in
 let* (_, dbl_y) := pki_mod_add stack (pt_y pointA) (pt_y pointA) p t in
 let* (_, dbl_y_inv) := pki_mod_inverse stack dbl_y p t in
 let* (_, slope) := pki_mod_multiply stack plus_a dbl_y_inv p t in
 let* (_, s_squared) := pki_mod_multiply stack slope slope p t in
 let* (_, dbl_x) := pki_mod_add stack (pt_x pointA) (pt_x pointA) p t in
 let* (_, x) := pki_mod_subtract stack s_squared dbl_x p (pt_x result) in
 let* (_, ac_xdiff) := pki_mod_subtract stack (pt_x pointA) x p t in
 let* (_, product) := pki_mod_multiply stack slope ac_xdiff p t in
 let* (_, y) := pki_mod_subtract stack product (pt_y pointA) p (pt_y result) in
 Ret (RC_NO_ERROR, mk_point x y)).

Definition pki_ecc_add (curve : ecc_curve) (pointA pointB result_pt : ecc_point)
  : res (pka_result_code * ecc_point) :=
let p := curve_p curve in
passert (curve_order_ok curve [pt_x pointA; pt_y pointA; pt_x pointB; pt_y pointB])
(let* t := local_operand stack MAX_ECC_BUF (big_endian p) in
 let* (_, ab_xdiff) := pki_mod_subtract stack (pt_x pointA) (pt_x pointB) p t in
 let* (_, ab_ydiff) := pki_mod_subtract stack (pt_y pointA) (pt_y pointB) p t in
 let* zx := is_zero ab_xdiff in
 let* zy := is_zero ab_ydiff in
 if zx && zy then ecc_double curve pointA result_pt
 else if zx || zy then Ret (RC_INTERMEDIATE_PAI, result_pt) else
 let* (_, ab_xdiff_inv) := pki_mod_inverse stack ab_xdiff p t in
 let* (_, slope) := pki_mod_multiply stack ab_ydiff ab_xdiff_inv p t in
 let* (_, s_squared) := pki_mod_multiply stack slope slope p t in
 let* (_, ab_xsum) := pki_mod_add stack (pt_x pointA) (pt_x pointB) p t in
 let* (_, x) := pki_mod_subtract stack s_squared ab_xsum p (pt_x result_pt) in
 let* (_, ac_xdiff) := pki_mod_subtract stack (pt_x pointA) x p t in
 let* (_, product) := pki_mod_multiply stack slope ac_xdiff p t in
 let* (_, y) := pki_mod_subtract stack product (pt_y pointA) p (pt_y result_pt) in
 let* pt := adjust_point (mk_point x y) in
 Ret (RC_NO_ERROR, pt)).

(** One bit of the multiplier: [result_is_0] and the four points. *)
Record mult_state := mk_mult {
result_is_0 : bool;
m_result : ecc_point;
m_new_result : ecc_point;
m_base : ecc_point;
m_new_base : ecc_point;
}.
Definition mult_step (curve : ecc_curve) (multiplier : pka_operand) (mult_bit_idx : nat)
  (s : mult_state) : res mult_state :=
let* bit := get_bit multiplier (Z.of_nat mult_bit_idx) in
let* s :=
  (if negb (bit =? 0) then
     if result_is_0 s then
       let* r := copy_ecc_point (m_base s) (m_result s) in
       Ret (s <| m_result := r |> <| result_is_0 := false |>)
     else
       let* (_, nr) := pki_ecc_add curve (m_result s) (m_base s) (m_new_result s) in
       let* r := copy_ecc_point nr (m_result s) in
       Ret (s <| m_new_result := nr |> <| m_result := r |>)
   else Ret s) in
let* (_, nb) := ecc_double curve (m_base s) (m_new_base s) in
let* b := copy_ecc_point nb (m_base s) in
Ret (s <| m_new_base := nb |> <| m_base := b |>).

Definition pki_ecc_multiply (curve : ecc_curve) (pointA : ecc_point) (multiplier : pka_operand)
  (result_point : ecc_point) : res (pka_result_code * ecc_point) :=
let be := big_endian (curve_p curve) in
passert (curve_order_ok curve [pt_x pointA; pt_y pointA; multiplier])
(let* pt := init_ecc_point MAX_ECC_BUF be in
 let* base_pt := copy_ecc_point pointA pt in
 let* mult_bit_len := operand_bit_len multiplier in
 if mult_bit_len <? 2 then Ret (RC_OPERAND_VALUE_ERR, result_point) else
 let* s := for_loop (Z.to_nat mult_bit_len) 0 (mult_step curve multiplier)
             (mk_mult true pt pt base_pt pt) in
 let* result_point := copy_ecc_point (m_result s) result_point in
 let* result_point := adjust_point result_point in
 Ret (RC_NO_ERROR, result_point)).

(** ** ECDSA *)

Record dsa_signature := mk_sig { sig_r : pka_operand; sig_s : pka_operand }.

Definition pki_ecdsa_generate (curve : ecc_curve) (base_pt : ecc_point)
  (base_pt_order private_key hash k : pka_operand) (signature_result : dsa_signature)
  : res (pka_result_code * dsa_signature) :=
passert (curve_order_ok curve [pt_x base_pt; pt_y base_pt; base_pt_order; private_key] &&
         same_order hash private_key && same_order k hash)
(let be := big_endian (curve_p curve) in
 let* t := local_operand stack MAX_ECC_BUF be in
 let* kG := init_ecc_point MAX_ECC_BUF be in
 let* (_, k_inv) := pki_mod_inverse stack k base_pt_order t in
 let* (_, kG) := pki_ecc_multiply curve base_pt k kG in
 let* (_, r) := pki_modulo stack (pt_x kG) base_pt_order t in
 let* (_, product) := pki_mod_multiply stack private_key r base_pt_order t in
 let* (_, sum) := pki_mod_add stack hash product base_pt_order t in
 let* (_, s) := pki_mod_multiply stack k_inv sum base_pt_order t in
 let* sr := copy_operand r (sig_r signature_result) in
 let* ss := copy_operand s (sig_s signature_result) in
 let* sr := adjust_actual_len sr in
 let* ss := adjust_actual_len ss in
 Ret (RC_NO_ERROR, mk_sig sr ss)).

(** [malloc_dsa_signature]: the two buffers are cleared by [init_operand]. *)
Definition malloc_dsa_signature (r_len s_len : Z) (be : bool) : res dsa_signature :=
let* r := local_operand stack r_len be in let* s := local_operand stack s_len be in Ret (mk_sig r s).

(** [sw_add] and [sw_ecdsa_gen]; [ring_order] is [pka_get_rings_byte_order]. *)
Definition sw_add (ring_order : bool) (value addend : pka_operand) : res (option pka_operand) :=
if negb (eqb (big_endian value) ring_order) || negb (eqb (big_endian addend) ring_order)
then Ret None else
let result_byte_len := Z.max (actual_len value) (actual_len addend) + 1 in
let* (rc, result) := pki_add value addend
  ((malloc_operand result_byte_len) <| big_endian := ring_order |>) in
Ret (match rc with RC_NO_ERROR => Some result | _ => None end).

Definition sw_ecdsa_gen (ring_order : bool) (curve : ecc_curve) (base_pt : ecc_point)
  (base_pt_order private_key hash k : pka_operand) : res (option dsa_signature) :=
let* signature := malloc_dsa_signature MAX_ECC_BUF MAX_ECC_BUF ring_order in
let* (rc, signature) :=
  pki_ecdsa_generate curve base_pt base_pt_order private_key hash k signature in
Ret (match rc with RC_NO_ERROR => Some signature | _ => None end).

End Routines.

(** ** Field elements

    Operands that hold a number up to the prime [P], with at most four bytes to
    spare, and destinations of the size of the local arrays. *)

Section Field.
Context (stack : bytes) (Hst : stack_ok stack).
Context (P : Z) (p : pka_operand) (Hp : lop P p) (HP : 0 < P).
Context (Tp : actual_len p <= nbytes P + 4) (Hsize : nbytes P + 4 <= MAX_ECC_BUF).

Record fe (v : Z) (op : pka_operand) : Prop := mk_fe {
fe_lop : lop v op;
fe_range : 0 <= v <= P;
fe_len : actual_len op <= nbytes P + 4;
}.
Record fe_dest (v : Z) (op : pka_operand) : Prop := mk_fe_dest {
dest_fe : fe v op;
dest_room : room MAX_ECC_BUF op;
dest_adj : adjustable op;
}.

(** What the routines compute: a sum reduced once, a difference that leaves the
  old value [d] of its destination when the operands are equal. *)
Definition addz (u w : Z) : Z := if u + w <? P then u + w else u + w - P.
Definition subz (u w d : Z) : Z := if u =? w then d else if w <? u then u - w else P - (w - u).

Abbreviation tmp := (zero_op MAX_ECC_BUF).

Lemma fe_dest_tmp : fe_dest 0 tmp.
Proof.
split; [split; [apply zero_op_lop; mlia|lia|simpl; pose proof (nbytes_nonneg P); lia]|..].
- apply zero_op_room. mlia.
- apply zero_op_adjustable. mlia.
Qed.
Lemma tmp_room : room MAX_ECC_BUF tmp.
Proof. apply fe_dest_tmp. Qed.
Lemma local_tmp : local_operand stack MAX_ECC_BUF false = Ret tmp.
Proof. apply local_operand_spec; [done|mlia]. Qed.

Lemma written_fe {op v len op'} : written op v len op' -> 0 <= v <= P -> len <= nbytes P + 4 -> fe v op'.
Proof. intros [L A _] Hv Hl. split; [done|done|lia]. Qed.

Lemma fe_mul {u w x y} r : fe u x -> fe w y -> room MAX_ECC_BUF r ->
exists r', pki_mod_multiply stack x y p r = Ret (RC_NO_ERROR, r') /\ fe (u * w mod P) r'.
Proof.
intros [Lx Rx Tx] [Ly Ry Ty] R. pose proof (lop_nbytes Hp).
destruct (pki_mod_multiply_spec stack Hst r MAX_ECC_BUF Lx Ly Hp HP) as (r' & lr & E & W & Hl); [mlia|done|lia|].
exists r'. split; [done|]. apply (written_fe W); [|lia]. pose proof (Z.mod_pos_bound (u * w) P HP). lia.
Qed.

(** The sum has no leading zeros. *)
Lemma fe_add {u w x y} r : fe u x -> fe w y -> room MAX_ECC_BUF r ->
exists r', pki_mod_add stack x y p r = Ret (RC_NO_ERROR, r') /\ fe (addz u w) r' /\
  actual_len r' <= nbytes (addz u w) + 4.
Proof.
intros [Lx Rx Tx] [Ly Ry Ty] R. pose proof (nbytes_nonneg P).
destruct (pki_mod_add_spec stack Hst r MAX_ECC_BUF Lx Ly Hp HP) as (r' & E & W); [lia|lia|mlia|mlia|done|mlia|].
cbv zeta in W. change (if u + w <? P then u + w else u + w - P) with (addz u w) in W.
assert (0 <= addz u w <= P) as Ha by (unfold addz; destruct (Z.ltb_spec (u + w) P); lia).
pose proof (nbytes_mono (addz u w) P ltac:(lia)). pose proof (nbytes_nonneg (addz u w)).
exists r'. split; [done|]. split; [apply (written_fe W); [done|lia]|]. rewrite (written_len _ _ _ _ W). lia.
Qed.

Lemma subz_range u w d : 0 <= u <= P -> 0 <= w <= P -> 0 <= d <= P -> 0 <= subz u w d <= P.
Proof. intros. unfold subz. destruct (Z.eqb_spec u w), (Z.ltb_spec w u); lia. Qed.

Lemma fe_sub {u w d x y} r : fe u x -> fe w y -> fe_dest d r ->
exists rc r', pki_mod_subtract stack x y p r = Ret (rc, r') /\ fe_dest (subz u w d) r' /\
  (u = w /\ r' = r \/ actual_len r' <= nbytes (subz u w d) + 4).
Proof.
intros [Lx Rx Tx] [Ly Ry Ty] [Fd R Ad]. pose proof (nbytes_nonneg P).
pose proof (subz_range u w d Rx Ry (fe_range _ _ Fd)) as Hs. unfold subz in *.
destruct (Z.eqb_spec u w) as [<-|Hne].
- rewrite (pki_mod_subtract_equal stack Hst r Lx Ly Hp). eexists _, _. split; [done|]. split; [done|by left].
- destruct (pki_mod_subtract_spec stack Hst r MAX_ECC_BUF Lx Ly Hp Rx Ry Hne) as (r' & E & W); [lia|mlia|lia|mlia|done|].
  cbv zeta in W. set (z := if w <? u then u - w else P - (w - u)) in *.
  pose proof (nbytes_mono z P ltac:(lia)). pose proof (nbytes_nonneg z). pose proof (written_len _ _ _ _ W).
  eexists _, _. split; [done|]. split; [split|right; lia].
  + apply (written_fe W); lia.
  + by eapply written_room.
  + left. lia.
Qed.
(** Into a fresh operand the difference is the one modulo [P]. *)
Lemma fe_sub_tmp {u w x y} : fe u x -> fe w y ->
exists rc r', pki_mod_subtract stack x y p tmp = Ret (rc, r') /\ fe (subz u w 0) r' /\
  actual_len r' <= nbytes (subz u w 0) + 4.
Proof.
intros Hx Hy. destruct (fe_sub tmp Hx Hy fe_dest_tmp) as (rc & r' & E & D & Ho).
exists rc, r'. split; [done|]. split; [apply D|]. destruct Ho as [[-> ->]|Hl]; [|done].
simpl. pose proof (nbytes_nonneg (subz w w 0)). lia.
Qed.

Lemma fe_inverse {u x} : fe u x -> actual_len x <= nbytes u + 4 ->
exists rc r' i, pki_mod_inverse stack x p tmp = Ret (rc, r') /\ fe i r' /\
  (Z.gcd u P = 1 -> u * i mod P = 1 mod P).
Proof.
intros [Lx Rx Tx] Tx'. pose proof (nbytes_nonneg P). pose proof (lop_nbytes Hp).
destruct (decide (u mod P = 0)) as [Hz|Hnz].
- rewrite (inverse_zero stack Hst Lx Hp HP) by (done || mlia). eexists _, _, 0. split; [done|].
  split; [apply fe_dest_tmp|]. intros Hg. rewrite Z.gcd_comm, <-Z.gcd_mod, Hz, Z.gcd_0_l in Hg by lia.
  replace P with 1 by lia. by rewrite !Z.mod_1_r.
- destruct (pki_mod_inverse_spec stack Hst Lx Hp HP) with (result := tmp) (nr := MAX_ECC_BUF)
    as (r' & i & lr & E & W & Hi & Hl & Hc); [done|done|mlia|mlia|done|apply tmp_room|lia|lia|].
  eexists _, r', i. split; [exact E|]. split; [apply (written_fe W); lia|]. intros Hg. by rewrite Hc, Hg.
Qed.

(** ** Points, as the routines compute them *)

Record pt_fe (q : Z * Z) (pt : ecc_point) : Prop := mk_pt_fe {
pt_fe_x : fe (fst q) (pt_x pt);
pt_fe_y : fe (snd q) (pt_y pt);
}.
Record pt_dest (q : Z * Z) (pt : ecc_point) : Prop := mk_pt_dest {
pt_dest_x : fe_dest (fst q) (pt_x pt);
pt_dest_y : fe_dest (snd q) (pt_y pt);
}.
Lemma pt_dest_fe q pt : pt_dest q pt -> pt_fe q pt.
Proof. intros [Hx Hy]. split; [apply Hx|apply Hy]. Qed.

Context (curve : ecc_curve) (Hcp : curve_p curve = p) (a : Z).
Context (Ha : fe a (curve_a curve)) (Hcb : big_endian (curve_b curve) = false).

Lemma curve_order_lop ops : Forall (fun op => big_endian op = false) ops -> curve_order_ok curve ops = true.
Proof.
intros H. unfold curve_order_ok. rewrite Hcp. cbn [forallb]. unfold same_order at 1 2.
rewrite (lop_le _ _ Hp), (lop_le _ _ (fe_lop _ _ Ha)), Hcb. cbn [eqb andb].
induction H as [|op ops Ho H IH]; [done|]. cbn [forallb]. unfold same_order at 1.
by rewrite (lop_le _ _ Hp), Ho.
Qed.
Lemma fe_le {v op} : fe v op -> big_endian op = false.
Proof. intros H. apply H. Qed.

(** Slope, and the third point of a line: [i] is what the inverse returned. *)
Definition third_x (sl s d : Z) : Z := subz (sl * sl mod P) s d.
Definition third_y (sl x1 y1 x3 d : Z) : Z := subz (sl * subz x1 x3 0 mod P) y1 d.
Definition dbl_slope (x i : Z) : Z :=
addz (addz (addz (x * x mod P) (x * x mod P)) (x * x mod P)) a * i mod P.

(** The last steps of doubling and addition. *)
Lemma third_point_spec {sl sx x1 y1 dx dy slope xsum px py rx ry} :
fe sl slope -> fe sx xsum -> fe x1 px -> fe y1 py -> fe_dest dx rx -> fe_dest dy ry ->
exists ss x xd pr y rc1 rc2 rc3 rc4 rc5,
  pki_mod_multiply stack slope slope p tmp = Ret (rc1, ss) /\
  pki_mod_subtract stack ss xsum p rx = Ret (rc2, x) /\
  pki_mod_subtract stack px x p tmp = Ret (rc3, xd) /\
  pki_mod_multiply stack slope xd p tmp = Ret (rc4, pr) /\
  pki_mod_subtract stack pr py p ry = Ret (rc5, y) /\
  fe_dest (third_x sl sx dx) x /\ fe_dest (third_y sl x1 y1 (third_x sl sx dx) dy) y.
Proof.
intros Hsl Hsx Hx Hy Hdx Hdy.
destruct (fe_mul tmp Hsl Hsl tmp_room) as (ss & E1 & Hss).
destruct (fe_sub rx Hss Hsx Hdx) as (rc2 & x & E2 & Dx & _).
destruct (fe_sub_tmp Hx (dest_fe _ _ Dx)) as (rc3 & xd & E3 & Hxd & _).
destruct (fe_mul tmp Hsl Hxd tmp_room) as (pr & E4 & Hpr).
destruct (fe_sub ry Hpr Hy Hdy) as (rc5 & y & E5 & Dy & _).
exists ss, x, xd, pr, y. eexists _, _, _, _, _. done.
Qed.

Lemma ecc_double_run {q d pointA result} : pt_fe q pointA -> pt_dest d result ->
exists pt i, ecc_double stack curve pointA result = Ret (RC_NO_ERROR, pt) /\
  (Z.gcd (addz (snd q) (snd q)) P = 1 -> addz (snd q) (snd q) * i mod P = 1 mod P) /\
  let sl := dbl_slope (fst q) i in
  let x3 := third_x sl (addz (fst q) (fst q)) (fst d) in
  pt_dest (x3, third_y sl (fst q) (snd q) x3 (snd d)) pt.
Proof.
intros [Hx Hy] [Dx Dy]. unfold ecc_double, passert.
rewrite curve_order_lop by (repeat (apply Forall_cons; split; [by eapply fe_le|]); constructor).
rewrite Hcp, (lop_le _ _ Hp), local_tmp. cbn [res_bind].
destruct (fe_mul tmp Hx Hx tmp_room) as (xx & -> & Hxx). cbn [res_bind].
destruct (fe_add tmp Hxx Hxx tmp_room) as (t2 & -> & Ht2 & _). cbn [res_bind].
destruct (fe_add tmp Ht2 Hxx tmp_room) as (t3 & -> & Ht3 & _). cbn [res_bind].
destruct (fe_add tmp Ht3 Ha tmp_room) as (pa & -> & Hpa & _). cbn [res_bind].
destruct (fe_add tmp Hy Hy tmp_room) as (dy & -> & Hdy & Tdy). cbn [res_bind].
destruct (fe_inverse Hdy Tdy) as (rc & iy & i & -> & Hi & Hinv). cbn [res_bind].
destruct (fe_mul tmp Hpa Hi tmp_room) as (sl & -> & Hsl). cbn [res_bind].
destruct (fe_add tmp Hx Hx tmp_room) as (dx & Ed & Hdx & _).
destruct (third_point_spec Hsl Hdx Hx Hy Dx Dy)
  as (ss & x & xd & pr & y & rc1 & rc2 & rc3 & rc4 & rc5 & -> & E2 & E3 & E4 & E5 & Fx & Fy).
cbn [res_bind]. rewrite Ed. cbn [res_bind]. rewrite E2. cbn [res_bind]. rewrite E3. cbn [res_bind].
rewrite E4. cbn [res_bind]. rewrite E5. cbn [res_bind].
eexists _, i. split; [done|]. split; [done|]. by split.
Qed.
Lemma adjust_dest {v op} : fe_dest v op ->
exists op', adjust_actual_len op = Ret op' /\ fe_dest v op' /\ actual_len op' = Z.max 1 (nbytes v).
Proof.
intros [[L R T] Rm Ad]. destruct (adjust_written L Ad) as (op' & E & W); [mlia|].
pose proof (nbytes_mono v P ltac:(lia)). pose proof (nbytes_nonneg v). pose proof (written_len _ _ _ _ W).
exists op'. split; [done|]. split; [|done]. split; [apply (written_fe W); lia|by eapply written_room|left; lia].
Qed.
Lemma adjust_point_dest {q pt} : pt_dest q pt ->
exists pt', adjust_point pt = Ret pt' /\ pt_dest q pt' /\ actual_len (pt_x pt') = Z.max 1 (nbytes (fst q)).
Proof.
intros [Dx Dy]. destruct (adjust_dest Dx) as (x & Ex & Fx & Ax). destruct (adjust_dest Dy) as (y & Ey & Fy & _).
exists (mk_point x y). unfold adjust_point. rewrite Ex. cbn [res_bind]. rewrite Ey. by split.
Qed.

Lemma copy_fe {v op} c : fe v op -> room MAX_ECC_BUF c ->
exists c', copy_operand op c = Ret c' /\ fe v c' /\ room MAX_ECC_BUF c' /\
  (buf_ptr c !! 0%nat = Some 0 -> adjustable c').
Proof.
intros [L R T] Rm. destruct (lop_copy c _ L Rm) as (c' & E & W); [lia|].
exists c'. split; [done|]. split; [by apply (written_fe W)|]. split; [by eapply written_room|]. intros Hz.
destruct (Z.lt_ge_cases 0 (actual_len op)) as [Hp0|Hp0]; [left; by rewrite (written_len _ _ _ _ W)|right].
pose proof (lop_len L). unfold copy_operand, memcpy in E. replace (actual_len op) with 0 in E by lia.
rewrite !(proj2 (Z.leb_le _ _)) in E by lia. cbn [andb res_bind] in E. injection E as <-. done.
Qed.
Lemma copy_point {q pt} c : pt_fe q pt -> room MAX_ECC_BUF (pt_x c) -> room MAX_ECC_BUF (pt_y c) ->
exists c', copy_ecc_point pt c = Ret c' /\ pt_fe q c' /\ room MAX_ECC_BUF (pt_x c') /\ room MAX_ECC_BUF (pt_y c') /\
  (buf_ptr (pt_x c) !! 0%nat = Some 0 -> buf_ptr (pt_y c) !! 0%nat = Some 0 -> pt_dest q c').
Proof.
intros [Fx Fy] Rx Ry. destruct (copy_fe _ Fx Rx) as (x & Ex & Hx & Rx' & Ax).
destruct (copy_fe _ Fy Ry) as (y & Ey & Hy & Ry' & Ay).
exists (mk_point x y). unfold copy_ecc_point. rewrite Ex. cbn [res_bind]. rewrite Ey.
split; [done|]. split; [by split|]. split; [done|]. split; [done|]. intros. split; split; auto.
Qed.

Lemma pki_ecc_add_run {q1 q2 d pointA pointB result} :
pt_fe q1 pointA -> pt_fe q2 pointB -> pt_dest d result ->
exists rc pt, pki_ecc_add stack curve pointA pointB result = Ret (rc, pt) /\ (exists q, pt_dest q pt) /\
  let xd := subz (fst q1) (fst q2) 0 in
  let yd := subz (snd q1) (snd q2) 0 in
  (xd = 0 /\ yd <> 0 \/ xd <> 0 /\ yd = 0 -> rc = RC_INTERMEDIATE_PAI /\ pt = result) /\
  (xd = 0 -> yd = 0 -> ecc_double stack curve pointA result = Ret (rc, pt)) /\
  (xd <> 0 -> yd <> 0 -> rc = RC_NO_ERROR /\
     exists i, (Z.gcd xd P = 1 -> xd * i mod P = 1 mod P) /\
       let sl := yd * i mod P in
       let x3 := third_x sl (addz (fst q1) (fst q2)) (fst d) in
       pt_dest (x3, third_y sl (fst q1) (snd q1) x3 (snd d)) pt).
Proof.
intros [Hx1 Hy1] [Hx2 Hy2] D. cbv zeta. unfold pki_ecc_add, passert.
rewrite curve_order_lop by (repeat (apply Forall_cons; split; [by eapply fe_le|]); constructor).
rewrite Hcp, (lop_le _ _ Hp), local_tmp. cbn [res_bind].
destruct (fe_sub_tmp Hx1 Hx2) as (rcx & xd & -> & Hxd & Txd). cbn [res_bind].
destruct (fe_sub_tmp Hy1 Hy2) as (rcy & yd & -> & Hyd & _). cbn [res_bind].
rewrite (lop_is_zero (fe_lop _ _ Hxd)), (lop_is_zero (fe_lop _ _ Hyd)). cbn [res_bind].
set (vx := subz (fst q1) (fst q2) 0) in *. set (vy := subz (snd q1) (snd q2) 0) in *.
destruct (Z.eqb_spec vx 0) as [Ex|Nx], (Z.eqb_spec vy 0) as [Ey|Ny]; cbn [andb orb].
- destruct (ecc_double_run (mk_pt_fe q1 pointA Hx1 Hy1) D) as (pt & i & E & _ & Dp).
  exists RC_NO_ERROR, pt. split; [done|]. split; [by eexists|]. split; [intros [[? ?]|[? ?]]; done|]. split; done.
- eexists _, result. split; [done|]. split; [by eexists|]. split; [done|]. split; done.
- eexists _, result. split; [done|]. split; [by eexists|]. split; [done|]. split; done.
- destruct (fe_inverse Hxd Txd) as (rc & ix & i & -> & Hi & Hinv). cbn [res_bind].
  destruct (fe_mul tmp Hyd Hi tmp_room) as (sl & -> & Hsl). cbn [res_bind].
  destruct (fe_add tmp Hx1 Hx2 tmp_room) as (sx & Ed & Hsx & _). destruct D as [Dx Dy].
  destruct (third_point_spec Hsl Hsx Hx1 Hy1 Dx Dy)
    as (ss & x & xd' & pr & y & rc1 & rc2 & rc3 & rc4 & rc5 & -> & E2 & E3 & E4 & E5 & Fx & Fy).
  cbn [res_bind]. rewrite Ed. cbn [res_bind]. rewrite E2. cbn [res_bind]. rewrite E3. cbn [res_bind].
  rewrite E4. cbn [res_bind]. rewrite E5. cbn [res_bind].
  destruct (adjust_point_dest (mk_pt_dest (_, _) (mk_point x y) Fx Fy)) as (pt & -> & Dp & _). cbn [res_bind].
  eexists _, pt. split; [done|]. split; [by eexists|]. split; [intros [[? ?]|[? ?]]; done|]. split; [done|].
  intros _ _. split; [done|]. by exists i.
Qed.
End Field.

(** ** The curve

    The affine formulas of doubling and addition on [y^2 = x^3 + a x + b] over
    the integers modulo [P], where the slope exists. *)

Definition ec_third (P sl : Z) (q1 : Z * Z) (x2 : Z) (q3 : Z * Z) : Prop :=
  fst q3 = (sl * sl - fst q1 - x2) mod P /\ snd q3 = (sl * (fst q1 - fst q3) - snd q1) mod P.
Definition ec_dbl (P a : Z) (q q3 : Z * Z) : Prop :=
  Z.gcd (2 * snd q) P = 1 /\
  exists sl, (sl * (2 * snd q)) mod P = (3 * fst q * fst q + a) mod P /\ ec_third P sl q (fst q) q3.
Definition ec_add (P : Z) (q1 q2 q3 : Z * Z) : Prop :=
  Z.gcd (fst q1 - fst q2) P = 1 /\
  exists sl, (sl * (fst q1 - fst q2)) mod P = (snd q1 - snd q2) mod P /\ ec_third P sl q1 (fst q2) q3.

(** Neither coordinate is zero: a zero difference leaves an old value behind. *)
Definition regular (q : Z * Z) : Prop := fst q <> 0 /\ snd q <> 0.
Definition reduced (P : Z) (q : Z * Z) : Prop := 0 <= fst q < P /\ 0 <= snd q < P.

(** Double-and-add over the bits of the multiplier, the lowest first; the
    doubling after the last bit has no use. *)
Inductive ec_acc (P : Z) : bool -> Z * Z -> option (Z * Z) -> option (Z * Z) -> Prop :=
| acc_zero base acc : ec_acc P false base acc acc
| acc_first base : ec_acc P true base None (Some base)
| acc_add base r r' : ec_add P r base r' -> regular r' -> snd r <> snd base ->
    ec_acc P true base (Some r) (Some r').
Inductive ec_mul (P a : Z) : list bool -> Z * Z -> option (Z * Z) -> Z * Z -> Prop :=
| ec_mul_last bit base acc out : ec_acc P bit base acc (Some out) -> ec_mul P a [bit] base acc out
| ec_mul_next bit bits base base' acc acc' out :
    ec_acc P bit base acc acc' -> ec_dbl P a base base' -> regular base' ->
    ec_mul P a bits base' acc' out -> ec_mul P a (bit :: bits) base acc out.

Definition bits_of (k : Z) (i n : nat) : list bool := (fun j => Z.testbit k (Z.of_nat j)) <$> seq i n.

(** Congruence modulo [P], for rewriting. *)
Record cong (P u w : Z) : Prop := mk_cong { cong_mod : u mod P = w mod P }.
#[global] Instance cong_equiv P : Equivalence (cong P).
Proof.
  split.
  - intros u. by split.
  - intros u w [H]. by split.
  - intros u w z [H] [H']. split. by rewrite H.
Qed.
#[global] Instance cong_add P : Proper (cong P ==> cong P ==> cong P) Z.add.
Proof. intros u u' [Hu] w w' [Hw]. split. by rewrite Zplus_mod, Hu, Hw, <-Zplus_mod. Qed.
#[global] Instance cong_sub P : Proper (cong P ==> cong P ==> cong P) Z.sub.
Proof. intros u u' [Hu] w w' [Hw]. split. by rewrite Zminus_mod, Hu, Hw, <-Zminus_mod. Qed.
#[global] Instance cong_mul P : Proper (cong P ==> cong P ==> cong P) Z.mul.
Proof. intros u u' [Hu] w w' [Hw]. split. by rewrite Zmult_mod, Hu, Hw, <-Zmult_mod. Qed.

Section Formulas.
Context (P : Z) (HP : 0 < P).
Local Infix "==" := (cong P) (at level 70).

Lemma addz_mod u w : 0 <= u < P -> 0 <= w < P -> addz P u w = (u + w) mod P.
Proof.
intros Hu Hw. unfold addz. destruct (Z.ltb_spec (u + w) P).
- symmetry. apply Z.mod_small. lia.
- apply (Z.mod_unique_pos _ _ 1); lia.
Qed.
Lemma addz_range u w : 0 <= u < P -> 0 <= w < P -> 0 <= addz P u w < P.
Proof. intros Hu Hw. rewrite addz_mod by done. by apply Z.mod_pos_bound. Qed.
Lemma addz_cong u w : 0 <= u < P -> 0 <= w < P -> addz P u w == u + w.
Proof. intros Hu Hw. split. rewrite addz_mod by done. apply Z.mod_mod. lia. Qed.

Lemma subz_mod u w d : 0 <= u < P -> 0 <= w < P -> (u - w) mod P <> 0 \/ d = 0 ->
subz P u w d = (u - w) mod P.
Proof.
intros Hu Hw Hd. unfold subz. destruct (Z.eqb_spec u w) as [->|Hne].
- rewrite Z.sub_diag, Zmod_0_l in *. destruct Hd; done.
- destruct (Z.ltb_spec w u).
  + symmetry. apply Z.mod_small. lia.
  + apply (Z.mod_unique_pos _ _ (-1)); lia.
Qed.

Lemma mod_cong u : u mod P == u.
Proof. split. apply Z.mod_mod. lia. Qed.

(** The slope is the one multiple the inverse gives. *)
Lemma slope_unique sl u i n : u * i == 1 -> sl * u == n -> sl == n * i.
Proof.
intros Hi Hs. transitivity (sl * (u * i)).
- rewrite Hi. by rewrite Z.mul_1_r.
- rewrite Z.mul_assoc. by rewrite Hs.
Qed.

Lemma third_point_correct sl sc q1 x2 s q3 dx dy :
reduced P q1 -> 0 <= s < P -> s == fst q1 + x2 -> sl == sc ->
ec_third P sl q1 x2 q3 -> fst q3 <> 0 \/ dx = 0 -> snd q3 <> 0 \/ dy = 0 ->
third_x P sc s dx = fst q3 /\ third_y P sc (fst q1) (snd q1) (fst q3) dy = snd q3.
Proof.
intros [Hx1 Hy1] Hs Es Esl [Ex Ey] Hdx Hdy.
assert (forall z, 0 <= z mod P < P) as Hm by (intros; by apply Z.mod_pos_bound).
assert ((sc * sc mod P - s) mod P = fst q3) as E3.
{ rewrite Ex. apply cong_mod.
  rewrite (mod_cong (sc * sc)), Es, <-Esl. by replace (sl * sl - (fst q1 + x2)) with (sl * sl - fst q1 - x2) by lia. }
assert (0 <= fst q3 < P) as H3 by (rewrite Ex; apply Hm).
split.
- unfold third_x. rewrite subz_mod; [done|apply Hm|done|]. by rewrite E3.
- unfold third_y. rewrite (subz_mod (fst q1) (fst q3) 0) by (done || by right).
  assert ((sc * ((fst q1 - fst q3) mod P) mod P - snd q1) mod P = snd q3) as E4.
  { rewrite Ey. apply cong_mod.
    rewrite (mod_cong (sc * _)), (mod_cong (fst q1 - fst q3)). by rewrite Esl. }
  rewrite subz_mod; [done|apply Hm|done|]. by rewrite E4.
Qed.

Lemma gcd_mod_l u : Z.gcd (u mod P) P = Z.gcd u P.
Proof. rewrite Z.gcd_mod by lia. apply Z.gcd_comm. Qed.

Lemma dbl_correct a q q3 i dx dy : reduced P q -> 0 <= a < P -> ec_dbl P a q q3 ->
fst q3 <> 0 \/ dx = 0 -> snd q3 <> 0 \/ dy = 0 ->
(Z.gcd (addz P (snd q) (snd q)) P = 1 -> addz P (snd q) (snd q) * i mod P = 1 mod P) ->
let sl := dbl_slope P a (fst q) i in
third_x P sl (addz P (fst q) (fst q)) dx = fst q3 /\
third_y P sl (fst q) (snd q) (fst q3) dy = snd q3.
Proof.
intros Hq Ha (Hg & sl & Hsl & Ht) Hdx Hdy Hi. pose proof Hq as [Hx Hy]. cbv zeta.
assert (forall z, 0 <= z mod P < P) as Hm by (intros; by apply Z.mod_pos_bound).
pose proof (Hm (fst q * fst q)) as Hxx.
pose proof (addz_range _ _ Hxx Hxx) as R2. pose proof (addz_range _ _ R2 Hxx) as R3.
assert (addz P (snd q) (snd q) * i == 1) as Hi'.
{ split. apply Hi. rewrite addz_mod, gcd_mod_l by done. by replace (snd q + snd q) with (2 * snd q) by lia. }
apply (third_point_correct sl _ q (fst q)); [done|by apply addz_range| |..|done|done|done].
- by apply addz_cong.
- unfold dbl_slope. rewrite (mod_cong (_ * i)). eapply slope_unique; [exact Hi'|].
  rewrite (addz_cong (snd q) (snd q)) by done. rewrite (addz_cong _ a), (addz_cong _ (fst q * fst q mod P)), addz_cong by done.
  rewrite !(mod_cong (fst q * fst q)).
  replace (snd q + snd q) with (2 * snd q) by lia.
  replace (fst q * fst q + fst q * fst q + fst q * fst q + a) with (3 * fst q * fst q + a) by lia. by split.
Qed.

Lemma add_correct q1 q2 q3 i dx dy : reduced P q1 -> reduced P q2 -> ec_add P q1 q2 q3 ->
fst q3 <> 0 \/ dx = 0 -> snd q3 <> 0 \/ dy = 0 ->
(Z.gcd (subz P (fst q1) (fst q2) 0) P = 1 -> subz P (fst q1) (fst q2) 0 * i mod P = 1 mod P) ->
let sl := subz P (snd q1) (snd q2) 0 * i mod P in
third_x P sl (addz P (fst q1) (fst q2)) dx = fst q3 /\
third_y P sl (fst q1) (snd q1) (fst q3) dy = snd q3.
Proof.
intros Hq1 Hq2 (Hg & sl & Hsl & Ht) Hdx Hdy. pose proof Hq1 as [Hx1 Hy1]. pose proof Hq2 as [Hx2 Hy2]. cbv zeta.
rewrite !subz_mod, gcd_mod_l by (done || by right). intros Hi. specialize (Hi Hg).
apply (third_point_correct sl _ q1 (fst q2)); [done|by apply addz_range|by apply addz_cong|..|done|done|done].
rewrite (mod_cong (_ * i)), (mod_cong (snd q1 - snd q2)). apply (slope_unique sl (fst q1 - fst q2)); [|by split].
apply mk_cong in Hi. by rewrite (mod_cong (fst q1 - fst q2)) in Hi.
Qed.
End Formulas.

(** ** Scalar multiplication *)

(** A curve whose prime and coefficients fit the local arrays. *)
Record curve_ok (P a : Z) (curve : ecc_curve) : Prop := mk_curve_ok {
  co_p : lop P (curve_p curve);
  co_pos : 0 < P;
  co_p_len : actual_len (curve_p curve) <= nbytes P + 4;
  co_size : nbytes P + 4 <= MAX_ECC_BUF;
  co_a : fe P a (curve_a curve);
  co_a_lt : a < P;
  co_b : big_endian (curve_b curve) = false;
}.

Lemma get_bit_spec {k op} i : lop k op -> 0 <= i < 8 * actual_len op ->
  get_bit op i = Ret (Z.b2z (Z.testbit k i)).
Proof.
  intros H Hi. unfold get_bit.
  assert (Z.land i 7 = i mod 8) as -> by (apply (Z.land_ones i 3); lia).
  pose proof (Z.div_mod i 8 ltac:(lia)) as Hd. pose proof (Z.mod_pos_bound i 8 ltac:(lia)).
  set (j := i / 8) in *. set (r := i mod 8) in *. rewrite (lop_ld H) by lia. cbn [res_bind]. f_equal.
  assert (forall z, Z.land z 1 = z mod 2) as -> by (intros; apply (Z.land_ones _ 1); lia).
  rewrite Z.shiftr_div_pow2 by lia. rewrite <-Z.testbit_spec' by lia. f_equal. unfold byte_at.
  change 256 with (2 ^ 8) at 2. rewrite Z.mod_pow2_bits_low by lia.
  change 256 with (2 ^ 8). rewrite <-Z.pow_mul_r by lia. rewrite Z.div_pow2_bits by lia. f_equal. lia.
Qed.

Section Mult.
Context (stack : bytes) (Hst : stack_ok stack) (P a : Z) (curve : ecc_curve) (Hc : curve_ok P a curve).

Lemma double_run {q d pointA result} : pt_fe P q pointA -> pt_dest P d result ->
exists pt q', ecc_double stack curve pointA result = Ret (RC_NO_ERROR, pt) /\ pt_dest P q' pt /\
  (forall q3, reduced P q -> ec_dbl P a q q3 -> fst q3 <> 0 \/ fst d = 0 -> snd q3 <> 0 \/ snd d = 0 -> q' = q3).
Proof.
intros Hq Hd. destruct Hc.
edestruct (ecc_double_run stack Hst P (curve_p curve)) as (pt & i & E & Hi & D); [done..|].
exists pt. eexists. split; [exact E|]. split; [exact D|]. intros [x3 y3] Hr He Hx Hy.
destruct (dbl_correct P co_pos0 a q (x3, y3) i (fst d) (snd d)) as [Ex Ey]; [done| |done..|].
{ split; [apply co_a0|done]. }
cbn [fst snd] in *. rewrite Ex, Ey. done.
Qed.

Lemma ec_add_distinct {q1 q2 q3} : 1 < P -> reduced P q1 -> reduced P q2 -> ec_add P q1 q2 q3 ->
subz P (fst q1) (fst q2) 0 <> 0.
Proof.
intros HP [H1 _] [H2 _] [Hg _] Hz. rewrite subz_mod in Hz by (lia || (by right) || apply Hc).
rewrite <-gcd_mod_l, Hz, Z.gcd_0_l in Hg by apply Hc. lia.
Qed.

Lemma add_run {q1 q2 d pointA pointB result} : pt_fe P q1 pointA -> pt_fe P q2 pointB -> pt_dest P d result ->
exists rc pt q', pki_ecc_add stack curve pointA pointB result = Ret (rc, pt) /\ pt_dest P q' pt /\
  (forall q3, 1 < P -> reduced P q1 -> reduced P q2 -> ec_add P q1 q2 q3 -> snd q1 <> snd q2 ->
     fst q3 <> 0 \/ fst d = 0 -> snd q3 <> 0 \/ snd d = 0 -> rc = RC_NO_ERROR /\ q' = q3).
Proof.
intros Hq1 Hq2 Hd. pose proof Hc as [? ? ? ? ? ? ?].
edestruct (pki_ecc_add_run stack Hst P (curve_p curve)) as (rc & pt & E & [q0 D0] & _ & _ & Hgo);
  [done|done|done|done|done|done|done|exact Hq1|exact Hq2|exact Hd|].
set (xd := subz P (fst q1) (fst q2) 0) in *. set (yd := subz P (snd q1) (snd q2) 0) in *.
destruct (decide (xd = 0 \/ yd = 0)) as [Hz|Hnz].
- exists rc, pt, q0. split; [done|]. split; [done|]. intros q3 HP H1 H2 He Hy _ _. exfalso.
  destruct Hz as [Hz|Hz]; [by apply (ec_add_distinct HP H1 H2 He)|]. destruct H1 as [_ H1], H2 as [_ H2].
  unfold yd, subz in Hz. destruct (Z.eqb_spec (snd q1) (snd q2)); [done|]. destruct (Z.ltb_spec (snd q2) (snd q1)); lia.
- destruct Hgo as (-> & i & Hi & D); [tauto|tauto|]. cbv zeta in D.
  exists RC_NO_ERROR, pt. eexists. split; [done|]. split; [exact D|].
  intros [x3 y3] _ H1 H2 He Hy Hx3 Hy3. split; [done|].
  destruct (add_correct P co_pos0 q1 q2 (x3, y3) i (fst d) (snd d)) as [Ex Ey]; [done..|].
  cbn [fst snd] in *. fold yd in Ex, Ey. rewrite Ex, Ey. done.
Qed.

(** The points of the loop: the base, and the accumulated sum if there is one. *)
Record mult_ok (base : Z * Z) (acc : option (Z * Z)) (s : mult_state) : Prop := mk_mult_ok {
mo_base : pt_fe P base (m_base s);
mo_base_room : room MAX_ECC_BUF (pt_x (m_base s)) /\ room MAX_ECC_BUF (pt_y (m_base s));
mo_result_room : room MAX_ECC_BUF (pt_x (m_result s)) /\ room MAX_ECC_BUF (pt_y (m_result s));
mo_new_result : exists d, pt_dest P d (m_new_result s);
mo_new_base : exists d, pt_dest P d (m_new_base s);
mo_acc : match acc with
         | None => result_is_0 s = true
         | Some r => result_is_0 s = false /\ pt_fe P r (m_result s)
         end;
}.

Lemma ec_third_reduced sl q1 x2 q3 : ec_third P sl q1 x2 q3 -> reduced P q3.
Proof. intros [Ex Ey]. split; [rewrite Ex|rewrite Ey]; apply Z.mod_pos_bound, Hc. Qed.
Lemma ec_dbl_reduced {q q3} : ec_dbl P a q q3 -> reduced P q3.
Proof. intros (_ & sl & _ & H). by eapply ec_third_reduced. Qed.
Lemma ec_acc_reduced {bit base acc acc'} : ec_acc P bit base acc acc' -> reduced P base ->
from_option (reduced P) True acc -> from_option (reduced P) True acc'.
Proof. intros [] Hb Ha; simpl in *; [done|done|]. destruct H as (_ & sl & _ & H). by eapply ec_third_reduced. Qed.

Lemma acc_step_spec {bit base acc acc' s} : 1 < P -> mult_ok base acc s -> ec_acc P bit base acc acc' ->
reduced P base -> from_option (reduced P) True acc ->
exists s', (if negb (Z.b2z bit =? 0) then
     if result_is_0 s then
       let* r := copy_ecc_point (m_base s) (m_result s) in
       Ret (s <| m_result := r |> <| result_is_0 := false |>)
     else
       let* (_, nr) := pki_ecc_add stack curve (m_result s) (m_base s) (m_new_result s) in
       let* r := copy_ecc_point nr (m_result s) in
       Ret (s <| m_new_result := nr |> <| m_result := r |>)
   else Ret s) = Ret s' /\ mult_ok base acc' s'.
Proof.
intros HP [Hb Rb [Rrx Rry] [dr Dr] Hnb Ho] Hacc Hbr Har. destruct Hacc as [base acc|base|base r r' Hadd Hreg Hy]; cbn.
- exists s. split; [done|]. split; [done|done|done|by exists dr|done|done].
- rewrite Ho. destruct (copy_point P (co_size _ _ _ Hc) (m_result s) Hb Rrx Rry) as (c & -> & Hcp & Rx & Ry & _). cbn [res_bind].
  eexists. split; [done|]. split; simpl; [done|done|done|by eexists|done|done].
- destruct Ho as [Hz Hr]. rewrite Hz. destruct (add_run Hr Hb Dr) as (rc & nr & q' & -> & Dq & Hq). cbn [res_bind].
  destruct (Hq r' HP Har Hbr Hadd Hy) as [_ ->]; [left; apply Hreg|left; apply Hreg|].
  destruct (copy_point P (co_size _ _ _ Hc) (m_result s) (pt_dest_fe _ _ _ Dq) Rrx Rry) as (c & -> & Hcp & Rx & Ry & _). cbn [res_bind].
  eexists. split; [done|]. split; simpl; [done|done|done|by eexists|done|]. done.
Qed.

Lemma mult_step_spec {mult k base acc acc' s} i : 1 < P -> lop k mult -> Z.of_nat i < 8 * actual_len mult ->
mult_ok base acc s -> ec_acc P (Z.testbit k (Z.of_nat i)) base acc acc' ->
reduced P base -> from_option (reduced P) True acc ->
exists s' base', mult_step stack curve mult i s = Ret s' /\ mult_ok base' acc' s' /\
  (forall q3, ec_dbl P a base q3 -> regular q3 -> base' = q3).
Proof.
intros HP Hk Hi Hs Hacc Hb Ha. unfold mult_step. rewrite (get_bit_spec _ Hk) by lia. cbn [res_bind].
destruct (acc_step_spec HP Hs Hacc Hb Ha) as (s1 & E & [Hb1 [Rbx Rby] Rr Dr [db Db] Ho]).
rewrite E. cbn [res_bind].
destruct (double_run Hb1 Db) as (nb & q' & -> & Dq & Hq). cbn [res_bind].
destruct (copy_point P (co_size _ _ _ Hc) (m_base s1) (pt_dest_fe _ _ _ Dq) Rbx Rby) as (c & -> & Hcp & Rx & Ry & _). cbn [res_bind].
eexists _, q'. split; [done|]. split; [by split; simpl; [| | | |eexists|]|].
intros q3 Hd [H1 H2]. apply Hq; [done|done|by left|by left].
Qed.

Lemma mult_loop_spec {mult k} bits base acc out s i : 1 < P -> lop k mult ->
ec_mul P a bits base acc out -> bits = bits_of k i (length bits) ->
Z.of_nat (i + length bits) <= 8 * actual_len mult -> mult_ok base acc s ->
reduced P base -> from_option (reduced P) True acc ->
exists s' base', for_loop (length bits) i (mult_step stack curve mult) s = Ret s' /\
  mult_ok base' (Some out) s'.
Proof.
intros HP Hk Hm. revert s i.
induction Hm as [bit base acc out Hacc|bit bits base base' acc acc' out Hacc Hd Hreg Hm IH];
  intros s i Hbits Hi Hs Hb Ha; cbn [length for_loop] in *.
- injection Hbits as ->. destruct (mult_step_spec i HP Hk ltac:(lia) Hs Hacc Hb Ha) as (s' & b' & -> & Hs' & _).
  exists s', b'. done.
- unfold bits_of in Hbits. cbn [seq fmap list_fmap] in Hbits. injection Hbits as -> Hbits.
  destruct (mult_step_spec i HP Hk ltac:(lia) Hs Hacc Hb Ha) as (s' & b' & -> & Hs' & Hq).
  rewrite (Hq _ Hd Hreg) in Hs'. cbn [res_bind].
  apply (IH s' (S i)); [exact Hbits|lia|done|by eapply ec_dbl_reduced|by eapply ec_acc_reduced].
Qed.
End Mult.

(** ** Points stay on the curve *)

Definition on_curve (P a b : Z) (q : Z * Z) : Prop :=
  cong P (snd q * snd q) (fst q * fst q * fst q + a * fst q + b).

Lemma cong_divide P u w : 0 < P -> cong P u w <-> (P | u - w).
Proof.
  intros HP. split.
  - intros [H]. apply Z.mod_divide; [lia|]. by rewrite Zminus_mod, H, Z.sub_diag, Zmod_0_l.
  - intros [k Hk]. split. replace u with (w + k * P) by lia. apply Z.mod_add. lia.
Qed.

(** The line through a point meets the curve again at [ec_third]. *)
Lemma ec_dbl_on_curve P a b q q3 : 0 < P -> on_curve P a b q -> ec_dbl P a q q3 -> on_curve P a b q3.
Proof.
  intros HP Hq (_ & sl & Hsl & Ex & Ey). unfold on_curve in *. destruct q as [x y], q3 as [x3 y3]. cbn [fst snd] in *.
  apply mk_cong in Hsl. assert (cong P x3 (sl * sl - x - x)) as Cx by (rewrite Ex; by apply mod_cong).
  assert (cong P y3 (sl * (x - x3) - y)) as Cy by (rewrite Ey; by apply mod_cong).
  rewrite Cy. apply cong_divide; [done|]. apply cong_divide in Hq, Hsl, Cx; [|done..].
  destruct Hq as [k Hk], Hsl as [j Hj], Cx as [m Hm].
  exists (k + j * (x3 - x) - m * (x3 - x) * (x3 - x)). 
  assert (y * y = x * x * x + a * x + b + k * P) as Ek by lia.
  assert (sl * (2 * y) = 3 * x * x + a + j * P) as Ej by lia.
  assert (sl * sl = x3 + x + x - m * P) as Em by lia.
  replace ((sl * (x - x3) - y) * (sl * (x - x3) - y))
    with (sl * sl * (x - x3) * (x - x3) - sl * (2 * y) * (x - x3) + y * y) by ring.
  rewrite Ek, Ej, Em. ring.
Qed.

Lemma ec_add_on_curve P a b q1 q2 q3 : 0 < P -> on_curve P a b q1 -> on_curve P a b q2 ->
  ec_add P q1 q2 q3 -> on_curve P a b q3.
Proof.
  intros HP H1 H2 (Hg & sl & Hsl & Ex & Ey). unfold on_curve in *.
  destruct q1 as [x1 y1], q2 as [x2 y2], q3 as [x3 y3]. cbn [fst snd] in *.
  apply mk_cong in Hsl. assert (cong P x3 (sl * sl - x1 - x2)) as Cx by (rewrite Ex; by apply mod_cong).
  assert (cong P y3 (sl * (x1 - x3) - y1)) as Cy by (rewrite Ey; by apply mod_cong).
  rewrite Cy. apply cong_divide; [done|]. apply cong_divide in H1, H2, Hsl, Cx; [|done..].
  apply (Z.gauss P (x1 - x2)); [|by rewrite Z.gcd_comm].
  destruct H1 as [k Hk], H2 as [h Hh], Hsl as [j Hj], Cx as [m Hm].
  assert (y1 * y1 = x1 * x1 * x1 + a * x1 + b + k * P) as Ek by lia.
  assert (y2 = y1 - sl * (x1 - x2) + j * P) as Ej by lia.
  assert (sl * sl = x3 + x1 + x2 - m * P) as Em by lia.
  assert (x1 * x1 * x1 + a * x1 + b - (x2 * x2 * x2 + a * x2 + b) =
          y1 * y1 - k * P - (y2 * y2 - h * P)) as E12 by lia.
  rewrite Ej in E12.
  exists (k * (x3 - x2) - h * (x3 - x1) + (x3 - x1) * (j * j * P + 2 * j * (y1 - sl * (x1 - x2)))
          - m * (x1 - x2) * (x3 - x1) * (x3 - x2)).
  assert ((x1 - x2) * ((sl * (x1 - x3) - y1) * (sl * (x1 - x3) - y1) - (x3 * x3 * x3 + a * x3 + b)) =
    (x3 - x2) * (y1 * y1 - (x1 * x1 * x1 + a * x1 + b))
    - (x3 - x1) * ((y1 - sl * (x1 - x2)) * (y1 - sl * (x1 - x2)) - (x2 * x2 * x2 + a * x2 + b))
    + (x1 - x2) * (x3 - x1) * (x3 - x2) * (sl * sl - x1 - x2 - x3)) as -> by ring.
  assert ((y1 - sl * (x1 - x2)) * (y1 - sl * (x1 - x2)) - (x2 * x2 * x2 + a * x2 + b)
    = h * P - j * P * (j * P) - 2 * (j * P) * (y1 - sl * (x1 - x2))) as -> by lia.
  rewrite Ek, Em. ring.
Qed.

Lemma ec_acc_on_curve P a b bit base acc acc' : 0 < P -> ec_acc P bit base acc acc' -> on_curve P a b base ->
  from_option (on_curve P a b) True acc -> from_option (on_curve P a b) True acc'.
Proof.
  intros HP [b0 c0|b0|b0 r r' Hadd _ _] Hb Ha; [done|done|]. by apply (ec_add_on_curve P a b r b0).
Qed.
Lemma ec_mul_on_curve P a b bits base acc out : 0 < P -> ec_mul P a bits base acc out -> on_curve P a b base ->
  from_option (on_curve P a b) True acc -> on_curve P a b out.
Proof.
  intros HP Hm Hb. induction Hm as [bit base acc out H|bit bits base base' acc acc' out H Hd _ Hm IH]; intros Ha.
  - by apply (ec_acc_on_curve _ _ _ _ _ _ _ HP H Hb Ha).
  - apply IH; [by eapply ec_dbl_on_curve|]. by apply (ec_acc_on_curve _ _ _ _ _ _ _ HP H Hb Ha).
Qed.

(** ** The signature *)

(** A destination whose buffer is clear. *)
Definition clear (op : pka_operand) : Prop := room MAX_ECC_BUF op /\ buf_ptr op !! 0%nat = Some 0.
Lemma clear_tmp : clear (zero_op MAX_ECC_BUF).
Proof.
  split; [apply zero_op_room; mlia|done].
Qed.

Section Signature.
Context (stack : bytes) (Hst : stack_ok stack) (P a : Z) (curve : ecc_curve) (Hc : curve_ok P a curve) (HP : 1 < P).

Lemma init_point_spec : init_ecc_point stack MAX_ECC_BUF false
= Ret (mk_point (zero_op MAX_ECC_BUF) (zero_op MAX_ECC_BUF)).
Proof. unfold init_ecc_point. rewrite (local_tmp stack Hst). done. Qed.

Lemma fresh_point : pt_dest P (0, 0) (mk_point (zero_op MAX_ECC_BUF) (zero_op MAX_ECC_BUF)).
Proof. split; apply fe_dest_tmp, Hc. Qed.

Lemma ecc_multiply_spec {q k pointA multiplier} result out :
pt_fe P q pointA -> reduced P q -> lop k multiplier -> 2 <= k ->
ec_mul P a (bits_of k 0 (Z.to_nat (Z.log2 k + 1))) q None out ->
clear (pt_x result) -> clear (pt_y result) ->
exists pt, pki_ecc_multiply stack curve pointA multiplier result = Ret (RC_NO_ERROR, pt) /\
  pt_dest P out pt /\ actual_len (pt_x pt) = Z.max 1 (nbytes (fst out)).
Proof.
intros Hq Hr Hk Hk2 Hm [Rx Zx] [Ry Zy]. pose proof Hc as [Lp ? ? Hsz Fa ? ?].
unfold pki_ecc_multiply, passert.
rewrite (curve_order_lop P (curve_p curve) Lp curve eq_refl a Fa) by
  (first [done|repeat (apply Forall_cons; split; [first [by eapply fe_le; apply Hq|apply Hk]|]); constructor]).
rewrite (lop_le _ _ Lp), init_point_spec. cbn [res_bind].
destruct fresh_point as [[_ R1 _] [_ R2 _]]. cbn [pt_x pt_y] in *.
destruct (copy_point P Hsz (mk_point (zero_op MAX_ECC_BUF) (zero_op MAX_ECC_BUF)) Hq R1 R2) as (bp & -> & Hb & Rbx & Rby & _).
cbn [res_bind]. pose proof (lop_val _ _ Hk) as Hv.
rewrite (operand_bit_len_spec multiplier) by (first [apply Hk|rewrite Hv; lia]). rewrite Hv. cbn [res_bind].
assert (1 <= Z.log2 k) as Hlog by (change 1 with (Z.log2 2); apply Z.log2_le_mono; lia).
rewrite (proj2 (Z.ltb_ge _ _)) by lia.
assert (Z.log2 k < 8 * actual_len multiplier) as Hbits.
{ pose proof (lop_range Hk). pose proof (lop_len Hk). apply Z.log2_lt_pow2; [lia|].
  rewrite Z.pow_mul_r by lia. change (2 ^ 8) with 256. lia. }
assert (length (bits_of k 0 (Z.to_nat (Z.log2 k + 1))) = Z.to_nat (Z.log2 k + 1)) as Hlen
  by (unfold bits_of; by rewrite length_fmap, length_seq).
set (pt0 := mk_point (zero_op MAX_ECC_BUF) (zero_op MAX_ECC_BUF)) in *.
destruct (mult_loop_spec stack Hst P a curve Hc _ q None out (mk_mult true pt0 pt0 bp pt0) 0%nat HP Hk Hm)
  as (s & b' & E & [_ _ _ _ _ [_ Hres]]).
- by rewrite Hlen.
- rewrite Hlen. lia.
- split; simpl; [done|done|done|exists (0, 0); apply fresh_point|exists (0, 0); apply fresh_point|done].
- done.
- done.
- rewrite Hlen in E. rewrite E. cbn [res_bind].
  destruct (copy_point P Hsz result Hres Rx Ry) as (c & -> & _ & _ & _ & Dc). cbn [res_bind].
  destruct (adjust_point_dest P Hsz (Dc Zx Zy)) as (pt & -> & D & Hl). cbn [res_bind]. by exists pt.
Qed.

(** The numbers of a signature: order [n], key [d], hash [h], nonce [k]. *)
Record ecdsa_ok (n d h k : Z) (order priv hash nonce : pka_operand) : Prop := mk_ecdsa_ok {
eo_n : lop n order;
eo_pos : 1 < n;
eo_n_len : actual_len order <= nbytes n + 4;
eo_size : nbytes n + 4 <= MAX_ECC_BUF;
eo_d : fe n d priv;
eo_h : fe n h hash;
eo_k : fe n k nonce;
eo_k_len : actual_len nonce <= nbytes k + 4;
eo_k_inv : Z.gcd k n = 1;
}.

(** [s = k^-1 (h + d r)]. *)
Lemma signature_value n d h k i r :
0 < n -> k * i mod n = 1 mod n ->
(i * addz n h (d * r mod n) mod n * k) mod n = (h + d * r) mod n.
Proof.
intros Hn Hi. apply cong_mod. apply mk_cong in Hi.
rewrite (mod_cong n Hn (i * _)).
assert (cong n (addz n h (d * r mod n)) (h + d * r)) as ->.
{ transitivity (h + d * r mod n); [|by rewrite (mod_cong n Hn (d * r))].
  unfold addz. destruct (Z.ltb_spec (h + d * r mod n) n); [done|]. split.
  replace (h + d * r mod n - n) with (h + d * r mod n + (-1) * n) by lia. apply Z.mod_add. lia. }
replace (i * (h + d * r) * k) with (k * i * (h + d * r)) by ring.
by rewrite Hi, Z.mul_1_l.
Qed.

Lemma ecdsa_generate_spec {q n d h k base order priv hash nonce} out :
pt_fe P q base -> reduced P q -> ecdsa_ok n d h k order priv hash nonce -> 2 <= k ->
ec_mul P a (bits_of k 0 (Z.to_nat (Z.log2 k + 1))) q None out ->
exists sr ss r s,
  pki_ecdsa_generate stack curve base order priv hash nonce
    (mk_sig (zero_op MAX_ECC_BUF) (zero_op MAX_ECC_BUF)) = Ret (RC_NO_ERROR, mk_sig sr ss) /\
  fe_dest n r sr /\ fe_dest n s ss /\ r = fst out mod n /\ 0 <= s < n /\
  s * k mod n = (h + d * r) mod n.
Proof.
intros Hq Hr [Ln Hn Tn Hsn Fd Fh Fk Tk Hg] Hk2 Hm. pose proof Hc as [Lp ? ? Hsz Fa ? ?].
assert (0 < n) as Hn0 by lia. pose proof (nbytes_nonneg n). pose proof (nbytes_nonneg P).
unfold pki_ecdsa_generate, passert.
rewrite (curve_order_lop P (curve_p curve) Lp curve eq_refl a Fa) by
  (first [done|repeat (apply Forall_cons; split; [first [apply Ln|eapply fe_le; first [apply Hq|exact Fd]]|]); constructor]).
rewrite (same_order_lop (fe_lop _ _ _ Fh) (fe_lop _ _ _ Fd)), (same_order_lop (fe_lop _ _ _ Fk) (fe_lop _ _ _ Fh)).
cbn [andb]. rewrite (lop_le _ _ Lp), (local_tmp stack Hst), init_point_spec. cbv zeta. cbn [res_bind].
destruct (fe_inverse stack Hst n order Ln Hn0 Tn Hsn Fk Tk) as (rc1 & ki & i & -> & Fi & Hi). cbn [res_bind].
destruct (ecc_multiply_spec (mk_point (zero_op MAX_ECC_BUF) (zero_op MAX_ECC_BUF)) out Hq Hr (fe_lop _ _ _ Fk) Hk2 Hm)
  as (kG & -> & [Dx Dy] & Hlx); [apply clear_tmp..|]. cbn [res_bind].
pose proof (dest_fe _ _ _ Dx) as [Lx Rx Tx]. pose proof (nbytes_nonneg (fst out)).
destruct (pki_modulo_spec stack Hst (zero_op MAX_ECC_BUF) MAX_ECC_BUF Lx Ln Hn0) as (r & lr & -> & Wr & Hlr);
  [lia|mlia|apply zero_op_room; mlia|lia|mlia|]. cbn [res_bind].
pose proof (Z.mod_pos_bound (fst out) n Hn0) as Rr. pose proof (nbytes_mono (fst out mod n) n ltac:(lia)).
assert (fe n (fst out mod n) r) as Fr.
{ eapply written_fe; [exact Wr|lia|]. revert Hlr. destruct (Z.ltb_spec (fst out) n) as [Hlt|Hge]; intros ?; [|lia].
  pose proof (nbytes_mono (fst out) n ltac:(lia)). lia. }
pose proof (tmp_room n Hn0) as Rt.
destruct (fe_mul stack Hst n order Ln Hn0 Tn Hsn (zero_op MAX_ECC_BUF) Fd Fr Rt) as (pr & -> & Fp). cbn [res_bind].
destruct (fe_add stack Hst n order Ln Hn0 Hsn (zero_op MAX_ECC_BUF) Fh Fp Rt) as (su & -> & Fs & _). cbn [res_bind].
destruct (fe_mul stack Hst n order Ln Hn0 Tn Hsn (zero_op MAX_ECC_BUF) Fi Fs Rt) as (s & -> & Fss). cbn [res_bind].
cbn [sig_r sig_s]. destruct clear_tmp as [_ Z0].
destruct (copy_fe n Hsn (zero_op MAX_ECC_BUF) Fr Rt) as (sr & -> & Fsr & Rsr & Asr). cbn [res_bind].
destruct (copy_fe n Hsn (zero_op MAX_ECC_BUF) Fss Rt) as (ss & -> & Fsss & Rss & Ass). cbn [res_bind].
destruct (adjust_dest n Hsn (mk_fe_dest n _ _ Fsr Rsr (Asr Z0))) as (sr' & -> & Dr & _). cbn [res_bind].
destruct (adjust_dest n Hsn (mk_fe_dest n _ _ Fsss Rss (Ass Z0))) as (ss' & -> & Ds & _). cbn [res_bind].
eexists sr', ss', _, _. split; [done|]. split; [exact Dr|]. split; [exact Ds|]. split; [done|].
split; [by apply Z.mod_pos_bound|]. by apply signature_value, Hi.
Qed.
End Signature.

(** ** Properties *)

(** C18: on any two points whose coordinates are well-formed operands up to the
    prime, doubling and addition return without a fault, and the point they
    write is again one of well-formed coordinates up to the prime that fits the
    local arrays, also where a slope does not exist or a difference is zero. *)
Theorem point_operations_typed stack P a curve q1 q2 d pointA pointB result :
  stack_ok stack -> curve_ok P a curve ->
  pt_fe P q1 pointA -> pt_fe P q2 pointB -> pt_dest P d result ->
  (exists pt q, ecc_double stack curve pointA result = Ret (RC_NO_ERROR, pt) /\ pt_dest P q pt) /\
  (exists rc pt q, pki_ecc_add stack curve pointA pointB result = Ret (rc, pt) /\ pt_dest P q pt).
Proof.
  intros Hst Hc H1 H2 Hd. split.
  - destruct (double_run stack Hst P a curve Hc H1 Hd) as (pt & q & E & D & _). by exists pt, q.
  - destruct (add_run stack Hst P a curve Hc H1 H2 Hd) as (rc & pt & q & E & D & _). by exists rc, pt, q.
Qed.

(** C16: [pki_ecc_multiply] computes the multiple of the point that double-and-add
    with the affine formulas gives, and the multiple of a point of the curve is
    a point of the curve. The formulas must never meet a zero coordinate. *)
Theorem ecc_multiply_correct stack P a b curve q k pointA multiplier result out :
  stack_ok stack -> curve_ok P a curve -> 1 < P ->
  pt_fe P q pointA -> reduced P q -> lop k multiplier -> 2 <= k ->
  clear (pt_x result) -> clear (pt_y result) ->
  ec_mul P a (bits_of k 0 (Z.to_nat (Z.log2 k + 1))) q None out ->
  exists pt, pki_ecc_multiply stack curve pointA multiplier result = Ret (RC_NO_ERROR, pt) /\
    operand_val (pt_x pt) = fst out /\ operand_val (pt_y pt) = snd out /\
    (on_curve P a b q -> on_curve P a b out).
Proof.
  intros Hst Hc HP Hq Hr Hk Hk2 Cx Cy Hm.
  destruct (ecc_multiply_spec stack Hst P a curve Hc HP result out Hq Hr Hk Hk2 Hm Cx Cy) as (pt & E & [Dx Dy] & _).
  exists pt. split; [done|]. split; [apply (fe_lop _ _ _ (dest_fe _ _ _ Dx))|].
  split; [apply (fe_lop _ _ _ (dest_fe _ _ _ Dy))|]. intros Ho. by apply (ec_mul_on_curve P a b _ _ _ _ (co_pos _ _ _ Hc) Hm).
Qed.

(** C15: on the inputs where its arithmetic is sound, the signature of
    [sw_ecdsa_gen] is that of ECDSA: [r] is the abscissa of [k G] reduced by the
    order, and [s k = h + d r] modulo the order. The inputs are little-endian
    operands with a nonce of at least 2 that is prime to the order, a key, a
    hash and a nonce of at most the order, and a
    double-and-add chain for [k G] in
    which no coordinate is zero and no two added points have equal ordinates
    ([ec_mul]). Outside them the routine is wrong: [equal_ordinates_refused],
    [double_stale_abscissa]. *)
Theorem sw_ecdsa_gen_correct stack P a curve q n d h k base order priv hash nonce out :
  stack_ok stack -> curve_ok P a curve -> 1 < P ->
  pt_fe P q base -> reduced P q -> ecdsa_ok n d h k order priv hash nonce -> 2 <= k ->
  ec_mul P a (bits_of k 0 (Z.to_nat (Z.log2 k + 1))) q None out ->
  exists signature, sw_ecdsa_gen stack false curve base order priv hash nonce = Ret (Some signature) /\
    operand_val (sig_r signature) = fst out mod n /\
    0 <= operand_val (sig_s signature) < n /\
    (operand_val (sig_s signature) * k) mod n = (h + d * operand_val (sig_r signature)) mod n.
Proof.
  intros Hst Hc HP Hq Hr He Hk2 Hm.
  destruct (ecdsa_generate_spec stack Hst P a curve Hc HP out Hq Hr He Hk2 Hm)
    as (sr & ss & r & s & E & Dr & Ds & -> & Hs & Hsk).
  exists (mk_sig sr ss). unfold sw_ecdsa_gen, malloc_dsa_signature.
  rewrite (local_tmp stack Hst). cbn [res_bind]. rewrite E. cbn [res_bind sig_r sig_s].
  rewrite (lop_val _ _ (fe_lop _ _ _ (dest_fe _ _ _ Dr))), (lop_val _ _ (fe_lop _ _ _ (dest_fe _ _ _ Ds))). done.
Qed.

(** *** A small curve

    [y^2 = x^3 + 2 x + 3] modulo 97, the point [(3, 6)] and its triple. *)
Definition op1 (v : Z) : pka_operand := mk_operand [v; 0] 2 1 0 false.
Definition curve97 : ecc_curve := mk_curve (op1 97) (op1 2) (op1 3).
Definition stack77 : bytes := replicate 1040 77.

Lemma stack77_ok : stack_ok stack77.
Proof. split; [apply Forall_replicate; unfold is_u8; lia|reflexivity]. Defined.
Lemma op1_lop v : 0 <= v < 256 -> lop v (op1 v).
Proof. intros Hv. apply mk_lop_le; simpl; [repeat constructor; unfold is_u8; lia|lia|lia|done|lia]. Qed.
Lemma op1_fe P v : 0 < v <= P -> P < 256 -> fe P v (op1 v).
Proof. intros Hv HP. split; [apply op1_lop; lia|lia|]. simpl. pose proof (nbytes_nonneg P). lia. Qed.
Lemma curve97_ok : curve_ok 97 2 curve97.
Proof.
  split; [apply op1_lop; lia|lia|vm_compute; discriminate|vm_compute; discriminate|apply op1_fe; lia|lia|done].
Qed.
Lemma triple97 : ec_mul 97 2 (bits_of 3 0 (Z.to_nat (Z.log2 3 + 1))) (3, 6) None (80, 87).
Proof.
  apply (ec_mul_next 97 2 true [true] (3, 6) (80, 10) None (Some (3, 6)) (80, 87)).
  - constructor.
  - split; [done|]. exists 59. done.
  - done.
  - apply ec_mul_last. apply (acc_add 97 (80, 10) (3, 6) (80, 87)); [|done|done]. split; [done|]. exists 58. done.
Qed.

Lemma point_operations_typed_witness :
  (exists pt q, ecc_double stack77 curve97 (mk_point (op1 3) (op1 6))
      (mk_point (zero_op MAX_ECC_BUF) (zero_op MAX_ECC_BUF)) = Ret (RC_NO_ERROR, pt) /\ pt_dest 97 q pt) /\
  (exists rc pt q, pki_ecc_add stack77 curve97 (mk_point (op1 3) (op1 6)) (mk_point (op1 80) (op1 10))
      (mk_point (zero_op MAX_ECC_BUF) (zero_op MAX_ECC_BUF)) = Ret (rc, pt) /\ pt_dest 97 q pt).
Proof.
  apply (point_operations_typed stack77 97 2 curve97 (3, 6) (80, 10) (0, 0)).
  - exact stack77_ok.
  - exact curve97_ok.
  - split; apply op1_fe; simpl; lia.
  - split; apply op1_fe; simpl; lia.
  - split; apply fe_dest_tmp; lia.
Defined.

Lemma ecc_multiply_correct_witness :
  exists pt, pki_ecc_multiply stack77 curve97 (mk_point (op1 3) (op1 6)) (op1 3)
      (mk_point (zero_op MAX_ECC_BUF) (zero_op MAX_ECC_BUF)) = Ret (RC_NO_ERROR, pt) /\
    operand_val (pt_x pt) = fst (80, 87) /\ operand_val (pt_y pt) = snd (80, 87) /\
    (on_curve 97 2 3 (3, 6) -> on_curve 97 2 3 (80, 87)).
Proof.
  apply (ecc_multiply_correct stack77 97 2 3 curve97 (3, 6) 3).
  - exact stack77_ok.
  - exact curve97_ok.
  - lia.
  - split; apply op1_fe; simpl; lia.
  - split; simpl; lia.
  - apply op1_lop. lia.
  - lia.
  - exact clear_tmp.
  - exact clear_tmp.
  - exact triple97.
Defined.

Lemma sw_ecdsa_gen_correct_witness :
  exists signature, sw_ecdsa_gen stack77 false curve97 (mk_point (op1 3) (op1 6)) (op1 7) (op1 2) (op1 4) (op1 3)
      = Ret (Some signature) /\
    operand_val (sig_r signature) = fst (80, 87) mod 7 /\
    0 <= operand_val (sig_s signature) < 7 /\
    (operand_val (sig_s signature) * 3) mod 7 = (4 + 2 * operand_val (sig_r signature)) mod 7.
Proof.
  apply (sw_ecdsa_gen_correct stack77 97 2 curve97 (3, 6) 7 2 4 3).
  - exact stack77_ok.
  - exact curve97_ok.
  - lia.
  - split; apply op1_fe; simpl; lia.
  - split; simpl; lia.
  - split; [apply op1_lop; lia|lia|vm_compute; discriminate|vm_compute; discriminate|apply op1_fe; lia
      |apply op1_fe; lia|apply op1_fe; lia|vm_compute; discriminate|reflexivity].
  - lia.
  - exact triple97.
Defined.

(** Two points of the curve with the same ordinate have a sum, [(80, 87)], but
    the addition refuses them and leaves the result alone. *)
Example equal_ordinates_refused :
  ec_add 97 (0, 10) (17, 10) (80, 87) /\
  pki_ecc_add stack77 curve97 (mk_point (op1 0) (op1 10)) (mk_point (op1 17) (op1 10))
    (mk_point (op1 1) (op1 1)) = Ret (RC_INTERMEDIATE_PAI, mk_point (op1 1) (op1 1)).
Proof. split; [split; [done|]; exists 0; done|vm_compute; reflexivity]. Qed.

(** A doubling whose abscissa is zero keeps the one the destination held: on
    [y^2 = x^3 + 2 x + 73] the double of [(2, 45)] is [(0, 48)], and the routine
    leaves the abscissa 42. *)
Example double_stale_abscissa :
  ec_dbl 97 2 (2, 45) (0, 48) /\
  exists pt, ecc_double stack77 (mk_curve (op1 97) (op1 2) (op1 73)) (mk_point (op1 2) (op1 45))
      (mk_point (op1 42) (op1 42)) = Ret (RC_NO_ERROR, pt) /\ operand_val (pt_x pt) = 42.
Proof. split; [split; [done|]; exists 95; done|]. eexists. split; vm_compute; reflexivity. Qed.

(** The multiplier 1 is refused. *)
Example multiplier_one_refused :
  exists pt, pki_ecc_multiply stack77 curve97 (mk_point (op1 3) (op1 6)) (op1 1)
      (mk_point (op1 0) (op1 0)) = Ret (RC_OPERAND_VALUE_ERR, pt).
Proof. eexists. vm_compute. reflexivity. Qed.
