(* ===== verification/PkaEngine.v ===== *)
(** * The RSA engine of the PKA benchmarks (helper/pka_helper.c)

    The glue between OpenSSL and the accelerator: a global engine that holds an
    instance of the PKA library, a handle per thread, and synchronous modular
    exponentiation on OpenSSL's numbers. The library is a parameter
    ([PkaLib]), with its own state. *)

From S2P Require Import Prelude Operand Bignum.

(** ** The PKA library

    Its calls as functions of its state. [pka_get_result] answers [None] for
    FAILURE, when no result has arrived yet, and otherwise the status and the
    first result, written to the given buffer. *)
Class PkaLib := {
  library : Type;
  PKA_INSTANCE_INVALID : Z;
  PKA_HANDLE_INVALID : Z;
  MAX_BYTE_LEN : Z;
  pka_init_global : library -> Z * library;
  pka_term_global : Z -> library -> library;
  pka_init_local : Z -> library -> Z * library;
  pka_term_local : Z -> library -> library;
  pka_modular_exp : Z -> pka_operand -> pka_operand -> pka_operand -> library -> Z * library;
  pka_modular_exp_crt : Z -> option pka_operand -> option pka_operand -> option pka_operand ->
    option pka_operand -> option pka_operand -> option pka_operand -> library -> Z * library;
  pka_get_result : Z -> pka_operand -> library -> option (Z * pka_operand) * library;
}.
Definition SUCCESS : Z := 0.

(** ** Numbers of OpenSSL as operands

    Here the limbs are copied as they lie in memory and the operand is
    little-endian. *)

Definition operand_byte_copy_le (operand : pka_operand) (buf : bytes) (len : Z) : res pka_operand :=
  if buf_len operand <? len then Fault Assert_failed else
  res_bind (memcpy (buf_ptr operand) buf len) (fun b =>
  Ret (operand <| buf_ptr := b |> <| actual_len := len |>)).

Definition make_operand_le (d : option (list Z)) (len max_len : Z) (be : bool) : res (option pka_operand) :=
  match d with
  | None => Ret None
  | Some limbs =>
      if max_len =? 0 then Ret None else
      res_bind (operand_byte_copy_le (mk_operand (zeros (Z.to_nat max_len)) max_len 0 0 be)
                  (limb_bytes limbs) len) (fun op => Ret (Some op))
  end.

Definition bignum_to_operand_le (bignum : pka_bignum) : res (option pka_operand) :=
  make_operand_le (bn_d bignum) (u32 (bn_top bignum * PKA_BYTES)) (u32 (bn_dmax bignum * PKA_BYTES)) false.

(** The limbs that [n] bytes of memory hold. *)
Fixpoint limbs_of (n : nat) (b : bytes) : list Z :=
  match n with
  | O => []
  | S n' => le_val (take 8 b) :: limbs_of n' (drop 8 b)
  end.

(** [set_bignum]: the bytes of the operand replace the first bytes of the limb
    array. *)
Definition set_bignum (bn : pka_bignum) (operand : pka_operand) : res pka_bignum :=
  let len := u16 (actual_len operand) in
  let word_len := (len + (PKA_BYTES - 1)) / PKA_BYTES in
  if bn_dmax bn <? word_len then Fault Assert_failed else
  match bn_d bn with
  | None => if len =? 0 then Ret (mk_bignum None word_len (bn_dmax bn)) else Fault Null_deref
  | Some d =>
      res_bind (memcpy (limb_bytes d) (buf_ptr operand) len) (fun b =>
      Ret (mk_bignum (Some (limbs_of (length d) b)) word_len (bn_dmax bn)))
  end.

(** ** The engine *)

Record pka_engine_info := mk_engine {
  instance : Z;
  valid : bool;
}.

Section engine.
Context `{PkaLib}.

(** The globals; [tls_handle] is per thread and starts as zero. *)
Record globals := mk_globals {
  gbl_engine : pka_engine_info;
  tls_handle : gmap nat Z;
  gbl_engine_init : Z;
  gbl_engine_finish : Z;
  lib : library;
}.

Definition handle (me : nat) (g : globals) : Z := default 0 (tls_handle g !! me).
Definition handle_is_valid (hdl : Z) : bool := negb (hdl =? PKA_HANDLE_INVALID) && negb (hdl =? 0).
Definition instance_is_valid (inst : Z) : bool := negb (inst =? PKA_INSTANCE_INVALID) && negb (inst =? 0).
Definition set_handle (me : nat) (h : Z) : M globals unit :=
  mmod (fun g => g <| tls_handle ::= insert me h |>).
Definition set_pka_instance (i : Z) : M globals unit :=
  mmod (fun g => g <| gbl_engine ::= fun e => e <| instance := i |> |>).
Definition set_valid (b : bool) : M globals unit :=
  mmod (fun g => g <| gbl_engine ::= fun e => e <| valid := b |> |>).
(** A call of the library. *)
Definition call {A} (f : library -> A * library) : M globals A := fun g =>
  let '(a, w) := f (lib g) in Ret (a, g <| lib := w |>).
Definition call_ (f : library -> library) : M globals unit := mmod (fun g => g <| lib ::= f |>).

Definition pka_engine_get_handle (me : nat) : M globals Z :=
  do g <- mget;
  if negb (instance_is_valid (instance (gbl_engine g))) then ret 0 else
  if handle_is_valid (handle me g) then ret 1 else
  set_handle me PKA_HANDLE_INVALID;;;
  do h <- call (pka_init_local (instance (gbl_engine g)));
  set_handle me h;;;
  if negb (handle_is_valid h) then ret 0 else ret 1.

Definition pka_engine_put_handle (me : nat) : M globals unit :=
  do g <- mget;
  (if handle_is_valid (handle me g) then call_ (pka_term_local (handle me g)) else ret tt);;;
  set_handle me PKA_HANDLE_INVALID.

Definition pka_engine_get_instance : M globals Z :=
  do g <- mget;
  if valid (gbl_engine g) then ret 1 else
  do i <- call pka_init_global;
  set_pka_instance i;;;
  if negb (instance_is_valid i) then ret 0 else ret 1.

Definition pka_engine_put_instance : M globals unit :=
  do g <- mget;
  call_ (pka_term_global (instance (gbl_engine g)));;;
  set_pka_instance PKA_INSTANCE_INVALID.

Definition pka_reset_engine : M globals unit :=
  mmod (fun g => g <| gbl_engine := mk_engine 0 false |>);;;
  set_pka_instance PKA_INSTANCE_INVALID.

(** [pka_get_engine]; [false] for the null pointer. *)
Definition pka_get_engine (me : nat) : M globals bool :=
  do g <- mget;
  do ok <- (if valid (gbl_engine g) then ret true else
            pka_reset_engine;;;
            do rc <- pka_engine_get_instance;
            if rc =? 0 then ret false else
            set_valid true;;; ret true);
  if negb ok then ret false else
  pka_engine_get_handle me;;;
  ret true.

Definition pka_put_engine (me : nat) : M globals unit :=
  do g <- mget;
  if negb (valid (gbl_engine g)) then ret tt else
  pka_engine_put_handle me;;;
  pka_engine_put_instance;;;
  set_valid false.

Definition pka_init_engine (me : nat) : M globals Z :=
  do e <- pka_get_engine me; ret (if e : bool then 1 else 0).

(** [pka_init] and [pka_finish]. *)
Definition pka_init (me : nat) : M globals Z :=
  do g <- mget;
  if gbl_engine_init g =? 1 then ret 1 else
  do rv <- pka_init_engine me;
  (if negb (rv =? 0) then mmod (fun g => g <| gbl_engine_init ::= fun n => u32 (n + 1) |>) else ret tt);;;
  ret rv.

Definition pka_finish (me : nat) : M globals Z :=
  do g <- mget;
  (if gbl_engine_finish g =? 0 then
     pka_put_engine me;;;
     mmod (fun g => g <| gbl_engine_finish ::= fun n => u32 (n + 1) |>)
   else ret tt);;;
  ret 1.

(** ** Modular exponentiation *)

(** [pka_wait_for_results] polls until there is a result; [fuel] bounds the
    polls. *)
Fixpoint pka_wait_for_results (fuel : nat) (h : Z) (buf : pka_operand) : M globals (Z * pka_operand) :=
  match fuel with
  | O => mfault Prelude.Out_of_fuel
  | S fuel' =>
      do r <- call (pka_get_result h buf);
      match r with
      | Some res => ret res
      | None => pka_wait_for_results fuel' h buf
      end
  end.

(** [results_to_operand]; [res1] is the local array. *)
Definition results_to_operand (fuel : nat) (res1 : bytes) (h : Z) : M globals (option pka_operand) :=
  do b <- mres (memset0 res1 MAX_BYTE_LEN);
  do (status, r) <- pka_wait_for_results fuel h (mk_operand b MAX_BYTE_LEN 0 0 false);
  if negb (status =? SUCCESS) then ret None else
  do op <- mres (copy_operand r (malloc_operand (actual_len r)));
  ret (Some (op <| big_endian := false |>)).

(** The [PKA_ASSERT]s on pointers. *)
Definition non_null {A} (p : option A) : M globals A :=
  match p with Some a => ret a | None => mfault Assert_failed end.

Definition pka_do_mod_exp (fuel : nat) (res1 : bytes) (h : Z) (value exponent modulus : option pka_operand)
    : M globals (option pka_operand) :=
  do value <- non_null value;
  do exponent <- non_null exponent;
  do modulus <- non_null modulus;
  do rc <- call (pka_modular_exp h exponent modulus value);
  if negb (rc =? SUCCESS) then ret None else results_to_operand fuel res1 h.

Definition pka_do_mod_exp_crt (fuel : nat) (res1 : bytes) (h : Z) (value p q d_p d_q qinv : option pka_operand)
    : M globals (option pka_operand) :=
  do rc <- call (pka_modular_exp_crt h value p q d_p d_q qinv);
  if negb (rc =? SUCCESS) then ret None else results_to_operand fuel res1 h.

(** The common end of the two entry points: the return code and the result. *)
Definition give_result (bn_result : pka_bignum) (result : option pka_operand) : M globals (Z * pka_bignum) :=
  match result with
  | Some r => do bn <- mres (set_bignum bn_result r); ret (1, bn)
  | None => ret (0, bn_result)
  end.

Definition pka_rsa_mod_exp (fuel : nat) (res1 : bytes) (me : nat)
    (bn_value bn_exponent bn_modulus bn_result : pka_bignum) : M globals (Z * pka_bignum) :=
  do g <- mget;
  if negb (handle_is_valid (handle me g)) then ret (0, bn_result) else
  do value <- mres (bignum_to_operand_le bn_value);
  do exponent <- mres (bignum_to_operand_le bn_exponent);
  do modulus <- mres (bignum_to_operand_le bn_modulus);
  do result <- pka_do_mod_exp fuel res1 (handle me g) value exponent modulus;
  give_result bn_result result.

Definition pka_rsa_mod_exp_crt (fuel : nat) (res1 : bytes) (me : nat)
    (bn_value bn_p bn_q bn_d_p bn_d_q bn_qinv bn_result : pka_bignum) : M globals (Z * pka_bignum) :=
  do g <- mget;
  if negb (handle_is_valid (handle me g)) then ret (0, bn_result) else
  do value <- mres (bignum_to_operand_le bn_value);
  do p <- mres (bignum_to_operand_le bn_p);
  do q <- mres (bignum_to_operand_le bn_q);
  do d_p <- mres (bignum_to_operand_le bn_d_p);
  do d_q <- mres (bignum_to_operand_le bn_d_q);
  do qinv <- mres (bignum_to_operand_le bn_qinv);
  do result <- pka_do_mod_exp_crt fuel res1 (handle me g) value p q d_p d_q qinv;
  give_result bn_result result.

(** ** The life of the engine *)

Inductive api_call : Type :=
| Init (me : nat)
| Finish (me : nat)
| Exp (fuel : nat) (res1 : bytes) (me : nat) (v e m r : pka_bignum)
| Exp_crt (fuel : nat) (res1 : bytes) (me : nat) (v p q dp dq qinv r : pka_bignum).

(** The return code of a call. *)
Definition run_api (c : api_call) : M globals Z :=
  match c with
  | Init me => pka_init me
  | Finish me => pka_finish me
  | Exp fuel res1 me v e m r => do a <- pka_rsa_mod_exp fuel res1 me v e m r; ret a.1
  | Exp_crt fuel res1 me v p q dp dq qinv r =>
      do a <- pka_rsa_mod_exp_crt fuel res1 me v p q dp dq qinv r; ret a.1
  end.
Inductive engine_step : globals -> globals -> Prop :=
| api_step c rc g g' : run_api c g = Ret (rc, g') -> engine_step g g'.

(** The globals of a process that starts. *)
Definition engine0 (w : library) : globals := mk_globals (mk_engine 0 false) ∅ 0 0 w.

(** *** What holds whenever no call is running *)

(** [owner] is the only thread that can have a handle. Before the first
    successful [pka_init] there is neither engine nor handle. *)
Record engine_inv (g : globals) : Prop := mk_engine_inv {
  ei_instance : valid (gbl_engine g) = true -> instance_is_valid (instance (gbl_engine g)) = true;
  ei_init : gbl_engine_init g = 0 \/ gbl_engine_init g = 1;
  ei_finish : gbl_engine_finish g = 0 \/ gbl_engine_finish g = 1;
  ei_before : gbl_engine_init g = 0 ->
    valid (gbl_engine g) = false /\ forall t, handle_is_valid (handle t g) = false;
  ei_owner : exists owner, forall t, t <> owner -> handle_is_valid (handle t g) = false;
}.

Lemma invalid_handle : handle_is_valid PKA_HANDLE_INVALID = false.
Proof. unfold handle_is_valid. by rewrite Z.eqb_refl. Qed.
Lemma handle_set t me h g : handle t (g <| tls_handle ::= insert me h |>) = if decide (t = me) then h else handle t g.
Proof. unfold handle. simpl. case_decide as E; [subst; by rewrite lookup_insert_eq|by rewrite lookup_insert_ne]. Qed.

(** The calls on operands and numbers change the state of the library only. *)
Section lib_only.
Context (P : globals -> Prop) (HP : forall g w, P g -> P (g <| lib := w |>)).

Lemma pres_call {A} (f : library -> A * library) : preserves P (call f).
Proof using HP.
  intros g a g' Hg E. unfold call in E. destruct (f (lib g)) as [b w]. injection E as _ <-. by apply HP.
Qed.
#[local] Hint Resolve pres_call : pres.
Lemma pres_wait fuel h buf : preserves P (pka_wait_for_results fuel h buf).
Proof using HP. induction fuel as [|fuel IH]; cbn [pka_wait_for_results]; pres. Qed.
#[local] Hint Resolve pres_wait : pres.
Lemma pres_results fuel res1 h : preserves P (results_to_operand fuel res1 h).
Proof using HP. unfold results_to_operand. pres. Qed.
#[local] Hint Resolve pres_results : pres.
Lemma pres_non_null {A} (p : option A) : preserves P (non_null p).
Proof. unfold non_null. pres. Qed.
#[local] Hint Resolve pres_non_null : pres.
Lemma pres_give bn r : preserves P (give_result bn r).
Proof. unfold give_result. pres. Qed.
#[local] Hint Resolve pres_give : pres.
Lemma pres_exp fuel res1 me v e m r : preserves P (pka_rsa_mod_exp fuel res1 me v e m r).
Proof using HP. unfold pka_rsa_mod_exp, pka_do_mod_exp. pres. Qed.
Lemma pres_exp_crt fuel res1 me v p q dp dq qi r : preserves P (pka_rsa_mod_exp_crt fuel res1 me v p q dp dq qi r).
Proof using HP. unfold pka_rsa_mod_exp_crt, pka_do_mod_exp_crt. pres. Qed.
End lib_only.

(** [pka_engine_get_handle] gives at most the calling thread a handle. *)
Lemma get_handle_run me g rc g' : pka_engine_get_handle me g = Ret (rc, g') ->
  gbl_engine g' = gbl_engine g /\ gbl_engine_init g' = gbl_engine_init g /\
  gbl_engine_finish g' = gbl_engine_finish g /\ forall t, t <> me -> handle t g' = handle t g.
Proof.
  unfold pka_engine_get_handle, bind at 1, mget. case_match; [by intros [= <- <-]|].
  case_match; [by intros [= <- <-]|]. unfold set_handle, bind, mmod, call. simpl.
  destruct (pka_init_local _ _) as [h w]. intros E.
  assert (g' = g <| tls_handle ::= insert me PKA_HANDLE_INVALID |> <| lib := w |> <| tls_handle ::= insert me h |>) as ->
    by (by case_match; injection E).
  repeat split. intros t Ht. rewrite !handle_set, decide_False by done.
  unfold handle. simpl. by rewrite lookup_insert_ne.
Qed.

Lemma init_inv me g rv g' : engine_inv g -> pka_init me g = Ret (rv, g') -> engine_inv g'.
Proof.
  intros Hi. unfold pka_init, bind at 1, mget.
  destruct (Z.eqb_spec (gbl_engine_init g) 1) as [E1|E1]; [by intros [= _ <-]|].
  pose proof Hi as [_ [E0|?] Hf Hb Ho]; [|done]. destruct (Hb E0) as [Ev Hh].
  unfold pka_init_engine, pka_get_engine, pka_reset_engine, pka_engine_get_instance, set_pka_instance, set_valid.
  unfold bind, mmod, mget, call, ret. simpl. rewrite Ev. simpl.
  destruct (pka_init_global (lib g)) as [i w]. destruct (instance_is_valid i) eqn:Ei; simpl.
  - match goal with |- context [pka_engine_get_handle me ?st] => set (g1 := st) end.
    intros E. destruct (pka_engine_get_handle me g1) as [[rc g2]|f] eqn:Eh; [|done].
    destruct (get_handle_run _ _ _ _ Eh) as (G1 & G2 & G3 & G4). simpl in E. injection E as _ <-.
    split; simpl; [by rewrite G1|right; rewrite G2; simpl; by rewrite E0|by rewrite G3|rewrite G2; simpl; by rewrite E0|].
    exists me. intros t Ht. unfold handle. simpl. fold (handle t g2). rewrite G4 by done. apply Hh.
  - intros [= _ <-]. split; simpl; try done; by eauto.
Qed.

(** The only effective call of [pka_finish]. *)
Lemma finish_run me g rv g' : pka_finish me g = Ret (rv, g') ->
  rv = 1 /\ gbl_engine_init g' = gbl_engine_init g /\
  (forall t, handle t g' = handle t g \/ handle_is_valid (handle t g') = false) /\
  if gbl_engine_finish g =? 0
  then gbl_engine_finish g' = u32 (gbl_engine_finish g + 1) /\ valid (gbl_engine g') = false /\
    (valid (gbl_engine g) = true ->
     instance (gbl_engine g') = PKA_INSTANCE_INVALID /\ handle_is_valid (handle me g') = false)
  else g' = g.
Proof.
  unfold pka_finish, bind at 1, mget. destruct (Z.eqb_spec (gbl_engine_finish g) 0) as [E0|E0].
  2: { intros [= <- <-]. by eauto. }
  unfold pka_put_engine, pka_engine_put_handle, pka_engine_put_instance, set_pka_instance, set_valid, set_handle, call_.
  unfold bind, mmod, mget, ret. destruct (valid (gbl_engine g)) eqn:Ev; simpl.
  - intros E. set (hi := handle_is_valid (handle me g)) in *.
    assert (forall w, handle me (g <| lib := w |> <| tls_handle ::= insert me PKA_HANDLE_INVALID |>) = PKA_HANDLE_INVALID) as Hm
      by (intros w; by rewrite handle_set, decide_True).
    destruct hi; simpl in E; injection E as <- <-; (split; [done|]; split; [done|]; split; [|repeat split; simpl; try done]).
    1, 3: intros t; unfold handle; simpl; destruct (decide (t = me)) as [->|];
      [right; rewrite lookup_insert_eq; apply invalid_handle|left; by rewrite lookup_insert_ne].
    all: unfold handle; simpl; rewrite lookup_insert_eq; apply invalid_handle.
  - intros [= <- <-]. split; [done|]. split; [done|]. split; [by left|done].
Qed.

Lemma finish_inv me g rv g' : engine_inv g -> pka_finish me g = Ret (rv, g') -> engine_inv g'.
Proof.
  intros [Hi Hn Hf Hb [owner Ho]] E. destruct (finish_run _ _ _ _ E) as (_ & En & Hh & H').
  destruct (Z.eqb_spec (gbl_engine_finish g) 0) as [E0|E0]; [|by subst g'; split; eauto].
  destruct H' as (Ef & Ev & _). split; rewrite ?En, ?Ev; try done.
  - right. by rewrite Ef, E0.
  - intros Hz. split; [done|]. intros t. destruct (Hh t) as [->|?]; [by apply Hb|done].
  - exists owner. intros t Ht. destruct (Hh t) as [->|?]; [by apply Ho|done].
Qed.

Lemma engine_inv_lib g w : engine_inv g -> engine_inv (g <| lib := w |>).
Proof. by intros []. Qed.

Lemma engine_step_inv g g' : engine_step g g' -> engine_inv g -> engine_inv g'.
Proof.
  intros [c rc g1 g1' E] Hi. destruct c; cbn [run_api] in E.
  - by eapply init_inv.
  - by eapply finish_inv.
  - apply bind_inv in E as (a & s1 & E & [= _ <-]). exact (pres_exp engine_inv engine_inv_lib _ _ _ _ _ _ _ _ _ _ Hi E).
  - apply bind_inv in E as (a & s1 & E & [= _ <-]). exact (pres_exp_crt engine_inv engine_inv_lib _ _ _ _ _ _ _ _ _ _ _ _ _ Hi E).
Qed.

Lemma engine_inv0 w : engine_inv (engine0 w).
Proof.
  assert (forall t, handle_is_valid (handle t (engine0 w)) = false) as Hh
    by (intros t; unfold handle_is_valid, handle; simpl; rewrite lookup_empty; simpl; by rewrite andb_false_r).
  split; simpl; [done|by left|by left|by intros _|by exists 0%nat].
Qed.

Lemma reachable_inv w g : rtc engine_step (engine0 w) g -> engine_inv g.
Proof.
  intros Hr. pose proof (engine_inv0 w) as Hi. revert Hi.
  induction Hr as [|g1 g2 g3 Hs _ IH]; [done|]. intros Hi. apply IH. by eapply engine_step_inv.
Qed.

(** The state of an engine that was created and released. *)
Definition released (hs : nat -> bool) (g : globals) : Prop :=
  gbl_engine_init g = 1 /\ gbl_engine_finish g = 1 /\ valid (gbl_engine g) = false /\
  forall t, hs t = false -> handle_is_valid (handle t g) = false.

Lemma released_lib hs g w : released hs g -> released hs (g <| lib := w |>).
Proof. by intros (?&?&?&?). Qed.
Lemma released_step hs g g' : engine_step g g' -> released hs g -> released hs g'.
Proof.
  intros [c rc g1 g1' E] Hr. destruct c; cbn [run_api] in E.
  - pose proof Hr as [E1 _]. unfold pka_init, bind at 1, mget in E. rewrite E1 in E. by injection E as _ <-.
  - destruct (finish_run _ _ _ _ E) as (_ & _ & _ & H'). pose proof Hr as (_ & E1 & _).
    rewrite E1 in H'. simpl in H'. by subst g1'.
  - apply bind_inv in E as (a & s1 & E & [= _ <-]).
    exact (pres_exp (released hs) (released_lib hs) _ _ _ _ _ _ _ _ _ _ Hr E).
  - apply bind_inv in E as (a & s1 & E & [= _ <-]).
    exact (pres_exp_crt (released hs) (released_lib hs) _ _ _ _ _ _ _ _ _ _ _ _ _ Hr E).
Qed.
Lemma released_steps hs g g' : rtc engine_step g g' -> released hs g -> released hs g'.
Proof. induction 1 as [|g1 g2 g3 Hs _ IH]; [done|]. intros Hr. apply IH. by eapply released_step. Qed.

Lemma exp_without_handle fuel res1 me v e m r g :
  handle_is_valid (handle me g) = false -> pka_rsa_mod_exp fuel res1 me v e m r g = Ret ((0, r), g).
Proof. intros E. unfold pka_rsa_mod_exp, bind at 1, mget. by rewrite E. Qed.

(** ** The two theorems on the engine *)

(** In every state the calls of any threads lead to, an engine marked valid
    has a usable instance, before the first successful [pka_init] there is
    neither engine nor handle, and at most one thread ever has a handle: in any
    other one the exponentiation is refused, whatever [pka_init] returned. *)
Theorem engine_reachable w g :
  rtc engine_step (engine0 w) g ->
  (valid (gbl_engine g) = true -> instance_is_valid (instance (gbl_engine g)) = true /\ gbl_engine_init g = 1) /\
  exists owner, forall t fuel res1 v e m r, t <> owner ->
    pka_rsa_mod_exp fuel res1 t v e m r g = Ret ((0, r), g).
Proof.
  intros [Hi Hn Hf Hb [owner Ho]]%reachable_inv. split.
  - intros Hv. split; [by apply Hi|]. destruct Hn as [E|E]; [|done]. by destruct (Hb E); congruence.
  - exists owner. intros. by apply exp_without_handle, Ho.
Qed.

(** Once [pka_finish] has released the engine there is none again: whatever
    is called afterwards, by whatever thread, [pka_init] answers 1 without
    creating one, [pka_finish] releases nothing more, and the thread that
    finished gets no result. *)
Theorem released_engine_stays_down w g me rv g1 g2 :
  rtc engine_step (engine0 w) g -> valid (gbl_engine g) = true -> gbl_engine_finish g = 0 ->
  pka_finish me g = Ret (rv, g1) -> rtc engine_step g1 g2 ->
  valid (gbl_engine g2) = false /\
  (forall t, pka_init t g2 = Ret (1, g2)) /\ (forall t, pka_finish t g2 = Ret (1, g2)) /\
  forall fuel res1 v e m r, pka_rsa_mod_exp fuel res1 me v e m r g2 = Ret ((0, r), g2).
Proof.
  intros Hr Hv Hf E Hs. apply reachable_inv in Hr as [_ Hn _ Hb _].
  assert (gbl_engine_init g = 1) as E1 by (destruct Hn as [E0|]; [destruct (Hb E0); congruence|done]).
  destruct (finish_run _ _ _ _ E) as (_ & En & Hh & H'). rewrite Hf in H'. simpl in H'.
  destruct H' as (Ef & Ev & Hme). destruct (Hme Hv) as [_ Hhm].
  assert (released (fun t => negb (bool_decide (t = me))) g1) as Hrel.
  { split; [congruence|]. split; [by rewrite Ef|]. split; [done|].
    intros t Ht. apply negb_false_iff, bool_decide_eq_true in Ht. by subst t. }
  apply (released_steps _ _ _ Hs) in Hrel as (R1 & R2 & R3 & R4).
  split; [done|]. split; [|split].
  - intros t. unfold pka_init, bind at 1, mget. by rewrite R1.
  - intros t. unfold pka_finish, bind at 1, mget. by rewrite R2.
  - intros. apply exp_without_handle, R4. by rewrite bool_decide_eq_true_2.
Qed.

(** ** Numbers in and out *)

Lemma length_limbs_of n b : length (limbs_of n b) = n.
Proof. revert b. induction n as [|n IH]; intros b; simpl; [done|]. by rewrite IH. Qed.
Lemma limbs_of_range n b : bytes_ok b -> (8 * n <= length b)%nat -> Forall (fun l => 0 <= l < 2 ^ 64) (limbs_of n b).
Proof.
  revert b. induction n as [|n IH]; intros b Hb Hl; cbn [limbs_of]; constructor.
  - pose proof (le_val_range (take 8 b) ltac:(by apply Forall_take)) as Hr.
    rewrite length_take, Nat.min_l in Hr by lia. exact Hr.
  - apply IH; [by apply Forall_drop|]. rewrite length_drop. lia.
Qed.
(** The number in the first [top] limbs of memory. *)
Lemma bn_val_limbs_of n b top :
  bytes_ok b -> (8 * n <= length b)%nat -> (top <= n)%nat ->
  bn_val (take top (limbs_of n b)) = le_val (take (8 * top) b).
Proof.
  revert b top. induction n as [|n IH]; intros b top Hb Hl Ht; [by assert (top = 0)%nat as -> by lia|].
  destruct top as [|top]; [done|]. cbn [limbs_of take bn_val foldr]. fold (bn_val (take top (limbs_of n (drop 8 b)))).
  rewrite IH; [|by apply Forall_drop|rewrite length_drop; lia|lia].
  replace (8 * S top)%nat with (8 + 8 * top)%nat by lia.
  rewrite <-(take_drop 8 b) at 3. rewrite take_app_add' by (rewrite length_take; lia).
  rewrite le_val_app, length_take, Nat.min_l by lia. done.
Qed.

Lemma bignum_to_operand_le_spec d top dmax :
  bignum_ok d top dmax ->
  exists op, bignum_to_operand_le (mk_bignum (Some d) top dmax) = Ret (Some op) /\
    operand_ok op /\ big_endian op = false /\ actual_len op = 8 * top /\
    operand_val op = bn_val (take (Z.to_nat top) d).
Proof.
  intros [Hl Hu Hs Hd]. unfold bignum_to_operand_le, make_operand_le, PKA_BYTES. cbn [bn_d bn_top bn_dmax].
  rewrite !u32_id by (unfold is_u32; lia). rewrite (proj2 (Z.eqb_neq _ _)) by lia.
  unfold operand_byte_copy_le. cbn [buf_len]. rewrite (proj2 (Z.ltb_ge _ _)) by lia. unfold memcpy. cbn [buf_ptr].
  rewrite (proj2 (Z.leb_le _ _)) by len. rewrite (proj2 (Z.leb_le _ _)) by (rewrite length_limb_bytes; lia).
  cbn [andb res_bind]. eexists. split; [done|].
  assert (take (Z.to_nat (top * 8)) (take (Z.to_nat (top * 8)) (limb_bytes d) ++
            drop (Z.to_nat (top * 8)) (zeros (Z.to_nat (dmax * 8)))) = limb_bytes (take (Z.to_nat top) d)) as Et.
  { rewrite take_app_le by (rewrite length_take, length_limb_bytes; lia). rewrite take_idemp.
    rewrite <-take_limb_bytes. f_equal. lia. }
  split; [|split; [done|split; [simpl; lia|]]].
  - split; simpl.
    + apply Forall_app. split; [apply Forall_take, limb_bytes_ok|apply Forall_drop, zeros_ok].
    + rewrite length_app, length_take, length_limb_bytes, length_drop. len.
  - unfold operand_val, digits, be_val. simpl. rewrite reverse_involutive, Et.
    apply le_val_limb_bytes. by apply Forall_take.
Qed.

(** What is left of the limbs above the bytes copied: nothing is cleared. *)
Definition stale_bytes (d : list Z) (len : Z) : bytes :=
  take (Z.to_nat (8 * ((len + 7) / 8) - len)) (drop (Z.to_nat len) (limb_bytes d)).

Lemma set_bignum_spec d top dmax op :
  bignum_ok d top dmax -> operand_ok op -> big_endian op = false ->
  actual_len op <= 8 * dmax -> actual_len op < 2 ^ 16 ->
  exists d', set_bignum (mk_bignum (Some d) top dmax) op =
      Ret (mk_bignum (Some d') ((actual_len op + 7) / 8) dmax) /\
    bn_val (take (Z.to_nat ((actual_len op + 7) / 8)) d') =
      operand_val op + 256 ^ actual_len op * le_val (stale_bytes d (actual_len op)).
Proof.
  intros [Hl Hu Hs Hd] [Hob Hol] Hbe Hlen H16. set (n := actual_len op) in *.
  pose proof (Z.div_mod (n + 7) 8 ltac:(lia)) as Hdm. pose proof (Z.mod_pos_bound (n + 7) 8 ltac:(lia)).
  set (top' := (n + 7) / 8) in *.
  unfold set_bignum. fold n. rewrite u16_id by (unfold is_u16; lia). unfold PKA_BYTES. change (8 - 1) with 7.
  fold top'. cbn [bn_d bn_dmax]. rewrite (proj2 (Z.ltb_ge _ _)) by lia. unfold memcpy.
  rewrite length_limb_bytes, !(proj2 (Z.leb_le _ _)) by lia. cbn [andb res_bind].
  eexists. split; [reflexivity|].
  set (b := take (Z.to_nat n) (buf_ptr op) ++ drop (Z.to_nat n) (limb_bytes d)).
  assert (length b = 8 * length d)%nat as Hb
    by (unfold b; rewrite length_app, length_take, length_drop, length_limb_bytes; lia).
  rewrite bn_val_limbs_of; [|apply Forall_app; split; [by apply Forall_take|apply Forall_drop, limb_bytes_ok]|lia|lia].
  unfold b. replace (8 * Z.to_nat top')%nat with (Z.to_nat n + Z.to_nat (8 * top' - n))%nat by lia.
  rewrite take_app_add' by (rewrite length_take; lia). rewrite le_val_app, length_take, Nat.min_l by lia.
  unfold operand_val, digits, be_val. rewrite Hbe, reverse_involutive. fold n.
  rewrite Z2Nat.id by lia. done.
Qed.

(** ** The exponentiation *)

(** After [k] polls without a result the library answers [r]. *)
Inductive answers (h : Z) (buf : pka_operand) : nat -> library -> Z * pka_operand -> library -> Prop :=
| answers_now w r w' : pka_get_result h buf w = (Some r, w') -> answers h buf 0 w r w'
| answers_later k w w1 r w' :
    pka_get_result h buf w = (None, w1) -> answers h buf k w1 r w' -> answers h buf (S k) w r w'.

Lemma wait_run h buf k w r w' g fuel :
  answers h buf k w r w' -> (k < fuel)%nat ->
  pka_wait_for_results fuel h buf (g <| lib := w |>) = Ret (r, g <| lib := w' |>).
Proof.
  intros Ha. revert fuel g. induction Ha as [w r w' E|k w w1 r w' E _ IH]; intros [|fuel] g Hf; try lia;
    cbn [pka_wait_for_results]; unfold bind, call; simpl; rewrite E; [done|].
  apply (IH fuel g). lia.
Qed.

(** The library computes modular powers: a request on well-formed
    little-endian operands is accepted, and its result arrives after finitely
    many polls, little-endian in the buffer and no longer than the modulus. *)
Class PkaLaws : Prop := {
  laws_max : 0 <= MAX_BYTE_LEN < 2 ^ 16;
  laws_exp h e m v w :
    handle_is_valid h = true -> operand_ok e -> operand_ok m -> operand_ok v ->
    big_endian e = false -> big_endian m = false -> big_endian v = false ->
    0 < operand_val m -> actual_len m <= MAX_BYTE_LEN ->
    exists w1, pka_modular_exp h e m v w = (SUCCESS, w1) /\
      forall buf, length (buf_ptr buf) = Z.to_nat MAX_BYTE_LEN -> bytes_ok (buf_ptr buf) -> big_endian buf = false ->
      exists k r w2, answers h buf k w1 (SUCCESS, r) w2 /\ operand_ok r /\ big_endian r = false /\
        actual_len r <= actual_len m /\
        operand_val r = operand_val v ^ operand_val e mod operand_val m;
}.

(** A request the library can compute gives a fresh little-endian operand. *)
Lemma do_mod_exp_run `{!PkaLaws} h v e m res1 g :
  handle_is_valid h = true -> operand_ok e -> operand_ok m -> operand_ok v ->
  big_endian e = false -> big_endian m = false -> big_endian v = false ->
  0 < operand_val m -> actual_len m <= MAX_BYTE_LEN -> length res1 = Z.to_nat MAX_BYTE_LEN ->
  exists k w2 op, (forall fuel, (k < fuel)%nat ->
      pka_do_mod_exp fuel res1 h (Some v) (Some e) (Some m) g = Ret (Some op, g <| lib := w2 |>)) /\
    operand_ok op /\ big_endian op = false /\ actual_len op <= actual_len m /\
    operand_val op = operand_val v ^ operand_val e mod operand_val m.
Proof.
  intros Hh Oe Om Ov Be Bm Bv Hpos Hmax Hres1. pose proof laws_max as Hmb.
  destruct (laws_exp h e m v (lib g)) as (w1 & Ex & Hans); try done.
  set (buf := mk_operand (zeros (Z.to_nat MAX_BYTE_LEN)) MAX_BYTE_LEN 0 0 false).
  destruct (Hans buf) as (k & r & w2 & Ha & Or & Br & Lr & Vr); [apply length_zeros|apply zeros_ok|done|].
  pose proof (ok_actual _ Or) as Hrl.
  set (op := r <| buf_ptr := take (Z.to_nat (actual_len r)) (buf_ptr r) |> <| big_endian := false |>).
  exists k, w2, op. split.
  - intros fuel Hf. unfold pka_do_mod_exp. do 3 (erewrite bind_ret by reflexivity).
    erewrite bind_ret by (unfold call; rewrite Ex; reflexivity). cbn [negb Z.eqb SUCCESS].
    unfold results_to_operand. erewrite bind_ret.
    2: { unfold mres, memset0. rewrite (proj2 (Z.leb_le _ _)) by lia.
         rewrite drop_ge, app_nil_r by lia. reflexivity. }
    fold buf. erewrite bind_ret by (by apply (wait_run _ _ k)). cbn [negb Z.eqb SUCCESS].
    unfold copy_operand, malloc_operand. cbn [buf_ptr]. unfold memcpy.
    rewrite length_zeros, !(proj2 (Z.leb_le _ _)) by lia. cbn [andb res_bind].
    rewrite drop_ge, app_nil_r by (rewrite length_zeros; lia). reflexivity.
  - split; [split; simpl; [apply Forall_take, Or|rewrite length_take; lia]|]. split; [done|]. split; [done|].
    rewrite <-Vr. unfold operand_val, digits. simpl. by rewrite Br, take_idemp.
Qed.

(** C19: for a thread with a handle [pka_rsa_mod_exp] waits for the accelerator,
    returns 1 and leaves in the result [value ^ exponent mod modulus], as a
    number of just as many limbs as the result needs; the bytes of its last limb
    above the result keep what the result number held before, so the number is
    the power when the limbs were zero, and otherwise may be too large. *)
Theorem rsa_mod_exp_correct `{!PkaLaws} g me res1 vd vt vm ed et em md mt mm rd rt rm :
  handle_is_valid (handle me g) = true ->
  bignum_ok vd vt vm -> bignum_ok ed et em -> bignum_ok md mt mm -> bignum_ok rd rt rm ->
  0 < bn_val (take (Z.to_nat mt) md) -> 8 * mt <= MAX_BYTE_LEN -> mt <= rm ->
  length res1 = Z.to_nat MAX_BYTE_LEN ->
  let x := bn_val (take (Z.to_nat vt) vd) ^ bn_val (take (Z.to_nat et) ed) mod bn_val (take (Z.to_nat mt) md) in
  exists polls n d' w, (forall fuel, (polls < fuel)%nat ->
    pka_rsa_mod_exp fuel res1 me (mk_bignum (Some vd) vt vm) (mk_bignum (Some ed) et em) (mk_bignum (Some md) mt mm)
      (mk_bignum (Some rd) rt rm) g = Ret ((1, mk_bignum (Some d') ((n + 7) / 8) rm), g <| lib := w |>)) /\
    0 <= n <= 8 * mt /\
    bn_val (take (Z.to_nat ((n + 7) / 8)) d') = x + 256 ^ n * le_val (stale_bytes rd n) /\
    (Forall (fun l => l = 0) rd -> bn_val (take (Z.to_nat ((n + 7) / 8)) d') = x).
Proof.
  intros Hh Hv He Hm Hr Hpos Hmax Hroom Hres1 x.
  destruct (bignum_to_operand_le_spec _ _ _ Hv) as (v & Ev & Ov & Bv & Lv & Vv).
  destruct (bignum_to_operand_le_spec _ _ _ He) as (e & Ee & Oe & Be & Le & Ve).
  destruct (bignum_to_operand_le_spec _ _ _ Hm) as (m & Em & Om & Bm & Lm & Vm).
  destruct (do_mod_exp_run (handle me g) v e m res1 g) as (k & w2 & op & Edo & Oop & Bop & Hle & Vr);
    try done; [by rewrite Vm|lia|].
  pose proof laws_max as Hmb. pose proof (ok_actual _ Oop). pose proof (bn_used _ _ _ Hm).
  destruct (set_bignum_spec rd rt rm op Hr Oop Bop) as (d' & Eset & Hval); [lia|lia|].
  exists k, (actual_len op), d', w2. rewrite Vr, Vv, Ve, Vm in Hval. fold x in Hval.
  split; [|split; [lia|split; [exact Hval|]]].
  - intros fuel Hf. unfold pka_rsa_mod_exp. unfold bind at 1, mget. rewrite Hh. cbn [negb].
    erewrite bind_ret by (unfold mres; rewrite Ev; reflexivity).
    erewrite bind_ret by (unfold mres; rewrite Ee; reflexivity).
    erewrite bind_ret by (unfold mres; rewrite Em; reflexivity).
    erewrite bind_ret by (by eapply Edo). unfold give_result.
    erewrite bind_ret by (unfold mres; rewrite Eset; reflexivity). done.
  - intros Hz. rewrite Hval. assert (le_val (stale_bytes rd (actual_len op)) = 0) as ->; [|lia].
    assert (forall l, Forall (fun b => b = 0) l -> le_val l = 0) as Hzero by (induction 1; cbn [le_val]; lia).
    apply Hzero. unfold stale_bytes. apply Forall_take, Forall_drop. clear -Hz.
    induction Hz as [|l d Hl _ IH]; [constructor|]. rewrite limb_bytes_cons. apply Forall_app. split; [|done].
    rewrite Hl. by repeat constructor.
Qed.
End engine.

(** ** A library to evaluate examples on

    It computes the power when it is asked, answers at the second poll, and
    writes as many bytes as the modulus has. *)
Definition sample_result (n : Z) (x : Z) (buf : pka_operand) : pka_operand :=
  mk_operand (le_bytes (Z.to_nat n) x ++ drop (Z.to_nat n) (buf_ptr buf)) (buf_len buf) n 0 false.
Definition sample_lib : PkaLib :=
  {| library := nat * Z * Z;
     PKA_INSTANCE_INVALID := -1;
     PKA_HANDLE_INVALID := -2;
     MAX_BYTE_LEN := 64;
     pka_init_global w := (7, w);
     pka_term_global i w := w;
     pka_init_local i w := (5, w);
     pka_term_local h w := w;
     pka_modular_exp h e m v w :=
       (SUCCESS, (1%nat, actual_len m, operand_val v ^ operand_val e mod operand_val m));
     pka_modular_exp_crt h v p q dp dq qinv w := (1, w);
     pka_get_result h buf w :=
       match w with
       | (S k, n, x) => (None, (k, n, x))
       | (O, n, x) => (Some (SUCCESS, sample_result n x buf), w)
       end |}.

Lemma sample_lib_laws : @PkaLaws sample_lib.
Proof.
  split; [simpl; lia|]. intros h e m v w _ Oe Om Ov _ Bm _ Hpos Hmax. eexists. split; [reflexivity|].
  intros buf Hlb Hob Hbe. destruct Om as [Hmb Hma].
  set (x := operand_val v ^ operand_val e mod operand_val m).
  assert (0 <= x < 256 ^ actual_len m) as Hx.
  { pose proof (Z.mod_pos_bound (operand_val v ^ operand_val e) (operand_val m) Hpos) as Hmod. fold x in Hmod.
    pose proof (be_val_range (digits m)) as Hr.
    assert (bytes_ok (digits m)) as Hd by (apply digits_ok; by split).
    specialize (Hr Hd). assert (Z.of_nat (length (digits m)) = actual_len m) as Hl.
    { unfold digits. rewrite Bm, length_reverse, length_take. lia. }
    rewrite Hl in Hr. unfold operand_val in Hmod. lia. }
  simpl in Hlb, Hmax. exists 1%nat, (sample_result (actual_len m) x buf), (0%nat, actual_len m, x).
  assert (length (le_bytes (Z.to_nat (actual_len m)) x) = Z.to_nat (actual_len m)) as Hl by apply length_le_bytes.
  split; [|split; [|split; [done|split; [simpl; lia|]]]].
  - eapply answers_later; [reflexivity|]. by apply answers_now.
  - split; simpl; [apply Forall_app; split; [apply le_bytes_ok|by apply Forall_drop]|].
    rewrite length_app, Hl, length_drop. lia.
  - unfold operand_val, digits, be_val. simpl. rewrite reverse_involutive, take_app_le by lia.
    rewrite take_ge by lia. rewrite le_val_le_bytes, Z2Nat.id by lia. by apply Z.mod_small.
Qed.

Definition sample_engine : @globals sample_lib :=
  match @pka_init sample_lib 0 (@engine0 sample_lib (0%nat, 0, 0)) with
  | Ret (_, g) => g
  | Fault _ => @engine0 sample_lib (0%nat, 0, 0)
  end.

Lemma sample_engine_reachable : rtc (@engine_step sample_lib) (@engine0 sample_lib (0%nat, 0, 0)) sample_engine.
Proof. apply rtc_once. by apply (@api_step sample_lib (Init 0) 1). Qed.

(** [3 ^ 5 mod 7 = 5], in a number whose limbs were zero. *)
Lemma rsa_mod_exp_correct_witness :
  exists polls n d' w, (forall fuel, (polls < fuel)%nat ->
    @pka_rsa_mod_exp sample_lib fuel (zeros 64) 0 (mk_bignum (Some [3]) 1 1) (mk_bignum (Some [5]) 1 1)
      (mk_bignum (Some [7]) 1 1) (mk_bignum (Some [0; 0]) 2 2) sample_engine =
    Ret ((1, mk_bignum (Some d') ((n + 7) / 8) 2), sample_engine <| lib := w |>)) /\
    bn_val (take (Z.to_nat ((n + 7) / 8)) d') = 5.
Proof.
  assert (forall d, Forall (fun l => 0 <= l < 2 ^ 64) [d] -> bignum_ok [d] 1 1) as Hb by (intros d Hd; by split).
  destruct (@rsa_mod_exp_correct sample_lib sample_lib_laws sample_engine 0 (zeros 64) [3] 1 1 [5] 1 1 [7] 1 1 [0; 0] 2 2)
    as (k & n & d' & w & E & _ & _ & Hz).
  - reflexivity.
  - apply Hb. by repeat constructor.
  - apply Hb. by repeat constructor.
  - apply Hb. by repeat constructor.
  - split; [done|done|done|by repeat constructor].
  - reflexivity.
  - simpl. lia.
  - lia.
  - reflexivity.
  - exists k, n, d', w. split; [exact E|]. apply Hz. by repeat constructor.
Defined.

Lemma engine_reachable_witness :
  exists owner, forall t fuel res1 v e m r, t <> owner ->
    @pka_rsa_mod_exp sample_lib fuel res1 t v e m r sample_engine = Ret ((0, r), sample_engine).
Proof. exact (proj2 (@engine_reachable sample_lib (0%nat, 0, 0) sample_engine sample_engine_reachable)). Defined.

Definition finished_engine : @globals sample_lib :=
  match @pka_finish sample_lib 0 sample_engine with Ret (_, g) => g | Fault _ => sample_engine end.

Lemma released_engine_stays_down_witness :
  valid (@gbl_engine sample_lib finished_engine) = false /\
  (forall t, @pka_init sample_lib t finished_engine = Ret (1, finished_engine)).
Proof.
  destruct (@released_engine_stays_down sample_lib (0%nat, 0, 0) sample_engine 0 1 finished_engine finished_engine
              sample_engine_reachable eq_refl eq_refl eq_refl (rtc_refl _ _)) as (Hv & Hi & _).
  split; [exact Hv|exact Hi].
Defined.

(** A number that was [2^64 - 1] keeps seven bytes of it: [3 ^ 5 mod 7] in one
    byte, if the library returns it so, reads as [2^64 - 251]. *)
Example stale_result :
  set_bignum (mk_bignum (Some [2 ^ 64 - 1]) 1 1) (mk_operand [5] 1 1 0 false) =
  Ret (mk_bignum (Some [2 ^ 64 - 251]) 1 1).
Proof. vm_compute. reflexivity. Qed.
