(* ===== verification/RandOperand.v ===== *)
(** * Random operands and Montgomery points (pka_helper.c)

    [rand_operand] draws a number of an exact bit length; the constructor of
    Montgomery points is the one of Weierstrass points. *)

From S2P Require Import Prelude Operand Bignum BignumEcc.

Section rand.
Context (ring_order : bool) (get_rand_bytes : Z -> bytes).

(** The most significant byte with its top bit set and what is above cut off. *)
Definition top_byte (b num_msb_bits : Z) : Z :=
  Z.land (u8 (Z.lor b (Z.shiftl 1 (num_msb_bits - 1)))) (Z.shiftl 1 num_msb_bits - 1).

Definition rand_operand (bit_len : Z) (make_odd : bool) : res pka_operand :=
  let byte_len := u32 (bit_len + 7) / 8 in
  let result := (malloc_operand byte_len) <| actual_len := byte_len |> <| big_endian := ring_order |> in
  res_bind (memcpy (buf_ptr result) (get_rand_bytes byte_len) byte_len) (fun buf =>
  let msb_idx := if ring_order then 0 else byte_len - 1 in
  let lsb_idx := if ring_order then byte_len - 1 else 0 in
  let num_msb_bits := u32 (bit_len - 8 * (byte_len - 1)) in
  res_bind (ld buf msb_idx) (fun msb_byte =>
  if negb ((1 <=? num_msb_bits) && (num_msb_bits <=? 8)) then Fault Assert_failed else
  res_bind (st buf msb_idx (top_byte msb_byte num_msb_bits)) (fun buf =>
  res_bind (if make_odd then res_bind (ld buf lsb_idx) (fun b => st buf lsb_idx (Z.lor b 1)) else Ret buf) (fun buf =>
  let result := result <| buf_ptr := buf |> in
  res_bind (operand_bit_len result) (fun n =>
  if n =? bit_len then Ret result else Fault Assert_failed))))).
End rand.

(** [make_mont_ecc_point] has the body of [make_ecc_point]; the curve is not
    looked at. *)
Definition make_mont_ecc_point (x : bytes) (x_len : Z) (y : bytes) (y_len : Z) (be : bool) : res ecc_point :=
  res_bind (make_operand_buf (operand0 <| big_endian := be |>) x x_len) (fun x =>
  res_bind (make_operand_buf (operand0 <| big_endian := be |>) y y_len) (fun y =>
  Ret (mk_point x y))).

(** ** The number drawn *)

Lemma top_byte_range b k : is_u8 b -> 1 <= k <= 8 -> 2 ^ (k - 1) <= top_byte b k < 2 ^ k.
Proof.
  intros Hb Hk. set (ok k b := (2 ^ (k - 1) <=? top_byte b k) && (top_byte b k <? 2 ^ k)).
  assert (forallb (fun k => forallb (ok k) (seqZ 0 256)) (seqZ 1 8) = true) as Hall by (vm_compute; reflexivity).
  apply Is_true_true, forallb_True in Hall. rewrite Forall_forall in Hall.
  specialize (Hall k ltac:(apply elem_of_seqZ; lia)). apply forallb_True in Hall. rewrite Forall_forall in Hall.
  specialize (Hall b ltac:(apply elem_of_seqZ; unfold is_u8 in Hb; lia)). apply Is_true_true in Hall. unfold ok in Hall. lia.
Qed.

(** The number whose most significant byte is [m]. *)
Lemma be_val_top m l k : 2 ^ (k - 1) <= m < 2 ^ k -> 1 <= k -> bytes_ok l ->
  2 ^ (k - 1 + 8 * Z.of_nat (length l)) <= be_val (m :: l) < 2 ^ (k + 8 * Z.of_nat (length l)).
Proof.
  intros Hm Hk Hl. rewrite be_val_cons. pose proof (be_val_range l Hl) as Hr.
  rewrite !Z.pow_add_r, (Z.pow_mul_r 2 8) by lia. change (2 ^ 8) with 256. nia.
Qed.
Lemma be_val_odd l b : Z.odd (be_val (l ++ [b])) = Z.odd b.
Proof.
  rewrite be_val_app. change (be_val [b]) with (b + 0). change (Z.of_nat (length [b])) with 1.
  rewrite Z.add_0_r, Z.odd_add, Z.odd_mul. change (Z.odd (256 ^ 1)) with false. by rewrite andb_false_r, xorb_false_l.
Qed.

(** The bytes of a full buffer, most significant first, and its two ends. *)
Definition in_order (be : bool) (buf : bytes) : bytes := if be then buf else reverse buf.

Lemma access_end (l : bytes) x y : ld (l ++ [x]) (Z.of_nat (length l)) = Ret x /\
  st (l ++ [x]) (Z.of_nat (length l)) y = Ret (l ++ [y]).
Proof.
  split.
  - rewrite ld_in by (rewrite length_app; simpl; lia). rewrite Nat2Z.id. unfold rd8.
    by rewrite lookup_app_r, Nat.sub_diag by lia.
  - rewrite st_in by (rewrite length_app; simpl; lia). rewrite Nat2Z.id. f_equal.
    rewrite <-(Nat.add_0_r (length l)). by rewrite insert_app_r.
Qed.
Lemma access_head (l : bytes) x y : ld (x :: l) 0 = Ret x /\ st (x :: l) 0 y = Ret (y :: l).
Proof. split; [done|]. rewrite st_in by (simpl; lia). done. Qed.

Lemma access_msb be buf d ds y : in_order be buf = d :: ds ->
  let i := if be then 0 else Z.of_nat (length buf) - 1 in
  ld buf i = Ret d /\ exists buf', st buf i y = Ret buf' /\ in_order be buf' = y :: ds.
Proof.
  unfold in_order. destruct be; intros E.
  - subst buf. destruct (access_head ds d y) as [-> ->]. by eauto.
  - apply (f_equal reverse) in E. rewrite reverse_involutive, reverse_cons in E. subst buf.
    rewrite length_app. simpl length. replace (Z.of_nat (length (reverse ds) + 1) - 1) with (Z.of_nat (length (reverse ds))) by lia.
    destruct (access_end (reverse ds) d y) as [-> ->]. split; [done|]. eexists. split; [done|].
    by rewrite reverse_app, reverse_involutive.
Qed.
Lemma access_lsb be buf d ds y : in_order be buf = ds ++ [d] ->
  let i := if be then Z.of_nat (length buf) - 1 else 0 in
  ld buf i = Ret d /\ exists buf', st buf i y = Ret buf' /\ in_order be buf' = ds ++ [y].
Proof.
  unfold in_order. destruct be; intros E.
  - subst buf. rewrite length_app. simpl length. replace (Z.of_nat (length ds + 1) - 1) with (Z.of_nat (length ds)) by lia.
    destruct (access_end ds d y) as [-> ->]. by eauto.
  - apply (f_equal reverse) in E. rewrite reverse_involutive, reverse_app in E. simpl in E. subst buf.
    change (reverse [d] ++ reverse ds) with (d :: reverse ds). destruct (access_head (reverse ds) d y) as [-> ->].
    split; [done|]. eexists. split; [done|]. by rewrite reverse_cons, reverse_involutive.
Qed.
Lemma length_in_order be buf : length (in_order be buf) = length buf.
Proof. destruct be; [done|apply length_reverse]. Qed.
Lemma in_order_ok be buf : bytes_ok buf <-> bytes_ok (in_order be buf).
Proof.
  destruct be; [done|]. split; [apply reverse_ok|]. intros Hb. rewrite <-(reverse_involutive buf). by apply reverse_ok.
Qed.
Lemma lor_1 b : 0 <= b -> Z.lor b 1 = 2 * (b / 2) + 1.
Proof.
  intros Hb. pose proof (Z.div_mod b 2 ltac:(lia)) as Hd. pose proof (Z.mod_pos_bound b 2 ltac:(lia)) as Hm.
  assert (b = Z.lor (Z.shiftl (b / 2) 1) (b mod 2)) as E by (rewrite lor_shiftl_add by lia; lia).
  rewrite E at 1. rewrite <-Z.lor_assoc. assert (b mod 2 = 0 \/ b mod 2 = 1) as [-> | ->] by lia;
    (rewrite lor_shiftl_add; [change (Z.lor 0 1) with 1; change (Z.lor 1 1) with 1; change (2 ^ 1) with 2; lia|lia|vm_compute; by split]).
Qed.
Lemma odd_lor_1 b : 0 <= b -> Z.odd (Z.lor b 1) = true.
Proof. intros Hb. by rewrite lor_1, Z.odd_add, Z.odd_mul. Qed.
Lemma lor_1_ok b : is_u8 b -> is_u8 (Z.lor b 1).
Proof. unfold is_u8. intros Hb. rewrite lor_1 by lia. pose proof (Z.div_mod b 2). pose proof (Z.mod_pos_bound b 2). lia. Qed.
Lemma lor_1_top m k : 2 ^ (k - 1) <= m < 2 ^ k -> 1 <= k -> 2 ^ (k - 1) <= Z.lor m 1 < 2 ^ k.
Proof.
  intros Hm Hk. assert (2 ^ k = 2 * 2 ^ (k - 1)) as E by (rewrite <-Z.pow_succ_r by lia; f_equal; lia).
  pose proof (Z.pow_pos_nonneg 2 (k - 1) ltac:(lia) ltac:(lia)). rewrite lor_1 by lia.
  pose proof (Z.div_mod m 2). pose proof (Z.mod_pos_bound m 2). lia.
Qed.

(** The last store, when an odd number is asked for. *)
Lemma finish_odd (ring_order make_odd : bool) buf1 m ds n k :
  in_order ring_order buf1 = m :: ds -> length ds = (Z.to_nat n - 1)%nat -> 1 <= n ->
  2 ^ (k - 1) <= m < 2 ^ k -> 1 <= k -> is_u8 m -> bytes_ok ds ->
  let lsb_idx := if ring_order then n - 1 else 0 in
  exists buf2 m2 l,
    (if make_odd then res_bind (ld buf1 lsb_idx) (fun b => st buf1 lsb_idx (Z.lor b 1)) else Ret buf1) = Ret buf2 /\
    in_order ring_order buf2 = m2 :: l /\ length l = (Z.to_nat n - 1)%nat /\ 2 ^ (k - 1) <= m2 < 2 ^ k /\
    bytes_ok (m2 :: l) /\ (make_odd = true -> Z.odd (be_val (m2 :: l)) = true).
Proof.
  intros E1 Hds Hn Hm Hk Hm8 Hob lsb_idx. destruct make_odd.
  2: { exists buf1, m, ds. split; [done|]. split; [done|]. split; [done|]. split; [done|]. by split; [constructor|]. }
  assert (Z.of_nat (length buf1) = n) as Hl
    by (rewrite <-(length_in_order ring_order buf1), E1; simpl; lia).
  pose proof Hm8 as [Hm0 _]. unfold lsb_idx. rewrite <-Hl. destruct ds as [|z xs _] using rev_ind.
  - destruct (access_lsb ring_order buf1 m [] (Z.lor m 1) E1) as (-> & buf2 & E2 & E3).
    cbn [res_bind]. exists buf2, (Z.lor m 1), []. split; [done|]. split; [done|]. split; [by rewrite Hl|].
    split; [by apply lor_1_top|]. split; [by constructor; [apply lor_1_ok|]|]. intros _.
    rewrite <-(app_nil_l [Z.lor m 1]), be_val_odd. by apply odd_lor_1.
  - apply Forall_app in Hob as [Hxs Hz]. apply Forall_cons in Hz as [Hz _].
    destruct (access_lsb ring_order buf1 z (m :: xs) (Z.lor z 1) E1) as (-> & buf2 & E2 & E3).
    cbn [res_bind]. exists buf2, m, (xs ++ [Z.lor z 1]). split; [done|]. split; [done|].
    split; [rewrite length_app in *; simpl in *; lia|]. split; [done|].
    split; [constructor; [done|]; apply Forall_app; split; [done|]; by constructor; [apply lor_1_ok|]|].
    intros _. change (m :: xs ++ [Z.lor z 1]) with ((m :: xs) ++ [Z.lor z 1]). rewrite be_val_odd.
    apply odd_lor_1. apply Hz.
Qed.

(** [rand_operand] returns, in the byte order of the rings and whatever the
    generator delivers, a number of exactly [bit_len] bits, odd when that was
    asked for; its last assertion holds. *)
Theorem rand_operand_bits ring_order get_rand_bytes bit_len make_odd :
  0 < bit_len < 2 ^ 32 - 7 ->
  let n := (bit_len + 7) / 8 in
  bytes_ok (get_rand_bytes n) -> length (get_rand_bytes n) = Z.to_nat n ->
  exists op, rand_operand ring_order get_rand_bytes bit_len make_odd = Ret op /\
    operand_ok op /\ actual_len op = n /\ big_endian op = ring_order /\
    2 ^ (bit_len - 1) <= operand_val op < 2 ^ bit_len /\
    (make_odd = true -> Z.odd (operand_val op) = true).
Proof.
  intros Hbl n Hrb Hrl. pose proof (Z.div_mod (bit_len + 7) 8 ltac:(lia)) as Hdm.
  pose proof (Z.mod_pos_bound (bit_len + 7) 8 ltac:(lia)). fold n in Hdm.
  unfold rand_operand. rewrite (u32_id (bit_len + 7)) by (unfold is_u32; lia). fold n. cbv zeta.
  set (k := bit_len - 8 * (n - 1)). rewrite (u32_id k) by (unfold is_u32, k; lia).
  assert (memcpy (zeros (Z.to_nat n)) (get_rand_bytes n) n = Ret (get_rand_bytes n)) as Ecp.
  { unfold memcpy. rewrite length_zeros, Hrl, !(proj2 (Z.leb_le _ _)) by lia. cbn [andb].
    rewrite take_ge, drop_ge, app_nil_r by (rewrite ?length_zeros; lia). done. }
  change (buf_ptr ((malloc_operand n) <| actual_len := n |> <| big_endian := ring_order |>)) with (zeros (Z.to_nat n)).
  rewrite Ecp. cbn [res_bind]. clear Ecp.
  set (buf := get_rand_bytes n) in *. assert (1 <= k <= 8) as Hk by lia.
  rewrite (proj2 (Z.leb_le 1 k)), (proj2 (Z.leb_le k 8)) by lia. cbn [andb negb].
  destruct (in_order ring_order buf) as [|d ds] eqn:Ed.
  { apply (f_equal length) in Ed. rewrite length_in_order, Hrl in Ed. simpl in Ed. lia. }
  assert (length ds = Z.to_nat n - 1)%nat as Hds
    by (apply (f_equal length) in Ed; rewrite length_in_order, Hrl in Ed; simpl in Ed; lia).
  pose proof (proj1 (in_order_ok ring_order buf) Hrb) as Hob. rewrite Ed in Hob. apply Forall_cons in Hob as [Hd Hob].
  pose proof (top_byte_range d k Hd Hk) as Hm.
  destruct (access_msb ring_order buf d ds (top_byte d k) Ed) as (El & buf1 & Es & E1).
  rewrite Hrl, Z2Nat.id in El, Es by lia. rewrite El. cbn [res_bind]. rewrite Es. cbn [res_bind].
  set (m := top_byte d k) in *.
  assert (is_u8 m) as Hm8.
  { unfold is_u8. pose proof (Z.pow_pos_nonneg 2 (k - 1) ltac:(lia) ltac:(lia)).
    pose proof (Z.pow_le_mono_r 2 k 8 ltac:(lia) ltac:(lia)) as Hp. change (2 ^ 8) with 256 in Hp. lia. }
  destruct (finish_odd ring_order make_odd buf1 m ds n k E1 Hds ltac:(lia) Hm ltac:(lia) Hm8 Hob)
    as (buf2 & m2 & l & E2 & E3 & Hl & Hm2 & Hok2 & Hodd).
  rewrite E2. cbn [res_bind].
  match goal with |- context [operand_bit_len ?o] => set (op := o) end.
  assert (length buf2 = Z.to_nat n) as Hl2
    by (rewrite <-(length_in_order ring_order buf2), E3; simpl; lia).
  assert (operand_ok op) as Hop.
  { split; simpl; [by apply (in_order_ok ring_order); rewrite E3|lia]. }
  assert (operand_val op = be_val (m2 :: l)) as Hval.
  { unfold operand_val, digits. simpl. rewrite take_ge by lia. rewrite <-E3. by destruct ring_order. }
  pose proof (be_val_top m2 l k Hm2 ltac:(lia) (Forall_inv_tail Hok2)) as Hr. rewrite Hl in Hr.
  replace (k - 1 + 8 * Z.of_nat (Z.to_nat n - 1)) with (bit_len - 1) in Hr by lia.
  replace (k + 8 * Z.of_nat (Z.to_nat n - 1)) with bit_len in Hr by lia. rewrite <-Hval in Hr, Hodd.
  pose proof (Z.pow_pos_nonneg 2 (bit_len - 1) ltac:(lia) ltac:(lia)).
  rewrite operand_bit_len_spec by (done || lia). cbn [res_bind].
  assert (Z.log2 (operand_val op) = bit_len - 1) as ->.
  { apply Z.log2_unique; [lia|]. by replace (Z.succ (bit_len - 1)) with bit_len by lia. }
  replace (bit_len - 1 + 1) with bit_len by lia. rewrite Z.eqb_refl. exists op. by repeat split; try apply Hop; try apply Hr.
Qed.

Lemma rand_operand_bits_witness :
  exists op, rand_operand true (fun n => replicate (Z.to_nat n) 0) 11 true = Ret op /\ operand_val op = 1025.
Proof.
  destruct (rand_operand_bits true (fun n => replicate (Z.to_nat n) 0) 11 true) as (op & E & _).
  - lia.
  - by repeat constructor.
  - reflexivity.
  - exists op. split; [exact E|]. vm_compute in E. injection E as <-. reflexivity.
Defined.
