(* ===== verification/SyncPka.v ===== *)
(** * Synchronous operations on the accelerator (benchmark_example/src/pka/pka_helper.c)

    The [sync_*] routines submit one request, wait for its result and return it
    as a new operand; where the operands are too large for the accelerator, or
    there is nothing to compute, the software arithmetic answers instead. *)

From S2P Require Import Prelude Operand Bignum BignumMod BignumEcc.

Inductive request : Type :=
| Add (value addend : pka_operand)
| Subtract (value subtrahend : pka_operand)
| Modulo (value modulus : pka_operand)
| Ecc_pt_mult (curve : ecc_curve) (pointA : ecc_point) (multiplier : pka_operand)
| Mont_ecdh_mult (curve : ecc_curve) (point private_key : pka_operand).

(** The PKA library: a request is accepted with SUCCESS or refused; a poll gives
    nothing, or a status with the results in the given buffers. *)
Class SyncLib := {
  device : Type;
  submit : request -> device -> Z * device;
  poll : list pka_operand -> device -> option (Z * list pka_operand) * device;
  MAX_RESULT : Z;
  rings_byte_order : bool;
}.
Definition PKA_SUCCESS : Z := 0.

Section sync.
Context `{SyncLib}.

Definition lib_call {A} (f : device -> A * device) : M device A := fun d => Ret (f d).

Fixpoint sync_wait (fuel : nat) (bufs : list pka_operand) : M device (Z * list pka_operand) :=
  match fuel with
  | O => mfault Prelude.Out_of_fuel
  | S fuel' =>
      do r <- lib_call (poll bufs);
      match r with
      | Some res => ret res
      | None => sync_wait fuel' bufs
      end
  end.

(** A result buffer: a cleared local array. *)
Definition result_buffer (local : bytes) : res pka_operand :=
  res_bind (memset0 local MAX_RESULT) (fun b => Ret (mk_operand b MAX_RESULT 0 0 false)).

Definition sync_result (fuel : nat) (res1 : bytes) : M device (option pka_operand) :=
  do buf <- mres (result_buffer res1);
  do (status, rs) <- sync_wait fuel [buf];
  if negb (status =? PKA_SUCCESS) then ret None else
  do r <- mderef (rs !! 0%nat);
  do op <- mres (copy_operand r (malloc_operand (actual_len r)));
  ret (Some op).

(** One of the two results as [get_results] stores it. *)
Definition fresh_copy (r : pka_operand) : res pka_operand :=
  res_bind (memcpy (zeros (Z.to_nat (actual_len r))) (buf_ptr r) (actual_len r)) (fun b =>
  Ret (mk_operand b (actual_len r) (actual_len r) 0 (big_endian r))).

(** [get_results] returns 0 when the status is an error, and 0 is SUCCESS. *)
Definition get_results (fuel : nat) (res1 res2 : bytes) (result1 result2 : pka_operand)
    : M device (Z * (pka_operand * pka_operand)) :=
  do buf1 <- mres (result_buffer res1);
  do buf2 <- mres (result_buffer res2);
  do (status, rs) <- sync_wait fuel [buf1; buf2];
  if negb (status =? PKA_SUCCESS) then ret (0, (result1, result2)) else
  do r1 <- mderef (rs !! 0%nat);
  do r2 <- mderef (rs !! 1%nat);
  do o1 <- mres (fresh_copy r1);
  do o2 <- mres (fresh_copy r2);
  ret (PKA_SUCCESS, (o1, o2)).

Definition request_result (fuel : nat) (res1 : bytes) (r : request) : M device (option pka_operand) :=
  do rc <- lib_call (submit r);
  if negb (rc =? PKA_SUCCESS) then ret None else sync_result fuel res1.

Definition sync_add (fuel : nat) (res1 : bytes) (value addend : pka_operand) : M device (option pka_operand) :=
  let sum_len := Z.max (actual_len value) (actual_len addend) + 1 in
  if MAX_RESULT <=? sum_len then mres (sw_add rings_byte_order value addend)
  else request_result fuel res1 (Add value addend).

Definition sync_subtract (fuel : nat) (res1 : bytes) (value subtrahend : pka_operand)
    : M device (option pka_operand) :=
  request_result fuel res1 (Subtract value subtrahend).

Definition sync_modulo (fuel : nat) (res1 : bytes) (value modulus : pka_operand) : M device (option pka_operand) :=
  do c <- mres (pki_compare value modulus);
  match c with
  | RC_LEFT_IS_SMALLER => mres (dup_operand (Some value))
  | _ => request_result fuel res1 (Modulo value modulus)
  end.

Definition sync_ecc_multiply (fuel : nat) (res1 res2 : bytes) (curve : ecc_curve) (pointA : ecc_point)
    (multiplier : pka_operand) : M device (option ecc_point) :=
  do rc <- lib_call (submit (Ecc_pt_mult curve pointA multiplier));
  if negb (rc =? PKA_SUCCESS) then ret None else
  do pt <- mres (malloc_ecc_point (actual_len (curve_p curve)) (actual_len (curve_p curve)) rings_byte_order);
  do (rc, xy) <- get_results fuel res1 res2 (pt_x pt) (pt_y pt);
  if negb (rc =? PKA_SUCCESS) then ret None else ret (Some (mk_point xy.1 xy.2)).

Definition sync_mont_ecdh (fuel : nat) (res1 : bytes) (curve : ecc_curve) (point private_key : pka_operand)
    : M device (option pka_operand) :=
  request_result fuel res1 (Mont_ecdh_mult curve point private_key).

(** ** What the accelerator computes *)

(** The number a request on numbers asks for. *)
Definition asked (r : request) : option Z :=
  match r with
  | Add v a => Some (operand_val v + operand_val a)
  | Subtract v s => if operand_val s <=? operand_val v then Some (operand_val v - operand_val s) else None
  | Modulo v m => if 0 <? operand_val m then Some (operand_val v mod operand_val m) else None
  | _ => None
  end.
Definition operands_ok (r : request) : Prop :=
  match r with
  | Add v a | Subtract v a | Modulo v a =>
      operand_ok v /\ operand_ok a /\ big_endian v = false /\ big_endian a = false
  | _ => False
  end.

Inductive replies (bufs : list pka_operand) : nat -> device -> Z * list pka_operand -> device -> Prop :=
| replies_now d r d' : poll bufs d = (Some r, d') -> replies bufs 0 d r d'
| replies_later k d d1 r d' : poll bufs d = (None, d1) -> replies bufs k d1 r d' -> replies bufs (S k) d r d'.

(** Documented behaviour: a request on well-formed little-endian operands is
    accepted, and after finitely many polls its number, if it fits, is in the
    buffer. *)
Class SyncLaws : Prop := {
  sync_max : 0 <= MAX_RESULT;
  sync_computes r x d :
    operands_ok r -> asked r = Some x -> 0 <= x < 256 ^ MAX_RESULT ->
    exists d1, submit r d = (PKA_SUCCESS, d1) /\
      forall buf, length (buf_ptr buf) = Z.to_nat MAX_RESULT -> bytes_ok (buf_ptr buf) -> big_endian buf = false ->
      exists k y d2, replies [buf] k d1 (PKA_SUCCESS, [y]) d2 /\ operand_ok y /\ big_endian y = false /\
        operand_val y = x /\ length (buf_ptr y) = length (buf_ptr buf);
}.

Lemma wait_replies bufs k d r d' fuel :
  replies bufs k d r d' -> (k < fuel)%nat -> sync_wait fuel bufs d = Ret (r, d').
Proof.
  intros Hr. revert fuel. induction Hr as [d r d' E|k d d1 r d' E _ IH]; intros [|fuel] Hf; try lia;
    cbn [sync_wait]; unfold bind, lib_call; rewrite E; [done|]. apply IH. lia.
Qed.

Lemma copy_result y : operand_ok y ->
  exists op, copy_operand y (malloc_operand (actual_len y)) = Ret op /\ operand_ok op /\
    operand_val op = operand_val y /\ big_endian op = big_endian y /\ actual_len op = actual_len y.
Proof.
  intros Hy. pose proof (ok_actual _ Hy). unfold copy_operand, malloc_operand. cbn [buf_ptr]. unfold memcpy.
  rewrite length_zeros, !(proj2 (Z.leb_le _ _)) by lia. cbn [andb res_bind].
  rewrite drop_ge, app_nil_r by (rewrite length_zeros; lia). eexists. split; [reflexivity|].
  split; [split; simpl; [apply Forall_take, Hy|rewrite length_take; lia]|].
  split; [|done]. unfold operand_val, digits. simpl. by rewrite take_idemp.
Qed.

(** A request the accelerator can compute. *)
Lemma accepted_run `{!SyncLaws} res1 r x d :
  operands_ok r -> asked r = Some x -> 0 <= x < 256 ^ MAX_RESULT -> length res1 = Z.to_nat MAX_RESULT ->
  exists polls op d', (forall fuel, (polls < fuel)%nat -> request_result fuel res1 r d = Ret (Some op, d')) /\
    operand_ok op /\ big_endian op = false /\ operand_val op = x /\ actual_len op <= MAX_RESULT.
Proof.
  intros Ho Ha Hx Hl. pose proof sync_max as Hm. destruct (sync_computes r x d Ho Ha Hx) as (d1 & E1 & Hr).
  set (buf := mk_operand (zeros (Z.to_nat MAX_RESULT)) MAX_RESULT 0 0 false).
  destruct (Hr buf) as (k & y & d2 & Hk & Hy & By & Vy & Ly); [apply length_zeros|apply zeros_ok|done|].
  destruct (copy_result y Hy) as (op & Ec & Oop & Vop & Bop & Lop).
  pose proof (ok_actual _ Hy) as Hay. rewrite Ly in Hay. unfold buf in Hay. cbn in Hay. rewrite length_zeros in Hay.
  exists k, op, d2. split; [|split; [done|split; [congruence|split; [congruence|lia]]]]. intros fuel Hf.
  unfold request_result. erewrite bind_ret by (unfold lib_call; rewrite E1; reflexivity). cbn [negb Z.eqb PKA_SUCCESS].
  unfold sync_result. erewrite bind_ret.
  2: { unfold mres, result_buffer, memset0. rewrite (proj2 (Z.leb_le _ _)) by lia.
       rewrite drop_ge, app_nil_r by lia. reflexivity. }
  fold buf. erewrite bind_ret by (by eapply wait_replies). cbn [negb Z.eqb PKA_SUCCESS].
  erewrite bind_ret by reflexivity. erewrite bind_ret by (unfold mres; rewrite Ec; reflexivity). done.
Qed.

(** *** When the software answers *)

Lemma lop_of op : operand_ok op -> big_endian op = false -> actual_len op < 2 ^ 32 -> lop (operand_val op) op.
Proof. intros Ho Hb Hl. pose proof (ok_actual _ Ho). split; [done|done|done|unfold is_u32; lia]. Qed.

Lemma dup_operand_spec v op : lop v op -> 0 < actual_len op ->
  exists op', dup_operand (Some op) = Ret (Some op') /\ lop v op' /\ actual_len op' = Z.max 1 (nbytes v).
Proof.
  intros Hop Hp. pose proof (lop_nbytes Hop). pose proof (lop_len Hop) as Hcap. pose proof (lop_range Hop) as Hv.
  pose proof (lop_u32 _ _ Hop) as Hu. unfold is_u32 in Hu. set (n := Z.max 1 (nbytes v)).
  assert (0 <= nbytes v) as Hnb by (destruct (decide (v = 0)) as [->|]; [vm_compute; discriminate|pose proof (nbytes_pos v); lia]).
  assert (exists lz, count_leading_zeros op = Ret lz /\ u32 (actual_len op - lz) = n) as (lz & Ez & El).
  { destruct (decide (v = 0)) as [->|Hne].
    - exists (actual_len op - 1). unfold count_leading_zeros. rewrite (lop_is_zero Hop). cbn [res_bind Z.eqb].
      rewrite u32_id by (unfold is_u32; lia). split; [done|]. unfold n. change (nbytes 0) with 0.
      replace (actual_len op - (actual_len op - 1)) with 1 by lia. done.
    - exists (actual_len op - nbytes v). split; [apply (lop_clz Hop); lia|].
      pose proof (nbytes_pos v ltac:(lia)). rewrite u32_id by (unfold is_u32; lia). lia. }
  unfold dup_operand. rewrite Ez. cbn [res_bind]. rewrite El, (lop_le _ _ Hop). cbn [buf_ptr malloc_operand].
  unfold memcpy. rewrite length_zeros, !(proj2 (Z.leb_le _ _)) by lia. cbn [andb res_bind].
  rewrite drop_ge, app_nil_r by (rewrite length_zeros; lia). eexists. split; [reflexivity|]. split; [|done].
  assert (lop v (op <| actual_len := n |>)) as Hs by (apply (lop_shrink Hop); lia).
  apply mk_lop_le; simpl; [apply Forall_take, (lop_bytes Hop)|rewrite length_take; lia|lia|done|].
  rewrite take_idemp. pose proof (lop_val _ _ Hs) as E. rewrite operand_val_le in E by apply Hs. exact E.
Qed.

Lemma sw_add_spec v a : operand_ok v -> operand_ok a -> big_endian v = false -> big_endian a = false ->
  Z.max (actual_len v) (actual_len a) < 2 ^ 32 - 1 ->
  exists op, sw_add false v a = Ret (Some op) /\ operand_ok op /\ big_endian op = false /\
    operand_val op = operand_val v + operand_val a.
Proof.
  intros Ov Oa Bv Ba Hl. unfold sw_add. rewrite Bv, Ba. cbn [eqb negb orb].
  set (n := Z.max (actual_len v) (actual_len a) + 1). pose proof (ok_actual _ Ov). pose proof (ok_actual _ Oa).
  destruct (pki_add_spec ((malloc_operand n) <| big_endian := false |>) n (lop_of v Ov Bv ltac:(lia)) (lop_of a Oa Ba ltac:(lia)))
    as (r & E & [Lr _ _]).
  - split; [apply zeros_ok|done|]. simpl. rewrite length_zeros. lia.
  - lia.
  - rewrite E. cbn [res_bind]. exists r. split; [done|]. split; [apply Lr|]. split; apply Lr.
Qed.

(** Whichever of the two computes - the accelerator, or the software when
    the sum is too long for it or the value is already reduced - [sync_add],
    [sync_subtract] and [sync_modulo] return after finitely many polls an
    operand that denotes the sum, the difference and the remainder. *)
Theorem sync_arithmetic_correct `{!SyncLaws} res1 v a d :
  rings_byte_order = false -> operand_ok v -> operand_ok a -> big_endian v = false -> big_endian a = false ->
  0 < actual_len v < 2 ^ 32 - 1 -> actual_len a < 2 ^ 32 - 1 -> length res1 = Z.to_nat MAX_RESULT ->
  let returns f x := exists polls op d', (forall fuel, (polls < fuel)%nat -> f fuel d = Ret (Some op, d')) /\
    operand_ok op /\ operand_val op = x in
  returns (fun fuel => sync_add fuel res1 v a) (operand_val v + operand_val a) /\
  (operand_val a <= operand_val v -> actual_len v <= MAX_RESULT ->
   returns (fun fuel => sync_subtract fuel res1 v a) (operand_val v - operand_val a)) /\
  (0 < operand_val a -> actual_len v <= MAX_RESULT ->
   returns (fun fuel => sync_modulo fuel res1 v a) (operand_val v mod operand_val a)).
Proof.
  intros Hro Ov Oa Bv Ba Hlv Hla Hres returns.
  assert (forall r x, operands_ok r -> asked r = Some x -> 0 <= x < 256 ^ MAX_RESULT -> returns (fun fuel => request_result fuel res1 r) x) as Hreq.
  { intros r x Ho Hx Hr. destruct (accepted_run res1 r x d Ho Hx Hr Hres) as (k & op & d' & E & Oop & _ & Vop & _).
    exists k, op, d'. by split. }
  pose proof (ok_actual _ Ov). pose proof (ok_actual _ Oa).
  assert (forall o n, operand_ok o -> actual_len o <= n -> 0 <= operand_val o < 256 ^ n) as Hval.
  { intros o n Ho Hn. pose proof (be_val_range (digits o) (digits_ok o Ho)) as Hr. rewrite length_digits in Hr by done.
    pose proof (ok_actual _ Ho). rewrite Z2Nat.id in Hr by lia. unfold operand_val.
    pose proof (Z.pow_le_mono_r 256 (actual_len o) n). lia. }
  split; [|split].
  - unfold sync_add. destruct (Z.leb_spec MAX_RESULT (Z.max (actual_len v) (actual_len a) + 1)) as [Hbig|Hsmall].
    2: { apply (Hreq (Add v a)); [done|done|]. set (n := Z.max (actual_len v) (actual_len a)) in *.
         pose proof (Hval v n Ov ltac:(lia)). pose proof (Hval a n Oa ltac:(lia)).
         pose proof (Z.pow_le_mono_r 256 (n + 1) MAX_RESULT) as Hp. rewrite Z.pow_add_r in Hp by lia. lia. }
    destruct (sw_add_spec v a Ov Oa Bv Ba ltac:(lia)) as (op & E & Oop & _ & Vop).
    exists 0%nat, op, d. split; [|by split]. intros fuel _. unfold mres. by rewrite Hro, E.
  - intros Hle Hfit. apply (Hreq (Subtract v a)); [done| |].
    + cbn [asked]. by rewrite (proj2 (Z.leb_le _ _)).
    + pose proof (Hval v _ Ov Hfit). pose proof (Hval a _ Oa (Z.le_refl _)). lia.
  - intros Hpos Hfit. pose proof (lop_of v Ov Bv ltac:(lia)) as Lv. pose proof (lop_of a Oa Ba ltac:(lia)) as La.
    pose proof (lop_range Lv) as Hv0. unfold sync_modulo. rewrite (lop_compare Lv La).
    assert (returns (fun fuel => request_result fuel res1 (Modulo v a)) (operand_val v mod operand_val a)) as Hm
      by (apply Hreq; [done|cbn [asked]; by rewrite (proj2 (Z.ltb_lt _ _))|];
          pose proof (Hval v _ Ov Hfit); pose proof (Z.mod_pos_bound (operand_val v) (operand_val a));
          pose proof (Z.mod_le (operand_val v) (operand_val a)); lia).
    destruct (Z.compare_spec (operand_val v) (operand_val a)) as [Hc|Hc|Hc]; cbn [code_of].
    1, 3: destruct Hm as (k & op & d' & E & HH); exists k, op, d'; split; [|exact HH]; intros fuel Hf;
      erewrite bind_ret by reflexivity; by apply E.
    destruct (dup_operand_spec _ _ Lv ltac:(lia)) as (op & E & Lop & _).
    exists 0%nat, op, d. split; [|split; [apply Lop|]].
    + intros fuel _. erewrite bind_ret by reflexivity. unfold mres. by rewrite E.
    + rewrite (lop_val _ _ Lop). symmetry. apply Z.mod_small. lia.
Qed.

(** When the accelerator answers with an error, [get_results] returns 0, which
    is SUCCESS, and [sync_ecc_multiply] gives its caller a point of two empty
    ordinates. *)
Theorem ecc_error_hidden fuel res1 res2 curve pointA k d d1 d2 polls status rs :
  submit (Ecc_pt_mult curve pointA k) d = (PKA_SUCCESS, d1) -> 0 <= MAX_RESULT ->
  length res1 = Z.to_nat MAX_RESULT -> length res2 = Z.to_nat MAX_RESULT -> 0 <= actual_len (curve_p curve) ->
  (let buf := mk_operand (zeros (Z.to_nat MAX_RESULT)) MAX_RESULT 0 0 false in
   replies [buf; buf] polls d1 (status, rs) d2) -> status <> PKA_SUCCESS -> (polls < fuel)%nat ->
  exists pt, sync_ecc_multiply fuel res1 res2 curve pointA k d = Ret (Some pt, d2) /\
    actual_len (pt_x pt) = 0 /\ actual_len (pt_y pt) = 0.
Proof.
  intros Es Hm H1 H2 Hp Hr Hst Hf. unfold sync_ecc_multiply.
  erewrite bind_ret by (unfold lib_call; rewrite Es; reflexivity). cbn [negb Z.eqb PKA_SUCCESS].
  assert (forall n, 0 <= n -> init_operand (zeros (Z.to_nat n)) n rings_byte_order =
            Ret (mk_operand (zeros (Z.to_nat n)) n 0 0 rings_byte_order)) as Hi.
  { intros n Hn. unfold init_operand, memset0. rewrite length_zeros, (proj2 (Z.leb_le _ _)) by lia.
    rewrite drop_ge, app_nil_r by (rewrite length_zeros; lia). done. }
  erewrite bind_ret by (unfold mres, malloc_ecc_point; rewrite !Hi by done; reflexivity).
  unfold get_results. rewrite bind_assoc.
  assert (forall l, length l = Z.to_nat MAX_RESULT -> result_buffer l =
            Ret (mk_operand (zeros (Z.to_nat MAX_RESULT)) MAX_RESULT 0 0 false)) as Hb.
  { intros l Hl. unfold result_buffer, memset0. rewrite (proj2 (Z.leb_le _ _)) by lia.
    by rewrite drop_ge, app_nil_r by lia. }
  erewrite bind_ret by (unfold mres; rewrite Hb by done; reflexivity). rewrite bind_assoc.
  erewrite bind_ret by (unfold mres; rewrite Hb by done; reflexivity). rewrite bind_assoc.
  erewrite bind_ret by (by eapply wait_replies). cbv beta iota.
  rewrite (proj2 (Z.eqb_neq _ _)) by done. cbn [negb].
  eexists. split; [reflexivity|]. done.
Qed.
End sync.

(** ** A device to evaluate examples on

    It answers at the second poll; its results have at most 16 bytes. *)
Definition sample_sync : SyncLib :=
  {| device := nat * option Z;
     submit r d := (PKA_SUCCESS, (1%nat, match r with
                                       | Add v a => Some (operand_val v + operand_val a)
                                       | Subtract v s => if operand_val s <=? operand_val v
                                                         then Some (operand_val v - operand_val s) else None
                                       | Modulo v m => if 0 <? operand_val m
                                                       then Some (operand_val v mod operand_val m) else None
                                       | _ => None
                                       end));
     poll bufs d :=
       match d with
       | (S k, x) => (None, (k, x))
       | (O, Some x) => (Some (PKA_SUCCESS, [mk_operand (le_bytes 16 x) 16 16 0 false]), d)
       | (O, None) => (Some (1, []), d)
       end;
     MAX_RESULT := 16;
     rings_byte_order := false |}.

Lemma sample_sync_laws : @SyncLaws sample_sync.
Proof.
  split; [simpl; lia|]. intros r x d Ho Ha Hx. simpl in Hx. exists (1%nat, Some x).
  split; [by destruct r; simpl in *; rewrite ?Ha|]. intros buf Hl _ _. simpl in Hl.
  exists 1%nat, (mk_operand (le_bytes 16 x) 16 16 0 false), (0%nat, Some x).
  split; [by eapply replies_later; [reflexivity|apply replies_now]|].
  split; [split; cbn [buf_ptr actual_len]; [apply le_bytes_ok|rewrite length_le_bytes; lia]|]. split; [done|].
  split; [|cbn [buf_ptr]; by rewrite length_le_bytes, Hl].
  unfold operand_val, digits, be_val. cbn [buf_ptr actual_len big_endian].
  rewrite reverse_involutive, take_ge by (rewrite length_le_bytes; lia).
  rewrite le_val_le_bytes. apply Z.mod_small. exact Hx.
Qed.

Lemma sync_arithmetic_correct_witness :
  exists polls op d', (forall fuel, (polls < fuel)%nat ->
    @sync_modulo sample_sync fuel (zeros 16) (mk_operand [7; 1] 2 2 0 false) (mk_operand [100] 1 1 0 false) (0%nat, None)
    = Ret (Some op, d')) /\ operand_ok op /\ operand_val op = 63.
Proof.
  refine (proj2 (proj2 (@sync_arithmetic_correct sample_sync sample_sync_laws (zeros 16) (mk_operand [7; 1] 2 2 0 false)
    (mk_operand [100] 1 1 0 false) (0%nat, None) _ _ _ _ _ _ _ _)) _ _); try done;
    try (split; [by repeat constructor|simpl; lia]).
Defined.
