(* ===== verification/HexString.v ===== *)
(** * Operands as hexadecimal text (helpers.c of the PKA benchmarks)

    [from_hex_string] reads an operand of either byte order from a string of
    digits, blanks and underscores; [to_hex_string] prints one. *)

From S2P Require Import Prelude Operand.

(** ** Characters *)

Definition isxdigit (ch : Z) : bool :=
  (48 <=? ch) && (ch <=? 57) || (65 <=? ch) && (ch <=? 70) || (97 <=? ch) && (ch <=? 102).
Definition isspace (ch : Z) : bool := (ch =? 32) || (9 <=? ch) && (ch <=? 13).

(** The tables of pka_benchmark.c: [FROM_HEX] is 0 outside the digits. *)
Definition FROM_HEX (ch : Z) : Z :=
  if (48 <=? ch) && (ch <=? 57) then ch - 48
  else if (97 <=? ch) && (ch <=? 102) then ch - 87
  else if (65 <=? ch) && (ch <=? 70) then ch - 55
  else 0.
Definition HEX_CHARS : bytes := [48; 49; 50; 51; 52; 53; 54; 55; 56; 57; 65; 66; 67; 68; 69; 70].

(** [strlen] reads on past the array when there is no terminator. *)
Fixpoint strlen (l : bytes) : res nat :=
  match l with
  | [] => Fault Out_of_bounds
  | b :: l' => if b =? 0 then Ret O else res_bind (strlen l') (fun n => Ret (S n))
  end.

(** ** Reading *)

(** The first loop: the number of digits, or [None] for another character. *)
Fixpoint count_digits (text : bytes) : option Z :=
  match text with
  | [] => Some 0
  | ch :: text' =>
      if isxdigit ch then (fun n => n + 1) <$> count_digits text'
      else if negb (isspace ch) && negb (ch =? 95) then None
      else count_digits text'
  end.

(** The second loop: [state] is [hexDigitState] and [ptr] the index
    [big_num_ptr] points to. *)
Fixpoint hex_loop (be : bool) (text : bytes) (ptr : Z) (state : bool) (hex_value1 : Z) (buf : bytes)
    : res bytes :=
  match text with
  | [] => Ret buf
  | ch :: text' =>
      if isxdigit ch then
        let hex_value := FROM_HEX ch in
        if state then
          res_bind (st buf ptr (u8 (Z.lor (Z.shiftl hex_value1 4) hex_value))) (fun buf =>
          hex_loop be text' (if be then ptr + 1 else ptr - 1) false hex_value1 buf)
        else hex_loop be text' ptr true hex_value buf
      else hex_loop be text' ptr state hex_value1 buf
  end.

(** Skip the initial 0x, if present. *)
Definition skip_0x (text : bytes) : bytes :=
  if (3 <=? Z.of_nat (length text)) && (rd8 text 0 =? 48) && (rd8 text 1 =? 120) then drop 2 text else text.

(** [from_hex_string]; [fresh] is the memory [malloc] gives when the operand has
    no buffer yet. *)
Definition from_hex_string (fresh : option bytes) (hex_string : bytes) (value : pka_operand)
    : res (Z * pka_operand) :=
  res_bind (strlen hex_string) (fun string_len =>
  let text := skip_0x (take string_len hex_string) in
  match count_digits text with
  | None => Ret (-1, value)
  | Some hexDigitCnt =>
      let byte_len := (hexDigitCnt + 1) / 2 in
      let go value :=
        res_bind (hex_loop (big_endian value) text (if big_endian value then 0 else byte_len - 1)
                    (Z.odd hexDigitCnt) 0 (buf_ptr value)) (fun b =>
        Ret (0, mk_operand b (buf_len value) byte_len 0 (big_endian value))) in
      match fresh with
      | Some b => go (value <| buf_ptr := b |> <| buf_len := byte_len |>)
      | None => if buf_len value <? byte_len then Ret (-1, value) else go value
      end
  end).

(** ** Printing *)

Fixpoint hex_out (be : bool) (n : nat) (src : bytes) (p : Z) (out : bytes) (i : Z) : res bytes :=
  match n with
  | O => Ret out
  | S n' =>
      res_bind (ld src p) (fun b =>
      res_bind (ld HEX_CHARS (Z.shiftr b 4)) (fun hi =>
      res_bind (st out i hi) (fun out =>
      res_bind (ld HEX_CHARS (Z.land b 15)) (fun lo =>
      res_bind (st out (i + 1) lo) (fun out =>
      hex_out be n' src (if be then p + 1 else p - 1) out (i + 2))))))
  end.

Definition to_hex_string (value : pka_operand) (string_buf : bytes) (len : Z) : res (Z * bytes) :=
  let byte_len := actual_len value in
  if len <=? byte_len then Ret (-1, string_buf) else
  res_bind (memset0 string_buf len) (fun out =>
  res_bind (hex_out (big_endian value) (Z.to_nat byte_len) (buf_ptr value)
              (if big_endian value then 0 else byte_len - 1) out 0) (fun out => Ret (0, out))).

(** ** The digits of a text and their number *)

Definition digit_values (text : bytes) : list Z := FROM_HEX <$> filter (fun ch => isxdigit ch = true) text.
Fixpoint hex_val (ds : list Z) : Z :=
  match ds with
  | [] => 0
  | d :: ds' => d * 16 ^ Z.of_nat (length ds') + hex_val ds'
  end.

(** The bytes the second loop stores, in order. *)
Fixpoint pack (pending : option Z) (ds : list Z) : bytes :=
  match ds with
  | [] => []
  | d :: ds' =>
      match pending with
      | Some h => h * 16 + d :: pack None ds'
      | None => pack (Some d) ds'
      end
  end.

Lemma FROM_HEX_range ch : 0 <= FROM_HEX ch < 16.
Proof. unfold FROM_HEX. repeat case_match; lia. Qed.
Lemma digit_values_range text : Forall (fun d => 0 <= d < 16) (digit_values text).
Proof. unfold digit_values. induction (filter _ text); constructor; [apply FROM_HEX_range|done]. Qed.
Lemma digit_values_cons ch text :
  digit_values (ch :: text) = if isxdigit ch then FROM_HEX ch :: digit_values text else digit_values text.
Proof. unfold digit_values. rewrite filter_cons. by destruct (isxdigit ch). Qed.

Lemma count_digits_length text n : count_digits text = Some n -> n = Z.of_nat (length (digit_values text)).
Proof.
  revert n. induction text as [|ch text IH]; intros n E; simpl in E; [by injection E|].
  rewrite digit_values_cons. destruct (isxdigit ch).
  - destruct (count_digits text) as [k|]; [|done]. injection E as <-. rewrite (IH k eq_refl). simpl. lia.
  - destruct (_ && _); [done|]. by apply IH.
Qed.

Lemma hex_val_range ds : Forall (fun d => 0 <= d < 16) ds -> 0 <= hex_val ds < 16 ^ Z.of_nat (length ds).
Proof.
  induction 1 as [|d ds Hd _ IH]; [done|]. cbn [hex_val length]. rewrite Nat2Z.inj_succ, Z.pow_succ_r by lia. nia.
Qed.

(** Two digits to a byte, most significant first. *)
Lemma pack_spec n : forall ds, (length ds <= n)%nat ->
  (Nat.even (length ds) = true -> length (pack None ds) = (length ds / 2)%nat /\ be_val (pack None ds) = hex_val ds) /\
  forall h, (Nat.odd (length ds) = true ->
    length (pack (Some h) ds) = ((length ds + 1) / 2)%nat /\
    be_val (pack (Some h) ds) = h * 16 ^ Z.of_nat (length ds) + hex_val ds).
Proof.
  induction n as [|n IH]; intros ds Hn.
  { destruct ds; [done|simpl in Hn; lia]. }
  destruct ds as [|d ds]; [done|]. cbn [length] in *. destruct (IH ds ltac:(lia)) as [He Ho].
  rewrite Nat.even_succ, Nat.odd_succ. split.
  - intros Hodd. destruct (Ho d Hodd) as [Hl Hv]. cbn [pack hex_val].
    split; [rewrite Hl; f_equal; lia|]. by rewrite Hv.
  - intros h Heven. destruct (He Heven) as [Hl Hv]. cbn [pack hex_val]. cbn [length].
    apply Nat.even_spec in Heven as [k Hk]. rewrite Hk in *. rewrite Nat.mul_comm, Nat.div_mul in Hl by done.
    split; [rewrite Hl; replace (S (2 * k) + 1)%nat with ((k + 1) * 2)%nat by lia; rewrite Nat.div_mul; lia|].
    rewrite be_val_cons, Hv, Hl, Nat2Z.inj_succ, Z.pow_succ_r by lia.
    replace (256 ^ Z.of_nat k) with (16 ^ Z.of_nat (2 * k)).
    + ring.
    + rewrite Nat2Z.inj_mul, Z.pow_mul_r by lia. done.
Qed.
Lemma pack_ok p ds : Forall (fun d => 0 <= d < 16) ds -> (forall h, p = Some h -> 0 <= h < 16) -> bytes_ok (pack p ds).
Proof.
  intros Hd. revert p. induction Hd as [|d ds Hd _ IH]; intros p Hp; [constructor|]. cbn [pack].
  destruct p as [h|]; [|apply IH; by intros ? [= <-]]. specialize (Hp h eq_refl).
  constructor; [unfold is_u8; lia|]. by apply IH.
Qed.

Lemma nibbles h d : 0 <= h < 16 -> 0 <= d < 16 -> u8 (Z.lor (Z.shiftl h 4) d) = h * 16 + d.
Proof.
  intros Hh Hd. rewrite lor_shiftl_add by lia. apply u8_id. unfold is_u8. lia.
Qed.

(** *** The loop stores the packed bytes upwards or downwards *)

Definition stored (be : bool) (ptr : Z) (bs buf : bytes) : bytes :=
  let from := Z.to_nat (if be then ptr else ptr + 1 - Z.of_nat (length bs)) in
  take from buf ++ (if be then bs else reverse bs) ++ drop (from + length bs) buf.

Lemma stored_nil be ptr buf : stored be ptr [] buf = buf.
Proof. unfold stored. simpl. rewrite Nat.add_0_r. destruct be; simpl; apply take_drop. Qed.

Lemma stored_cons (be : bool) ptr b bs buf :
  0 <= ptr < Z.of_nat (length buf) ->
  (if be then ptr + Z.of_nat (length (b :: bs)) <= Z.of_nat (length buf) else Z.of_nat (length (b :: bs)) <= ptr + 1) ->
  stored be (if be then ptr + 1 else ptr - 1) bs (<[Z.to_nat ptr := b]> buf) = stored be ptr (b :: bs) buf.
Proof.
  intros Hp Hl. unfold stored. cbn [length] in *. destruct be.
  - replace (Z.to_nat (ptr + 1)) with (S (Z.to_nat ptr)) by lia.
    rewrite insert_take_drop by lia.
    assert (length (take (Z.to_nat ptr) buf) = Z.to_nat ptr) as Ht by (rewrite length_take; lia).
    rewrite take_app_ge, drop_app_ge by lia. rewrite Ht.
    replace (S (Z.to_nat ptr) - Z.to_nat ptr)%nat with 1%nat by lia.
    replace (S (Z.to_nat ptr) + length bs - Z.to_nat ptr)%nat with (S (length bs)) by lia.
    cbn [take drop]. rewrite <-app_assoc. cbn [app]. do 2 f_equal.
    rewrite take_0, drop_drop. cbn [app]. do 2 f_equal. lia.
  - rewrite reverse_cons. rewrite insert_take_drop by lia.
    assert (length (take (Z.to_nat ptr) buf) = Z.to_nat ptr) as Ht by (rewrite length_take; lia).
    set (k := Z.to_nat (ptr - 1 + 1 - Z.of_nat (length bs))).
    assert (k + length bs = Z.to_nat ptr)%nat as Hk by lia.
    replace (Z.to_nat (ptr + 1 - Z.of_nat (S (length bs)))) with k by lia.
    rewrite take_app_le by lia. rewrite take_take, Nat.min_l by lia.
    rewrite Hk, drop_app_ge by lia. rewrite Ht, Nat.sub_diag. cbn [drop].
    rewrite <-app_assoc. cbn [app]. do 4 f_equal. lia.
Qed.

Lemma hex_loop_run (be : bool) text : forall ptr (state : bool) v1 buf,
  0 <= v1 < 16 ->
  let bs := pack (if state then Some v1 else None) (digit_values text) in
  (bs <> [] -> 0 <= ptr < Z.of_nat (length buf)) ->
  (if be then ptr + Z.of_nat (length bs) <= Z.of_nat (length buf) else Z.of_nat (length bs) <= ptr + 1) ->
  hex_loop be text ptr state v1 buf = Ret (stored be ptr bs buf).
Proof.
  induction text as [|ch text IH]; intros ptr state v1 buf Hv bs Hp Hl.
  { unfold bs. change (digit_values []) with (@nil Z). destruct state; cbn [hex_loop pack]; by rewrite stored_nil. }
  cbn [hex_loop]. unfold bs in *. rewrite digit_values_cons in *. pose proof (FROM_HEX_range ch) as Hf.
  destruct (isxdigit ch); [|by apply IH]. destruct state; cbn [pack] in *.
  - rewrite nibbles by done. rewrite st_in by (apply Hp; done). cbn [res_bind].
    rewrite (IH _ false); [|done| |].
    + rewrite stored_cons; [done|by apply Hp|exact Hl].
    + intros Hne. rewrite length_insert. specialize (Hp ltac:(done)).
      destruct (pack None (digit_values text)) as [|c cs]; [done|]. cbn [length] in *. destruct be; lia.
    + rewrite length_insert. cbn [length] in Hl. destruct be; lia.
  - by apply (IH ptr true).
Qed.

(** ** What is read *)

Lemma strlen_text text rest : 0 ∉ text -> strlen (text ++ 0 :: rest) = Ret (length text).
Proof.
  induction text as [|b text IH]; [done|]. intros [Hb Ht]%not_elem_of_cons. cbn [app strlen].
  rewrite (proj2 (Z.eqb_neq b 0)) by done. by rewrite IH.
Qed.

Lemma stored_digits (be : bool) bs buf op :
  bytes_ok bs -> bytes_ok buf -> (length bs <= length buf)%nat ->
  op = mk_operand (stored be (if be then 0 else Z.of_nat (length bs) - 1) bs buf) (buf_len op)
         (Z.of_nat (length bs)) 0 be ->
  operand_ok op /\ digits op = bs.
Proof.
  intros Hbs Hbuf Hl ->. cbn [buf_len]. set (l := if be then bs else reverse bs).
  assert (stored be (if be then 0 else Z.of_nat (length bs) - 1) bs buf = l ++ drop (length bs) buf) as Es.
  { unfold stored, l. destruct be; [done|].
    replace (Z.to_nat (Z.of_nat (length bs) - 1 + 1 - Z.of_nat (length bs))) with 0%nat by lia. done. }
  rewrite Es. assert (length l = length bs) as El by (unfold l; destruct be; [done|apply length_reverse]).
  split.
  - split; cbn [buf_ptr actual_len].
    + apply Forall_app. split; [unfold l; destruct be; [done|by apply reverse_ok]|by apply Forall_drop].
    + rewrite length_app, El. lia.
  - unfold digits. cbn [buf_ptr actual_len big_endian]. rewrite Nat2Z.id, <-El, take_app_length.
    unfold l. destruct be; [done|apply reverse_involutive].
Qed.

Lemma parity n : Z.odd (Z.of_nat n) = Nat.odd n /\ Z.even (Z.of_nat n) = Nat.even n.
Proof.
  induction n as [|n [IHo IHe]]; [done|].
  by rewrite Nat2Z.inj_succ, Z.odd_succ, Z.even_succ, Nat.odd_succ, Nat.even_succ, IHo, IHe.
Qed.

(** The operand [from_hex_string] makes of an accepted text. *)
Lemma from_hex_run text rest value cnt :
  0 ∉ text -> count_digits (skip_0x text) = Some cnt ->
  bytes_ok (buf_ptr value) -> buf_len value <= Z.of_nat (length (buf_ptr value)) ->
  (cnt + 1) / 2 <= buf_len value ->
  exists op, from_hex_string None (text ++ 0 :: rest) value = Ret (0, op) /\ operand_ok op /\
    big_endian op = big_endian value /\ actual_len op = (cnt + 1) / 2 /\
    operand_val op = hex_val (digit_values (skip_0x text)).
Proof.
  intros H0 Hc Hb Hl Hfit. unfold from_hex_string. rewrite strlen_text by done. cbn [res_bind].
  rewrite take_app_length, Hc. cbv zeta. rewrite (proj2 (Z.ltb_ge _ _)) by done.
  pose proof (count_digits_length _ _ Hc) as Hn. set (ds := digit_values (skip_0x text)) in *.
  set (bs := pack (if Z.odd cnt then Some 0 else None) ds).
  assert (Z.of_nat (length bs) = (cnt + 1) / 2 /\ be_val bs = hex_val ds) as [Hbl Hbv].
  { destruct (pack_spec (length ds) ds (le_n _)) as [He Ho]. destruct (parity (length ds)) as [Po Pe].
    unfold bs. rewrite Hn, Po. destruct (Nat.odd (length ds)) eqn:Eodd.
    - destruct (Ho 0 eq_refl) as [-> ->]. split; [|lia]. by rewrite Nat2Z.inj_div, Nat2Z.inj_add.
    - rewrite <-Nat.negb_even in Eodd. apply negb_false_iff in Eodd. destruct (He Eodd) as [-> ->]. split; [|done].
      apply Nat.even_spec in Eodd as [k ->]. rewrite Nat2Z.inj_div, Nat2Z.inj_mul.
      rewrite (Z.mul_comm (Z.of_nat 2)). change (Z.of_nat 2) with 2. rewrite Z.div_mul, Z.div_add_l by lia. by rewrite Z.add_0_r. }
  assert (bytes_ok bs) as Hbs by (apply pack_ok; [apply digit_values_range|by destruct (Z.odd cnt); intros h [= <-]]).
  rewrite (hex_loop_run _ _ _ _ 0); [|lia|..].
  - fold ds bs. cbn [res_bind]. eexists. split; [reflexivity|].
    destruct (stored_digits (big_endian value) bs (buf_ptr value)
      (mk_operand (stored (big_endian value) (if big_endian value then 0 else Z.of_nat (length bs) - 1) bs (buf_ptr value))
         (buf_len value) (Z.of_nat (length bs)) 0 (big_endian value)) Hbs Hb ltac:(lia) eq_refl) as [Ho Hd].
    rewrite <-Hbl. split; [exact Ho|]. split; [done|]. split; [done|]. unfold operand_val. by rewrite Hd.
  - fold ds bs. intros Hne. destruct bs as [|b bs']; [done|]. cbn [length] in Hbl. destruct (big_endian value); lia.
  - fold ds bs. destruct (big_endian value); lia.
Qed.

(** ** What is printed *)

Definition hex_char (d : Z) : Z := rd8 HEX_CHARS (Z.to_nat d).
Definition hex_text (bs : bytes) : bytes := bs ≫= (fun b => [hex_char (Z.shiftr b 4); hex_char (Z.land b 15)]).

Lemma hex_char_spec d : 0 <= d < 16 ->
  ld HEX_CHARS d = Ret (hex_char d) /\ isxdigit (hex_char d) = true /\ FROM_HEX (hex_char d) = d /\
  hex_char d <> 0 /\ hex_char d <> 120.
Proof.
  intros Hd. split; [apply ld_in; simpl; lia|].
  assert (Forall (fun d => isxdigit (hex_char d) = true /\ FROM_HEX (hex_char d) = d /\
                           hex_char d <> 0 /\ hex_char d <> 120) (seqZ 0 16)) as Hall
    by (repeat constructor; vm_compute; try done; discriminate).
  rewrite Forall_forall in Hall. apply Hall, elem_of_seqZ. lia.
Qed.
Lemma byte_nibbles b : is_u8 b ->
  0 <= Z.shiftr b 4 < 16 /\ 0 <= Z.land b 15 < 16 /\ Z.shiftr b 4 * 16 + Z.land b 15 = b.
Proof.
  intros Hb. unfold is_u8 in Hb. change 15 with (Z.ones 4). rewrite Z.land_ones, Z.shiftr_div_pow2 by lia.
  change (2 ^ 4) with 16. pose proof (Z.div_mod b 16). pose proof (Z.mod_pos_bound b 16). lia.
Qed.
Lemma hex_text_cons b bs : hex_text (b :: bs) = hex_char (Z.shiftr b 4) :: hex_char (Z.land b 15) :: hex_text bs.
Proof. done. Qed.
Lemma length_hex_text bs : length (hex_text bs) = (2 * length bs)%nat.
Proof. induction bs as [|b bs IH]; [done|]. rewrite hex_text_cons. cbn [length]. rewrite IH. lia. Qed.

(** Reading the text again gives the number. *)
Lemma hex_text_digits bs : bytes_ok bs ->
  count_digits (hex_text bs) = Some (Z.of_nat (2 * length bs)) /\ hex_val (digit_values (hex_text bs)) = be_val bs /\
  length (digit_values (hex_text bs)) = (2 * length bs)%nat /\ (0 ∉ hex_text bs) /\ (120 ∉ hex_text bs).
Proof.
  induction 1 as [|b bs Hb _ (IHc & IHv & IHl & IH0 & IHx)]; [by repeat split; try apply not_elem_of_nil|].
  destruct (byte_nibbles b Hb) as (Hh & Hd & E).
  destruct (hex_char_spec _ Hh) as (_ & X1 & V1 & N1 & M1). destruct (hex_char_spec _ Hd) as (_ & X2 & V2 & N2 & M2).
  rewrite hex_text_cons, !digit_values_cons, X1, X2, V1, V2. cbn [count_digits]. rewrite X1, X2, IHc.
  split; [cbn [fmap option_fmap option_map length]; f_equal; lia|]. split; [|split; [|split]].
  - cbn [hex_val length]. rewrite IHv, IHl, be_val_cons, !Nat2Z.inj_succ, Z.pow_succ_r by lia.
    replace (16 ^ Z.of_nat (2 * length bs)) with (256 ^ Z.of_nat (length bs))
      by (rewrite Nat2Z.inj_mul, Z.pow_mul_r by lia; done).
    rewrite <-E at 3. ring.
  - cbn [length]. rewrite IHl. lia.
  - rewrite !not_elem_of_cons. auto.
  - rewrite !not_elem_of_cons. auto.
Qed.

Lemma take_two (out : bytes) i a b : (i + 2 <= length out)%nat ->
  take (i + 2) (<[(i + 1)%nat := b]> (<[i := a]> out)) = take i out ++ [a; b] /\
  forall k, (i + 2 <= k)%nat -> drop k (<[(i + 1)%nat := b]> (<[i := a]> out)) = drop k out.
Proof.
  intros Hl. split.
  - apply list_eq. intros j. destruct (decide (j < i + 2)%nat) as [Hj|Hj].
    + rewrite lookup_take_lt by done. destruct (decide (j < i)%nat) as [Hi|Hi].
      * rewrite !list_lookup_insert_ne by lia. rewrite lookup_app_l by (rewrite length_take; lia).
        by rewrite lookup_take_lt by done.
      * rewrite lookup_app_r by (rewrite length_take; lia). rewrite length_take, Nat.min_l by lia.
        destruct (decide (j = i)) as [->|].
        -- rewrite list_lookup_insert_ne, list_lookup_insert_eq, Nat.sub_diag by lia. done.
        -- replace j with (i + 1)%nat by lia. rewrite list_lookup_insert_eq by (rewrite length_insert; lia).
           by replace (i + 1 - i)%nat with 1%nat by lia.
    + rewrite !lookup_ge_None_2; [done|rewrite length_app, length_take; simpl; lia|].
      rewrite length_take, !length_insert. lia.
  - intros k Hk. by rewrite !drop_insert_lt by lia.
Qed.

Lemma hex_out_run (be : bool) rs : forall src p out i,
  bytes_ok rs ->
  (forall j b, rs !! j = Some b -> ld src (if be then (p + Z.of_nat j) else (p - Z.of_nat j)) = Ret b) ->
  (i <= length out)%nat ->
  hex_out be (length rs) src p out (Z.of_nat i) =
  if decide (i + 2 * length rs <= length out)%nat
  then Ret (take i out ++ hex_text rs ++ drop (i + 2 * length rs) out)
  else Fault Out_of_bounds.
Proof.
  induction rs as [|b rs IH]; intros src p out i Hrs Hld Hi.
  { cbn [length hex_out]. rewrite decide_True by lia. simpl. by rewrite Nat.add_0_r, take_drop. }
  apply Forall_cons in Hrs as [Hb Hrs]. cbn [length hex_out].
  pose proof (Hld 0%nat b eq_refl) as E0.
  replace (if be then (p + Z.of_nat 0) else (p - Z.of_nat 0)) with p in E0 by (destruct be; lia).
  rewrite E0. cbn [res_bind]. destruct (byte_nibbles b Hb) as (Hh & Hd & _).
  destruct (hex_char_spec _ Hh) as (-> & _). destruct (hex_char_spec _ Hd) as (El & _). cbn [res_bind].
  destruct (decide (i = length out)) as [->|Hne].
  { rewrite decide_False by lia. unfold st. by rewrite Z.ltb_irrefl, andb_false_r. }
  rewrite st_in by lia. cbn [res_bind]. rewrite El. cbn [res_bind]. rewrite Nat2Z.id.
  destruct (decide (i + 1 = length out)%nat) as [Ee|Hne2].
  { rewrite decide_False by lia. unfold st. rewrite length_insert, <-Ee.
    by rewrite (proj2 (Z.ltb_ge _ _)), andb_false_r by lia. }
  rewrite st_in by (rewrite length_insert; lia). cbn [res_bind].
  replace (Z.to_nat (Z.of_nat i + 1)) with (i + 1)%nat by lia.
  replace (Z.of_nat i + 2) with (Z.of_nat (i + 2)) by lia.
  rewrite IH; [|done| |rewrite !length_insert; lia].
  - rewrite !length_insert. destruct (decide (i + 2 * S (length rs) <= length out)%nat) as [Hf|Hf].
    + rewrite decide_True by lia. rewrite hex_text_cons.
      destruct (take_two out i (hex_char (Z.shiftr b 4)) (hex_char (Z.land b 15)) ltac:(lia)) as [-> Hdr].
      rewrite Hdr by lia. rewrite <-app_assoc. cbn [app]. do 6 f_equal. lia.
    + by rewrite decide_False by lia.
  - intros j c Hj. rewrite <-(Hld (S j) c Hj). f_equal. destruct be; lia.
Qed.

(** The loop of [to_hex_string] reads the digits from the most significant. *)
Lemma read_digits value j b : operand_ok value -> digits value !! j = Some b ->
  ld (buf_ptr value) (if big_endian value then 0 + Z.of_nat j else actual_len value - 1 - Z.of_nat j) = Ret b.
Proof.
  intros [_ Ha] Hj. pose proof (lookup_lt_Some _ _ _ Hj) as Hlt. unfold digits in *.
  assert (forall i, (i < Z.to_nat (actual_len value))%nat -> take (Z.to_nat (actual_len value)) (buf_ptr value) !! i = Some b ->
    ld (buf_ptr value) (Z.of_nat i) = Ret b) as Hld.
  { intros i Hi E. rewrite lookup_take_lt in E by done. unfold ld. rewrite (proj2 (Z.leb_le 0 _)) by lia.
    by rewrite Nat2Z.id, E. }
  destruct (big_endian value).
  - rewrite length_take in Hlt. apply Hld; [lia|done].
  - rewrite length_reverse, length_take in Hlt.
    rewrite reverse_lookup in Hj by (rewrite length_take; lia). rewrite length_take, Nat.min_l in Hj by lia.
    replace (actual_len value - 1 - Z.of_nat j) with (Z.of_nat (Z.to_nat (actual_len value) - S j)) by lia.
    apply Hld; [lia|done].
Qed.
Lemma to_hex_run value out :
  operand_ok value -> actual_len value < Z.of_nat (length out) ->
  to_hex_string value out (Z.of_nat (length out)) =
  if decide (2 * length (digits value) <= length out)%nat
  then Ret (0, hex_text (digits value) ++ zeros (length out - 2 * length (digits value)))
  else Fault Out_of_bounds.
Proof.
  intros Hok Hl. unfold to_hex_string. rewrite (proj2 (Z.leb_gt _ _)) by done.
  unfold memset0. rewrite Z.leb_refl. cbn [res_bind]. rewrite Nat2Z.id, drop_ge, app_nil_r by lia.
  rewrite <-(length_digits value) by done. change 0 with (Z.of_nat 0) at 2.
  rewrite (hex_out_run (big_endian value) (digits value)); [|by apply digits_ok| |lia].
  - rewrite length_zeros. cbn [Nat.add]. case_decide; [|done]. cbn [res_bind take app].
    rewrite take_0. cbn [app]. do 3 f_equal. unfold zeros. by rewrite drop_replicate.
  - intros j b Hj. rewrite <-(read_digits value j b Hok Hj). f_equal. by destruct (big_endian value).
Qed.

(** ** The theorems *)

(** The characters a number may have after its optional 0x. *)
Definition number_char (ch : Z) : bool := isxdigit ch || isspace ch || (ch =? 95).

Lemma count_digits_spec text :
  count_digits text = if forallb number_char text then Some (Z.of_nat (length (digit_values text))) else None.
Proof.
  induction text as [|ch text IH]; [done|]. cbn [count_digits forallb]. rewrite digit_values_cons, IH.
  change (number_char ch) with (isxdigit ch || isspace ch || (ch =? 95)). destruct (isxdigit ch); cbn [orb andb].
  - destruct (forallb _ text); [|done]. cbn [fmap option_fmap option_map length]. f_equal. lia.
  - by destruct (isspace ch), (ch =? 95).
Qed.

(** [from_hex_string] accepts exactly the texts of hexadecimal digits,
    blanks and underscores, with or without 0x, that fit the operand, and the
    operand then is the number they write, in the operand's byte order; any
    other text is refused and leaves the operand alone. *)
Theorem from_hex_value text rest value :
  0 ∉ text -> bytes_ok (buf_ptr value) -> buf_len value <= Z.of_nat (length (buf_ptr value)) ->
  let ds := digit_values (skip_0x text) in
  let len := (Z.of_nat (length ds) + 1) / 2 in
  if forallb number_char (skip_0x text) && (len <=? buf_len value)
  then exists op, from_hex_string None (text ++ 0 :: rest) value = Ret (0, op) /\ operand_ok op /\
    big_endian op = big_endian value /\ actual_len op = len /\ operand_val op = hex_val ds
  else from_hex_string None (text ++ 0 :: rest) value = Ret (-1, value).
Proof.
  intros H0 Hb Hl ds len. pose proof (count_digits_spec (skip_0x text)) as Hc. fold ds in Hc.
  destruct (forallb number_char (skip_0x text)); cbn [andb].
  - destruct (Z.leb_spec len (buf_len value)) as [Hfit|Hbig]; [by apply from_hex_run|].
    unfold from_hex_string. rewrite strlen_text by done. cbn [res_bind]. rewrite take_app_length, Hc.
    cbv zeta. fold len. by rewrite (proj2 (Z.ltb_lt _ _)).
  - unfold from_hex_string. rewrite strlen_text by done. cbn [res_bind]. by rewrite take_app_length, Hc.
Qed.

(** An operand printed by [to_hex_string] and read by [from_hex_string], into
    an operand of either byte order, is the same number; and a buffer that is
    longer than the number has bytes, but not twice as long, passes the check of
    [to_hex_string] and is overrun. *)
Theorem hex_roundtrip value out dest :
  operand_ok value -> bytes_ok (buf_ptr dest) -> buf_len dest <= Z.of_nat (length (buf_ptr dest)) ->
  actual_len value <= buf_len dest -> actual_len value < Z.of_nat (length out) ->
  if 2 * actual_len value <=? Z.of_nat (length out)
  then exists out', to_hex_string value out (Z.of_nat (length out)) = Ret (0, out') /\
    (2 * actual_len value < Z.of_nat (length out) ->
     exists op, from_hex_string None out' dest = Ret (0, op) /\ actual_len op = actual_len value /\
       big_endian op = big_endian dest /\ operand_val op = operand_val value)
  else to_hex_string value out (Z.of_nat (length out)) = Fault Out_of_bounds.
Proof.
  intros Hok Hb Hl Hfit Hout. rewrite to_hex_run by done. pose proof (length_digits value Hok) as Hd.
  destruct Hok as [Hvb Hva]. assert (operand_ok value) as Hok by done.
  destruct (hex_text_digits (digits value) (digits_ok value Hok)) as (Hc & Hv & _ & H0 & Hx).
  set (text := hex_text (digits value)) in *.
  destruct (Z.leb_spec (2 * actual_len value) (Z.of_nat (length out))); [|by rewrite decide_False by lia].
  rewrite decide_True by lia. eexists. split; [reflexivity|]. intros Hroom.
  destruct (length out - 2 * length (digits value))%nat as [|k] eqn:Ek; [lia|]. change (zeros (S k)) with (0 :: zeros k).
  assert (skip_0x text = text) as Hs.
  { unfold skip_0x. destruct (Z.leb_spec 3 (Z.of_nat (length text))) as [H3|]; [|done]. cbn [andb].
    destruct (Z.eqb_spec (rd8 text 1) 120) as [E|]; [|by rewrite andb_false_r]. exfalso. apply Hx. rewrite <-E.
    unfold rd8. destruct (lookup_lt_is_Some_2 text 1 ltac:(lia)) as [b Eb]. rewrite Eb. by eapply list_elem_of_lookup_2. }
  destruct (from_hex_run text (zeros k) dest (Z.of_nat (2 * length (digits value))) H0) as (op & E & _ & Ebe & El & Ev);
    rewrite ?Hs; try done; replace ((Z.of_nat (2 * length (digits value)) + 1) / 2) with (actual_len value) in *
      by (rewrite Nat2Z.inj_mul, Z.mul_comm, Z.div_add_l by lia; change (1 / 2) with 0; lia); [done|].
  exists op. split; [exact E|]. split; [done|]. split; [done|]. by rewrite Ev, Hs, Hv.
Qed.

(** "0x3 F_c" into four bytes of either order. *)
Lemma from_hex_value_witness :
  exists op, from_hex_string None ([48; 120; 51; 32; 70; 95; 99] ++ [0]) (mk_operand [9; 9; 9; 9] 4 0 0 false) = Ret (0, op) /\
    operand_val op = 0x3fc.
Proof.
  pose proof (from_hex_value [48; 120; 51; 32; 70; 95; 99] [] (mk_operand [9; 9; 9; 9] 4 0 0 false)) as Ht.
  destruct Ht as (op & E & _ & _ & _ & Hv).
  - by apply (bool_decide_unpack (0 ∉ [48; 120; 51; 32; 70; 95; 99])); vm_compute.
  - by repeat constructor.
  - simpl. lia.
  - exists op. split; [exact E|exact Hv].
Defined.

Lemma hex_roundtrip_witness :
  exists out', to_hex_string (mk_operand [1; 2; 254; 7] 4 3 0 false) (replicate 7 33) 7 = Ret (0, out') /\
    exists op, from_hex_string None out' (mk_operand [0; 0; 0] 3 0 0 true) = Ret (0, op) /\ operand_val op = 0xfe0201.
Proof.
  pose proof (hex_roundtrip (mk_operand [1; 2; 254; 7] 4 3 0 false) (replicate 7 33) (mk_operand [0; 0; 0] 3 0 0 true)) as Ht.
  destruct Ht as (out' & E & Hr).
  - split; [by repeat constructor|simpl; lia].
  - by repeat constructor.
  - simpl. lia.
  - simpl. lia.
  - simpl. lia.
  - exists out'. split; [exact E|]. destruct Hr as (op & E2 & _ & _ & Hv); [simpl; lia|].
    exists op. split; [exact E2|exact Hv].
Defined.

(** Five characters of room for the six of three bytes. *)
Example hex_overrun : to_hex_string (mk_operand [1; 2; 254] 3 3 0 false) (replicate 5 33) 5 = Fault Out_of_bounds.
Proof. vm_compute. reflexivity. Qed.
