(* ===== verification/ClientHello.v ===== *)
(** * Parsing the ClientHello (ssl.c: [unpack_handshake], [unpack_extensions],
      [select_*], [set_u32], [get_u32])

    The parser keeps pointers into the record's fragment [pf] instead of
    copies; a pointer is modelled by its offset from [pf]. Reads are checked
    against the buffer that holds the fragment. The reference encoder for the
    extension block is that of RFC 8446, section 4.2. *)

From S2P Require Import Prelude.

(** ** 24-bit lengths *)

(** [set_u32] stores the low three bytes of a 32-bit word, most significant
    first; [get_u32] reads them back. *)
Definition set_u32 (b : Z) : bytes :=
  let y := le_bytes 4 b in [rd8 y 2; rd8 y 1; rd8 y 0].
Definition get_u32 (a : bytes) : Z :=
  let x := rd8 a 0 in
  let x := u32 (Z.shiftl x 8) in
  let x := Z.lor x (rd8 a 1) in
  let x := u32 (Z.shiftl x 8) in
  Z.lor x (rd8 a 2).

(** ** Negotiation *)

Definition TLS_RSA_WITH_AES_256_CBC_SHA : Z * Z := (0x00, 0x35).
Definition TLS_RSA_WITH_AES_256_GCM_SHA384 : Z * Z := (0x00, 0x9d).
Definition TLS_AES_256_GCM_SHA384 : Z * Z := (0x13, 0x02).
Definition TLS_NULL_WITH_NULL_NULL : Z * Z := (0x00, 0x00).
Definition X25519 : Z * Z := (0x00, 0x1d).
Definition SUPPORTED_GROUP_UNKNOWN : Z * Z := (0x00, 0x00).
Definition ECDSA_SECP256r1_SHA256 : Z * Z := (0x04, 0x03).
Definition SIGNATURE_UNKNOWN : Z * Z := (0x00, 0x00).

(** The first [n] two-byte entries of an array. *)
Fixpoint pairs (n : nat) (l : bytes) (off : nat) : list (Z * Z) :=
  match n with
  | O => []
  | S n' => (rd8 l off, rd8 l (off + 1)) :: pairs n' l (off + 2)
  end.

Fixpoint select_cipher (suites : list (Z * Z)) : Z * Z :=
  match suites with
  | [] => TLS_NULL_WITH_NULL_NULL
  | c :: suites' =>
      if decide (c = TLS_AES_256_GCM_SHA384) then TLS_AES_256_GCM_SHA384
      else if decide (c = TLS_RSA_WITH_AES_256_GCM_SHA384) then TLS_RSA_WITH_AES_256_GCM_SHA384
      else if decide (c = TLS_RSA_WITH_AES_256_CBC_SHA) then TLS_RSA_WITH_AES_256_CBC_SHA
      else select_cipher suites'
  end.

Fixpoint select_supported_group (groups : list (Z * Z)) : Z * Z :=
  match groups with
  | [] => SUPPORTED_GROUP_UNKNOWN
  | g :: groups' => if decide (g = X25519) then X25519 else select_supported_group groups'
  end.

Fixpoint select_signature_algorithm (algs : list (Z * Z)) : Z * Z :=
  match algs with
  | [] => SIGNATURE_UNKNOWN
  | a :: algs' =>
      if decide (a = ECDSA_SECP256r1_SHA256) then ECDSA_SECP256r1_SHA256
      else select_signature_algorithm algs'
  end.

(** ** The parser *)

Definition EC_POINT_FORMATS : Z := 0x000b.
Definition SUPPORTED_GROUPS : Z := 0x000a.
Definition SESSION_TICKET : Z := 0x0023.
Definition ALPN : Z := 0x0010.
Definition ENCRYPT_THEN_MAC : Z := 0x0016.
Definition EXTENDED_MASTER_SECRET : Z := 0x0017.
Definition SIGNATURE_ALGORITHMS : Z := 0x000d.
Definition SUPPORTED_VERSIONS : Z := 0x002b.
Definition PSK_KEY_EXCHANGE_MODES : Z := 0x002d.
Definition KEY_SHARE : Z := 0x0033.

(** The cases of the [switch] that step over the extension's body. *)
Definition skipped_types : list Z :=
  [EC_POINT_FORMATS; SESSION_TICKET; ALPN; ENCRYPT_THEN_MAC; EXTENDED_MASTER_SECRET;
   PSK_KEY_EXCHANGE_MODES].

(** [client_extensions_t], the fields that are stored. *)
Record client_extensions := mk_client_extensions {
  curves_list_length : Z;
  curves_list : option Z;
  signature_algorithm_list_length : Z;
  signature_algorithm_list : option Z;
  versions_length : Z;
  versions : option Z;
  key_share_length : Z;
  curve_type : Z;
  pub_key_length : Z;
  client_pub_key_ptr : option Z;
}.
Definition client_extensions0 : client_extensions :=
  mk_client_extensions 0 None 0 None 0 None 0 0 0 None.

(** [client_hello_t]. *)
Record client_hello := mk_client_hello {
  ch_version : Z * Z;
  ch_random : bytes;
  session_id_length : Z;
  ch_session_id : bytes;
  cipher_suite_length : Z;
  cipher_suites : option Z;
  compression_method_length : Z;
  compression_methods : option Z;
  extensions_length : Z;
  extensions : client_extensions;
}.
Definition client_hello0 : client_hello :=
  mk_client_hello (0, 0) (zeros 32) 0 (zeros 32) 0 None 0 None 0 client_extensions0.

Definition RECORD_HEADER_SIZE : Z := 5.
Definition HANDSHAKE_HEADER_SIZE : Z := 4.
Definition MAX_RECORD_SIZE : Z := 5 + 2048 + 14000 + 8.
(** What the record buffer has from the fragment on ([buf + 8 + 5]). *)
Definition FRAG_SIZE : Z := MAX_RECORD_SIZE - 8 - RECORD_HEADER_SIZE.

(** Checked loads from the fragment; the buffer is zero past the record. *)
Definition ldn (n : nat) (pf : bytes) (off : Z) : res bytes :=
  if (0 <=? off) && (off + Z.of_nat n <=? FRAG_SIZE) then Ret (rdn n pf (Z.to_nat off))
  else Fault Out_of_bounds.
(** [*(uint8_t * )(pf + off)] and [ntohs( *(uint16_t * )(pf + off))]. *)
Definition ld8 (pf : bytes) (off : Z) : res Z := res_bind (ldn 1 pf off) (fun b => Ret (be_val b)).
Definition ld16 (pf : bytes) (off : Z) : res Z := res_bind (ldn 2 pf off) (fun b => Ret (be_val b)).

(** One turn of the loop of [unpack_extensions]: the new [offset] and [pch]. *)
Definition unpack_extension (pf : bytes) (offset : Z) (x : client_extensions)
    : res (Z * client_extensions) :=
  res_bind (ld16 pf offset) (fun extension_type =>
  let offset := u16 (offset + 2) in
  res_bind (ld16 pf offset) (fun extension_length =>
  let offset := u16 (offset + 2) in
  if decide (extension_type ∈ skipped_types) then Ret (u16 (offset + extension_length), x)
  else if extension_type =? SUPPORTED_GROUPS then
    res_bind (ld16 pf offset) (fun len =>
    let offset := u16 (offset + 2) in
    Ret (u16 (offset + len), x <| curves_list_length := len |> <| curves_list := Some offset |>))
  else if extension_type =? SIGNATURE_ALGORITHMS then
    res_bind (ld16 pf offset) (fun len =>
    let offset := u16 (offset + 2) in
    Ret (u16 (offset + len), x <| signature_algorithm_list_length := len |>
                               <| signature_algorithm_list := Some offset |>))
  else if extension_type =? SUPPORTED_VERSIONS then
    res_bind (ld8 pf offset) (fun len =>
    let offset := u16 (offset + 1) in
    Ret (u16 (offset + len), x <| versions_length := len |> <| versions := Some offset |>))
  else if extension_type =? KEY_SHARE then
    res_bind (ld16 pf offset) (fun ks_len =>
    let offset := u16 (offset + 2) in
    res_bind (ld16 pf offset) (fun curve =>
    let offset := u16 (offset + 2) in
    res_bind (ld16 pf offset) (fun pk_len =>
    let offset := u16 (offset + 2) in
    Ret (u16 (offset + pk_len),
         x <| key_share_length := ks_len |> <| curve_type := curve |>
           <| pub_key_length := pk_len |> <| client_pub_key_ptr := Some offset |>))))
  else Ret (offset, x))).

(** [while (offset < end)]; [None] when [fuel] turns were not enough. *)
Fixpoint extensions_loop (fuel : nat) (pf : bytes) (offset end_ : Z) (x : client_extensions)
    : option (res client_extensions) :=
  if negb (offset <? end_) then Some (Ret x) else
  match fuel with
  | O => None
  | S fuel' =>
      match unpack_extension pf offset x with
      | Fault f => Some (Fault f)
      | Ret (offset', x') => extensions_loop fuel' pf offset' end_ x'
      end
  end.

Definition unpack_extensions (fuel : nat) (ext_len : Z) (pf : bytes) (offset end_ : Z)
    (x : client_extensions) : option (res client_extensions) :=
  if 0 <? ext_len then extensions_loop fuel pf offset end_ x else Some (Ret x).

(** The [CLIENT_HELLO] case of [unpack_handshake] up to the key generation:
    the parsed message and whether it had an extension block ([offset < end]);
    without one the case falls out of the [switch]. The copy of the session
    identifier is checked against its 32-byte field. *)
Definition unpack_client_hello_fixed (pf : bytes) : res (client_hello * Z) :=
  let offset := HANDSHAKE_HEADER_SIZE in
  res_bind (ldn 2 pf offset) (fun ver =>
  let offset := offset + 2 in
  res_bind (ldn 32 pf offset) (fun random =>
  let offset := offset + 32 in
  res_bind (ld8 pf offset) (fun sid_len =>
  let offset := offset + 1 in
  if 32 <? sid_len then Fault Out_of_bounds else
  res_bind (ldn (Z.to_nat sid_len) pf offset) (fun sid =>
  let offset := offset + sid_len in
  res_bind (ld16 pf offset) (fun cs_len =>
  let offset := offset + 2 in
  let cs := if 0 <? cs_len then Some offset else None in
  let offset := offset + cs_len in
  res_bind (ld8 pf offset) (fun cm_len =>
  let offset := offset + 1 in
  let cm := if 0 <? cm_len then Some offset else None in
  let offset := offset + cm_len in
  Ret (mk_client_hello (rd8 ver 0, rd8 ver 1) random sid_len
         (sid ++ zeros (32 - length sid)) cs_len cs cm_len cm 0 client_extensions0, offset))))))).

Definition unpack_client_hello (fuel : nat) (pf : bytes) (end_ : Z)
    : option (res (client_hello * bool)) :=
  match unpack_client_hello_fixed pf with
  | Fault f => Some (Fault f)
  | Ret (pch, offset) =>
      if offset <? end_ then
        match ld16 pf offset with
        | Fault f => Some (Fault f)
        | Ret ext_len =>
            match unpack_extensions fuel ext_len pf (u16 (offset + 2)) (u16 end_)
                    client_extensions0 with
            | None => None
            | Some (Fault f) => Some (Fault f)
            | Some (Ret x) =>
                Some (Ret (pch <| extensions_length := ext_len |> <| extensions := x |>, true))
            end
        end
      else Some (Ret (pch, false))
  end.

(** ** Reference encoding of the extensions *)

Inductive extension : Type :=
| ESkip (t : Z) (body : bytes)
| EGroups (l : bytes)
| ESignatures (l : bytes)
| EVersions (l : bytes)
| EKeyShare (group : Z) (key : bytes).

Definition ext_type (e : extension) : Z :=
  match e with
  | ESkip t _ => t
  | EGroups _ => SUPPORTED_GROUPS
  | ESignatures _ => SIGNATURE_ALGORITHMS
  | EVersions _ => SUPPORTED_VERSIONS
  | EKeyShare _ _ => KEY_SHARE
  end.
Definition ext_body (e : extension) : bytes :=
  match e with
  | ESkip _ b => b
  | EGroups l | ESignatures l => be_bytes 2 (Z.of_nat (length l)) ++ l
  | EVersions l => be_bytes 1 (Z.of_nat (length l)) ++ l
  | EKeyShare g k =>
      be_bytes 2 (Z.of_nat (length k) + 4) ++ be_bytes 2 g
        ++ be_bytes 2 (Z.of_nat (length k)) ++ k
  end.
Definition enc_ext (e : extension) : bytes :=
  be_bytes 2 (ext_type e) ++ be_bytes 2 (Z.of_nat (length (ext_body e))) ++ ext_body e.
Definition enc_exts (es : list extension) : bytes := es ≫= enc_ext.

Definition ext_ok (e : extension) : Prop :=
  match e with
  | ESkip t b => t ∈ skipped_types
  | EVersions l => (length l < 256)%nat
  | EKeyShare g k => is_u16 g
  | _ => True
  end.

(** What the caller can read through the parsed pointers. *)
Record hello_view := mk_view {
  v_groups : option bytes;
  v_signatures : option bytes;
  v_versions : option bytes;
  v_key : option (Z * bytes);
}.
Definition view (pf : bytes) (x : client_extensions) : hello_view :=
  let field len := fmap (fun p => rdn (Z.to_nat len) pf (Z.to_nat p)) in
  mk_view (field (curves_list_length x) (curves_list x))
    (field (signature_algorithm_list_length x) (signature_algorithm_list x))
    (field (versions_length x) (versions x))
    ((fun k => (curve_type x, k)) <$> field (pub_key_length x) (client_pub_key_ptr x)).
Definition view_ext (v : hello_view) (e : extension) : hello_view :=
  match e with
  | ESkip _ _ => v
  | EGroups l => v <| v_groups := Some l |>
  | ESignatures l => v <| v_signatures := Some l |>
  | EVersions l => v <| v_versions := Some l |>
  | EKeyShare g k => v <| v_key := Some (g, k) |>
  end.

(** ** Lemmas *)

Lemma ldn_at n pf pre k post off :
  pf = pre ++ k ++ post -> length k = n -> off = Z.of_nat (length pre) ->
  off + Z.of_nat n <= FRAG_SIZE -> ldn n pf off = Ret k.
Proof.
  intros -> Hk -> Hb. unfold ldn.
  rewrite (proj2 (Z.leb_le _ _)), (proj2 (Z.leb_le _ _)) by lia. cbn [andb].
  by rewrite rdn_at by (done || lia).
Qed.

Lemma ld16_at pf pre a post off :
  pf = pre ++ be_bytes 2 a ++ post -> off = Z.of_nat (length pre) ->
  off + 2 <= FRAG_SIZE -> is_u16 a -> ld16 pf off = Ret a.
Proof.
  intros Hpf Ho Hb Ha. unfold ld16. erewrite ldn_at; [|done|by rewrite length_be_bytes|done|lia].
  cbn [res_bind]. rewrite be_val_be_bytes. f_equal. by apply Z.mod_small.
Qed.
Lemma ld8_at pf pre a post off :
  pf = pre ++ be_bytes 1 a ++ post -> off = Z.of_nat (length pre) ->
  off + 1 <= FRAG_SIZE -> is_u8 a -> ld8 pf off = Ret a.
Proof.
  intros Hpf Ho Hb Ha. unfold ld8. erewrite ldn_at; [|done|by rewrite length_be_bytes|done|lia].
  cbn [res_bind]. rewrite be_val_be_bytes. f_equal. by apply Z.mod_small.
Qed.

Lemma length_enc_ext e : length (enc_ext e) = (4 + length (ext_body e))%nat.
Proof. unfold enc_ext. len. Qed.

Lemma ext_type_u16 e : ext_ok e -> is_u16 (ext_type e).
Proof.
  destruct e; simpl; intros H; unfold is_u16; try (vm_compute; by split).
  assert (Forall is_u16 skipped_types) as Hs by (apply (bool_decide_unpack _); vm_compute; exact I).
  rewrite Forall_forall in Hs. by apply Hs.
Qed.

Ltac frag := unfold FRAG_SIZE, MAX_RECORD_SIZE, RECORD_HEADER_SIZE in *; lia.

(** The header of an extension. *)
Lemma ext_header pf pre e post :
  pf = pre ++ enc_ext e ++ post -> ext_ok e ->
  Z.of_nat (length pre + length (enc_ext e)) <= FRAG_SIZE ->
  ld16 pf (Z.of_nat (length pre)) = Ret (ext_type e) /\
  ld16 pf (u16 (Z.of_nat (length pre) + 2)) = Ret (Z.of_nat (length (ext_body e))).
Proof.
  intros -> Hok Hb. rewrite length_enc_ext in Hb. unfold enc_ext. rewrite <-!app_assoc.
  rewrite u16_id by (unfold is_u16; frag). split.
  - apply (ld16_at _ pre (ext_type e) (be_bytes 2 (Z.of_nat (length (ext_body e))) ++ ext_body e ++ post));
      [done|done|frag|by apply ext_type_u16].
  - apply (ld16_at _ (pre ++ be_bytes 2 (ext_type e)) (Z.of_nat (length (ext_body e))) (ext_body e ++ post));
      [by rewrite <-!app_assoc|len|frag|unfold is_u16; frag].
Qed.

(** A vector after its length, read through the pointer the parser keeps. *)
Lemma vector_view pf h n l post :
  pf = h ++ be_bytes n (Z.of_nat (length l)) ++ l ++ post ->
  rdn (Z.to_nat (Z.of_nat (length l))) pf (Z.to_nat (Z.of_nat (length h) + Z.of_nat n)) = l.
Proof.
  intros ->. rewrite Nat2Z.id, app_assoc. apply rdn_at; [len|done].
Qed.

Lemma unpack_extension_spec pf pre e post x :
  pf = pre ++ enc_ext e ++ post -> ext_ok e ->
  Z.of_nat (length pre + length (enc_ext e)) <= FRAG_SIZE ->
  exists x', unpack_extension pf (Z.of_nat (length pre)) x
    = Ret (Z.of_nat (length pre + length (enc_ext e)), x')
    /\ view pf x' = view_ext (view pf x) e.
Proof.
  intros Hpf Hok Hb. destruct (ext_header pf pre e post Hpf Hok Hb) as [H1 H2].
  unfold unpack_extension. rewrite H1. cbn [res_bind]. rewrite H2. cbn [res_bind]. clear H1 H2.
  rewrite length_enc_ext in *.
  assert (Z.of_nat (length pre + (4 + length (ext_body e))) <= 16048) as Hs by exact Hb. clear Hb.
  rewrite (u16_id (Z.of_nat (length pre) + 2)) by (unfold is_u16; lia).
  rewrite (u16_id (Z.of_nat (length pre) + 2 + 2)) by (unfold is_u16; lia).
  set (h := pre ++ be_bytes 2 (ext_type e) ++ be_bytes 2 (Z.of_nat (length (ext_body e)))).
  assert (Z.of_nat (length pre) + 2 + 2 = Z.of_nat (length h)) as -> by (subst h; len).
  assert (length h = length pre + 4)%nat as Hh by (subst h; len).
  assert (pf = h ++ ext_body e ++ post) as Hpf'.
  { rewrite Hpf. subst h. unfold enc_ext. by rewrite <-!app_assoc. }
  clearbody h. clear Hpf. destruct e as [t b|l|l|l|g k]; cbn [ext_type ext_body ext_ok view_ext] in *;
    autorewrite with xtls_len in *.
  - rewrite decide_True by done. rewrite u16_id by (unfold is_u16; lia).
    eexists. split; [do 2 f_equal; lia|done].
  - rewrite <-app_assoc in Hpf'.
    rewrite (ld16_at _ h (Z.of_nat (length l)) (l ++ post)) by (done || frag || (unfold is_u16; lia)).
    cbn [res_bind]. rewrite !u16_id by (rewrite ?u16_id; unfold is_u16; lia).
    eexists. split; [simpl; do 2 f_equal; lia|]. unfold view. simpl.
    pose proof (vector_view pf h 2 l post Hpf') as V. change (Z.of_nat 2) with 2 in V. by rewrite V.
  - rewrite <-app_assoc in Hpf'.
    rewrite (ld16_at _ h (Z.of_nat (length l)) (l ++ post)) by (done || frag || (unfold is_u16; lia)).
    cbn [res_bind]. rewrite !u16_id by (rewrite ?u16_id; unfold is_u16; lia).
    eexists. split; [simpl; do 2 f_equal; lia|]. unfold view. simpl.
    pose proof (vector_view pf h 2 l post Hpf') as V. change (Z.of_nat 2) with 2 in V. by rewrite V.
  - rewrite <-app_assoc in Hpf'.
    rewrite (ld8_at _ h (Z.of_nat (length l)) (l ++ post)) by (done || frag || (unfold is_u8; lia)).
    cbn [res_bind]. rewrite !u16_id by (rewrite ?u16_id; unfold is_u16; lia).
    eexists. split; [simpl; do 2 f_equal; lia|]. unfold view. simpl.
    pose proof (vector_view pf h 1 l post Hpf') as V. change (Z.of_nat 1) with 1 in V. by rewrite V.
  - rewrite <-!app_assoc in Hpf'. set (a := be_bytes 2 (Z.of_nat (length k) + 4)) in *.
    assert (length a = 2)%nat as Ha by (subst a; len).
    rewrite (ld16_at _ h (Z.of_nat (length k) + 4) (be_bytes 2 g ++ be_bytes 2 (Z.of_nat (length k)) ++ k ++ post))
      by (done || frag || (unfold is_u16; lia)).
    cbn [res_bind]. rewrite (u16_id (Z.of_nat (length h) + 2)) by (unfold is_u16; lia).
    rewrite (ld16_at _ (h ++ a) g (be_bytes 2 (Z.of_nat (length k)) ++ k ++ post));
      [|by rewrite <-!app_assoc|len|frag|done].
    cbn [res_bind]. rewrite (u16_id (Z.of_nat (length h) + 2 + 2)) by (unfold is_u16; lia).
    rewrite (ld16_at _ (h ++ a ++ be_bytes 2 g) (Z.of_nat (length k)) (k ++ post));
      [|by rewrite <-!app_assoc|len|frag|unfold is_u16; lia].
    cbn [res_bind]. rewrite !u16_id by (rewrite ?u16_id; unfold is_u16; lia).
    eexists. split; [simpl; do 2 f_equal; lia|]. unfold view. simpl.
    rewrite Nat2Z.id. match goal with |- context [rdn _ pf ?o] => assert (rdn (length k) pf o = k) as -> end; [|done].
    rewrite Hpf', (app_assoc h), (app_assoc _ (be_bytes 2 g)), (app_assoc _ (be_bytes 2 (Z.of_nat (length k)))).
    apply rdn_at; [len|done].
Qed.

Lemma extensions_loop_spec es fuel pf pre post x :
  pf = pre ++ enc_exts es ++ post -> Forall ext_ok es ->
  Z.of_nat (length pre + length (enc_exts es)) <= FRAG_SIZE -> (length es <= fuel)%nat ->
  exists x', extensions_loop fuel pf (Z.of_nat (length pre))
               (Z.of_nat (length pre + length (enc_exts es))) x = Some (Ret x')
    /\ view pf x' = foldl view_ext (view pf x) es.
Proof.
  revert fuel pre x. induction es as [|e es IH]; intros fuel pre x Hpf Hok Hb Hf.
  - exists x. split; [|done]. assert ((Z.of_nat (length pre) <? Z.of_nat (length pre + 0)) = false) as E
      by (apply Z.ltb_ge; lia). destruct fuel; simpl; by rewrite E.
  - change (enc_exts (e :: es)) with (enc_ext e ++ enc_exts es) in *.
    apply Forall_cons in Hok as [He Hok]. rewrite length_app in *.
    rewrite <-app_assoc in Hpf. pose proof (length_enc_ext e) as Hl.
    destruct fuel as [|fuel]; [simpl in Hf; lia|]. cbn [extensions_loop].
    rewrite (proj2 (Z.ltb_lt _ _)) by lia. simpl negb. cbn iota.
    destruct (unpack_extension_spec pf pre e (enc_exts es ++ post) x Hpf He ltac:(lia)) as (x1 & -> & Hv).
    destruct (IH fuel (pre ++ enc_ext e) x1) as (x2 & E & Hv2).
    + by rewrite <-app_assoc.
    + done.
    + rewrite length_app. lia.
    + simpl in Hf. lia.
    + rewrite length_app in E. exists x2. split.
      * rewrite <-E. f_equal. lia.
      * simpl. by rewrite Hv2, Hv.
Qed.

(** *** The whole message *)

Record hello := mk_hello {
  h_version : Z * Z;
  h_random : bytes;
  h_session_id : bytes;
  h_suites : bytes;
  h_compression : bytes;
  h_extensions : list extension;
}.
Definition enc_hello (m : hello) : bytes :=
  [(h_version m).1; (h_version m).2] ++ h_random m
  ++ be_bytes 1 (Z.of_nat (length (h_session_id m))) ++ h_session_id m
  ++ be_bytes 2 (Z.of_nat (length (h_suites m))) ++ h_suites m
  ++ be_bytes 1 (Z.of_nat (length (h_compression m))) ++ h_compression m
  ++ be_bytes 2 (Z.of_nat (length (enc_exts (h_extensions m)))) ++ enc_exts (h_extensions m).

Record hello_ok (m : hello) : Prop := mk_hello_ok {
  ok_random : length (h_random m) = 32%nat;
  ok_sid : (length (h_session_id m) <= 32)%nat;
  ok_comp : (length (h_compression m) < 256)%nat;
  ok_exts : Forall ext_ok (h_extensions m);
}.

(** The offset of the extension block within the fragment. *)
Definition exts_offset (m : hello) : nat :=
  (4 + 2 + 32 + 1 + length (h_session_id m) + 2 + length (h_suites m) + 1
   + length (h_compression m) + 2)%nat.
Lemma length_enc_hello m : hello_ok m ->
  (4 + length (enc_hello m) = exts_offset m + length (enc_exts (h_extensions m)))%nat.
Proof. intros [Hr _ _ _]. unfold enc_hello, exts_offset. len. Qed.

Lemma unpack_fixed_spec m hdr pf :
  hello_ok m -> length hdr = 4%nat -> pf = hdr ++ enc_hello m ->
  Z.of_nat (length pf) <= FRAG_SIZE ->
  exists pch, unpack_client_hello_fixed pf = Ret (pch, Z.of_nat (exts_offset m) - 2)
    /\ ch_version pch = h_version m /\ ch_random pch = h_random m
    /\ take (Z.to_nat (session_id_length pch)) (ch_session_id pch) = h_session_id m
    /\ rdn (Z.to_nat (cipher_suite_length pch)) pf (Z.to_nat (default 0 (cipher_suites pch)))
       = h_suites m.
Proof.
  intros Hok Hh Hpf Hb. pose proof (length_enc_hello m Hok) as Hle.
  rewrite Hpf, length_app in Hb. pose proof Hok as [Hr Hs Hc _].
  unfold exts_offset in Hle. unfold enc_hello in Hpf.
  set (v := [(h_version m).1; (h_version m).2]) in *.
  unfold unpack_client_hello_fixed, HANDSHAKE_HEADER_SIZE.
  rewrite (ldn_at 2 pf hdr v) with (1 := Hpf); [|done|lia|frag]. cbn [res_bind].
  rewrite (app_assoc hdr) in Hpf. set (p1 := hdr ++ v) in *.
  assert (length p1 = 6)%nat as L1 by (subst p1; len).
  rewrite (ldn_at 32 pf p1 (h_random m)) with (1 := Hpf); [|done|lia|frag]. cbn [res_bind].
  rewrite (app_assoc p1) in Hpf. set (p2 := p1 ++ h_random m) in *.
  assert (length p2 = 38)%nat as L2 by (subst p2; len).
  rewrite (ld8_at pf p2 _ _ _ Hpf); [|lia|frag|unfold is_u8; lia]. cbn [res_bind].
  rewrite (proj2 (Z.ltb_ge _ _)) by lia.
  rewrite (app_assoc p2) in Hpf. set (p3 := p2 ++ _) in Hpf.
  assert (length p3 = 39)%nat as L3 by (subst p3; len).
  rewrite (ldn_at _ pf p3 (h_session_id m)) with (1 := Hpf); [|lia|lia|frag]. cbn [res_bind].
  rewrite (app_assoc p3) in Hpf. set (p4 := p3 ++ _) in Hpf.
  assert (length p4 = 39 + length (h_session_id m))%nat as L4 by (subst p4; len).
  rewrite (ld16_at pf p4 _ _ _ Hpf); [|lia|frag|unfold is_u16; frag]. cbn [res_bind].
  rewrite (app_assoc p4) in Hpf. set (p5 := p4 ++ _) in Hpf.
  assert (length p5 = 41 + length (h_session_id m))%nat as L5 by (subst p5; len).
  pose proof Hpf as Hsuites. rewrite (app_assoc p5) in Hpf. set (p6 := p5 ++ _) in Hpf.
  assert (length p6 = 41 + length (h_session_id m) + length (h_suites m))%nat as L6 by (subst p6; len).
  rewrite (ld8_at pf p6 _ _ _ Hpf); [|lia|frag|unfold is_u8; lia]. cbn [res_bind].
  eexists. split; [do 2 f_equal; unfold exts_offset; lia|].
  cbn [ch_version ch_random session_id_length ch_session_id cipher_suite_length cipher_suites].
  split; [by destruct (h_version m)|]. split; [done|]. split.
  - rewrite Nat2Z.id. by apply take_app_length.
  - destruct (Z.ltb_spec 0 (Z.of_nat (length (h_suites m)))); cbn [from_option id].
    + rewrite Nat2Z.id, Hsuites. apply rdn_at; [lia|done].
    + rewrite Nat2Z.id. by destruct (h_suites m); [|simpl in *; lia].
Qed.

(** C34: a ClientHello whose extensions are all of types the parser knows (with
    a single key share) is parsed to exactly what the client sent: version,
    random, session identifier, cipher suites, and through the stored
    pointers the groups, signature algorithms, versions and key share. *)
Theorem client_hello_parsed m hdr fuel :
  hello_ok m -> length hdr = 4%nat ->
  Z.of_nat (length (hdr ++ enc_hello m)) <= FRAG_SIZE ->
  (length (h_extensions m) <= fuel)%nat ->
  exists pch,
    unpack_client_hello fuel (hdr ++ enc_hello m) (Z.of_nat (length (hdr ++ enc_hello m)))
      = Some (Ret (pch, true))
    /\ ch_version pch = h_version m /\ ch_random pch = h_random m
    /\ take (Z.to_nat (session_id_length pch)) (ch_session_id pch) = h_session_id m
    /\ rdn (Z.to_nat (cipher_suite_length pch)) (hdr ++ enc_hello m)
         (Z.to_nat (default 0 (cipher_suites pch))) = h_suites m
    /\ view (hdr ++ enc_hello m) (extensions pch)
       = foldl view_ext (mk_view None None None None) (h_extensions m).
Proof.
  intros Hok Hh Hb Hf. set (pf := hdr ++ enc_hello m) in *.
  destruct (unpack_fixed_spec m hdr pf Hok Hh eq_refl Hb) as (pch & E & Hv & Hrn & Hsid & Hcs).
  pose proof (length_enc_hello m Hok) as Hle. set (es := h_extensions m) in *.
  assert (length pf = exts_offset m + length (enc_exts es))%nat as Hl by (subst pf; rewrite length_app; lia).
  assert (Z.of_nat (exts_offset m + length (enc_exts es)) <= 16048) as Hb' by (rewrite <-Hl; exact Hb).
  assert (exists pre, pf = pre ++ be_bytes 2 (Z.of_nat (length (enc_exts es))) ++ enc_exts es ++ []
            /\ length pre = exts_offset m - 2)%nat as (pre & Hpf & Hpre).
  { exists (take (exts_offset m - 2) pf). split; [|rewrite length_take; lia].
    rewrite <-(take_drop (exts_offset m - 2) pf) at 1. f_equal. subst pf. unfold enc_hello.
    fold es. rewrite !(app_assoc hdr), !app_assoc. rewrite <-!(app_assoc _ (be_bytes 2 (Z.of_nat (length (enc_exts es))))).
    rewrite app_nil_r. apply drop_app_length'. destruct Hok as [Hr _ _ _]. unfold exts_offset. len. }
  assert (2 < exts_offset m)%nat by (unfold exts_offset; lia).
  unfold unpack_client_hello. rewrite E. rewrite (proj2 (Z.ltb_lt _ _)) by lia.
  rewrite (ld16_at pf pre _ _ _ Hpf); [|lia|frag|unfold is_u16; lia].
  rewrite !u16_id by (unfold is_u16; lia). unfold unpack_extensions.
  destruct (Z.ltb_spec 0 (Z.of_nat (length (enc_exts es)))) as [Hpos|Hz].
  - rewrite (app_assoc pre) in Hpf.
    destruct (extensions_loop_spec es fuel pf _ [] client_extensions0 Hpf (ok_exts m Hok))
      as (x & Ex & Hx); [rewrite length_app, Hpre, length_be_bytes; frag|done|].
    rewrite length_app, Hpre, length_be_bytes in Ex.
    replace (Z.of_nat (exts_offset m) - 2 + 2) with (Z.of_nat (exts_offset m - 2 + 2)) by lia.
    replace (Z.of_nat (length pf)) with (Z.of_nat (exts_offset m - 2 + 2 + length (enc_exts es))) by lia.
    rewrite Ex. eexists. split; [done|]. simpl. repeat (split; [done|]). exact Hx.
  - eexists. split; [done|]. simpl. repeat (split; [done|]).
    destruct es as [|e es']; [done|]. change (enc_exts (e :: es')) with (enc_ext e ++ enc_exts es') in Hz.
    rewrite length_app, length_enc_ext in Hz. lia.
Qed.

(** ClientHellos used by the witnesses. *)
Definition sample_exts : list extension :=
  [ESkip EC_POINT_FORMATS [1; 0]; EGroups [0; 0x1d; 0; 0x17]; ESkip SESSION_TICKET [];
   ESignatures [4; 3; 8; 4]; EVersions [3; 4; 3; 3]; EKeyShare 0x001d (replicate 32 7)].
Definition sample_hello : hello :=
  mk_hello (3, 3) (replicate 32 9) (replicate 32 5) [0x13; 0x02; 0; 0xff] [0] sample_exts.

Lemma client_hello_parsed_witness :
  exists pch,
    unpack_client_hello 6 ([1; 0; 0; 0] ++ enc_hello sample_hello)
      (Z.of_nat (length ([1; 0; 0; 0] ++ enc_hello sample_hello))) = Some (Ret (pch, true))
    /\ ch_version pch = (3, 3)
    /\ v_key (view ([1; 0; 0; 0] ++ enc_hello sample_hello) (extensions pch))
       = Some (0x001d, replicate 32 7).
Proof.
  destruct (client_hello_parsed sample_hello [1; 0; 0; 0] 6) as (pch & E & Hv & _ & _ & _ & Hx).
  - split; [reflexivity|simpl; lia|simpl; lia|].
    repeat (apply Forall_cons; split; [try exact I; try (simpl; unfold is_u16; lia)|]); [| |apply Forall_nil, I];
      apply (bool_decide_unpack _); vm_compute; exact I.
  - reflexivity.
  - vm_compute. discriminate.
  - simpl. lia.
  - exists pch. split; [exact E|]. split; [exact Hv|]. rewrite Hx. reflexivity.
Defined.

(** An extension of a skipped type whose length field is [0xFFFC] brings
    the 16-bit offset back to where it was: the parser never returns. *)
Theorem extension_length_loops pre post t x fuel end_ :
  t ∈ skipped_types -> Z.of_nat (length pre) + 4 <= FRAG_SIZE -> Z.of_nat (length pre) < end_ ->
  extensions_loop fuel (pre ++ be_bytes 2 t ++ be_bytes 2 0xFFFC ++ post)
    (Z.of_nat (length pre)) end_ x = None.
Proof.
  intros Ht Hb He. set (pf := pre ++ _).
  assert (is_u16 t) as Hu by (apply (ext_type_u16 (ESkip t [])), Ht).
  assert (unpack_extension pf (Z.of_nat (length pre)) x = Ret (Z.of_nat (length pre), x)) as Hs.
  { unfold unpack_extension.
    rewrite (ld16_at pf pre t (be_bytes 2 0xFFFC ++ post)) by (done || frag). cbn [res_bind].
    rewrite (u16_id (Z.of_nat (length pre) + 2)) by (unfold is_u16; frag).
    rewrite (ld16_at pf (pre ++ be_bytes 2 t) 0xFFFC post);
      [|by subst pf; rewrite <-app_assoc|len|frag|unfold is_u16; lia].
    cbn [res_bind]. rewrite decide_True by done. do 2 f_equal.
    rewrite (u16_id (Z.of_nat (length pre) + 2 + 2)) by (unfold is_u16; frag).
    unfold u16. replace (Z.of_nat (length pre) + 2 + 2 + 65532) with (Z.of_nat (length pre) + 1 * 2 ^ 16) by lia.
    rewrite Z.mod_add by lia. apply Z.mod_small. frag. }
  induction fuel as [|fuel IH]; simpl; rewrite (proj2 (Z.ltb_lt _ _)) by done; simpl; [done|].
  by rewrite Hs.
Qed.

Lemma extension_length_loops_witness :
  extensions_loop 1000 ([0; 0] ++ be_bytes 2 ALPN ++ be_bytes 2 0xFFFC ++ [1]) 2 7
    client_extensions0 = None.
Proof.
  apply (extension_length_loops [0; 0] [1] ALPN client_extensions0 1000 7);
    [apply (bool_decide_unpack _); vm_compute; exact I|vm_compute; discriminate|reflexivity].
Defined.

(** The body of an extension of another type is read as further extensions:
    with a server name ("a.example", 9 bytes) in front, the groups and the key
    share of the same hello are not found. *)
Example server_name_misparsed :
  let sni := [0; 0; 0; 14; 0; 12; 0; 0; 9; 0x61; 0x2e; 0x65; 0x78; 0x61; 0x6d; 0x70; 0x6c; 0x65] in
  let es := sni ++ enc_exts [EGroups [0; 0x1d]; EKeyShare 0x001d (replicate 32 7)] in
  extensions_loop 60 es 0 (Z.of_nat (length es)) client_extensions0
  = Some (Ret client_extensions0).
Proof. vm_compute. reflexivity. Qed.

(** *** Negotiation *)

Definition known_suites : list (Z * Z) :=
  [TLS_AES_256_GCM_SHA384; TLS_RSA_WITH_AES_256_GCM_SHA384; TLS_RSA_WITH_AES_256_CBC_SHA].

(** [select_cipher] returns the first suite of the client's list that the
    server knows, and [TLS_NULL_WITH_NULL_NULL] when there is none. *)
Theorem select_cipher_first suites :
  select_cipher suites
  = default TLS_NULL_WITH_NULL_NULL (head (filter (fun c => c ∈ known_suites) suites)).
Proof.
  induction suites as [|c l IH]; [done|]. cbn [select_cipher]. rewrite filter_cons.
  unfold known_suites at 1. repeat case_decide; subst; try done; set_solver.
Qed.

Lemma get_u32_be a b c : is_u8 a -> is_u8 b -> is_u8 c -> get_u32 [a; b; c] = be_val [a; b; c].
Proof.
  unfold is_u8. intros Ha Hb Hc. unfold get_u32, rd8. simpl.
  rewrite (u32_id (Z.shiftl a 8)) by (unfold is_u32; rewrite Z.shiftl_mul_pow2; lia).
  rewrite lor_shiftl_add by lia.
  rewrite u32_id by (unfold is_u32; rewrite Z.shiftl_mul_pow2; lia).
  rewrite lor_shiftl_add by lia. unfold be_val. simpl. lia.
Qed.

(** A 24-bit length written by [set_u32] is read back by [get_u32]. *)
Theorem u24_roundtrip z : 0 <= z < 2 ^ 24 -> get_u32 (set_u32 z) = z.
Proof.
  intros Hz. assert (Forall is_u8 (le_bytes 4 z)) as Hb by apply le_bytes_ok.
  unfold set_u32, rd8. cbn [le_bytes] in *.
  apply Forall_cons in Hb as [H0 Hb]. apply Forall_cons in Hb as [H1 Hb]. apply Forall_cons in Hb as [H2 _].
  cbn [lookup list_lookup from_option id]. rewrite get_u32_be by done.
  change (be_val (be_bytes 3 z) = z). rewrite be_val_be_bytes. by apply Z.mod_small.
Qed.

Lemma u24_roundtrip_witness : get_u32 (set_u32 0x012345) = 0x012345.
Proof. apply u24_roundtrip. lia. Defined.
