(* ===== verification/TlsPack.v ===== *)
(** * Building the server's handshake messages (ssl.c: [send_server_hello],
      [send_encrypted_extensions], [send_certificate],
      [send_certificate_verify], [send_server_finished], [send_handshake],
      [send_handshake_tls13], [pack_record], [pack_handshake],
      [pack_application_data], [remove_leading_zeros],
      [handle_after_ecdsa_signature])

    The [send_*] functions fill a handshake structure and add up its length;
    the [pack_*] functions serialise the structure into the record's buffer.
    The theorems compare the bytes of the record with the encodings of RFC
    8446 and, for the signature, of DER. *)

From S2P Require Import Prelude Operand ClientHello.

(** Content types and message types. *)
Definition CT_HANDSHAKE : Z := 0x16.
Definition CT_APPLICATION_DATA : Z := 0x17.
Definition HS_HELLO_REQUEST : Z := 0.
Definition HS_CLIENT_HELLO : Z := 1.
Definition HS_SERVER_HELLO : Z := 2.
Definition HS_ENCRYPTED_EXTENSIONS : Z := 8.
Definition HS_CERTIFICATE : Z := 11.
Definition HS_SERVER_HELLO_DONE : Z := 14.
Definition HS_CERTIFICATE_VERIFY : Z := 15.
Definition HS_FINISHED : Z := 20.
Definition HS_SERVER_FINISHED : Z := 22.

(** ** The structures *)

(** [server_supported_versions_t] and [server_key_share_t]; the 16-bit fields
    hold raw (network order) values. *)
Record server_supported_versions := mk_ssv {
  ssv_extension_type : Z;
  ssv_extension_length : Z;
  ssv_version : Z * Z;
}.
Record server_key_share := mk_sks {
  sks_extension_type : Z;
  sks_extension_length : Z;
  sks_curve_type : Z;
  sks_pub_key_length : Z;
  sks_server_pub_key : bytes;
}.

(** [handshake_t.body], the members the server fills. *)
Inductive handshake_body : Type :=
| ServerHello (version : Z * Z) (random : bytes) (session_id_length : Z) (session_id : bytes)
    (cipher_suite : Z * Z) (compression_method : Z) (extensions_length : Z)
    (sv : server_supported_versions) (ks : server_key_share)
| EncryptedExtensions (extensions_length : Z)
| CertificateTls12 (certificates_length : bytes) (cert_length : bytes) (certificate : bytes)
| FinishedTls12 (verify_data : bytes)
| CertificateTls13 (request_context_length : Z) (certificates_length : bytes)
    (cert_length : bytes) (certificate : bytes) (cert_extensions_length : Z)
| CertificateVerify (signature_algorithm : Z * Z) (signature_length : Z) (cert_signature : bytes)
| FinishedTls13 (verify_data : bytes).

(** [handshake_t]. *)
Record handshake := mk_handshake {
  msg_type : Z;
  hs_length : bytes;
  body : handshake_body;
}.

(** ** Filling the structures

    Each returns the body and [length], the sum of the sizes of its members. *)

Definition fill_server_hello (version : Z * Z) (server_random id : bytes) (cipher : Z * Z)
    (pub_key : bytes) : handshake_body * Z :=
  (ServerHello version server_random 32 id cipher 0 (2 + 2 + 2 + 2 + 2 + 36)
     (mk_ssv (htons SUPPORTED_VERSIONS) (htons 0x0002) (0x03, 0x04))
     (mk_sks (htons KEY_SHARE) (htons 0x0024) (htons 0x001d) (htons 0x0020) pub_key),
   2 + 32 + 1 + 32 + 2 + 1 + 2 + (2 + 2 + 2) + (2 + 2 + 2 + 2 + 32)).

(** The public key of the ServerHello: [operand_to_string] into a stack buffer,
    then reversed. *)
Definition server_pub_key (ecdhe_pub_key : pka_operand) (stack : bytes) : res bytes :=
  res_bind (operand_to_string ecdhe_pub_key stack 32) (fun s => byte_swap_copy (zeros 32) s 32).

Definition fill_encrypted_extensions : handshake_body * Z := (EncryptedExtensions 0, 2).

Definition fill_certificate (certificate : bytes) : handshake_body * Z :=
  let length0 := Z.of_nat (length certificate) in
  let cert_length := set_u32 length0 in
  let length1 := length0 + 3 + 2 in
  let certificates_length := set_u32 length1 in
  (CertificateTls13 0 certificates_length cert_length certificate 0, length1 + 3 + 1).

Definition fill_certificate_verify (alg : Z * Z) (cert_signature : bytes) (sig_len : Z)
    : handshake_body * Z :=
  (CertificateVerify alg sig_len cert_signature, 2 + 2 + sig_len).

Definition fill_server_finished (verify_data : bytes) : handshake_body * Z :=
  (FinishedTls13 verify_data, 48).

(** [send_handshake] and [send_handshake_tls13] up to [send_record]: the
    handshake and the length with its 4-byte header. *)
Definition send_handshake (b : handshake_body) (mt : Z) (length_ : Z) : handshake * Z :=
  (mk_handshake mt (set_u32 length_) b, length_ + 3 + 1).

(** ** Serialisation *)

(** A record being packed: what [plain_text], [length] and [decrypted] hold.
    The packing functions write at increasing offsets, so [decrypted] is the
    list of the bytes written so far and [offset] is its length. *)
Record packing := mk_packing {
  pk_type : Z;
  pk_version : Z * Z;
  pk_length : Z;
  pk_record_length : Z;
  pk_decrypted : bytes;
}.

Definition raw16 (z : Z) : bytes := le_bytes 2 z.
Definition pair_bytes (p : Z * Z) : bytes := [p.1; p.2].

(** The certificate loops: only one certificate is stored, so a second turn
    would leave the array. [ext] is the extension length that TLS 1.3 adds to
    each certificate. *)
Definition pack_certificates (certificates_length cert_length certificate : bytes)
    (ext : option Z) : res bytes :=
  let remain := get_u32 certificates_length in
  if remain <=? 0 then Ret [] else
  let n := get_u32 cert_length in
  let tail := match ext with Some e => raw16 e | None => [] end in
  if Z.of_nat (length certificate) <? n then Fault Out_of_bounds else
  if 0 <? remain - 3 - n - Z.of_nat (length tail) then Fault Out_of_bounds else
  Ret (cert_length ++ take (Z.to_nat n) certificate ++ tail).

(** [pack_handshake] after the 4-byte header; [None] where it deletes the
    record, aborts the session and returns -1. *)
Definition pack_handshake (mt : Z) (b : handshake_body) : option (res bytes) :=
  if (mt =? HS_HELLO_REQUEST) || (mt =? HS_CLIENT_HELLO) then Some (Fault Assert_failed)
  else match b with
  | ServerHello version random sid_len sid cipher cm ext_len sv ks =>
      if mt =? HS_SERVER_HELLO then
        Some (Ret (pair_bytes version ++ random ++ [sid_len] ++ sid ++ pair_bytes cipher ++ [cm]
          ++ raw16 (htons ext_len)
          ++ raw16 (ssv_extension_type sv) ++ raw16 (ssv_extension_length sv)
          ++ pair_bytes (ssv_version sv)
          ++ raw16 (sks_extension_type ks) ++ raw16 (sks_extension_length ks)
          ++ raw16 (sks_curve_type ks) ++ raw16 (sks_pub_key_length ks)
          ++ sks_server_pub_key ks))
      else None
  | CertificateTls12 cls cl cert =>
      if mt =? HS_CERTIFICATE then
        Some (res_bind (pack_certificates cls cl cert None) (fun cs => Ret (cls ++ cs)))
      else if mt =? HS_SERVER_HELLO_DONE then Some (Ret []) else None
  | FinishedTls12 vd =>
      if (mt =? HS_FINISHED) || (mt =? HS_SERVER_FINISHED) then Some (Ret (take 12 vd))
      else if mt =? HS_SERVER_HELLO_DONE then Some (Ret []) else None
  | _ => if mt =? HS_SERVER_HELLO_DONE then Some (Ret []) else None
  end.

(** [pack_application_data] after the 4-byte header and before the content
    type; [sig_len] is the session's [cert_signature_len]. *)
Definition pack_application_data (mt : Z) (b : handshake_body) (sig_len : Z)
    : option (res bytes) :=
  match b with
  | EncryptedExtensions ext_len =>
      if mt =? HS_ENCRYPTED_EXTENSIONS then Some (Ret (raw16 (htons ext_len))) else None
  | CertificateTls13 rcl cls cl cert cel =>
      if mt =? HS_CERTIFICATE then
        Some (res_bind (pack_certificates cls cl cert (Some cel)) (fun cs => Ret ([rcl] ++ cls ++ cs)))
      else None
  | CertificateVerify alg len sg =>
      if mt =? HS_CERTIFICATE_VERIFY then
        Some (if Z.of_nat (length sg) <? sig_len then Fault Out_of_bounds
              else Ret (pair_bytes alg ++ raw16 (htons len) ++ take (Z.to_nat sig_len) sg))
      else None
  | FinishedTls13 vd =>
      if mt =? HS_FINISHED then Some (Ret (take 48 vd)) else None
  | _ => None
  end.

Definition pack_body (record_type : Z) (mt : Z) (b : handshake_body) (sig_len : Z)
    : option (res bytes) :=
  if record_type =? CT_HANDSHAKE then pack_handshake mt b
  else pack_application_data mt b sig_len.

(** [pack_record] for a handshake record ([HANDSHAKE]) or a TLS 1.3 inner
    plaintext ([APPLICATION_DATA]); the latter ends with its content type and
    its length field is rewritten. *)
Definition pack_record (record_type : Z) (version : Z * Z) (length_ : Z) (hs : handshake)
    (sig_len : Z) : option (res packing) :=
  let plen := u16 length_ in
  let rlen := length_ + 2 + 1 + 2 in
  let hdr := [record_type] ++ pair_bytes version ++ raw16 (htons plen) in
  match pack_body record_type (msg_type hs) (body hs) sig_len with
  | None => None
  | Some (Fault f) => Some (Fault f)
  | Some (Ret b) =>
      let d := hdr ++ [msg_type hs] ++ hs_length hs ++ b in
      Some (Ret
        (if record_type =? CT_HANDSHAKE then mk_packing record_type version plen rlen d
         else let plen' := u16 (plen + 1) in
              mk_packing record_type version plen' (rlen + 1)
                (wr (d ++ [CT_HANDSHAKE]) 3 (raw16 (htons plen')))))
  end.

(** The message as [send_*] builds it. *)
Definition build (record_type mt : Z) (version : Z * Z) (bl : handshake_body * Z) (sig_len : Z)
    : option (res packing) :=
  let '(hs, len) := send_handshake bl.1 mt bl.2 in
  pack_record record_type version len hs sig_len.

(** ** Reference encodings (RFC 8446, section 4 and 5) *)

Definition vec (n : nat) (l : bytes) : bytes := be_bytes n (Z.of_nat (length l)) ++ l.
Definition rfc_handshake (mt : Z) (b : bytes) : bytes := [mt] ++ vec 3 b.
Definition rfc_extension (t : Z) (b : bytes) : bytes := be_bytes 2 t ++ vec 2 b.

Definition rfc_server_hello (random id : bytes) (cipher : Z * Z) (key : bytes) : bytes :=
  [3; 3] ++ random ++ vec 1 id ++ pair_bytes cipher ++ [0]
  ++ vec 2 (rfc_extension 43 [3; 4] ++ rfc_extension 51 (be_bytes 2 0x001d ++ vec 2 key)).
Definition rfc_certificate (cert : bytes) : bytes :=
  vec 1 [] ++ vec 3 (vec 3 cert ++ vec 2 []).
Definition rfc_certificate_verify (alg : Z * Z) (sg : bytes) : bytes := pair_bytes alg ++ vec 2 sg.

(** A plaintext record, and an inner plaintext with the header it gets before
    encryption. *)
Definition rfc_record (t : Z) (fragment : bytes) : bytes := [t; 3; 3] ++ vec 2 fragment.

(** ** Lemmas *)

Lemma raw16_htons z : is_u16 z -> raw16 (htons z) = be_bytes 2 z.
Proof.
  intros Hz. unfold raw16, bswap16. rewrite le_bytes_be_val by (auto with xtls; len). done.
Qed.

Lemma set_u32_be z : 0 <= z < 2 ^ 24 -> set_u32 z = be_bytes 3 z.
Proof. done. Qed.
Lemma get_set_u32 z : 0 <= z < 2 ^ 24 -> get_u32 (set_u32 z) = z.
Proof.
  intros Hz. rewrite set_u32_be by done. pose proof (be_bytes_ok 3 z) as Hb.
  pose proof (be_val_be_bytes 3 z) as Hv. destruct (be_bytes 3 z) as [|a [|b [|c [|]]]] eqn:E;
    try (apply (f_equal length) in E; rewrite length_be_bytes in E; done).
  apply Forall_cons in Hb as [Ha Hb]. apply Forall_cons in Hb as [Hb Hc].
  apply Forall_cons in Hc as [Hc _]. rewrite get_u32_be by done. rewrite Hv. by apply Z.mod_small.
Qed.

Lemma vec_small n l k : length l = k -> vec n l = be_bytes n (Z.of_nat k) ++ l.
Proof. by intros <-. Qed.

Lemma length_vec n l : length (vec n l) = (n + length l)%nat.
Proof. unfold vec. len. Qed.
#[export] Hint Rewrite length_vec : xtls_len.

(** A message packed as a plaintext handshake record. *)
Lemma build_handshake mt b l bs sig_len :
  pack_body CT_HANDSHAKE mt b sig_len = Some (Ret bs) -> l = Z.of_nat (length bs) ->
  l + 4 < 2 ^ 16 ->
  build CT_HANDSHAKE mt (3, 3) (b, l) sig_len
  = Some (Ret (mk_packing CT_HANDSHAKE (3, 3) (l + 4) (l + 9)
                 (rfc_record CT_HANDSHAKE (rfc_handshake mt bs)))).
Proof.
  intros Hb Hl Hs. unfold build, send_handshake, pack_record. cbn [fst snd msg_type body hs_length].
  rewrite Hb. rewrite Z.eqb_refl. replace (l + 3 + 1) with (l + 4) by lia.
  rewrite u16_id by (unfold is_u16; lia). do 3 f_equal; [lia|].
  rewrite raw16_htons by (unfold is_u16; lia). rewrite set_u32_be by lia.
  unfold rfc_record, rfc_handshake. rewrite (vec_small 2 _ (Z.to_nat (l + 4))) by (len).
  rewrite Z2Nat.id by lia. rewrite (vec_small 3 bs (length bs)) by done. by rewrite Hl.
Qed.

(** A message packed as an inner plaintext. *)
Lemma build_inner mt b l bs sig_len :
  pack_body CT_APPLICATION_DATA mt b sig_len = Some (Ret bs) -> l = Z.of_nat (length bs) ->
  l + 5 < 2 ^ 16 ->
  build CT_APPLICATION_DATA mt (3, 3) (b, l) sig_len
  = Some (Ret (mk_packing CT_APPLICATION_DATA (3, 3) (l + 5) (l + 10)
                 (rfc_record CT_APPLICATION_DATA (rfc_handshake mt bs ++ [CT_HANDSHAKE])))).
Proof.
  intros Hb Hl Hs. unfold build, send_handshake, pack_record. cbn [fst snd msg_type body hs_length].
  rewrite Hb. cbn [Z.eqb CT_APPLICATION_DATA CT_HANDSHAKE Pos.eqb].
  replace (l + 3 + 1) with (l + 4) by lia.
  rewrite (u16_id (l + 4)) by (unfold is_u16; lia). rewrite u16_id by (unfold is_u16; lia).
  replace (l + 4 + 1) with (l + 5) by lia.
  do 3 f_equal; [lia|].
  rewrite !raw16_htons by (unfold is_u16; lia). rewrite set_u32_be by lia.
  unfold rfc_record, rfc_handshake. rewrite (vec_small 2 _ (Z.to_nat (l + 5))) by len.
  rewrite Z2Nat.id by lia. rewrite (vec_small 3 bs (length bs)), <-Hl by done.
  unfold wr. rewrite length_be_bytes. unfold pair_bytes. cbn [fst snd].
  rewrite <-!app_assoc. rewrite (app_assoc [CT_APPLICATION_DATA] [3; 3]).
  set (h := [CT_APPLICATION_DATA] ++ [3; 3]).
  rewrite take_app_length' by done. rewrite (app_assoc h (be_bytes 2 (l + 4))), drop_app_length' by (subst h; len).
  done.
Qed.

(** ** The messages *)

(** C35: the ServerHello record is the RFC 8446 encoding of a TLS 1.3
    ServerHello that echoes the session identifier, with the supported-version
    and X25519 key-share extensions, and every length field is right. *)
Theorem server_hello_encoding random id cipher key :
  length random = 32%nat -> length id = 32%nat -> length key = 32%nat ->
  build CT_HANDSHAKE HS_SERVER_HELLO (3, 3) (fill_server_hello (3, 3) random id cipher key) 0
  = Some (Ret (mk_packing CT_HANDSHAKE (3, 3) 122 127
      (rfc_record CT_HANDSHAKE (rfc_handshake HS_SERVER_HELLO
         (rfc_server_hello random id cipher key))))).
Proof.
  intros Hr Hi Hk. apply (build_handshake HS_SERVER_HELLO _ 118).
  - unfold pack_body, pack_handshake.
    cbn [Z.eqb CT_HANDSHAKE HS_SERVER_HELLO HS_HELLO_REQUEST HS_CLIENT_HELLO Pos.eqb orb]. do 2 f_equal.
    unfold rfc_server_hello, rfc_extension, pair_bytes. rewrite !raw16_htons by (unfold is_u16; vm_compute; by split).
    rewrite (vec_small 1 id 32), (vec_small 2 key 32) by done.
    rewrite (vec_small 2 (be_bytes 2 29 ++ _) 36) by len.
    rewrite (vec_small 2 (_ ++ _) 46) by len.
    done.
  - unfold rfc_server_hello, rfc_extension. len.
  - lia.
Qed.

Lemma server_hello_encoding_witness :
  build CT_HANDSHAKE HS_SERVER_HELLO (3, 3)
    (fill_server_hello (3, 3) (replicate 32 1) (replicate 32 2) (0x13, 0x02) (replicate 32 3)) 0
  = Some (Ret (mk_packing CT_HANDSHAKE (3, 3) 122 127
      (rfc_record CT_HANDSHAKE (rfc_handshake HS_SERVER_HELLO
         (rfc_server_hello (replicate 32 1) (replicate 32 2) (0x13, 0x02) (replicate 32 3)))))).
Proof. apply server_hello_encoding; reflexivity. Defined.

(** C36: the encrypted flight before encryption: EncryptedExtensions,
    Certificate, CertificateVerify and Finished are the RFC 8446 encodings of
    those messages, each followed by its content type, with right lengths at
    every level. *)
Theorem server_flight_encoding cert alg sg pad vd :
  Z.of_nat (length cert) < 2 ^ 14 -> Z.of_nat (length sg) < 256 -> length vd = 48%nat ->
  build CT_APPLICATION_DATA HS_ENCRYPTED_EXTENSIONS (3, 3) fill_encrypted_extensions 0
  = Some (Ret (mk_packing CT_APPLICATION_DATA (3, 3) 7 12
      (rfc_record CT_APPLICATION_DATA
         (rfc_handshake HS_ENCRYPTED_EXTENSIONS (vec 2 []) ++ [CT_HANDSHAKE])))) /\
  build CT_APPLICATION_DATA HS_CERTIFICATE (3, 3) (fill_certificate cert) 0
  = Some (Ret (mk_packing CT_APPLICATION_DATA (3, 3)
      (Z.of_nat (length cert) + 14) (Z.of_nat (length cert) + 19)
      (rfc_record CT_APPLICATION_DATA
         (rfc_handshake HS_CERTIFICATE (rfc_certificate cert) ++ [CT_HANDSHAKE])))) /\
  build CT_APPLICATION_DATA HS_CERTIFICATE_VERIFY (3, 3)
    (fill_certificate_verify alg (sg ++ pad) (Z.of_nat (length sg))) (Z.of_nat (length sg))
  = Some (Ret (mk_packing CT_APPLICATION_DATA (3, 3)
      (Z.of_nat (length sg) + 9) (Z.of_nat (length sg) + 14)
      (rfc_record CT_APPLICATION_DATA
         (rfc_handshake HS_CERTIFICATE_VERIFY (rfc_certificate_verify alg sg) ++ [CT_HANDSHAKE])))) /\
  build CT_APPLICATION_DATA HS_FINISHED (3, 3) (fill_server_finished vd) 0
  = Some (Ret (mk_packing CT_APPLICATION_DATA (3, 3) 53 58
      (rfc_record CT_APPLICATION_DATA (rfc_handshake HS_FINISHED vd ++ [CT_HANDSHAKE])))).
Proof.
  intros Hc Hs Hv. split; [|split; [|split]].
  - apply (build_inner HS_ENCRYPTED_EXTENSIONS _ 2); [done|done|lia].
  - unfold fill_certificate. set (n := Z.of_nat (length cert)) in *.
    replace (n + 14) with (n + 3 + 2 + 3 + 1 + 5) by lia.
    replace (n + 19) with (n + 3 + 2 + 3 + 1 + 10) by lia.
    apply build_inner; [|unfold rfc_certificate; len|lia].
    unfold pack_body, pack_application_data.
    cbn [Z.eqb CT_APPLICATION_DATA CT_HANDSHAKE HS_CERTIFICATE Pos.eqb]. f_equal.
    unfold pack_certificates. rewrite !get_set_u32 by lia.
    destruct (Z.leb_spec (n + 3 + 2) 0); [lia|]. rewrite (proj2 (Z.ltb_ge _ _)) by lia.
    rewrite (proj2 (Z.ltb_ge 0 _)) by (simpl; lia). cbn [res_bind]. f_equal.
    unfold rfc_certificate. rewrite (vec_small 3 (vec 3 cert ++ vec 2 []) (length cert + 5)) by len.
    rewrite !set_u32_be by lia. rewrite firstn_all2 by lia. unfold vec.
    replace (Z.of_nat (length cert + 5)) with (n + 3 + 2) by lia. done.
  - unfold fill_certificate_verify. set (n := Z.of_nat (length sg)) in *.
    replace (n + 9) with (2 + 2 + n + 5) by lia. replace (n + 14) with (2 + 2 + n + 10) by lia.
    apply build_inner; [|unfold rfc_certificate_verify; len|lia].
    unfold pack_body, pack_application_data.
    cbn [Z.eqb CT_APPLICATION_DATA CT_HANDSHAKE HS_CERTIFICATE_VERIFY Pos.eqb].
    rewrite (proj2 (Z.ltb_ge _ _)) by len. do 2 f_equal. unfold rfc_certificate_verify, vec.
    rewrite raw16_htons by (unfold is_u16; lia). by rewrite take_app_length' by lia.
  - apply (build_inner HS_FINISHED _ 48); [|by rewrite Hv|lia].
    unfold pack_body, pack_application_data.
    cbn [Z.eqb CT_APPLICATION_DATA CT_HANDSHAKE HS_FINISHED Pos.eqb fill_server_finished fst].
    by rewrite firstn_all2 by lia.
Qed.

Lemma server_flight_encoding_witness :
  build CT_APPLICATION_DATA HS_CERTIFICATE (3, 3) (fill_certificate (replicate 400 1)) 0
  = Some (Ret (mk_packing CT_APPLICATION_DATA (3, 3) 414 419
      (rfc_record CT_APPLICATION_DATA
         (rfc_handshake HS_CERTIFICATE (rfc_certificate (replicate 400 1)) ++ [CT_HANDSHAKE])))).
Proof.
  destruct (server_flight_encoding (replicate 400 1) (4, 3) [1] [] (replicate 48 1)) as (_ & E & _);
    [reflexivity|reflexivity|reflexivity|]. exact E.
Defined.

(** The key share of the ServerHello is the little-endian encoding of the
    server's public value, the form RFC 7748 requires, when the accelerator
    returned all 32 bytes of it. *)
Theorem server_key_share_le op stack :
  operand_ok op -> actual_len op = 32 -> length stack = 32%nat ->
  server_pub_key op stack = Ret (le_bytes 32 (operand_val op)).
Proof.
  intros Hok Ha Hs. unfold server_pub_key. rewrite operand_to_string_spec by (done || lia).
  cbn [res_bind]. rewrite Ha. change (Z.to_nat 32) with 32%nat.
  pose proof (length_digits op Hok) as Hl. rewrite Ha in Hl. change (Z.to_nat 32) with 32%nat in Hl.
  rewrite drop_ge, app_nil_r by lia. rewrite byte_swap_copy_spec by len.
  change (Z.to_nat 32) with 32%nat. rewrite (firstn_all2 (digits op)) by lia.
  rewrite drop_ge, app_nil_r by len. f_equal. unfold operand_val.
  by rewrite le_bytes_be_val by auto using digits_ok.
Qed.

Lemma server_key_share_le_witness :
  server_pub_key (mk_operand (replicate 32 5) 32 32 0 false) (zeros 32)
  = Ret (le_bytes 32 (operand_val (mk_operand (replicate 32 5) 32 32 0 false))).
Proof.
  apply server_key_share_le; [split; [apply Forall_replicate; unfold is_u8; lia|simpl; lia]|reflexivity|reflexivity].
Defined.

(** ** The ECDSA signature in DER *)

(** [while (offset < *len && buf[offset] == 0x00) offset++]. *)
Fixpoint leading_zeros (n : nat) (buf : bytes) (offset : nat) : nat :=
  match n with
  | O => offset
  | S n' => if rd8 buf offset =? 0 then leading_zeros n' buf (S offset) else offset
  end.
Definition remove_leading_zeros (buf : bytes) (len : Z) : bytes * Z :=
  let offset := leading_zeros (Z.to_nat len) buf 0 in
  if (0 <? offset)%nat then
    (wr buf 0 (take (Z.to_nat len - offset) (drop offset buf)), u16 (len - Z.of_nat offset))
  else (buf, len).

(** One integer of [handle_after_ecdsa_signature]: [stack] is the uninitialised
    part of [r_buf] from its second byte on. *)
Definition der_integer (op : pka_operand) (stack : bytes) : res bytes :=
  res_bind (operand_to_string op stack (u16 (actual_len op))) (fun buf1 =>
  let '(buf1, len) := remove_leading_zeros buf1 (u16 (actual_len op)) in
  let buf := 0x00 :: buf1 in
  let msb := negb (Z.land (rd8 buf 1) 0x80 =? 0) in
  let len := if msb then u16 (len + 1) else len in
  Ret ([0x02; u8 len] ++ (if msb then take (Z.to_nat len) buf else take (Z.to_nat len) buf1))).

(** [handle_after_ecdsa_signature]: the signature and [cert_signature_len]. *)
Definition MAX_CERT_SIG_SIZE : Z := 128.
Definition handle_after_ecdsa_signature (r s : pka_operand) (stack_r stack_s : bytes)
    : res (bytes * Z) :=
  res_bind (der_integer r stack_r) (fun rb =>
  res_bind (der_integer s stack_s) (fun sb =>
  let sg := [0x30; u8 (Z.of_nat (length rb + length sb))] ++ rb ++ sb in
  if MAX_CERT_SIG_SIZE <? Z.of_nat (length sg) then Fault Out_of_bounds
  else Ret (sg, u8 (Z.of_nat (length sg))))).

(** Reference: the shortest two's-complement encoding of a positive integer,
    and a SEQUENCE of two INTEGERs (X.690). *)
Definition der_content (v : Z) : bytes := be_bytes (Z.to_nat ((Z.log2 v + 1) / 8 + 1)) v.
Definition der_int (v : Z) : bytes := [0x02] ++ vec 1 (der_content v).
Definition der_ecdsa (r s : Z) : bytes := [0x30] ++ vec 1 (der_int r ++ der_int s).

Lemma leading_zeros_spec l k n post :
  length l = n -> leading_zeros n (k ++ l ++ post) (length k) = (length k + (n - length (strip l)))%nat.
Proof.
  revert k n. induction l as [|b l IH]; intros k n Hn; subst n; simpl; [lia|].
  unfold rd8. rewrite lookup_app_r, Nat.sub_diag by lia. simpl. destruct (Z.eqb_spec b 0) as [->|].
  - specialize (IH (k ++ [0]) (length l) eq_refl). rewrite length_app in IH. simpl in IH.
    rewrite <-app_assoc in IH. simpl in IH. rewrite Nat.add_1_r in IH. rewrite IH.
    pose proof (length_strip l). lia.
  - simpl. lia.
Qed.

Lemma strip_suffix l : exists z, l = z ++ strip l /\ length z = (length l - length (strip l))%nat.
Proof.
  induction l as [|b l IH]; [by exists []|]. simpl. case_match.
  - destruct IH as (z & E & Hz). exists (b :: z). split; [simpl; by f_equal|].
    pose proof (length_strip l). simpl. lia.
  - exists []. split; [done|]. simpl. lia.
Qed.

Lemma remove_leading_zeros_spec l post :
  Z.of_nat (length l) < 2 ^ 16 ->
  exists post', remove_leading_zeros (l ++ post) (Z.of_nat (length l))
    = (strip l ++ post', Z.of_nat (length (strip l))) /\ (strip l = l -> post' = post).
Proof.
  intros Hl. unfold remove_leading_zeros. rewrite Nat2Z.id.
  pose proof (leading_zeros_spec l [] (length l) post eq_refl) as E. simpl in E. rewrite E.
  destruct (strip_suffix l) as (z & Ez & Hz). pose proof (length_strip l).
  destruct (Nat.ltb_spec 0 (length l - length (strip l))).
  - eexists. split; [|intros Es; rewrite Es in *; lia]. f_equal.
    + assert (drop (length z) ((z ++ strip l) ++ post) = strip l ++ post) as Hd
        by (by rewrite <-app_assoc, drop_app_length).
      rewrite <-Ez, Hz in Hd. unfold wr. simpl. f_equal. rewrite Hd.
      replace (length l - (length l - length (strip l)))%nat with (length (strip l)) by lia.
      by rewrite take_app_length.
    + rewrite u16_id; [lia|]. unfold is_u16. lia.
  - exists post. assert (length z = 0)%nat by lia. destruct z; [|done]. simpl in Ez. rewrite <-Ez.
    done.
Qed.

(** The significant digits of a number are its big-endian bytes. *)
Lemma be_val_inj l k : length l = length k -> bytes_ok l -> bytes_ok k -> be_val l = be_val k -> l = k.
Proof.
  intros Hl Ho Hk E. unfold be_val in E. apply (inj reverse).
  rewrite <-(le_bytes_le_val (reverse l)), <-(le_bytes_le_val (reverse k)) by auto using reverse_ok.
  rewrite !length_reverse. congruence.
Qed.
Lemma be_bytes_be_val l : bytes_ok l -> be_bytes (length l) (be_val l) = l.
Proof.
  intros Hl. unfold be_bytes. rewrite le_bytes_be_val by done. apply reverse_involutive.
Qed.

Lemma der_content_strip l : bytes_ok l -> 0 < be_val l ->
  der_content (be_val l)
  = if negb (Z.land (rd8 (strip l) 0) 0x80 =? 0) then 0 :: strip l else strip l.
Proof.
  intros Hl Hv. destruct (strip l) as [|b r] eqn:E.
  { apply strip_nil_iff in E; [lia|done]. }
  pose proof (strip_ok l Hl) as Hs. rewrite E in Hs. pose proof Hs as Hs'.
  apply Forall_cons in Hs as [Hb Hr]. rewrite <-(be_val_strip l), E.
  assert (b <> 0) as Hnz.
  { destruct (strip_bounds l Hl) as [Hu [?|Hd]]; [congruence|]. intros ->.
    rewrite <-be_val_strip, E, be_val_cons in Hd, Hu. cbn [length] in Hd.
    replace (Z.of_nat (S (length r)) - 1) with (Z.of_nat (length r)) in Hd by lia.
    pose proof (be_val_range r Hr). lia. }
  change (rd8 (b :: r) 0) with b. unfold der_content. rewrite log2_cons by done.
  unfold is_u8 in Hb. pose proof (Z.log2_nonneg b).
  assert (Z.land b 128 = if b <? 128 then 0 else 128) as Hm.
  { assert (Forall (fun b => Z.land b 128 = if b <? 128 then 0 else 128) (seqZ 0 256)) as Hf
      by (apply (bool_decide_unpack _); vm_compute; exact I).
    rewrite Forall_forall in Hf. apply Hf, elem_of_seqZ. lia. }
  rewrite Hm. destruct (Z.ltb_spec b 128).
  - simpl. assert (Z.log2 b < 7) by (apply Z.log2_lt_pow2; lia).
    replace (8 * Z.of_nat (length r) + Z.log2 b + 1) with (Z.log2 b + 1 + Z.of_nat (length r) * 8) by lia.
    rewrite Z.div_add, (Z.div_small (Z.log2 b + 1)) by lia.
    replace (Z.to_nat (0 + Z.of_nat (length r) + 1)) with (length (b :: r)) by (cbn [length]; lia).
    by apply be_bytes_be_val.
  - assert (Z.log2 b = 7) as -> by (apply Z.log2_unique; lia). simpl negb. cbn iota.
    replace (8 * Z.of_nat (length r) + 7 + 1) with ((Z.of_nat (length r) + 1) * 8) by lia.
    rewrite Z.div_mul by lia.
    replace (Z.to_nat (Z.of_nat (length r) + 1 + 1)) with (length (0 :: b :: r)) by (cbn [length]; lia).
    replace (be_val (b :: r)) with (be_val (0 :: b :: r)) by (rewrite (be_val_cons 0); lia).
    apply be_bytes_be_val. constructor; [unfold is_u8; lia|done].
Qed.

Lemma be_bytes_1 z : is_u8 z -> be_bytes 1 z = [z].
Proof. intros Hz. unfold be_bytes. simpl. by rewrite Z.mod_small. Qed.

Lemma der_integer_spec op stack :
  operand_ok op -> 0 < operand_val op -> 0 < actual_len op < 127 -> length stack = 127%nat ->
  der_integer op stack = Ret (der_int (operand_val op))
  /\ (length (der_int (operand_val op)) <= 3 + Z.to_nat (actual_len op))%nat.
Proof.
  intros Hok Hv Ha Hs. pose proof (length_digits op Hok) as Hl. pose proof (digits_ok op Hok) as Hd.
  unfold der_integer. rewrite u16_id by (unfold is_u16; lia).
  rewrite operand_to_string_spec by (done || lia). cbn [res_bind].
  set (post := drop _ stack).
  destruct (remove_leading_zeros_spec (digits op) post) as (post' & E & Hpost); [rewrite Hl; lia|].
  rewrite Hl in E. rewrite Z2Nat.id in E by lia. rewrite E.
  pose proof (der_content_strip (digits op) Hd Hv) as Hc. fold (operand_val op) in Hc.
  pose proof (length_strip (digits op)) as Hls.
  assert (strip (digits op) <> []) as Hne by (rewrite strip_nil_iff by done; unfold operand_val in Hv; lia).
  assert (rd8 (0 :: strip (digits op) ++ post') 1 = rd8 (strip (digits op)) 0) as ->.
  { unfold rd8. simpl. by destruct (strip (digits op)). }
  unfold der_int. rewrite Hc. destruct (negb _).
  - rewrite u16_id by (unfold is_u16; lia). rewrite u8_id by (unfold is_u8; lia). split.
    + f_equal. rewrite (vec_small 1 _ (S (length (strip (digits op))))) by done.
      replace (Z.of_nat (length (strip (digits op))) + 1) with (Z.of_nat (S (length (strip (digits op))))) by lia.
      rewrite Nat2Z.id, be_bytes_1 by (unfold is_u8; lia). cbn [take]. by rewrite take_app_length.
    + len.
  - rewrite u8_id by (unfold is_u8; lia). split.
    + f_equal. unfold vec. rewrite be_bytes_1 by (unfold is_u8; lia).
      by rewrite Nat2Z.id, take_app_length.
    + len.
Qed.

(** For signature values that are positive and at most 32 bytes long, the
    stored signature is the DER encoding of the pair, its stored length is
    right, and it stays within its 128-byte field, whatever the stack held. *)
Theorem ecdsa_signature_der r s stack_r stack_s :
  operand_ok r -> operand_ok s -> 0 < operand_val r -> 0 < operand_val s ->
  0 < actual_len r <= 32 -> 0 < actual_len s <= 32 ->
  length stack_r = 127%nat -> length stack_s = 127%nat ->
  handle_after_ecdsa_signature r s stack_r stack_s
  = Ret (der_ecdsa (operand_val r) (operand_val s),
         Z.of_nat (length (der_ecdsa (operand_val r) (operand_val s)))).
Proof.
  intros Hr Hs Vr Vs Ar As Sr Ss.
  destruct (der_integer_spec r stack_r Hr Vr ltac:(lia) Sr) as [Er Lr].
  destruct (der_integer_spec s stack_s Hs Vs ltac:(lia) Ss) as [Es Ls].
  unfold handle_after_ecdsa_signature. rewrite Er. cbn [res_bind]. rewrite Es. cbn [res_bind].
  set (a := der_int (operand_val r)) in *. set (b := der_int (operand_val s)) in *.
  rewrite u8_id by (unfold is_u8; lia).
  assert ([48; Z.of_nat (length a + length b)] ++ a ++ b = der_ecdsa (operand_val r) (operand_val s)) as E.
  { unfold der_ecdsa. fold a b. unfold vec. rewrite length_app.
    by rewrite be_bytes_1 by (unfold is_u8; lia). }
  rewrite E. assert (Z.of_nat (length (der_ecdsa (operand_val r) (operand_val s))) <= 72)
    by (rewrite <-E, !length_app; cbn [length]; lia).
  unfold MAX_CERT_SIG_SIZE. rewrite (proj2 (Z.ltb_ge _ _)) by lia. by rewrite u8_id by (unfold is_u8; lia).
Qed.

Lemma ecdsa_signature_der_witness :
  handle_after_ecdsa_signature (mk_operand [200; 0] 2 2 0 false) (mk_operand [0; 100] 2 2 0 true)
    (zeros 127) (zeros 127)
  = Ret (der_ecdsa 200 100, Z.of_nat (length (der_ecdsa 200 100))).
Proof.
  apply (ecdsa_signature_der (mk_operand [200; 0] 2 2 0 false) (mk_operand [0; 100] 2 2 0 true)
           (zeros 127) (zeros 127));
    [split; [repeat constructor; unfold is_u8; lia|simpl; lia]
    |split; [repeat constructor; unfold is_u8; lia|simpl; lia]
    |reflexivity|reflexivity|simpl; lia|simpl; lia|reflexivity|reflexivity].
Defined.
