(* ===== verification/NicState.v ===== *)
(** * The state of a SmartNIC worker core (ssloff.h, ssl.h)

    One worker core of the SmartNIC program owns a [thread_context_t]: its TCP
    connections with their TLS sessions, the table of live connections, the
    queue of free ones, the pools of TLS records and crypto operations and the
    receive queues, on their links (TailQ.v), and the packets it has queued
    for transmission. This file holds the data; the operations are in
    the files named after tcp.c and ssl.c.

    Objects that the C code reaches through pointers live in finite maps
    indexed by identifiers. A connection and its [ssl_session] are allocated
    together and point to each other for the life of the program
    ([thread_local_init]), so one identifier names both. *)

From S2P Require Import Prelude TailQ Ring FlowTable Operand ClientHello.

(** ** Packets

    Header fields wider than a byte hold the raw value of the C field, in
    network byte order, so that [htons] and [ntohl] appear where the code has
    them. Checksums are left to the hardware ([hw_csum]) and are not fields. *)

Record ether_hdr := mk_ether_hdr {
  dst_addr : bytes;
  src_addr : bytes;
  ether_type : Z;
}.
Record ipv4_hdr := mk_ipv4_hdr {
  version_ihl : Z;
  type_of_service : Z;
  total_length : Z;
  packet_id : Z;
  fragment_offset : Z;
  time_to_live : Z;
  next_proto_id : Z;
  ip_src : Z;
  ip_dst : Z;
}.
Record tcp_hdr := mk_tcp_hdr {
  src_port : Z;
  dst_port : Z;
  sent_seq : Z;
  recv_ack : Z;
  data_off : Z;
  tcp_flags : Z;
  rx_win : Z;
}.

(** A TCP segment; [tcp_data] is what follows the 20 bytes of [tcp_hdr]: the
    options, then the payload. *)
Record packet := mk_packet {
  ethh : ether_hdr;
  iph : ipv4_hdr;
  tcph : tcp_hdr;
  tcp_data : bytes;
}.

(** A transmit buffer: the port, and what was written in it. *)
Inductive txbuf : Type :=
| TxTcp (port : Z) (p : packet)
| TxRaw (port : Z) (b : bytes).

(** ** Constants *)
Definition TCP_FLAG_FIN : Z := 0x01.
Definition TCP_FLAG_SYN : Z := 0x02.
Definition TCP_FLAG_RST : Z := 0x04.
Definition TCP_FLAG_PSH : Z := 0x08.
Definition TCP_FLAG_ACK : Z := 0x10.

Definition MAX_PKT_SIZE : Z := 1500.
Definition ETHERNET_HEADER_LEN : Z := 14.
Definition IP_HEADER_LEN : Z := 20.
Definition TCP_HEADER_LEN : Z := 20.
Definition TOTAL_HEADER_LEN : Z := 54.
Definition IPPROTO_TCP : Z := 6.
Definition RTE_ETHER_TYPE_IPV4 : Z := 0x0800.
Definition SSL_PORT : Z := 443.
Definition IP_TOS_HOST_MIG_FIN : Z := 0xfd.
Definition IP_TOS_HOST_CLOSE : Z := 0xfc.
Definition MAX_APP_DATA_SIZE : nat := 1024.

(** ** Enumerations *)
Inductive tcp_connection_state : Type :=
| TCP_SESSION_IDLE
| TCP_SESSION_RECEIVED
| TCP_SESSION_SENT.
#[export] Instance tcp_connection_state_eq : EqDecision tcp_connection_state.
Proof. solve_decision. Defined.

Inductive ssl_session_state : Type :=
| STATE_INIT
| STATE_HANDSHAKE
| STATE_ACTIVE.
#[export] Instance ssl_session_state_eq : EqDecision ssl_session_state.
Proof. solve_decision. Defined.

(** ** Connections *)

(** [pending_syn_t]. *)
Record pending_syn := mk_pending_syn {
  ps_ethh : ether_hdr;
  ps_iph : ipv4_hdr;
  ps_tcph : tcp_hdr;
  ps_options : bytes;
  ps_option_len : Z;
  ps_payload_len : Z;
}.
Definition ether_hdr0 : ether_hdr := mk_ether_hdr (zeros 6) (zeros 6) 0.
Definition ipv4_hdr0 : ipv4_hdr := mk_ipv4_hdr 0 0 0 0 0 0 0 0 0.
Definition tcp_hdr0 : tcp_hdr := mk_tcp_hdr 0 0 0 0 0 0 0.
Definition pending_syn0 : pending_syn :=
  mk_pending_syn ether_hdr0 ipv4_hdr0 tcp_hdr0 (zeros 40) 0 0.

(** [tcp_connection_t], without the pointers to [rte_flow] templates. *)
Record tcp_connection := mk_tcp_connection {
  c_state : tcp_connection_state;
  onload : bool;
  portid : Z;
  session_id : Z;
  ip_id : Z;
  last_interaction : Z;
  client_mac : bytes;
  server_mac : bytes;
  c_flow : flow;
  cookie : Z;
  last_recv_seq : Z;
  last_recv_ack : Z;
  last_recv_len : Z;
  last_sent_seq : Z;
  last_sent_ack : Z;
  last_sent_len : Z;
  need_to_send_rst_meta : bool;
  total_sent : Z;
  window : Z;
  recv_mig_fin : bool;
  hws_inserted : bool;
  hws_applied : bool;
  hws_ready_to_del : bool;
  hws_deleted : bool;
  c_pending_syn : pending_syn;
  pending_app_data : bytes;
  pending_app_data_len : Z;
}.
Definition flow0 : flow := mk_flow 0 0 0 0.
Definition tcp_connection0 : tcp_connection :=
  mk_tcp_connection TCP_SESSION_IDLE false 0 0 0 0 (zeros 6) (zeros 6) flow0 0 0 0 0 0 0 0
    false 0 0 false false false false false pending_syn0 (zeros MAX_APP_DATA_SIZE) 0.

(** ** TLS sessions *)

(** [enum handshake_type], also used for [handshake_state]. *)
Definition HELLO_REQUEST : Z := 0.
Definition CLIENT_HELLO : Z := 1.
Definition SERVER_HELLO : Z := 2.
Definition ENCRYPTED_EXTENSIONS : Z := 8.
Definition CERTIFICATE : Z := 11.
Definition CERTIFICATE_VERIFY : Z := 15.
Definition CLIENT_CIPHER_SPEC : Z := 17.
Definition FINISHED : Z := 20.

(** [enum content_type]. *)
Definition CHANGE_CIPHER_SPEC : Z := 0x14.
Definition ALERT : Z := 0x15.
Definition HANDSHAKE : Z := 0x16.
Definition APPLICATION_DATA : Z := 0x17.

Definition MAX_KEY_SIZE : nat := 128.

(** [protocol_version_t]. *)
Record protocol_version := mk_version { major : Z; minor : Z }.

(** [security_params_t]; the fields the TLS 1.3 path reads or writes. *)
Record security_params := mk_security_params {
  cipher : Z * Z;
  prf_algorithm : Z;
  bulk_cipher_algorithm : Z;
  cipher_type : Z;
  enc_key_size : Z;
  block_length : Z;
  fixed_iv_length : Z;
  record_iv_length : Z;
  mac_algorithm : Z;
  mac_length : Z;
  mac_key_size : Z;
  compression_algorithm : Z;
  master_secret : bytes;
  client_random : bytes;
  server_random : bytes;
  curve : Z * Z;
  signature_algorithm : Z * Z;
  client_pub_key : bytes;
}.
Definition security_params0 : security_params :=
  mk_security_params (0, 0) 0 0 0 0 0 0 0 0 0 0 0 (zeros 48) (zeros 32) (zeros 32) (0, 0) (0, 0)
    (zeros 32).

(** [tls13_ctx_t]. *)
Record tls13_ctx := mk_tls13_ctx {
  handshake_key_calculated : bool;
  cert_signatured : bool;
  handshake_secret : bytes;
  client_secret : bytes;
  server_secret : bytes;
  client_handshake_key : bytes;
  server_handshake_key : bytes;
  client_handshake_iv : bytes;
  server_handshake_iv : bytes;
  client_application_key : bytes;
  server_application_key : bytes;
  client_application_iv : bytes;
  server_application_iv : bytes;
  cert_signature : bytes;
  cert_signature_len : Z;
  calculated_vd : bytes;
}.
Definition key0 : bytes := zeros MAX_KEY_SIZE.
Definition tls13_ctx0 : tls13_ctx :=
  mk_tls13_ctx false false key0 key0 key0 key0 key0 key0 key0 key0 key0 key0 key0 (zeros 128) 0
    (zeros 48).

(** [ssl_session_t]. Key arrays keep their C size; [handshake_msgs],
    [send_buffer] and [server_records] hold the bytes written so far, their C
    lengths are those of the lists. *)
Record ssl_session := mk_ssl_session {
  s_state : ssl_session_state;
  handshake_state : Z;
  num_current_records : Z;
  next_record_id : Z;
  current_read_record : option nat;
  version : protocol_version;
  id_ : bytes;
  send_seq_num_ : Z;
  recv_seq_num_ : Z;
  handshake_msgs : bytes;
  send_buffer : bytes;
  send_buffer_offset : Z;
  client_write_MAC_secret : bytes;
  server_write_MAC_secret : bytes;
  client_write_key : bytes;
  server_write_key : bytes;
  client_write_IV : bytes;
  server_write_IV : bytes;
  client_write_IV_seq_num : Z;
  server_write_IV_seq_num : Z;
  tls13 : tls13_ctx;
  meta_hdr : bytes;
  rand_seed : Z;
  pka_results : list pka_operand;
  pka_op : option nat;
  waiting_crypto : bool;
  completed_crypto : bool;
  shared_secret_operand : pka_operand;
  ecdsa_transcript_hash : pka_operand;
  ecdsa_k : pka_operand;
  ecdhe_priv_key : pka_operand;
  ecdhe_pub_key : pka_operand;
  pending_sp : security_params;
  read_sp : security_params;
  write_sp : security_params;
  server_records : bytes;
  recv_q_cnt : Z;
  pending_pka_op : option nat;
  pending_pka_op_1 : option nat;
  num_cke_retransmitted : Z;
  num_of_retransmitted_ch : Z;
  num_of_retransmitted_meta_pkt : Z;
}.

(** The size of [meta_hdr_t]: 38 bytes of packed header and a [conn_meta_t] of
    787 bytes padded to 788. *)
Definition META_HDR_SIZE : nat := 826.

(** What the code takes from the platform: OpenSSL's SHA-1, the C library's
    [rand] (its [i]-th value), the number of host threads, and the operand
    size of the accelerator's library. *)
Class Platform := {
  SHA1 : bytes -> bytes;
  rand : nat -> Z;
  host_threads_num : Z;
  MAX_BYTE_LEN : nat;
}.

(** A platform to evaluate examples on. *)
Definition sample_platform : Platform :=
  {| SHA1 m := replicate 20 (u8 (foldr Z.add 7 m));
     rand i := u32 (Z.of_nat i * 1103515245 + 12345);
     host_threads_num := 4;
     MAX_BYTE_LEN := 40 |}.

(** An operand as [thread_local_init] allocates it. *)
Definition pka_operand0 `{Platform} : pka_operand :=
  mk_operand (zeros (MAX_BYTE_LEN + 8)) (Z.of_nat (MAX_BYTE_LEN + 8)) 0 0 false.

Definition ssl_session0 `{Platform} : ssl_session :=
  mk_ssl_session STATE_INIT HELLO_REQUEST 0 0 None (mk_version 0 0) (zeros 32) 0 0 [] [] 0
    key0 key0 key0 key0 key0 key0 0 0 tls13_ctx0 (zeros META_HDR_SIZE) 0
    [pka_operand0; pka_operand0] None false false
    pka_operand0 pka_operand0 pka_operand0 pka_operand0 pka_operand0
    security_params0 security_params0 security_params0 [] 0 None None 0 0 0.

(** ** Records and crypto operations *)

Inductive ssl_record_state : Type :=
| TO_PACK_HEADER
| TO_PACK_CONTENT
| TO_APPEND_MAC
| TO_ENCRYPT
| WRITE_READY
| TO_UNPACK_HEADER
| TO_DECRYPT
| TO_VERIFY_MAC
| TO_UNPACK_CONTENT
| READ_READY
| NULL_STATE.
#[export] Instance ssl_record_state_eq : EqDecision ssl_record_state.
Proof. solve_decision. Defined.

(** [record_t]: [r_data] and [r_decrypted] are the bytes written from [data]
    and [decrypted] on; [r_aliased] is [decrypted == data]. The union
    [fragment] is kept as one field per member. *)
Record record := mk_record {
  r_id : Z;
  r_sess : option nat;
  r_state : ssl_record_state;
  r_length : Z;
  r_current_len : Z;
  r_data : bytes;
  r_decrypted : bytes;
  r_aliased : bool;
  r_is_received : bool;
  r_is_encrypted : bool;
  r_seq_num : Z;
  pt_record_type : Z;
  pt_version : protocol_version;
  pt_length : Z;
  ct_length : Z;
  f_msg_type : Z;
  f_length : bytes;
  f_client_hello : client_hello;
  f_verify_data : bytes;
  f_level : Z;
  f_description : Z;
}.
Definition record0 : record :=
  mk_record 0 None TO_PACK_HEADER 0 0 [] [] false false false 0 0 (mk_version 0 0) 0 0
    0 (zeros 3) client_hello0 (zeros 48) 0 0.

(** [ssl_crypto_op_t], the fields that survive a call. *)
Record ssl_crypto_op := mk_op {
  op_opcode : Z;
  op_sess : option nat;
  op_data : option nat;
  op_pka_flag : bool;
}.
Definition op0 : ssl_crypto_op := mk_op 0 None None false.

(** ** The worker core *)

(** [thread_context_t] with the objects it reaches; [rand_idx] counts the
    calls of [rand], [tx] holds the transmit buffers in order, [now] is the
    clock, [engine] holds the operations the accelerator has accepted with
    the results it will return. A pool is the queue with head [POOL]; the
    receive queue of a session is the one of [recv_qs] with its number. *)
Definition POOL : nat := 0.
Record nic := mk_nic {
  conns : gmap nat tcp_connection;
  sessions : gmap nat ssl_session;
  active_session_table : hashtable;
  active_cnt : Z;
  free_session_q : list nat;
  free_cnt : Z;
  records : gmap nat record;
  record_pool : tailq;
  recv_qs : tailq;
  free_record_cnt : Z;
  using_record_cnt : Z;
  ops : gmap nat ssl_crypto_op;
  op_pool : tailq;
  free_op_cnt : Z;
  using_op_cnt : Z;
  decrease : bool;
  submit_pka_ring : sj_ring nat;
  engine : list (nat * list pka_operand);
  cur_crypto_cnt : Z;
  completed_crypto_cnt : Z;
  waiting_hws_del_ring : sj_ring nat;
  t_major : Z;
  t_minor : Z;
  rand_idx : nat;
  now : Z;
  tx : list txbuf;
}.

Abbreviation nicM := (M nic).

(** Reading and writing an object through its pointer. *)
Definition get_conn (i : nat) : nicM tcp_connection := fun s =>
  match conns s !! i with Some c => Ret (c, s) | None => Fault Null_deref end.
Definition put_conn (i : nat) (c : tcp_connection) : nicM unit :=
  mmod (fun s => s <| conns ::= insert i c |>).
Definition mod_conn (i : nat) (f : tcp_connection -> tcp_connection) : nicM unit :=
  do c <- get_conn i; put_conn i (f c).
Definition get_sess (i : nat) : nicM ssl_session := fun s =>
  match sessions s !! i with Some c => Ret (c, s) | None => Fault Null_deref end.
Definition put_sess (i : nat) (c : ssl_session) : nicM unit :=
  mmod (fun s => s <| sessions ::= insert i c |>).
Definition mod_sess (i : nat) (f : ssl_session -> ssl_session) : nicM unit :=
  do c <- get_sess i; put_sess i (f c).

Definition get_rec (i : nat) : nicM record := fun s =>
  match records s !! i with Some c => Ret (c, s) | None => Fault Null_deref end.
Definition put_rec (i : nat) (c : record) : nicM unit :=
  mmod (fun s => s <| records ::= insert i c |>).
Definition mod_rec (i : nat) (f : record -> record) : nicM unit :=
  do c <- get_rec i; put_rec i (f c).
Definition get_op (i : nat) : nicM ssl_crypto_op := fun s =>
  match ops s !! i with Some c => Ret (c, s) | None => Fault Null_deref end.
Definition put_op (i : nat) (c : ssl_crypto_op) : nicM unit :=
  mmod (fun s => s <| ops ::= insert i c |>).
Definition mod_op (i : nat) (f : ssl_crypto_op -> ssl_crypto_op) : nicM unit :=
  do c <- get_op i; put_op i (f c).

(** [get_wptr] and the stores that follow it: a full burst is sent first, so
    a buffer is always found. *)
Definition transmit (b : txbuf) : nicM unit := mmod (fun s => s <| tx ::= fun l => l ++ [b] |>).

Definition next_rand `{Platform} : nicM Z := fun s =>
  Ret (rand (rand_idx s), s <| rand_idx ::= S |>).

(** The key of a connection, as the table reads it. *)
Definition key_of (cs : gmap nat tcp_connection) (i : nat) : option flow := c_flow <$> cs !! i.
(** The assertion of [ht_search]. *)
Definition idle (cs : gmap nat tcp_connection) (i : nat) : bool :=
  match cs !! i with
  | Some c => bool_decide (c_state c = TCP_SESSION_IDLE)
  | None => true
  end.

(** ** Running the accesses *)

Lemma mod_sess_run i f s x : sessions s !! i = Some x ->
  mod_sess i f s = Ret (tt, s <| sessions ::= insert i (f x) |>).
Proof. intros E. unfold mod_sess, get_sess, put_sess, bind. by rewrite E. Qed.
Lemma get_sess_run i s x : sessions s !! i = Some x -> get_sess i s = Ret (x, s).
Proof. intros E. unfold get_sess. by rewrite E. Qed.
Lemma mod_conn_run i f s x : conns s !! i = Some x ->
  mod_conn i f s = Ret (tt, s <| conns ::= insert i (f x) |>).
Proof. intros E. unfold mod_conn, get_conn, put_conn, bind. by rewrite E. Qed.
Lemma get_conn_run i s x : conns s !! i = Some x -> get_conn i s = Ret (x, s).
Proof. intros E. unfold get_conn. by rewrite E. Qed.
Lemma mod_rec_run i f s x : records s !! i = Some x ->
  mod_rec i f s = Ret (tt, s <| records ::= insert i (f x) |>).
Proof. intros E. unfold mod_rec, get_rec, put_rec, bind. by rewrite E. Qed.
Lemma get_rec_run i s x : records s !! i = Some x -> get_rec i s = Ret (x, s).
Proof. intros E. unfold get_rec. by rewrite E. Qed.
Lemma mod_op_run i f s x : ops s !! i = Some x ->
  mod_op i f s = Ret (tt, s <| ops ::= insert i (f x) |>).
Proof. intros E. unfold mod_op, get_op, put_op, bind. by rewrite E. Qed.
Lemma get_op_run i s x : ops s !! i = Some x -> get_op i s = Ret (x, s).
Proof. intros E. unfold get_op. by rewrite E. Qed.

(** One step of a computation on objects whose lookups are known. *)
Ltac find_object :=
  first [ eassumption | apply lookup_insert_eq
        | rewrite lookup_insert_ne by congruence; find_object ].
Ltac exec_step :=
  first
    [ erewrite bind_ret by (apply get_sess_run; simpl; find_object)
    | erewrite bind_ret by (apply mod_sess_run; simpl; find_object)
    | erewrite bind_ret by (apply get_conn_run; simpl; find_object)
    | erewrite bind_ret by (apply mod_conn_run; simpl; find_object)
    | erewrite bind_ret by (apply get_rec_run; simpl; find_object)
    | erewrite bind_ret by (apply mod_rec_run; simpl; find_object)
    | erewrite bind_ret by (apply get_op_run; simpl; find_object)
    | erewrite bind_ret by (apply mod_op_run; simpl; find_object) ].
