(* ===== verification/DpdkIo.v ===== *)
(** * Packet buffers and flow rules (dpdk_io.c)

    A worker core receives packets in bursts and queues the ones it sends, per
    port, in tables of DPDK packet buffers (mbufs). DPDK is outside: the class
    [Dpdk] gives, by the number of calls made so far, what a reception
    delivers, how many buffers a transmission accepts, and whether an
    allocation succeeds. The mbufs that are allocated are the domain of a
    finite map; freeing one that is not allocated is the fault [Bad_link].

    The second half of the file holds the hardware rules that let the packets
    of a migrated connection bypass the SmartNIC, and their meaning: a field
    matches when it agrees with the specification on the bits of the mask. *)

From S2P Require Import Prelude FlowTable NicState.

(** ** Buffers *)

Definition MAX_PKT_BURST : nat := 64.

(** The fields of [struct rte_mbuf] that are used; [csum_bad] stands for the
    two receive flags. *)
Record mbuf := mk_mbuf {
  pkt_len : Z;
  mb_data : bytes;
  hw_csum : bool;
  mb_l4_len : Z;
  csum_bad : bool;
}.
Definition mbuf0 : mbuf := mk_mbuf 0 [] false 0 false.

Record mbuf_table := mk_mbuf_table {
  mt_len : nat;
  m_table : list nat;
}.

(** [dpdk_private_context_t], the allocated buffers, what was transmitted, and
    the number of calls into DPDK. *)
Record dpdk := mk_dpdk {
  heap : gmap nat mbuf;
  rmbufs : gmap Z mbuf_table;
  wmbufs : gmap Z mbuf_table;
  pkts_burst : list nat;
  wire : list (Z * mbuf);
  calls : nat;
}.
Abbreviation ioM := (M dpdk).

Class Dpdk := {
  rx_burst : nat -> list mbuf;
  tx_burst : nat -> nat;
  alloc_ok : nat -> bool;
}.

(** A table of a port; a port outside the arrays is not looked up. *)
Definition port_table (f : dpdk -> gmap Z mbuf_table) (port : Z) : ioM mbuf_table :=
  do s <- mget; mderef (f s !! port).

(** [rte_pktmbuf_free]. *)
Definition pktmbuf_free (m : nat) : ioM unit :=
  do s <- mget;
  match heap s !! m with
  | None => mfault Bad_link
  | Some _ => mmod (fun s => s <| heap ::= delete m |>)
  end.

Fixpoint free_pkts (l : list nat) : ioM unit :=
  match l with
  | [] => ret tt
  | m :: l' => pktmbuf_free m;;; free_pkts l'
  end.

(** The driver's buffers for received packets. *)
Fixpoint deliver (ms : list mbuf) : ioM (list nat) :=
  match ms with
  | [] => ret []
  | b :: ms' =>
      do s <- mget;
      let m := fresh (dom (heap s)) in
      mmod (fun s => s <| heap ::= insert m b |>);;;
      do l <- deliver ms';
      ret (m :: l)
  end.

Section io.
Context `{Dpdk}.

Definition recv_pkts (port : Z) : ioM nat :=
  do t <- port_table rmbufs port;
  (if negb (mt_len t =? 0)%nat then
     free_pkts (take (mt_len t) (m_table t));;;
     mmod (fun s => s <| rmbufs ::= insert port (t <| mt_len := 0%nat |>) |>)
   else ret tt);;;
  do s <- mget;
  do l <- deliver (take MAX_PKT_BURST (rx_burst (calls s)));
  mmod (fun s => s <| calls ::= S |> <| pkts_burst ::= fun b => l ++ drop (length l) b |>);;;
  mmod (fun s => s <| rmbufs ::= insert port (t <| mt_len := length l |>) |>);;;
  ret (length l).

Definition get_rptr (port : Z) (index : nat) : ioM (option bytes * Z) :=
  do s <- mget;
  do m <- mderef (pkts_burst s !! index);
  do b <- mderef (heap s !! m);
  do t <- port_table rmbufs port;
  mmod (fun s => s <| rmbufs ::= insert port (t <| m_table ::= <[index := m]> |>) |>);;;
  ret (if csum_bad b then None else Some (mb_data b), pkt_len b).

(** [rte_eth_tx_burst] takes over the first buffers. *)
Fixpoint tx_take (port : Z) (l : list nat) : ioM unit :=
  match l with
  | [] => ret tt
  | m :: l' =>
      do s <- mget;
      match heap s !! m with
      | None => mfault Bad_link
      | Some b =>
          mmod (fun s => s <| heap ::= delete m |> <| wire ::= fun w => w ++ [(port, b)] |>);;;
          tx_take port l'
      end
  end.

(** The loop that replaces the buffers handed over. *)
Fixpoint refill (port : Z) (n i : nat) : ioM unit :=
  match n with
  | O => ret tt
  | S n' =>
      do s <- mget;
      mmod (fun s => s <| calls ::= S |>);;;
      if alloc_ok (calls s) then
        let m := fresh (dom (heap s)) in
        do t <- port_table wmbufs port;
        mmod (fun s => s <| heap ::= insert m mbuf0 |>
                         <| wmbufs ::= insert port (t <| m_table ::= <[i := m]> |>) |>);;;
        refill port n' (S i)
      else mexit
  end.

(** The buffers are freed when the device takes fewer than were queued. *)
Definition send_pkts (port : Z) : ioM nat :=
  do t <- port_table wmbufs port;
  let cnt := mt_len t in
  if (cnt =? 0)%nat then ret 0%nat else
  do s <- mget;
  let pkts := take cnt (m_table t) in
  let sent := Nat.min (tx_burst (calls s)) cnt in
  mmod (fun s => s <| calls ::= S |>);;;
  tx_take port (take sent pkts);;;
  (if (sent <? cnt)%nat then free_pkts (drop sent pkts) else ret tt);;;
  refill port cnt 0;;;
  do t <- port_table wmbufs port;
  mmod (fun s => s <| wmbufs ::= insert port (t <| mt_len := 0%nat |>) |>);;;
  ret sent.

(** [while (1) { send_cnt = send_pkts(...); if (send_cnt) break; }]: no bound
    holds for every driver, [fuel] is the number of turns considered. *)
Fixpoint flush_loop (fuel : nat) (port : Z) : ioM unit :=
  match fuel with
  | O => mfault Out_of_fuel
  | S f =>
      do sent <- send_pkts port;
      if (sent =? 0)%nat then flush_loop f port else ret tt
  end.

Definition get_wptr (fuel : nat) (port pktsize : Z) (csum : bool) (l4 : Z) : ioM nat :=
  do t <- port_table wmbufs port;
  (if (mt_len t =? MAX_PKT_BURST)%nat then flush_loop fuel port else ret tt);;;
  do t <- port_table wmbufs port;
  do m <- mderef (m_table t !! mt_len t);
  do s <- mget;
  do b <- mderef (heap s !! m);
  mmod (fun s => s <| heap ::= insert m (b <| pkt_len := pktsize |> <| hw_csum := csum |> <| mb_l4_len := l4 |>) |>
                   <| wmbufs ::= insert port (t <| mt_len := S (mt_len t) |>) |>);;;
  ret m.
End io.

(** *** Lists of buffers *)

Definition in_heap (s : dpdk) (m : nat) : Prop := is_Some (heap s !! m).

Lemma free_pkts_run l s : NoDup l -> (forall m, m ∈ l -> in_heap s m) ->
  exists h, free_pkts l s = Ret (tt, s <| heap := h |>) /\
    forall m, h !! m = if decide (m ∈ l) then None else heap s !! m.
Proof.
  revert s. induction l as [|m l IH]; intros s Hnd Hin; simpl.
  { exists (heap s). split; [by destruct s|done]. }
  apply NoDup_cons in Hnd as [Hm Hnd]. destruct (Hin m) as [b Hb]; [by left|].
  unfold pktmbuf_free. rewrite bind_assoc. rewrite (bind_ret mget _ s s s) by done. rewrite Hb.
  erewrite (bind_ret (mmod _)) by done.
  destruct (IH (s <| heap ::= delete m |>) Hnd) as (h & E & Hh).
  { intros x Hx. unfold in_heap. simpl. rewrite lookup_delete_ne by (by intros ->). apply Hin. by right. }
  exists h. split; [exact E|]. intros x. rewrite Hh. simpl. destruct (decide (x = m)) as [->|Hne].
  - rewrite decide_False, decide_True by (done || by left). apply lookup_delete_eq.
  - rewrite lookup_delete_ne by done. destruct (decide (x ∈ l)).
    + by rewrite decide_True by (by right).
    + rewrite decide_False; [done|]. by intros [?|?]%elem_of_cons.
Qed.

(** The contents of buffers. *)
Definition content (s : dpdk) (m : nat) : mbuf := default mbuf0 (heap s !! m).

Lemma tx_take_run port l s : NoDup l -> (forall m, m ∈ l -> in_heap s m) ->
  exists h, tx_take port l s = Ret (tt, s <| heap := h |> <| wire ::= fun w => w ++ ((fun m => (port, content s m)) <$> l) |>) /\
    forall m, h !! m = if decide (m ∈ l) then None else heap s !! m.
Proof.
  revert s. induction l as [|m l IH]; intros s Hnd Hin; simpl.
  { exists (heap s). split; [|done]. destruct s; simpl. unfold set. simpl. by rewrite app_nil_r. }
  apply NoDup_cons in Hnd as [Hm Hnd]. destruct (Hin m) as [b Hb]; [by left|].
  rewrite (bind_ret mget _ s s s) by done. rewrite Hb. erewrite (bind_ret (mmod _)) by done.
  set (s1 := s <| heap ::= delete m |> <| wire ::= fun w => w ++ [(port, b)] |>).
  assert (forall x, x <> m -> heap s1 !! x = heap s !! x) as Hs1 by (intros x Hx; simpl; by rewrite lookup_delete_ne).
  destruct (IH s1 Hnd) as (h & E & Hh).
  { intros x Hx. unfold in_heap. rewrite Hs1 by (by intros ->). apply Hin. by right. }
  exists h. split.
  - rewrite E. f_equal. f_equal. unfold s1, set. simpl. f_equal. rewrite <-app_assoc. simpl. f_equal. f_equal.
    + unfold content. by rewrite Hb.
    + apply list_fmap_ext. intros j x Hx. unfold content. simpl. f_equal. f_equal.
      apply lookup_delete_ne. intros ->. apply Hm. by eapply list_elem_of_lookup_2.
  - intros x. rewrite Hh. destruct (decide (x = m)) as [->|Hne].
    + rewrite decide_False, decide_True by (done || by left). apply lookup_delete_eq.
    + rewrite Hs1 by done. destruct (decide (x ∈ l)).
      * by rewrite decide_True by (by right).
      * rewrite decide_False; [done|]. by intros [?|?]%elem_of_cons.
Qed.

(** New buffers: distinct, not allocated before, with the given contents. *)
Definition added (l : list nat) (bs : list mbuf) (h h' : gmap nat mbuf) : Prop :=
  NoDup l /\ length l = length bs /\ (forall m, m ∈ l -> h !! m = None) /\
  (forall i m b, l !! i = Some m -> bs !! i = Some b -> h' !! m = Some b) /\
  forall m, m ∉ l -> h' !! m = h !! m.

Lemma added_nil h : added [] [] h h.
Proof. split; [apply NoDup_nil_2|]. split; [done|]. split; [set_solver|]. done. Qed.
Lemma added_cons m b l bs h h' :
  h !! m = None -> added l bs (<[m := b]> h) h' -> added (m :: l) (b :: bs) h h'.
Proof.
  intros Hm (Hnd & Hl & Hf & Hc & Ho).
  assert (m ∉ l) as Hni by (intros Hi; specialize (Hf m Hi); by rewrite lookup_insert_eq in Hf).
  split; [by apply NoDup_cons|]. split; [simpl; lia|]. split; [|split].
  - intros x [->|Hx]%elem_of_cons; [done|]. specialize (Hf x Hx).
    by rewrite lookup_insert_ne in Hf by (by intros ->).
  - intros [|i] x c; simpl; [|apply Hc]. intros [= <-] [= <-]. rewrite (Ho m Hni). apply lookup_insert_eq.
  - intros x [Hne Hx]%not_elem_of_cons. rewrite (Ho x Hx). by rewrite lookup_insert_ne.
Qed.

Lemma fresh_heap s : heap s !! fresh (dom (heap s)) = None.
Proof. apply not_elem_of_dom. apply is_fresh. Qed.

Lemma deliver_run ms s : exists l h, deliver ms s = Ret (l, s <| heap := h |>) /\ added l ms (heap s) h.
Proof.
  revert s. induction ms as [|b ms IH]; intros s.
  { exists [], (heap s). split; [by destruct s|apply added_nil]. }
  cbn [deliver]. rewrite (bind_ret mget _ s s s) by done. cbv zeta.
  set (m := fresh (dom (heap s))). erewrite (bind_ret (mmod _)) by done.
  destruct (IH (s <| heap ::= insert m b |>)) as (l & h & E & Ha).
  erewrite bind_ret by exact E. exists (m :: l), h. split; [done|].
  apply added_cons; [apply fresh_heap|exact Ha].
Qed.

Section runs.
Context `{Dpdk}.

Definition with_table (s : dpdk) (port : Z) (h : gmap nat mbuf) (t : mbuf_table) (k : nat) : dpdk :=
  s <| heap := h |> <| wmbufs ::= insert port t |> <| calls := k |>.

(** Replacing the slots from [i] on; the process ends when an allocation
    fails. *)
Lemma refill_run port n i s t :
  wmbufs s !! port = Some t -> (i + n <= length (m_table t))%nat ->
  match refill port n i s with
  | Ret (_, s') => exists l h k, length l = n /\ added l (replicate n mbuf0) (heap s) h /\
      s' = with_table s port h (t <| m_table := take i (m_table t) ++ l ++ drop (i + n) (m_table t) |>) k
  | Fault f => f = Exit_failure
  end.
Proof.
  revert i s t. induction n as [|n IH]; intros i s t Ht Hn.
  { exists [], (heap s), (calls s). split; [done|]. split; [apply added_nil|].
    rewrite Nat.add_0_r. simpl. rewrite take_drop. unfold with_table, set. destruct s; simpl in *. f_equal.
    rewrite insert_id; [done|]. by destruct t. }
  cbn [refill]. rewrite (bind_ret mget _ s s s) by done. erewrite (bind_ret (mmod _)) by done.
  destruct (alloc_ok (calls s)); [|done]. cbv zeta. set (m := fresh (dom (heap s))).
  unfold port_table. rewrite bind_assoc. erewrite (bind_ret mget) by done. simpl wmbufs. rewrite Ht.
  erewrite (bind_ret (mderef _)) by done. erewrite (bind_ret (mmod _)) by done.
  set (t1 := t <| m_table ::= <[i := m]> |>).
  set (s1 := s <| calls ::= S |> <| heap ::= insert m mbuf0 |> <| wmbufs ::= insert port t1 |>).
  specialize (IH (S i) s1 t1). destruct (refill port n (S i) s1) as [[u s']|f];
    [|apply IH; [apply lookup_insert_eq|simpl; rewrite length_insert; lia]].
  destruct IH as (l & h & k & Hl & Ha & ->); [apply lookup_insert_eq|simpl; rewrite length_insert; lia|].
  exists (m :: l), h, k. split; [simpl; lia|]. split; [apply added_cons; [apply fresh_heap|exact Ha]|].
  unfold with_table, s1, t1, set. simpl. f_equal. rewrite insert_insert_eq. f_equal. f_equal.
  rewrite (take_S_r _ _ m) by (apply list_lookup_insert_eq; lia). rewrite take_insert_ge by lia.
  rewrite drop_insert_lt by lia. rewrite <-app_assoc. do 4 f_equal. lia.
Qed.
End runs.

(** Buffers [old] were given away and [new] ones taken. *)
Lemma exchanged s s' (old new : list nat) bs h2 :
  (forall m, h2 !! m = if decide (m ∈ old) then None else heap s !! m) -> added new bs h2 (heap s') ->
  (forall m, m ∈ new -> m ∈ old \/ ~ in_heap s m) /\
  (forall m, in_heap s' m <-> m ∈ new \/ in_heap s m /\ m ∉ old).
Proof.
  intros Hh2 (Hnd & Hlb & Hf & Hc & Ho). split.
  - intros m Hm%Hf. rewrite Hh2 in Hm. destruct (decide _); [by left|]. right. intros [b Eb]. congruence.
  - intros m. unfold in_heap. destruct (decide (m ∈ new)) as [Hm|Hm].
    + split; [by left|]. intros _. apply list_elem_of_lookup in Hm as [i Hi].
      destruct (lookup_lt_is_Some_2 bs i) as [b Eb]; [apply lookup_lt_Some in Hi; lia|].
      rewrite (Hc i m b Hi Eb). by eexists.
    + rewrite (Ho m Hm), Hh2. destruct (decide _); [split; [by intros []|intros [?|[_ ?]]; done]|].
      split; [by right|]. by intros [?|[? _]].
Qed.

(** *** The owners of the buffers *)

(** Every allocated buffer belongs to one slot of a table. While the packets of
    a port are processed, [o = Some (port, j)], those from the [j]-th on are
    still in [pkts_burst]. *)
Inductive slot_id : Type :=
| W (port : Z) (i : nat)
| R (port : Z) (i : nat).

Definition unread (o : option (Z * nat)) (port : Z) (i : nat) : bool :=
  match o with Some (q, j) => (q =? port) && (j <=? i)%nat | None => false end.

Definition slot (o : option (Z * nat)) (s : dpdk) (x : slot_id) : option nat :=
  match x with
  | W p i => t ← wmbufs s !! p; m_table t !! i
  | R p i => t ← rmbufs s !! p;
             if (i <? mt_len t)%nat then (if unread o p i then pkts_burst s !! i else m_table t !! i) else None
  end.

Definition tables_ok (ts : gmap Z mbuf_table) : Prop :=
  forall p t, ts !! p = Some t -> length (m_table t) = MAX_PKT_BURST /\ (mt_len t <= MAX_PKT_BURST)%nat.

Record io_ok (o : option (Z * nat)) (s : dpdk) : Prop := mk_io_ok {
  io_w : tables_ok (wmbufs s);
  io_r : tables_ok (rmbufs s);
  io_burst : length (pkts_burst s) = MAX_PKT_BURST;
  io_inj : forall x y m, slot o s x = Some m -> slot o s y = Some m -> x = y;
  io_heap : forall m, in_heap s m <-> exists x, slot o s x = Some m;
}.

(** The slots in [P], which held the buffers [old], get the buffers [new]. *)
Lemma replace_slots o o' s s' (P : slot_id -> Prop) (old new : list nat) :
  (forall x y m, slot o s x = Some m -> slot o s y = Some m -> x = y) ->
  (forall m, in_heap s m <-> exists x, slot o s x = Some m) ->
  (forall x, P x \/ ~ P x) ->
  (forall x, ~ P x -> slot o' s' x = slot o s x) ->
  (forall m, m ∈ old <-> exists x, P x /\ slot o s x = Some m) ->
  (forall m, m ∈ new <-> exists x, P x /\ slot o' s' x = Some m) ->
  (forall x y m, P x -> P y -> slot o' s' x = Some m -> slot o' s' y = Some m -> x = y) ->
  (forall m, m ∈ new -> m ∈ old \/ ~ in_heap s m) ->
  (forall m, in_heap s' m <-> m ∈ new \/ in_heap s m /\ m ∉ old) ->
  (forall x y m, slot o' s' x = Some m -> slot o' s' y = Some m -> x = y) /\
  (forall m, in_heap s' m <-> exists x, slot o' s' x = Some m).
Proof.
  intros Hinj Hheap HP Hrest Hold Hnew Hni Hfresh Hh.
  assert (forall x y m, P x -> ~ P y -> slot o' s' x = Some m -> slot o' s' y = Some m -> False) as Hmix.
  { intros x y m Hx Hy Ex Ey. rewrite Hrest in Ey by done.
    assert (m ∈ new) as Hm by (apply Hnew; by exists x). apply Hfresh in Hm as [Hm|Hm].
    - apply Hold in Hm as (z & Hz & Ez). by rewrite (Hinj y z m Ey Ez) in Hy.
    - apply Hm, Hheap. by exists y. }
  split.
  - intros x y m Ex Ey. destruct (HP x), (HP y); [by eapply Hni|by edestruct Hmix|by edestruct Hmix|].
    rewrite Hrest in Ex, Ey by done. by eapply Hinj.
  - intros m. rewrite Hh. split.
    + intros [Hm|[Hm Ho]]; [apply Hnew in Hm as (x & _ & ?); by exists x|].
      apply Hheap in Hm as [x Ex]. destruct (HP x) as [Hx|Hx]; [destruct Ho; apply Hold; by exists x|].
      exists x. by rewrite Hrest.
    + intros [x Ex]. destruct (HP x) as [Hx|Hx]; [left; apply Hnew; by exists x|]. right.
      rewrite Hrest in Ex by done. split; [apply Hheap; by exists x|]. intros (z & Hz & Ez)%Hold.
      by rewrite (Hinj x z m Ex Ez) in Hx.
Qed.

Section owners.
Context `{Dpdk}.

Lemma port_table_run f port s t : f s !! port = Some t -> port_table f port s = Ret (t, s).
Proof. intros E. unfold port_table. rewrite (bind_ret mget _ s s s) by done. by rewrite E. Qed.

(** The packets queued on a port. *)
Definition queued (s : dpdk) (t : mbuf_table) : list mbuf := content s <$> take (mt_len t) (m_table t).

Lemma queued_slots o s port t m : wmbufs s !! port = Some t ->
  m ∈ take (mt_len t) (m_table t) <-> exists x, (exists i, x = W port i /\ (i < mt_len t)%nat) /\ slot o s x = Some m.
Proof.
  intros Ht. rewrite list_elem_of_lookup. split.
  - intros [i Hi]. apply lookup_take_Some in Hi as [Hi Hl]. exists (W port i). split; [by exists i|].
    simpl. by rewrite Ht.
  - intros (x & (i & -> & Hl) & E). simpl in E. rewrite Ht in E. simpl in E. exists i. by rewrite lookup_take_lt.
Qed.
Lemma queued_nodup o s port t : io_ok o s -> wmbufs s !! port = Some t -> NoDup (take (mt_len t) (m_table t)).
Proof.
  intros [] Ht. apply NoDup_alt. intros i j m Hi Hj.
  apply lookup_take_Some in Hi as [Hi _], Hj as [Hj _].
  assert (W port i = W port j) as E by (eapply (io_inj0 _ _ m); simpl; by rewrite Ht). by injection E.
Qed.
Lemma queued_in_heap o s port t m : io_ok o s -> wmbufs s !! port = Some t ->
  m ∈ take (mt_len t) (m_table t) -> in_heap s m.
Proof. intros [] Ht Hm. apply io_heap0. apply (queued_slots o s port t) in Hm as (x & _ & E); [|done]. by exists x. Qed.

(** The slots of a flushed queue after they were refilled. *)
Lemma refilled_ok o s s' port t l bs h2 :
  io_ok o s -> wmbufs s !! port = Some t -> length l = mt_len t ->
  wmbufs s' = <[port := mk_mbuf_table 0 (l ++ drop (mt_len t) (m_table t))]> (wmbufs s) ->
  rmbufs s' = rmbufs s -> pkts_burst s' = pkts_burst s ->
  (forall m, h2 !! m = if decide (m ∈ take (mt_len t) (m_table t)) then None else heap s !! m) ->
  added l bs h2 (heap s') -> io_ok o s'.
Proof.
  intros Hok Ht Hl Hw Hr Hb Hh2 Ha. pose proof (exchanged s s' _ l bs h2 Hh2 Ha) as Hex.
  destruct Ha as (Hnd & _). destruct (io_w _ _ Hok port t Ht) as [Hlen Hmt].
  assert (forall x, slot o s' x =
    match x with
    | W p i => if decide (p = port) then (if decide (i < mt_len t)%nat then l !! i else m_table t !! i) else slot o s x
    | R _ _ => slot o s x
    end) as Hs'.
  { intros [p i|p i]; simpl; [|by rewrite Hr, Hb]. rewrite Hw. destruct (decide (p = port)) as [->|Hne].
    - rewrite lookup_insert_eq. simpl. destruct (decide (i < mt_len t)%nat).
      + rewrite lookup_app_l by lia. done.
      + rewrite lookup_app_r by lia. rewrite lookup_drop, Hl. f_equal. lia.
    - by rewrite lookup_insert_ne. }
  destruct (replace_slots o o s s' (fun x => exists i, x = W port i /\ (i < mt_len t)%nat)
    (take (mt_len t) (m_table t)) l) as [Hinj Hheap].
  - apply Hok.
  - apply Hok.
  - intros [p i|p i]; [|by right; intros (? & ? & _)].
    destruct (decide (p = port /\ (i < mt_len t)%nat)) as [[-> ?]|Hn]; [left; by exists i|].
    right. intros (j & [= -> ->] & ?). by apply Hn.
  - intros [p i|p i] Hn; rewrite Hs'; [|done]. destruct (decide (p = port)) as [->|]; [|done].
    rewrite decide_False by (intros ?; apply Hn; by exists i). simpl. by rewrite Ht.
  - intros m. by apply queued_slots.
  - intros m. rewrite list_elem_of_lookup. split.
    + intros [i Hi]. pose proof (lookup_lt_Some _ _ _ Hi). exists (W port i). split; [exists i; split; [done|lia]|].
      rewrite Hs', decide_True, decide_True by (done || lia). done.
    + intros (x & (i & -> & Hi) & E). rewrite Hs', decide_True, decide_True in E by done. by exists i.
  - intros x y m (i & -> & Hi) (j & -> & Hj). rewrite !Hs', !decide_True by done. intros E1 E2.
    f_equal. by eapply NoDup_lookup.
  - apply Hex.
  - apply Hex.
  - split; [|by rewrite Hr; apply Hok|by rewrite Hb; apply Hok|done|done].
    intros p t'. rewrite Hw. intros [[<- <-]|[_ Hp]]%lookup_insert_Some; [|by apply (io_w _ _ Hok p)].
    simpl. rewrite length_app, length_drop. lia.
Qed.

Lemma send_run o s port t :
  io_ok o s -> wmbufs s !! port = Some t ->
  match send_pkts port s with
  | Ret (n, s') =>
      n = Nat.min (tx_burst (calls s)) (mt_len t) /\ io_ok o s' /\
      wire s' = wire s ++ (pair port <$> take n (queued s t)) /\
      (exists t', wmbufs s' !! port = Some t' /\ mt_len t' = 0%nat) /\ rmbufs s' = rmbufs s /\
      (forall q, q <> port -> wmbufs s' !! q = wmbufs s !! q)
  | Fault f => f = Exit_failure
  end.
Proof.
  intros Hok Ht. unfold send_pkts. erewrite bind_ret by (by apply port_table_run). cbv zeta.
  destruct (Nat.eqb_spec (mt_len t) 0) as [E0|E0].
  { rewrite E0, Nat.min_0_r. split; [done|]. split; [done|]. rewrite app_nil_r. split; [done|].
    split; [by exists t|done]. }
  rewrite (bind_ret mget _ s s s) by done. erewrite (bind_ret (mmod _)) by done.
  set (n := Nat.min (tx_burst (calls s)) (mt_len t)). set (pkts := take (mt_len t) (m_table t)).
  set (s0 := s <| calls ::= S |>).
  assert (NoDup pkts) as Hnd by (by eapply queued_nodup).
  assert (forall m, m ∈ pkts -> in_heap s0 m) as Hin by (intros m; by apply (queued_in_heap o s port t)).
  rewrite <-(take_drop n pkts) in Hnd. apply NoDup_app in Hnd as (Hnd1 & Hdis & Hnd2).
  destruct (tx_take_run port (take n pkts) s0 Hnd1) as (h1 & E1 & Hh1).
  { intros m Hm. apply Hin. rewrite <-(take_drop n pkts). apply elem_of_app. by left. }
  erewrite bind_ret by exact E1.
  match goal with |- context [bind _ _ ?x] => set (s1 := x) end.
  assert (exists h2, (if (n <? mt_len t)%nat then free_pkts (drop n pkts) else ret tt) s1 = Ret (tt, s1 <| heap := h2 |>) /\
    forall m, h2 !! m = if decide (m ∈ pkts) then None else heap s !! m) as (h2 & E2 & Hh2).
  { destruct (free_pkts_run (drop n pkts) s1 Hnd2) as (h2 & E2 & Hh2).
    { intros m Hm. unfold in_heap. simpl. rewrite Hh1. rewrite decide_False by (intros ?; by eapply Hdis).
      apply Hin. rewrite <-(take_drop n pkts). apply elem_of_app. by right. }
    assert (forall m, h2 !! m = if decide (m ∈ pkts) then None else heap s !! m) as Hh.
    { intros m. rewrite Hh2. simpl. rewrite Hh1. pose proof (elem_of_app (take n pkts) (drop n pkts) m) as Hs.
      rewrite take_drop in Hs. destruct (decide (m ∈ drop n pkts)), (decide (m ∈ take n pkts)), (decide (m ∈ pkts));
        done || tauto. }
    destruct (Nat.ltb_spec n (mt_len t)) as [Hlt|Hge]; [by exists h2|].
    rewrite drop_ge in E2 by (unfold pkts; rewrite length_take; lia). exists h2. split; [exact E2|done]. }
  erewrite bind_ret by exact E2. set (s2 := s1 <| heap := h2 |>).
  destruct (io_w _ _ Hok port t Ht) as [Hlen Hmt].
  pose proof (refill_run port (mt_len t) 0 s2 t Ht) as Hre.
  destruct (refill port (mt_len t) 0 s2) as [[u s3]|f] eqn:E3; [|erewrite bind_fault by exact E3; apply Hre; lia].
  destruct Hre as (l & h & k & Hl & Ha & ->); [lia|]. erewrite bind_ret by exact E3.
  erewrite bind_ret by (apply port_table_run; simpl; apply lookup_insert_eq).
  erewrite (bind_ret (mmod _)) by done. cbv beta iota delta [ret]. split; [done|]. split; [|split; [|split; [|split]]].
  - eapply (refilled_ok o s _ port t l (replicate (mt_len t) mbuf0) h2); try done.
    simpl. by rewrite insert_insert_eq.
  - simpl. f_equal. unfold queued. rewrite <-fmap_take, <-list_fmap_compose. done.
  - eexists. split; [simpl; apply lookup_insert_eq|done].
  - done.
  - intros q Hq. simpl. by rewrite !lookup_insert_ne by done.
Qed.

Lemma received_slots s port t m : rmbufs s !! port = Some t ->
  m ∈ take (mt_len t) (m_table t) <-> exists x, (exists i, x = R port i) /\ slot None s x = Some m.
Proof.
  intros Ht. rewrite list_elem_of_lookup. split.
  - intros [i Hi]. apply lookup_take_Some in Hi as [Hi Hl]. exists (R port i). split; [by exists i|].
    simpl. rewrite Ht. simpl. by rewrite (proj2 (Nat.ltb_lt _ _)).
  - intros (x & (i & ->) & E). simpl in E. rewrite Ht in E. simpl in E.
    destruct (Nat.ltb_spec i (mt_len t)); [|done]. exists i. by rewrite lookup_take_lt.
Qed.

(** The slots of a port after a burst. *)
Lemma burst_ok s s' port t l bs h2 :
  io_ok None s -> rmbufs s !! port = Some t -> (length l <= MAX_PKT_BURST)%nat ->
  rmbufs s' = <[port := t <| mt_len := length l |>]> (rmbufs s) ->
  wmbufs s' = wmbufs s -> pkts_burst s' = l ++ drop (length l) (pkts_burst s) ->
  (forall m, h2 !! m = if decide (m ∈ take (mt_len t) (m_table t)) then None else heap s !! m) ->
  added l bs h2 (heap s') -> io_ok (Some (port, 0%nat)) s'.
Proof.
  intros Hok Ht Hl Hr Hw Hb Hh2 Ha. pose proof (exchanged s s' _ l bs h2 Hh2 Ha) as Hex.
  destruct Ha as (Hnd & _). destruct (io_r _ _ Hok port t Ht) as [Hlen Hmt].
  assert (forall x, slot (Some (port, 0%nat)) s' x =
    match x with
    | R p i => if decide (p = port) then l !! i else slot None s x
    | W _ _ => slot None s x
    end) as Hs'.
  { intros [p i|p i]; simpl; [by rewrite Hw|]. rewrite Hr. destruct (decide (p = port)) as [->|Hne].
    - rewrite lookup_insert_eq. simpl. rewrite Z.eqb_refl, Hb. simpl.
      destruct (Nat.ltb_spec i (length l)); [by rewrite lookup_app_l|]. by rewrite lookup_ge_None_2.
    - rewrite lookup_insert_ne by done. by rewrite (proj2 (Z.eqb_neq port p)) by done. }
  destruct (replace_slots None (Some (port, 0%nat)) s s' (fun x => exists i, x = R port i)
    (take (mt_len t) (m_table t)) l) as [Hinj Hheap].
  - apply Hok.
  - apply Hok.
  - intros [p i|p i]; [by right; intros (? & ?)|].
    destruct (decide (p = port)) as [->|Hn]; [left; by exists i|]. right. by intros (j & [= -> ->]).
  - intros [p i|p i] Hn; rewrite Hs'; [done|]. rewrite decide_False; [done|]. intros ->. apply Hn. by exists i.
  - intros m. by apply received_slots.
  - intros m. rewrite list_elem_of_lookup. split.
    + intros [i Hi]. exists (R port i). split; [by exists i|]. by rewrite Hs', decide_True by done.
    + intros (x & (i & ->) & E). rewrite Hs', decide_True in E by done. by exists i.
  - intros x y m (i & ->) (j & ->). rewrite !Hs', !decide_True by done. intros E1 E2.
    f_equal. by eapply NoDup_lookup.
  - apply Hex.
  - apply Hex.
  - split; [by rewrite Hw; apply Hok| | |done|done].
    + intros p t'. rewrite Hr. intros [[<- <-]|[_ Hp]]%lookup_insert_Some; [|by apply (io_r _ _ Hok p)]. done.
    + rewrite Hb, length_app, length_drop, (io_burst _ _ Hok). lia.
Qed.

Lemma recv_run s port t : io_ok None s -> rmbufs s !! port = Some t ->
  exists s', recv_pkts port s = Ret (length (take MAX_PKT_BURST (rx_burst (calls s))), s') /\
    io_ok (Some (port, 0%nat)) s'.
Proof.
  intros Hok Ht. unfold recv_pkts. erewrite bind_ret by (by apply port_table_run).
  set (old := take (mt_len t) (m_table t)).
  assert (exists h2 r, (if negb (mt_len t =? 0)%nat then
      free_pkts old;;; mmod (fun s => s <| rmbufs ::= insert port (t <| mt_len := 0%nat |>) |>) else ret tt) s =
      Ret (tt, s <| heap := h2 |> <| rmbufs := r |>) /\
    insert port (t <| mt_len := length (take MAX_PKT_BURST (rx_burst (calls s))) |>) r =
    insert port (t <| mt_len := length (take MAX_PKT_BURST (rx_burst (calls s))) |>) (rmbufs s) /\
    forall m, h2 !! m = if decide (m ∈ old) then None else heap s !! m) as (h2 & r & E2 & Hr & Hh2).
  { destruct (Nat.eqb_spec (mt_len t) 0) as [E0|E0].
    - exists (heap s), (rmbufs s). split; [by destruct s|]. split; [done|]. intros m. unfold old. rewrite E0. done.
    - destruct (free_pkts_run old s) as (h2 & E2 & Hh2).
      + apply NoDup_alt. intros i j m Hi Hj. apply lookup_take_Some in Hi as [Hi Hil], Hj as [Hj Hjl].
        assert (R port i = R port j) as E; [|by injection E].
        eapply (io_inj _ _ Hok _ _ m); simpl; rewrite Ht; simpl; by rewrite (proj2 (Nat.ltb_lt _ _)).
      + intros m Hm. apply (io_heap _ _ Hok). apply (received_slots s port t) in Hm as (x & _ & ?); [|done]. by exists x.
      + exists h2, (insert port (t <| mt_len := 0%nat |>) (rmbufs s)). simpl. erewrite bind_ret by exact E2.
        split; [done|]. split; [by rewrite insert_insert_eq|done]. }
  erewrite bind_ret by exact E2. erewrite (bind_ret mget) by done. simpl calls.
  set (ms := take MAX_PKT_BURST (rx_burst (calls s))) in *.
  destruct (deliver_run ms (s <| heap := h2 |> <| rmbufs := r |>)) as (l & h & E3 & Ha).
  erewrite bind_ret by exact E3. erewrite (bind_ret (mmod _)) by done. erewrite (bind_ret (mmod _)) by done.
  assert (length l = length ms) as Hl by apply Ha. eexists. rewrite Hl. split; [done|].
  eapply (burst_ok s _ port t l ms h2); try done.
  - rewrite Hl. unfold ms. rewrite length_take. lia.
  - simpl. by rewrite Hl.
  - by rewrite Hl.
Qed.

(** Processing the [j]-th packet of the burst moves its buffer to the table. *)
Lemma read_run s port t j : io_ok (Some (port, j)) s -> rmbufs s !! port = Some t -> (j < mt_len t)%nat ->
  exists r s', get_rptr port j s = Ret (r, s') /\ io_ok (Some (port, S j)) s' /\
    exists t', rmbufs s' !! port = Some t' /\ mt_len t' = mt_len t.
Proof.
  intros Hok Ht Hj. destruct (io_r _ _ Hok port t Ht) as [Hlen Hmt].
  destruct (lookup_lt_is_Some_2 (pkts_burst s) j) as [m Hm]; [rewrite (io_burst _ _ Hok); lia|].
  assert (slot (Some (port, j)) s (R port j) = Some m) as Hsm.
  { simpl. rewrite Ht. simpl. rewrite (proj2 (Nat.ltb_lt _ _)) by done. by rewrite Z.eqb_refl, Nat.leb_refl. }
  destruct (proj2 (io_heap _ _ Hok m)) as [b Hb]; [by exists (R port j)|].
  unfold get_rptr. rewrite (bind_ret mget _ s s s) by done. rewrite Hm. erewrite (bind_ret (mderef _)) by done.
  rewrite Hb. erewrite (bind_ret (mderef _)) by done. erewrite bind_ret by (by apply port_table_run).
  erewrite (bind_ret (mmod _)) by done. eexists _, _. split; [reflexivity|].
  split; [|eexists; split; [simpl; apply lookup_insert_eq|done]].
  match goal with |- io_ok _ ?x => set (s' := x) end.
  assert (forall x, slot (Some (port, S j)) s' x = slot (Some (port, j)) s x) as Hsl.
  { intros [p i|p i]; [done|]. simpl. destruct (decide (p = port)) as [->|Hne].
    - rewrite lookup_insert_eq, Ht. simpl. destruct (i <? mt_len t)%nat; [|done]. rewrite Z.eqb_refl. simpl.
      change (match i with 0%nat => false | S m' => (j <=? m')%nat end) with (S j <=? i)%nat.
      destruct (Nat.leb_spec j i), (Nat.leb_spec (S j) i); [done| |lia|].
      + assert (i = j) as -> by lia. rewrite Hm. apply list_lookup_insert_eq. lia.
      + by rewrite list_lookup_insert_ne by lia.
    - rewrite lookup_insert_ne by done. by rewrite (proj2 (Z.eqb_neq port p)) by done. }
  destruct Hok. split; [done| |done| |].
  - intros p t'. simpl. intros [[<- <-]|[_ Hp]]%lookup_insert_Some; [|by apply (io_r0 p)].
    simpl. by rewrite length_insert.
  - intros x y z. rewrite !Hsl. apply io_inj0.
  - intros z. setoid_rewrite Hsl. apply io_heap0.
Qed.

Lemma burst_done s port t : rmbufs s !! port = Some t -> io_ok (Some (port, mt_len t)) s -> io_ok None s.
Proof.
  intros Ht []. assert (forall x, slot None s x = slot (Some (port, mt_len t)) s x) as Hsl.
  { intros [p i|p i]; [done|]. simpl. destruct (rmbufs s !! p) as [t'|] eqn:Ep; [|done]. simpl.
    destruct (Nat.ltb_spec i (mt_len t')) as [Hi|]; [|done]. destruct (Z.eqb_spec port p) as [->|]; [|done]. simpl.
    rewrite Ht in Ep. injection Ep as <-. by rewrite (proj2 (Nat.leb_gt _ _)). }
  split; [done|done|done| |].
  - intros x y z. rewrite !Hsl. apply io_inj0.
  - intros z. setoid_rewrite Hsl. apply io_heap0.
Qed.

(** Changing the contents of a buffer, or how many slots are queued, leaves the
    owners as they are. *)
Lemma io_ok_same o s s' :
  io_ok o s -> rmbufs s' = rmbufs s -> pkts_burst s' = pkts_burst s -> tables_ok (wmbufs s') ->
  (forall p i, (wmbufs s' !! p ≫= fun t => m_table t !! i) = (wmbufs s !! p ≫= fun t => m_table t !! i)) ->
  (forall m, in_heap s' m <-> in_heap s m) -> io_ok o s'.
Proof.
  intros [] Hr Hb Hw Ht Hh. assert (forall x, slot o s' x = slot o s x) as Hsl
    by (intros [p i|p i]; simpl; [apply Ht|by rewrite Hr, Hb]).
  split; [done|by rewrite Hr|by rewrite Hb| |].
  - intros x y z. rewrite !Hsl. apply io_inj0.
  - intros z. rewrite Hh. setoid_rewrite Hsl. apply io_heap0.
Qed.

(** Taking the next slot of a queue that has one. *)
Definition filled (s : dpdk) (port : Z) (t : mbuf_table) (m : nat) (b : mbuf) : dpdk :=
  s <| heap ::= insert m b |> <| wmbufs ::= insert port (t <| mt_len := S (mt_len t) |>) |>.

Lemma take_slot_run {A} (k : nat -> ioM A) o s port t size csum l4 :
  io_ok o s -> wmbufs s !! port = Some t -> (mt_len t < MAX_PKT_BURST)%nat ->
  exists m, m_table t !! mt_len t = Some m /\ in_heap s m /\
  let b := (content s m) <| pkt_len := size |> <| hw_csum := csum |> <| mb_l4_len := l4 |> in
  io_ok o (filled s port t m b) /\
  (do t <- port_table wmbufs port;
   do m <- mderef (m_table t !! mt_len t);
   do s <- mget;
   do b <- mderef (heap s !! m);
   mmod (fun s => s <| heap ::= insert m (b <| pkt_len := size |> <| hw_csum := csum |> <| mb_l4_len := l4 |>) |>
                    <| wmbufs ::= insert port (t <| mt_len := S (mt_len t) |>) |>);;;
   k m) s = k m (filled s port t m b).
Proof.
  intros Hok Ht Hl. destruct (io_w _ _ Hok port t Ht) as [Hlen Hmt].
  destruct (lookup_lt_is_Some_2 (m_table t) (mt_len t)) as [m Hm]; [lia|].
  assert (in_heap s m) as Hh by (apply (io_heap _ _ Hok); exists (W port (mt_len t)); simpl; by rewrite Ht).
  exists m. split; [done|]. split; [done|]. cbv zeta. split.
  - eapply io_ok_same; [exact Hok|done|done| | |].
    + intros p t'. simpl. intros [[<- <-]|[_ Hp]]%lookup_insert_Some; [simpl; lia|by apply (io_w _ _ Hok p)].
    + intros p i. simpl. destruct (decide (p = port)) as [->|]; [|by rewrite lookup_insert_ne].
      by rewrite lookup_insert_eq, Ht.
    + intros x. unfold in_heap. simpl. rewrite lookup_insert_is_Some'. split; [|by right].
      by intros [->|?].
  - erewrite bind_ret by (by apply port_table_run). rewrite Hm. erewrite (bind_ret (mderef _)) by done.
    rewrite (bind_ret mget _ s s s) by done. destruct Hh as [b Hb]. unfold content. rewrite Hb.
    erewrite (bind_ret (mderef _)) by done. erewrite (bind_ret (mmod _)) by done. done.
Qed.

Lemma flush_run fuel o s port t : io_ok o s -> wmbufs s !! port = Some t ->
  match flush_loop fuel port s with
  | Ret (_, s') => io_ok o s' /\ (exists t', wmbufs s' !! port = Some t' /\ mt_len t' = 0%nat)
  | Fault f => f = Exit_failure \/ f = Out_of_fuel
  end.
Proof.
  revert s t. induction fuel as [|fuel IH]; intros s t Hok Ht; simpl; [by right|].
  pose proof (send_run o s port t Hok Ht) as Hs. unfold bind at 1. destruct (send_pkts port s) as [[n s']|f]; [|by left].
  destruct Hs as (_ & Hok' & _ & (t' & Ht' & Hl') & _). destruct (n =? 0)%nat; [by eapply IH|].
  split; [done|by exists t'].
Qed.

Lemma queue_run fuel o s port t size csum l4 : io_ok o s -> wmbufs s !! port = Some t ->
  match get_wptr fuel port size csum l4 s with
  | Ret (_, s') => io_ok o s'
  | Fault f => f = Exit_failure \/ f = Out_of_fuel
  end.
Proof.
  intros Hok Ht. unfold get_wptr. erewrite bind_ret by (by apply port_table_run).
  destruct (io_w _ _ Hok port t Ht) as [Hlen Hmt].
  assert (match (if (mt_len t =? MAX_PKT_BURST)%nat then flush_loop fuel port else ret tt) s with
    | Ret (_, s') => io_ok o s' /\ (exists t', wmbufs s' !! port = Some t' /\ (mt_len t' < MAX_PKT_BURST)%nat)
    | Fault f => f = Exit_failure \/ f = Out_of_fuel
    end) as Hf.
  { destruct (Nat.eqb_spec (mt_len t) MAX_PKT_BURST); [|simpl; split; [done|exists t; split; [done|lia]]].
    pose proof (flush_run fuel o s port t Hok Ht) as Hf. destruct (flush_loop fuel port s) as [[u s']|f]; [|done].
    destruct Hf as (? & t' & ? & ?). split; [done|]. exists t'. split; [done|]. unfold MAX_PKT_BURST. lia. }
  unfold bind at 1. match type of Hf with match ?m with _ => _ end => destruct m as [[u s1]|f] end; [|done].
  destruct Hf as (Hok1 & t1 & Ht1 & Hl1).
  destruct (take_slot_run ret o s1 port t1 size csum l4 Hok1 Ht1 Hl1) as (m & _ & _ & Hok' & E).
  rewrite E. done.
Qed.

(** The caller fills the buffer through the pointer it got. *)
Definition write_mbuf (m : nat) (data : bytes) (s : dpdk) : dpdk :=
  s <| heap ::= alter (fun b => b <| mb_data := data |>) m |>.

(** C33: packets leave a port in the order in which they were queued: a packet
    written into the buffer that [get_wptr] returns stands behind those queued
    before, and [send_pkts] transmits from the front of the queue as many as
    the device accepts, empties the queue, and can only end the process
    otherwise. *)
Theorem packets_sent_in_order o s port t size csum l4 data fuel :
  io_ok o s -> wmbufs s !! port = Some t -> (mt_len t < MAX_PKT_BURST)%nat ->
  exists m s1 t1, get_wptr fuel port size csum l4 s = Ret (m, s1) /\
    let s2 := write_mbuf m data s1 in
    wmbufs s2 !! port = Some t1 /\
    queued s2 t1 = queued s t ++ [mk_mbuf size data csum l4 (csum_bad (content s m))] /\
    match send_pkts port s2 with
    | Ret (n, s3) =>
        n = Nat.min (tx_burst (calls s2)) (S (mt_len t)) /\
        wire s3 = wire s2 ++ (pair port <$> take n (queued s2 t1)) /\
        exists t3, wmbufs s3 !! port = Some t3 /\ queued s3 t3 = []
    | Fault f => f = Exit_failure
    end.
Proof.
  intros Hok Ht Hl. destruct (take_slot_run ret o s port t size csum l4 Hok Ht Hl) as (m & Hm & Hh & Hok1 & E).
  set (b := (content s m) <| pkt_len := size |> <| hw_csum := csum |> <| mb_l4_len := l4 |>) in *.
  set (s1 := filled s port t m b) in *. set (t1 := t <| mt_len := S (mt_len t) |>).
  exists m, s1, t1. split.
  { unfold get_wptr. erewrite bind_ret by (by apply port_table_run).
    rewrite (proj2 (Nat.eqb_neq _ _)) by lia. rewrite (bind_ret (ret tt) _ s tt s) by done. exact E. }
  cbv zeta. set (s2 := write_mbuf m data s1).
  assert (wmbufs s2 !! port = Some t1) as Ht1 by apply lookup_insert_eq. split; [done|].
  assert (io_ok o s2) as Hok2.
  { eapply io_ok_same; [exact Hok1|done|done|apply Hok1|done|]. intros x. unfold in_heap. simpl.
    by rewrite lookup_alter_is_Some. }
  assert (forall x, x <> m -> content s2 x = content s x) as Hoth.
  { intros x Hx. unfold content. simpl. by rewrite lookup_alter_ne, lookup_insert_ne by done. }
  split.
  { unfold queued. change (mt_len t1) with (S (mt_len t)). change (m_table t1) with (m_table t).
    rewrite (take_S_r _ _ m Hm), fmap_app. f_equal.
    - apply list_fmap_ext. intros j x Hj. apply Hoth. intros ->. apply lookup_take_Some in Hj as [Hj Hlt].
      assert (W port j = W port (mt_len t)) as Ej by (eapply (io_inj _ _ Hok _ _ m); simpl; by rewrite Ht).
      injection Ej. lia.
    - simpl. f_equal. unfold content at 1. simpl. by rewrite lookup_alter_eq, lookup_insert_eq. }
  pose proof (send_run o s2 port t1 Hok2 Ht1) as Hs. destruct (send_pkts port s2) as [[n s3]|f]; [|done].
  destruct Hs as (Hn & _ & Hwire & (t3 & Ht3 & Hl3) & _). split; [done|]. split; [done|]. exists t3.
  split; [done|]. unfold queued. by rewrite Hl3.
Qed.

Lemma flush_empty fuel port s t : wmbufs s !! port = Some t -> mt_len t = 0%nat ->
  flush_loop fuel port s = Fault Out_of_fuel.
Proof.
  intros Ht Hl. induction fuel as [|fuel IH]; [done|]. cbn [flush_loop].
  erewrite bind_ret; [|unfold send_pkts; erewrite bind_ret by (by apply port_table_run); by rewrite Hl]. done.
Qed.

(** A worker core that fills the queue of a port whose device accepts
    nothing at that moment hangs: the queued packets are dropped, the queue is
    empty, and the loop of [get_wptr] waits for a transmission that no longer
    has anything to send. *)
Theorem full_queue_hangs o s port t size csum l4 :
  io_ok o s -> wmbufs s !! port = Some t -> mt_len t = MAX_PKT_BURST -> tx_burst (calls s) = 0%nat ->
  forall fuel m s', get_wptr fuel port size csum l4 s <> Ret (m, s').
Proof.
  intros Hok Ht Hl Hx fuel m s'. unfold get_wptr. erewrite bind_ret by (by apply port_table_run).
  rewrite Hl, Nat.eqb_refl. destruct fuel as [|fuel]; [done|]. cbn [flush_loop].
  pose proof (send_run o s port t Hok Ht) as Hs. unfold bind at 1. unfold bind at 1.
  destruct (send_pkts port s) as [[n s1]|f]; [|done]. destruct Hs as (-> & _ & _ & (t1 & Ht1 & Hl1) & _).
  rewrite Hx. simpl. by rewrite (flush_empty fuel port s1 t1 Ht1 Hl1).
Qed.

(** *** The buffers of a core *)

(** What [thread_local_init] allocates for [n] ports. *)
Definition per_port (n : nat) (t : nat -> mbuf_table) : gmap Z mbuf_table :=
  list_to_map ((fun p => (Z.of_nat p, t p)) <$> seq 0 n).
Definition io_start (n : nat) : dpdk :=
  mk_dpdk (list_to_map ((fun m => (m, mbuf0)) <$> seq 0 (MAX_PKT_BURST * n)))
    (per_port n (fun _ => mk_mbuf_table 0 (replicate MAX_PKT_BURST 0%nat)))
    (per_port n (fun p => mk_mbuf_table 0 (seq (MAX_PKT_BURST * p) MAX_PKT_BURST)))
    (replicate MAX_PKT_BURST 0%nat) [] 0.

(** The main loop with respect to the buffers: a burst is received and its
    packets are processed in turn; packets are queued, filled and flushed at
    any time. *)
Inductive io_step (fuel : nat) : option (Z * nat) * dpdk -> option (Z * nat) * dpdk -> Prop :=
| io_recv p n s s' : recv_pkts p s = Ret (n, s') -> io_step fuel (None, s) (Some (p, 0%nat), s')
| io_read p j t r s s' :
    rmbufs s !! p = Some t -> (j < mt_len t)%nat -> get_rptr p j s = Ret (r, s') ->
    io_step fuel (Some (p, j), s) (Some (p, S j), s')
| io_done p t s : rmbufs s !! p = Some t -> io_step fuel (Some (p, mt_len t), s) (None, s)
| io_queue o p size csum l4 m s s' :
    get_wptr fuel p size csum l4 s = Ret (m, s') -> io_step fuel (o, s) (o, s')
| io_write o m data s : io_step fuel (o, s) (o, write_mbuf m data s)
| io_send o p n s s' : send_pkts p s = Ret (n, s') -> io_step fuel (o, s) (o, s').

Lemma has_table {A} f p s (k : mbuf_table -> ioM A) r :
  (do t <- port_table f p; k t) s = Ret r -> exists t, f s !! p = Some t.
Proof.
  unfold port_table. rewrite bind_assoc. rewrite (bind_ret mget _ s s s) by done.
  destruct (f s !! p) as [t|]; [by eauto|done].
Qed.

Lemma io_step_ok fuel a b : io_step fuel a b -> io_ok a.1 a.2 -> io_ok b.1 b.2.
Proof.
  intros Hst Hok. destruct Hst as [p n s s' E|p j t r s s' Ht Hj E|p t s Ht|o p size csum l4 m s s' E|o m data s|o p n s s' E];
    simpl in *.
  - destruct (has_table _ _ _ _ _ E) as [t Ht]. destruct (recv_run s p t Hok Ht) as (s1 & E1 & Hok1).
    rewrite E in E1. by injection E1 as _ <-.
  - destruct (read_run s p t j Hok Ht Hj) as (r1 & s1 & E1 & Hok1 & _). rewrite E in E1. by injection E1 as _ <-.
  - by eapply burst_done.
  - destruct (has_table _ _ _ _ _ E) as [t Ht]. pose proof (queue_run fuel o s p t size csum l4 Hok Ht) as Hq.
    by rewrite E in Hq.
  - eapply io_ok_same; [exact Hok|done|done|apply Hok|done|]. intros x. unfold in_heap. simpl.
    by rewrite lookup_alter_is_Some.
  - destruct (has_table _ _ _ _ _ E) as [t Ht]. pose proof (send_run o s p t Hok Ht) as Hs. rewrite E in Hs. tauto.
Qed.

Lemma per_port_lookup n t p x : per_port n t !! p = Some x <-> exists k, (k < n)%nat /\ p = Z.of_nat k /\ x = t k.
Proof.
  unfold per_port. rewrite <-elem_of_list_to_map.
  - rewrite list_elem_of_fmap. setoid_rewrite elem_of_seq. split.
    + intros (k & [= -> ->] & Hk). exists k. split; [lia|done].
    + intros (k & Hk & -> & ->). exists k. split; [done|lia].
  - rewrite <-list_fmap_compose. apply NoDup_fmap_2; [intros a b; simpl; lia|apply NoDup_seq].
Qed.

Lemma io_start_ok n : io_ok None (io_start n).
Proof.
  assert (forall x m, slot None (io_start n) x = Some m <->
    exists k i, x = W (Z.of_nat k) i /\ (k < n)%nat /\ (i < MAX_PKT_BURST)%nat /\ m = (MAX_PKT_BURST * k + i)%nat) as Hsl.
  { intros [p i|p i] m; unfold io_start; cbn [slot wmbufs rmbufs]; rewrite bind_Some; split.
    - intros (t & (k & Hk & -> & ->)%per_port_lookup & E). cbn [m_table] in E. apply lookup_seq in E as [-> Hi].
      by exists k, i.
    - intros (k & j & [= -> ->] & Hk & Hj & ->). eexists. split; [apply per_port_lookup; by exists k|].
      cbn [m_table]. by apply lookup_seq.
    - by intros (t & (k & Hk & -> & ->)%per_port_lookup & E).
    - by intros (k & j & ? & _). }
  split.
  - intros p t (k & Hk & -> & ->)%per_port_lookup. simpl. unfold MAX_PKT_BURST. simpl. lia.
  - intros p t (k & Hk & -> & ->)%per_port_lookup. simpl. unfold MAX_PKT_BURST. simpl. lia.
  - apply length_replicate.
  - intros x y m (k & i & -> & Hk & Hi & ->)%Hsl (k' & i' & -> & Hk' & Hi' & Em)%Hsl.
    assert (k = k' /\ i = i') as [-> ->]; [|done]. unfold MAX_PKT_BURST in *. lia.
  - intros m. unfold in_heap. setoid_rewrite Hsl. unfold io_start. cbn [heap].
    rewrite <-elem_of_dom, dom_list_to_map_L, elem_of_list_to_set, <-list_fmap_compose.
    rewrite list_elem_of_fmap. setoid_rewrite elem_of_seq. split.
    + intros (x & -> & Hx). unfold compose. cbn [fst]. exists (W (Z.of_nat (x / MAX_PKT_BURST)) (x mod MAX_PKT_BURST)), (x / MAX_PKT_BURST)%nat, (x mod MAX_PKT_BURST)%nat.
      split; [done|]. assert (MAX_PKT_BURST <> 0%nat) as H0 by done.
      pose proof (Nat.div_mod_eq x MAX_PKT_BURST). pose proof (Nat.mod_upper_bound x MAX_PKT_BURST H0).
      split; [apply Nat.Div0.div_lt_upper_bound; lia|]. split; [done|]. done.
    + intros (x & k & i & _ & Hk & Hi & ->). exists (MAX_PKT_BURST * k + i)%nat. split; [done|].
      unfold MAX_PKT_BURST in *. lia.
Qed.

Lemma io_steps_ok fuel a b : rtc (io_step fuel) a b -> io_ok a.1 a.2 -> io_ok b.1 b.2.
Proof. induction 1 as [|a b c Hs Hr IH]; [done|]. intros Ha. apply IH. by eapply io_step_ok. Qed.

(** C30: no packet buffer is lost, used twice or freed twice: in every state a
    core reaches, whatever the device delivers and accepts, the allocated
    buffers are exactly those of the slots of its tables and of the burst in
    progress, each in one slot, and neither sending nor receiving frees or
    transmits a buffer that is not allocated. *)
Theorem buffers_accounted fuel n o s :
  rtc (io_step fuel) (None, io_start n) (o, s) ->
  (forall m, is_Some (heap s !! m) <-> exists x, slot o s x = Some m) /\
  (forall x y m, slot o s x = Some m -> slot o s y = Some m -> x = y) /\
  (forall p, send_pkts p s <> Fault Bad_link) /\ (o = None -> forall p, recv_pkts p s <> Fault Bad_link).
Proof.
  intros Hr. assert (io_ok o s) as Hok.
  { exact (io_steps_ok fuel _ _ Hr (io_start_ok n)). }
  split; [apply Hok|]. split; [apply Hok|]. split.
  - intros p E. destruct (wmbufs s !! p) as [t|] eqn:Ht.
    + pose proof (send_run o s p t Hok Ht) as Hs. by rewrite E in Hs.
    + unfold send_pkts, port_table in E. rewrite bind_assoc in E. rewrite (bind_ret mget _ s s s) in E by done.
      by rewrite Ht in E.
  - intros -> p E. destruct (rmbufs s !! p) as [t|] eqn:Ht.
    + destruct (recv_run s p t Hok Ht) as (s' & E' & _). by rewrite E in E'.
    + unfold recv_pkts, port_table in E. rewrite bind_assoc in E. rewrite (bind_ret mget _ s s s) in E by done.
      by rewrite Ht in E.
Qed.
End owners.

(** ** Examples *)

(** A device that delivers one packet per burst and accepts up to [tx]. *)
Definition device (tx : nat) : Dpdk :=
  {| rx_burst _ := [mk_mbuf 60 [1; 2; 3] false 0 false]; tx_burst _ := tx; alloc_ok _ := true |}.

Lemma packets_sent_in_order_witness :
  exists m s1 t1, @get_wptr (device 32) 0 1 54 true 20 (io_start 2) = Ret (m, s1) /\
    let s2 := write_mbuf m [7] s1 in
    wmbufs s2 !! 1 = Some t1 /\
    queued s2 t1 = [] ++ [mk_mbuf 54 [7] true 20 (csum_bad (content (io_start 2) m))] /\
    match @send_pkts (device 32) 1 s2 with
    | Ret (n, s3) =>
        n = 1%nat /\ wire s3 = wire s2 ++ (pair 1 <$> take n (queued s2 t1)) /\
        exists t3, wmbufs s3 !! 1 = Some t3 /\ queued s3 t3 = []
    | Fault f => f = Exit_failure
    end.
Proof.
  apply (@packets_sent_in_order (device 32) None (io_start 2) 1 (mk_mbuf_table 0 (seq 64 64)) 54 true 20 [7] 0).
  - apply io_start_ok.
  - vm_compute. reflexivity.
  - apply Nat.ltb_lt. vm_compute. reflexivity.
Defined.

Definition full_port : dpdk := (io_start 1) <| wmbufs ::= insert 0 (mk_mbuf_table 64 (seq 0 64)) |>.
Lemma full_port_ok : io_ok None full_port.
Proof.
  eapply io_ok_same; [apply (io_start_ok 1)|done|done| | |done].
  - intros p t. simpl. intros [[<- <-]|[_ Hp]]%lookup_insert_Some; [done|by apply (io_w _ _ (io_start_ok 1) p)].
  - intros p i. simpl. destruct (decide (p = 0)) as [->|]; [|by rewrite lookup_insert_ne]. by rewrite lookup_insert_eq.
Qed.
Lemma full_queue_hangs_witness :
  io_ok None full_port /\ forall fuel m s', @get_wptr (device 0) fuel 0 54 true 20 full_port <> Ret (m, s').
Proof.
  split; [apply full_port_ok|]. apply (@full_queue_hangs (device 0) None full_port 0 (mk_mbuf_table 64 (seq 0 64)));
    [apply full_port_ok|reflexivity..].
Defined.

(** One burst on port 0, its packet forwarded to port 1. *)
Definition after {A} (m : ioM A) (s : dpdk) : dpdk := match m s with Ret (_, s') => s' | Fault _ => s end.
Definition io1 : dpdk := after (@recv_pkts (device 32) 0) (io_start 2).
Definition io2 : dpdk := after (get_rptr 0 0) io1.
Definition io3 : dpdk := after (@get_wptr (device 32) 9 1 60 false 0) io2.
Definition io4 : dpdk := after (@send_pkts (device 32) 1) io3.
Lemma after_run {A} (m : ioM A) s : match m s with Ret _ => true | Fault _ => false end = true ->
  exists a, m s = Ret (a, after m s).
Proof. unfold after. destruct (m s) as [[a s']|]; [by exists a|done]. Qed.
Lemma forwarded_reached : rtc (@io_step (device 32) 9) (None, io_start 2) (None, io4).
Proof.
  destruct (after_run (@recv_pkts (device 32) 0) (io_start 2)) as [a1 E1]; [vm_compute; reflexivity|].
  destruct (after_run (get_rptr 0 0) io1) as [a2 E2]; [vm_compute; reflexivity|].
  destruct (after_run (@get_wptr (device 32) 9 1 60 false 0) io2) as [a3 E3]; [vm_compute; reflexivity|].
  destruct (after_run (@send_pkts (device 32) 1) io3) as [a4 E4]; [vm_compute; reflexivity|].
  eapply rtc_l; [by eapply io_recv|]. fold io1.
  destruct (rmbufs io1 !! 0) as [t|] eqn:Ht; [|by vm_compute in Ht].
  assert (mt_len t = 1%nat) as Hl by (vm_compute in Ht; by injection Ht as <-).
  eapply rtc_l; [eapply (io_read 9 0 0 t); [exact Ht|rewrite Hl; lia|exact E2]|]. fold io2.
  eapply rtc_l; [by eapply io_queue|]. fold io3.
  eapply rtc_l; [by eapply io_send|]. fold io4.
  assert (exists t', rmbufs io4 !! 0 = Some t' /\ mt_len t' = 1%nat) as (t' & Ht' & Hl').
  { destruct (rmbufs io4 !! 0) as [t'|] eqn:E; [|by vm_compute in E]. exists t'. split; [done|].
    vm_compute in E. by injection E as <-. }
  rewrite <-Hl'. apply rtc_once. by apply io_done.
Qed.
Lemma buffers_accounted_witness :
  (forall m, is_Some (heap io4 !! m) <-> exists x, slot None io4 x = Some m) /\
  (forall x y m, slot None io4 x = Some m -> slot None io4 y = Some m -> x = y) /\
  (forall p, @send_pkts (device 32) p io4 <> Fault Bad_link) /\
  (@None (Z * nat) = None -> forall p, @recv_pkts (device 32) p io4 <> Fault Bad_link).
Proof. apply (@buffers_accounted (device 32) 9 2 None io4). exact forwarded_reached. Defined.
