(* ===== verification/KeySchedule.v ===== *)
(** * The TLS 1.3 key schedule (ssl.c: [handle_after_ecdhe_shared_secret_calc],
      [handle_app_keys_calculation], [handle_verify_data_calculation], and the
      MAC of [send_server_finished])

    The functions run on the HMAC context of the core and on the session's
    [tls13_ctx]. SHA-384 and HMAC-SHA-384 are OpenSSL's: a parameter with
    their documented laws. The theorems state that the secrets, keys, IVs and
    Finished MACs are those of RFC 8446, sections 4.4.4 and 7.1. *)

From Stdlib Require Import String Ascii.
From S2P Require Import Prelude Hkdf Operand ClientHello NicState.

(** The bytes of a C string literal. *)
Definition str (s : string) : bytes :=
  (fun a => Z.of_N (N_of_ascii a)) <$> list_ascii_of_string s.

Section code.
Context (ops : hmac_ops) (SHA384 : bytes -> bytes).
Abbreviation ctx := (hctx ops).

(** A function that may [return -1]: [None]. Its effects on the session and on
    the HMAC context before the return are kept. *)
Definition kd (A : Type) : Type := tls13_ctx * ctx -> option A * (tls13_ctx * ctx).
Definition kret {A} (a : A) : kd A := fun s => (Some a, s).
Definition kbind {A B} (m : kd A) (k : A -> kd B) : kd B := fun s =>
  match m s with (Some a, s') => k a s' | (None, s') => (None, s') end.
Definition kget : kd tls13_ctx := fun s => (Some s.1, s).
Definition kmod (f : tls13_ctx -> tls13_ctx) : kd unit := fun s => (Some tt, (f s.1, s.2)).

(** [if (hkdf_expand_label(..., out, len, ...) == 0) return -1], writing to the
    first [len] bytes of [arr]. One block is enough for [len] up to 48. *)
Definition expand_label_into (arr : bytes) (len : nat) (secret label cx : bytes) : kd bytes :=
  fun '(t, c) =>
    match hkdf_expand_label ops 255 c (take len arr) len (take 48 secret) label cx with
    | Ret (Returned rc o c') =>
        if rc =? 0 then (None, (t, c')) else (Some (wr arr 0 o), (t, c'))
    | _ => (None, (t, c))
    end.
(** [if (hkdf_extract(..., out, 48, ...) == 0) return -1]. *)
Definition extract_into (arr : bytes) (salt key : bytes) : kd bytes :=
  fun '(t, c) =>
    match hkdf_extract ops c (take 48 arr) salt key with
    | Returned rc o c' => if rc =? 0 then (None, (t, c')) else (Some (wr arr 0 o), (t, c'))
    | Out_of_fuel => (None, (t, c))
    end.

Declare Scope kd_scope.
Notation "'let*' x := m 'in' k" := (kbind m (fun x => k))
  (at level 10, x name, k at level 200) : kd_scope.
Open Scope kd_scope.

(** The handshake secrets; [local] is the content of the function's
    uninitialised arrays. *)
Definition derive_handshake_keys (local handshake_msgs shared_secret : bytes) : kd unit :=
  let hello_hash := SHA384 handshake_msgs in
  let* early_secret := extract_into local (zeros 48) (zeros 48) in
  let empty_hash := SHA384 [] in
  let* derived := expand_label_into local 48 early_secret (str "derived") empty_hash in
  let* t := kget in
  let* hs := extract_into (handshake_secret t) (take 48 derived) shared_secret in
  let* _ := kmod (fun t => t <| handshake_secret := hs |>) in
  let* cs := expand_label_into (client_secret t) 48 hs (str "c hs traffic") hello_hash in
  let* _ := kmod (fun t => t <| client_secret := cs |>) in
  let* ss := expand_label_into (server_secret t) 48 hs (str "s hs traffic") hello_hash in
  let* _ := kmod (fun t => t <| server_secret := ss |>) in
  let* ck := expand_label_into (client_handshake_key t) 32 cs (str "key") [] in
  let* _ := kmod (fun t => t <| client_handshake_key := ck |>) in
  let* sk := expand_label_into (server_handshake_key t) 32 ss (str "key") [] in
  let* _ := kmod (fun t => t <| server_handshake_key := sk |>) in
  let* ci := expand_label_into (client_handshake_iv t) 12 cs (str "iv") [] in
  let* _ := kmod (fun t => t <| client_handshake_iv := ci |>) in
  let* si := expand_label_into (server_handshake_iv t) 12 ss (str "iv") [] in
  kmod (fun t => t <| server_handshake_iv := si |>).

(** [handle_after_ecdhe_shared_secret_calc]: the shared secret is copied out of
    the PKA result and reversed; keys are derived for the one TLS 1.3 suite. *)
Definition handle_after_ecdhe_shared_secret_calc (cipher : Z * Z) (local stack : bytes)
    (handshake_msgs : bytes) (result0 : pka_operand) : res (kd unit) :=
  res_bind (operand_to_string result0 stack 32) (fun be =>
  res_bind (byte_swap_copy (zeros 32) be 32) (fun shared_secret =>
  Ret (let* _ := (if decide (cipher = TLS_AES_256_GCM_SHA384)
                  then derive_handshake_keys local handshake_msgs shared_secret
                  else kret tt) in
       kmod (fun t => t <| handshake_key_calculated := true |>)))).

(** [handle_app_keys_calculation]. *)
Definition handle_app_keys_calculation (cipher : Z * Z) (local handshake_msgs : bytes) : kd unit :=
  if decide (cipher = TLS_AES_256_GCM_SHA384) then
    let empty_hash := SHA384 [] in
    let handshake_hash := SHA384 handshake_msgs in
    let* t := kget in
    let* derived := expand_label_into local 48 (handshake_secret t) (str "derived") empty_hash in
    let* master := extract_into local (take 48 derived) (zeros 48) in
    let* ca := expand_label_into local 48 master (str "c ap traffic") handshake_hash in
    let* sa := expand_label_into local 48 master (str "s ap traffic") handshake_hash in
    let* ck := expand_label_into (client_application_key t) 32 ca (str "key") [] in
    let* _ := kmod (fun t => t <| client_application_key := ck |>) in
    let* sk := expand_label_into (server_application_key t) 32 sa (str "key") [] in
    let* _ := kmod (fun t => t <| server_application_key := sk |>) in
    let* ci := expand_label_into (client_application_iv t) 12 ca (str "iv") [] in
    let* _ := kmod (fun t => t <| client_application_iv := ci |>) in
    let* si := expand_label_into (server_application_iv t) 12 sa (str "iv") [] in
    kmod (fun t => t <| server_application_iv := si |>)
  else kret tt.

(** [HMAC_Init_ex], [HMAC_Update], [HMAC_Final] with their return values
    ignored; [None] when nothing was written to [out]. *)
Definition hmac_unchecked (c : ctx) (key data : bytes) : option bytes * ctx :=
  let c1 := default c (HMAC_Init_ex ops c key) in
  let c2 := default c1 (HMAC_Update ops c1 data) in
  match HMAC_Final ops c2 with
  | Some (d, c3) => (Some d, c3)
  | None => (None, c2)
  end.

(** The Finished MAC under a traffic secret, common to [send_server_finished]
    and [handle_verify_data_calculation]; a failed expansion exits. *)
Definition finished_mac (secret handshake_msgs out : bytes) (c : ctx) : res (bytes * ctx) :=
  match hkdf_expand_label ops 255 c (zeros 48) 48 (take 48 secret) (str "finished") [] with
  | Ret (Returned rc finished_key c1) =>
      if rc =? 0 then Fault Exit_failure else
      let finished_hash := SHA384 handshake_msgs in
      let '(d, c2) := hmac_unchecked c1 finished_key finished_hash in
      Ret (match d with Some d => wr out 0 d | None => out end, c2)
  | _ => Fault Exit_failure
  end.

(** [handle_verify_data_calculation]: what the client's Finished must hold. *)
Definition handle_verify_data_calculation (handshake_msgs : bytes) (t : tls13_ctx) (c : ctx)
    : res (tls13_ctx * ctx) :=
  res_bind (finished_mac (client_secret t) handshake_msgs (calculated_vd t) c)
    (fun '(vd, c') => Ret (t <| calculated_vd := vd |>, c')).
End code.

(** ** RFC 8446 *)
Section rfc.
Context (hmac : bytes -> bytes -> bytes) (Hash : bytes -> bytes).
Definition ExpandLabel (secret label cx : bytes) (len : nat) : bytes :=
  rfc8446_expand_label hmac 48 secret label cx len.
Definition DeriveSecret (secret label msgs : bytes) : bytes :=
  ExpandLabel secret label (Hash msgs) 48.
Definition Extract (salt ikm : bytes) : bytes := hmac salt ikm.

Definition EarlySecret : bytes := Extract (zeros 48) (zeros 48).
Definition HandshakeSecret (ecdhe : bytes) : bytes :=
  Extract (DeriveSecret EarlySecret (str "derived") []) ecdhe.
Definition MasterSecret (hs : bytes) : bytes :=
  Extract (DeriveSecret hs (str "derived") []) (zeros 48).
Definition traffic_key (secret : bytes) : bytes := ExpandLabel secret (str "key") [] 32.
Definition traffic_iv (secret : bytes) : bytes := ExpandLabel secret (str "iv") [] 12.
Definition Finished_verify_data (secret msgs : bytes) : bytes :=
  hmac (ExpandLabel secret (str "finished") [] 48) (Hash msgs).
End rfc.

(** ** Proofs *)
Section proofs.
Context (ops : hmac_ops) (hmac : bytes -> bytes -> bytes)
  (keyed : hctx ops -> bytes -> bytes -> Prop) {L : HmacLaws ops hmac keyed}
  (SHA384 : bytes -> bytes).
Context (md48 : md_size ops = 48%nat) (sha_len : forall m, length (SHA384 m) = 48%nat).

(** The key arrays of a session have room for every secret. *)
Definition room (arr : bytes) : Prop := (48 <= length arr)%nat.

(** [wr arr 0 o] for an output of [n] bytes. *)
Lemma take_wr0 n (arr o : bytes) : length o = n -> take n (wr arr 0 o) = o.
Proof. intros Hn. unfold wr. simpl. by apply take_app_length'. Qed.

Lemma expand_label_into_spec arr len secret label cx t c :
  (len <= 48)%nat -> room arr -> (length label <= 249)%nat -> (length cx <= 255)%nat ->
  exists o c', expand_label_into ops arr len secret label cx (t, c) = (Some o, (t, c')) /\
    take len o = ExpandLabel hmac (take 48 secret) label cx len /\ room o.
Proof.
  intros Hl Ha Hlab Hcx. unfold room in Ha. unfold expand_label_into.
  destruct (expand_label_spec ops hmac keyed c (take len arr) len (take 48 secret) label cx 255)
    as [c' E]; [len|lia|lia|done|done|lia|].
  rewrite E. simpl. eexists _, c'. split; [done|]. unfold ExpandLabel. rewrite <-md48.
  pose proof (length_expand_label ops hmac keyed (take 48 secret) label cx len) as Hlen. rewrite !md48 in *. split.
  - by apply take_wr0.
  - unfold room. rewrite length_wr; [done|]. lia.
Qed.

Lemma extract_into_spec arr salt key t c :
  room arr ->
  exists o c', extract_into ops arr salt key (t, c) = (Some o, (t, c')) /\
    take 48 o = Extract hmac salt key /\ room o.
Proof.
  intros Ha. unfold room in Ha. unfold extract_into.
  destruct (hkdf_extract_spec ops hmac keyed c (take 48 arr) salt key) as [c' E]; [rewrite md48; len|].
  rewrite E. simpl. eexists _, c'. split; [done|].
  pose proof (hmac_length salt key) as Hlen. rewrite md48 in Hlen. split.
  - by apply take_wr0.
  - unfold room. rewrite length_wr; [done|]. lia.
Qed.

Lemma kbind_run {A B} (m : kd ops A) (k : A -> kd ops B) s a s' :
  m s = (Some a, s') -> kbind ops m k s = k a s'.
Proof. intros E. unfold kbind. by rewrite E. Qed.

Lemma kbind_get {B} (k : tls13_ctx -> kd ops B) t c : kbind ops (kget ops) k (t, c) = k t (t, c).
Proof. done. Qed.
Lemma kbind_mod {B} f (k : unit -> kd ops B) t c : kbind ops (kmod ops f) k (t, c) = k tt (f t, c).
Proof. done. Qed.

(** The arrays of a [tls13_ctx] have their C size. *)
Record tls13_ok (t : tls13_ctx) : Prop := mk_tls13_ok {
  ok_hs : room (handshake_secret t);
  ok_cs : room (client_secret t);
  ok_ss : room (server_secret t);
  ok_chk : room (client_handshake_key t);
  ok_shk : room (server_handshake_key t);
  ok_chi : room (client_handshake_iv t);
  ok_shi : room (server_handshake_iv t);
  ok_cak : room (client_application_key t);
  ok_sak : room (server_application_key t);
  ok_cai : room (client_application_iv t);
  ok_sai : room (server_application_iv t);
}.

(** Run one call of the schedule and name its output. *)
Ltac run_expand o E :=
  match goal with
  | |- context [kbind _ (expand_label_into _ ?arr ?len ?sec ?lab ?cx) _ (?t, ?c)] =>
      let c' := fresh "c" in let H := fresh "R" in
      destruct (expand_label_into_spec arr len sec lab cx t c) as (o & c' & H & E & ?);
        [lia|assumption|vm_compute; lia|rewrite ?sha_len; simpl; lia|];
      rewrite (kbind_run _ _ _ _ _ H); clear H
  end.
Ltac run_extract o E :=
  match goal with
  | |- context [kbind _ (extract_into _ ?arr ?salt ?key) _ (?t, ?c)] =>
      let c' := fresh "c" in let H := fresh "R" in
      destruct (extract_into_spec arr salt key t c) as (o & c' & H & E & ?); [assumption|];
      rewrite (kbind_run _ _ _ _ _ H); clear H
  end.
Ltac run_mod := first [rewrite kbind_get | rewrite kbind_mod].

Lemma derive_handshake_keys_spec local msgs ecdhe t c :
  tls13_ok t -> room local ->
  exists t' c', derive_handshake_keys ops SHA384 local msgs ecdhe (t, c) = (Some tt, (t', c')) /\
    let HS := HandshakeSecret hmac SHA384 ecdhe in
    let C := DeriveSecret hmac SHA384 HS (str "c hs traffic") msgs in
    let S := DeriveSecret hmac SHA384 HS (str "s hs traffic") msgs in
    take 48 (handshake_secret t') = HS /\ take 48 (client_secret t') = C /\
    take 48 (server_secret t') = S /\
    take 32 (client_handshake_key t') = traffic_key hmac C /\
    take 32 (server_handshake_key t') = traffic_key hmac S /\
    take 12 (client_handshake_iv t') = traffic_iv hmac C /\
    take 12 (server_handshake_iv t') = traffic_iv hmac S /\ tls13_ok t'.
Proof.
  intros [] Hloc. unfold derive_handshake_keys. cbv zeta.
  run_extract es Ees. run_expand dv Edv. run_mod. run_extract hs Ehs. run_mod.
  run_expand cs Ecs. run_mod. run_expand ss Ess. run_mod. run_expand ck Eck. run_mod.
  run_expand sk Esk. run_mod. run_expand ci Eci. run_mod. run_expand si Esi.
  eexists _, _. split; [reflexivity|]. simpl. rewrite Ees in Edv. rewrite Edv in Ehs.
  rewrite Ehs in Ecs, Ess. rewrite Ecs in Eck, Eci. rewrite Ess in Esk, Esi.
  rewrite Ehs, Ecs, Ess, Eck, Esk, Eci, Esi. repeat (split; [reflexivity|]). by split.
Qed.

(** C11: once the accelerator has returned the 32 bytes of the X25519 shared
    secret, the handshake secret, the two handshake traffic secrets and their
    keys and IVs are those of RFC 8446, section 7.1, for the transcript up to
    the ServerHello, with the shared secret in its little-endian form. *)
Theorem handshake_keys_rfc8446 local stack msgs op t c :
  tls13_ok t -> room local -> operand_ok op -> actual_len op = 32 -> length stack = 32%nat ->
  exists m t' c',
    handle_after_ecdhe_shared_secret_calc ops SHA384 TLS_AES_256_GCM_SHA384 local stack msgs op = Ret m /\
    m (t, c) = (Some tt, (t', c')) /\ handshake_key_calculated t' = true /\
    let HS := HandshakeSecret hmac SHA384 (le_bytes 32 (operand_val op)) in
    let C := DeriveSecret hmac SHA384 HS (str "c hs traffic") msgs in
    let S := DeriveSecret hmac SHA384 HS (str "s hs traffic") msgs in
    take 48 (handshake_secret t') = HS /\ take 48 (client_secret t') = C /\
    take 48 (server_secret t') = S /\
    take 32 (client_handshake_key t') = traffic_key hmac C /\
    take 32 (server_handshake_key t') = traffic_key hmac S /\
    take 12 (client_handshake_iv t') = traffic_iv hmac C /\
    take 12 (server_handshake_iv t') = traffic_iv hmac S.
Proof.
  intros Ht Hloc Hok Ha Hs. unfold handle_after_ecdhe_shared_secret_calc.
  rewrite operand_to_string_spec by (done || lia). cbn [res_bind]. rewrite Ha.
  change (Z.to_nat 32) with 32%nat. pose proof (length_digits op Hok) as Hl. rewrite Ha in Hl.
  change (Z.to_nat 32) with 32%nat in Hl. rewrite drop_ge, app_nil_r by lia.
  rewrite byte_swap_copy_spec by len. change (Z.to_nat 32) with 32%nat.
  rewrite (firstn_all2 (digits op)), drop_ge, app_nil_r by len. cbn [res_bind].
  assert (reverse (digits op) = le_bytes 32 (operand_val op)) as ->
    by (unfold operand_val; by rewrite le_bytes_be_val by auto using digits_ok).
  destruct (derive_handshake_keys_spec local msgs (le_bytes 32 (operand_val op)) t c Ht Hloc)
    as (t' & c' & E & H). eexists _, _, c'. split; [reflexivity|]. rewrite decide_True by done.
  rewrite (kbind_run _ _ _ _ _ E). split; [reflexivity|]. split; [reflexivity|].
  destruct H as (H1 & H2 & H3 & H4 & H5 & H6 & H7 & _). split_and!; assumption.
Qed.

(** C12: the application keys and IVs given to the host are those of RFC 8446,
    section 7.1, derived from the master secret and the transcript the session
    holds. *)
Theorem application_keys_rfc8446 local msgs t c :
  tls13_ok t -> room local ->
  exists t' c',
    handle_app_keys_calculation ops SHA384 TLS_AES_256_GCM_SHA384 local msgs (t, c)
      = (Some tt, (t', c')) /\
    let MS := MasterSecret hmac SHA384 (take 48 (handshake_secret t)) in
    let C := DeriveSecret hmac SHA384 MS (str "c ap traffic") msgs in
    let S := DeriveSecret hmac SHA384 MS (str "s ap traffic") msgs in
    take 32 (client_application_key t') = traffic_key hmac C /\
    take 32 (server_application_key t') = traffic_key hmac S /\
    take 12 (client_application_iv t') = traffic_iv hmac C /\
    take 12 (server_application_iv t') = traffic_iv hmac S.
Proof.
  intros [] Hloc. unfold handle_app_keys_calculation. rewrite decide_True by done. cbv zeta.
  run_mod. run_expand dv Edv. run_extract ms Ems. run_expand ca Eca. run_expand sa Esa.
  run_expand ck Eck. run_mod. run_expand sk Esk. run_mod. run_expand ci Eci. run_mod.
  run_expand si Esi. eexists _, _. split; [reflexivity|]. simpl.
  rewrite Edv in Ems. rewrite Ems in Eca, Esa. rewrite Eca in Eck, Eci. rewrite Esa in Esk, Esi.
  rewrite Eck, Esk, Eci, Esi. repeat (split; [reflexivity|]). reflexivity.
Qed.

Lemma hmac_unchecked_spec c key data : exists c', hmac_unchecked ops c key data = (Some (hmac key data), c').
Proof.
  unfold hmac_unchecked. destruct (hmac_init c key) as (c1 & -> & K1). simpl.
  destruct (hmac_update _ _ _ data K1) as (c2 & -> & K2). simpl.
  destruct (hmac_final _ _ _ K2) as (c3 & d & -> & _). by exists c3.
Qed.

Lemma finished_mac_spec secret msgs out c :
  length out = 48%nat ->
  exists c', finished_mac ops SHA384 secret msgs out c
             = Ret (Finished_verify_data hmac SHA384 (take 48 secret) msgs, c').
Proof.
  intros Ho. unfold finished_mac.
  destruct (expand_label_spec ops hmac keyed c (zeros 48) 48 (take 48 secret) (str "finished") [] 255)
    as [c1 E]; [len|lia|lia|vm_compute; lia|simpl; lia|lia|].
  rewrite E. cbn [Z.eqb]. rewrite md48.
  destruct (hmac_unchecked_spec c1 (rfc8446_expand_label hmac 48 (take 48 secret) (str "finished") [] 48)
              (SHA384 msgs)) as [c2 ->]. exists c2. do 2 f_equal.
  unfold wr. simpl. rewrite drop_ge, app_nil_r; [done|]. rewrite hmac_length. lia.
Qed.

(** C13: the verify data expected from the client, and the one the server sends
    under its own traffic secret, are the Finished MACs of RFC 8446, section
    4.4.4, over the transcript. *)
Theorem verify_data_rfc8446 msgs t c :
  length (calculated_vd t) = 48%nat ->
  exists t' c', handle_verify_data_calculation ops SHA384 msgs t c = Ret (t', c') /\
    calculated_vd t' = Finished_verify_data hmac SHA384 (take 48 (client_secret t)) msgs /\
    exists c'', finished_mac ops SHA384 (server_secret t) msgs (zeros 48) c'
      = Ret (Finished_verify_data hmac SHA384 (take 48 (server_secret t)) msgs, c'').
Proof.
  intros Hv. unfold handle_verify_data_calculation.
  destruct (finished_mac_spec (client_secret t) msgs (calculated_vd t) c Hv) as [c' ->].
  eexists _, c'. split; [reflexivity|]. split; [reflexivity|].
  apply finished_mac_spec. apply length_zeros.
Qed.
End proofs.

(** ** Witnesses: a 48-byte stand-in for HMAC-SHA-384 *)
Definition toy48 (k d : bytes) : bytes :=
  replicate 48 (u8 (foldr Z.add 7 k + 3 * foldr Z.add 1 d)).
Definition toy48_ops : hmac_ops :=
  mk_hmac_ops (bytes * bytes) (fun _ k => Some (k, [])) (fun c => Some (c.1, []))
    (fun c x => Some (c.1, c.2 ++ x)) (fun c => Some (toy48 c.1 c.2, c)) (fun c => c) 48.
#[export] Instance toy48_laws : HmacLaws toy48_ops toy48 (fun c k d => c = (k, d)).
Proof. split; simpl; intros; subst; simpl; eauto with lia. Qed.
Definition toy_sha (m : bytes) : bytes := replicate 48 (u8 (foldr Z.add 11 m)).
Lemma toy_sha_len m : length (toy_sha m) = 48%nat.
Proof. apply length_replicate. Qed.
Lemma tls13_ctx0_ok : tls13_ok tls13_ctx0.
Proof. split; unfold room; apply Nat.leb_le; reflexivity. Qed.

Definition toy_result : pka_operand := mk_operand (replicate 32 5) 32 32 0 false.

Lemma handshake_keys_rfc8446_witness :
  exists m t' c',
    handle_after_ecdhe_shared_secret_calc toy48_ops toy_sha TLS_AES_256_GCM_SHA384 (zeros 256)
      (zeros 32) [1; 2; 3] toy_result = Ret m /\
    m (tls13_ctx0, ([], [])) = (Some tt, (t', c')) /\ handshake_key_calculated t' = true /\
    take 48 (handshake_secret t')
      = HandshakeSecret toy48 toy_sha (le_bytes 32 (operand_val toy_result)).
Proof.
  destruct (handshake_keys_rfc8446 toy48_ops toy48 (fun c k d => c = (k, d)) toy_sha eq_refl toy_sha_len
              (zeros 256) (zeros 32) [1; 2; 3] toy_result tls13_ctx0 ([], []))
    as (m & t' & c' & E & R & K & H & _).
  - exact tls13_ctx0_ok.
  - unfold room. apply Nat.leb_le. reflexivity.
  - split; [apply Forall_replicate; unfold is_u8; lia|simpl; lia].
  - reflexivity.
  - reflexivity.
  - exists m, t', c'. exact (conj E (conj R (conj K H))).
Defined.

Lemma application_keys_rfc8446_witness :
  exists t' c',
    handle_app_keys_calculation toy48_ops toy_sha TLS_AES_256_GCM_SHA384 (zeros 256) [1; 2; 3]
      (tls13_ctx0, ([], [])) = (Some tt, (t', c')) /\
    take 32 (client_application_key t')
    = traffic_key toy48 (DeriveSecret toy48 toy_sha (MasterSecret toy48 toy_sha (zeros 48))
                           (str "c ap traffic") [1; 2; 3]).
Proof.
  destruct (application_keys_rfc8446 toy48_ops toy48 (fun c k d => c = (k, d)) toy_sha eq_refl toy_sha_len
              (zeros 256) [1; 2; 3] tls13_ctx0 ([], [])) as (t' & c' & E & H & _).
  - exact tls13_ctx0_ok.
  - unfold room. apply Nat.leb_le. reflexivity.
  - exists t', c'. exact (conj E H).
Defined.

Lemma verify_data_rfc8446_witness :
  exists t' c', handle_verify_data_calculation toy48_ops toy_sha [4] tls13_ctx0 ([], []) = Ret (t', c') /\
    calculated_vd t' = Finished_verify_data toy48 toy_sha (zeros 48) [4].
Proof.
  destruct (verify_data_rfc8446 toy48_ops toy48 (fun c k d => c = (k, d)) toy_sha eq_refl
              [4] tls13_ctx0 ([], [])) as (t' & c' & E & H & _).
  - reflexivity.
  - exists t', c'. exact (conj E H).
Defined.
