(* ===== verification/PkaBench.v ===== *)
(** * The measuring workers (benchmark_example/src/pka_benchmark.c)

    Each thread of the benchmark keeps up to [outstanding_cmd_num] commands in
    the accelerator until [cmd_cnt_per_thread] have been answered. [Module
    Loop] shows for every worker at once that this loop ends; the workers for
    P-256, X25519, ECDSA and RSA, which wait for one result at a time, and the
    one for TLS 1.3, which drains the results, are instances. *)

From Stdlib Require Import String.
From S2P Require Import Prelude Operand Bignum BignumEcc SyncPka HexString KeySchedule.

(** ** Commands and results of the accelerator *)

Record mont_curve := mk_mont { mont_p : pka_operand; mont_A : pka_operand }.

Inductive pka_command : Type :=
| Modular_exp (exponent modulus value : pka_operand)
| Modular_exp_crt (value p q d_p d_q qinv : pka_operand)
| Pt_mult (curve : ecc_curve) (point : ecc_point) (multiplier : pka_operand)
| Mont_mult (curve : mont_curve) (point multiplier : pka_operand)
| Ecdsa_generate (curve : ecc_curve) (base_pt : ecc_point) (base_pt_order private_key hash k : pka_operand).

Inductive pka_opcode : Type :=
| CC_MODULAR_EXP | CC_MOD_EXP_CRT | CC_ECC_PT_MULTIPLY | CC_MONT_ECDH_MULTIPLY | CC_ECDSA_GENERATE.
Definition opcode_of (c : pka_command) : pka_opcode :=
  match c with
  | Modular_exp _ _ _ => CC_MODULAR_EXP
  | Modular_exp_crt _ _ _ _ _ _ => CC_MOD_EXP_CRT
  | Pt_mult _ _ _ => CC_ECC_PT_MULTIPLY
  | Mont_mult _ _ _ => CC_MONT_ECDH_MULTIPLY
  | Ecdsa_generate _ _ _ _ _ _ => CC_ECDSA_GENERATE
  end.

(** [pka_results_t]; the pointer a command carries is [NULL] or the index of
    an element of the worker's array [user_data]. *)
Record pka_result := mk_result {
  status : Z;
  opcode : pka_opcode;
  data_ptr : option Z;
  results : list pka_operand;
}.

(** The PKA library and the accelerator behind it: a command is accepted or
    refused with a negative code; a poll has a result or not. *)
Class Accelerator := {
  hw : Type;
  hw_submit : option Z -> pka_command -> hw -> Z * hw;
  hw_result : hw -> option pka_result * hw;
}.

(** Documented behaviour. What was accepted is in flight until a poll answers
    it, in any order, with what the command computes; up to [capacity]
    commands fit; while something is in flight, only finitely many polls
    ([delay]) have no result. *)
Class AccelLaws `{Accelerator} := {
  in_flight : hw -> list (option Z * pka_command);
  history : hw -> list (option Z * pka_command);
  delay : hw -> nat;
  capacity : Z;
  valid : pka_command -> Prop;
  compute : pka_command -> Z * list pka_operand;
  submit_law p c d :
    Z.of_nat (length (in_flight d)) < capacity -> valid c ->
    exists rc d', hw_submit p c d = (rc, d') /\ 0 <= rc /\
      in_flight d' ≡ₚ (p, c) :: in_flight d /\ history d' = history d ++ [(p, c)];
  result_law d :
    let '(r, d') := hw_result d in
    history d' = history d /\
    match r with
    | Some r => exists p c, in_flight d ≡ₚ (p, c) :: in_flight d' /\
        r = mk_result (fst (compute c)) (opcode_of c) p (snd (compute c))
    | None => in_flight d' ≡ₚ in_flight d /\ (in_flight d <> [] -> (delay d' < delay d)%nat)
    end;
}.

(** ** The workers *)

(** [tls13_op_cnt_t]. *)
Record tls13_op_cnt_t := mk_op_cnt { ecdsa_done : Z; ecdh_done : Z }.

Section bench.
Context `{Accelerator}.

(** The local variables of a worker and the globals it changes; the last six
    are used by the TLS 1.3 worker only. *)
Record bench := mk_bench {
  accel : hw;
  cnt : Z;
  cur_command_cnt : Z;
  user_data : list Z;
  cmd_cnt : list Z;
  priv_x25519_0 : list (option pka_operand);
  draws : nat;
  memcpy_results : list (list pka_operand);
  tls13_op_cnt : list tls13_op_cnt_t;
  pka_get_result_fail_cnt : Z;
  pka_get_result_success_cnt : Z;
}.

(** The options, the identity of the thread, and whether the build compares
    results with the expected ones. *)
Context (outstanding_cmd_num max_cmd_cnt : Z) (worker_id : nat) (CHECK_CORRECTNESS : bool).

Definition lib {A} (f : hw -> A * hw) : M bench A := fun s =>
  let '(a, d) := f (accel s) in Ret (a, s <| accel := d |>).

(** The pointer stored at an index of a global array. *)
Definition elem {A} (l : list (option A)) (i : Z) : M bench A :=
  if 0 <=? i then match l !! Z.to_nat i with Some p => mderef p | None => mfault Out_of_bounds end
  else mfault Out_of_bounds.

Definition mod_int (a b : Z) : M bench Z := if b =? 0 then mfault Undefined_value else ret (Z.rem a b).

(** One turn of the inner loop: a command is sent, and [exit(0)] ends the
    process (like [exit(EXIT_FAILURE)] in the model) when it is refused. The
    status is negative or the loop goes on, so the message for FAILURE after
    the loop is never printed. *)
Definition submit_one (send : Z -> M bench Z) : M bench unit :=
  do s <- mget;
  do idx <- mod_int (cnt s) outstanding_cmd_num;
  do pka_status <- send idx;
  if pka_status <? 0 then mexit else
  mmod (fun s => s <| cnt ::= Z.succ |> <| cur_command_cnt ::= Z.succ |>).

Fixpoint submit_loop (send : Z -> M bench Z) (fuel : nat) : M bench unit :=
  match fuel with
  | O => mfault Out_of_fuel
  | S fuel' =>
      do s <- mget;
      if (cnt s <? max_cmd_cnt) && (cur_command_cnt s <? outstanding_cmd_num)
      then submit_one send ;;; submit_loop send fuel'
      else ret tt
  end.

(** The outer loop; a [turn] takes the results. The inner loop sends at most
    [outstanding_cmd_num] commands. *)
Fixpoint bench_loop (send : Z -> M bench Z) (turn : M bench unit) (fuel : nat) : M bench unit :=
  match fuel with
  | O => mfault Out_of_fuel
  | S fuel' =>
      do s <- mget;
      if (cnt s <? max_cmd_cnt) || (0 <? cur_command_cnt s)
      then submit_loop send (S (Z.to_nat outstanding_cmd_num)) ;;; turn ;;; bench_loop send turn fuel'
      else ret tt
  end.

(** One poll, as the four workers for single operations do it: a failed
    operation counts as done. *)
Definition one_done : M bench unit :=
  mmod (fun s => s <| cur_command_cnt ::= Z.pred |>
                   <| cmd_cnt ::= alter (fun c => u64 (c + 1)) worker_id |>).
Definition poll_once (check : pka_result -> M bench unit) : M bench unit :=
  do r <- lib hw_result;
  match r with
  | None => ret tt
  | Some r =>
      if negb (status r =? 0) then one_done
      else (if CHECK_CORRECTNESS then check r else ret tt) ;;; one_done
  end.

(** *** Comparing results *)

(** [memcmp(a, b, n) != 0]. *)
Definition memcmp_ne (a b : bytes) (n : Z) : res bool :=
  if (n <=? Z.of_nat (length a)) && (n <=? Z.of_nat (length b))
  then Ret (negb (bool_decide (take (Z.to_nat n) a = take (Z.to_nat n) b)))
  else Fault Out_of_bounds.

Definition answer_idx (r : pka_result) : M bench Z :=
  do p <- mderef (data_ptr r);
  do s <- mget;
  mres (ld (user_data s) p).

(** The two ways the results are compared: with the length or without. *)
Definition check_sized (result expected : pka_operand) : M bench unit :=
  if negb (actual_len result =? actual_len expected) then mexit else
  do ne <- mres (memcmp_ne (buf_ptr result) (buf_ptr expected) (actual_len expected));
  if ne then mexit else ret tt.
Definition check_bytes (result expected : pka_operand) : M bench unit :=
  do ne <- mres (memcmp_ne (buf_ptr result) (buf_ptr expected) (actual_len expected));
  if ne then mexit else ret tt.

(** *** P-256 *)
Section p256.
Context (P256_curve : ecc_curve) (remote_ec_pub_key_ep : list (option ecc_point))
  (ec_priv_key : list (option pka_operand)) (remote_shared_secret_ep : list (option ecc_point)).

Definition P256_send (idx : Z) : M bench Z :=
  do q <- elem remote_ec_pub_key_ep idx;
  do k <- elem ec_priv_key idx;
  lib (hw_submit (Some idx) (Pt_mult P256_curve q k)).

Definition P256_check (r : pka_result) : M bench unit :=
  do i <- answer_idx r;
  do pt <- elem remote_shared_secret_ep i;
  do x <- mderef (results r !! 0%nat);
  check_sized x (pt_x pt) ;;;
  do y <- mderef (results r !! 1%nat);
  check_sized y (pt_y pt).

(** A worker after the second barrier: the locals are set, the loop runs. *)
Definition start (n : Z) : M bench unit :=
  mmod (fun s => s <| cnt := 0 |> <| cur_command_cnt := 0 |> <| user_data := seqZ 0 n |>).
Definition P256worker (fuel : nat) : M bench unit :=
  start outstanding_cmd_num ;;; bench_loop P256_send (poll_once P256_check) fuel.
End p256.

(** *** X25519 *)
Section x25519.
Context (X25519_curve : mont_curve)
  (remote_ec_pub_key_x25519 ec_priv_key_x25519_0 remote_shared_secret_po : list (option pka_operand)).

Definition X25519_send (idx : Z) : M bench Z :=
  do q <- elem remote_ec_pub_key_x25519 idx;
  do k <- elem ec_priv_key_x25519_0 idx;
  lib (hw_submit (Some idx) (Mont_mult X25519_curve q k)).

Definition X25519_check (r : pka_result) : M bench unit :=
  do i <- answer_idx r;
  do secret <- elem remote_shared_secret_po i;
  do x <- mderef (results r !! 0%nat);
  check_sized x secret.

Definition X25519worker (fuel : nat) : M bench unit :=
  start outstanding_cmd_num ;;; bench_loop X25519_send (poll_once X25519_check) fuel.
End x25519.

(** *** ECDSA *)
Section ecdsa.
Context (P256_curve : ecc_curve) (P256_base_pt : ecc_point) (P256_base_pt_order : pka_operand)
  (ec_priv_key hash k : list (option pka_operand)) (answer : list (option dsa_signature)).

Definition ECDSA_send (idx : Z) : M bench Z :=
  do key <- elem ec_priv_key idx;
  do h <- elem hash idx;
  do k <- elem k idx;
  lib (hw_submit (Some idx) (Ecdsa_generate P256_curve P256_base_pt P256_base_pt_order key h k)).

Definition ECDSA_check (r : pka_result) : M bench unit :=
  do i <- answer_idx r;
  do sg <- elem answer i;
  do r0 <- mderef (results r !! 0%nat);
  check_bytes r0 (sig_r sg) ;;;
  do r1 <- mderef (results r !! 1%nat);
  check_bytes r1 (sig_s sg).

Definition ECDSAworker (fuel : nat) : M bench unit :=
  start outstanding_cmd_num ;;; bench_loop ECDSA_send (poll_once ECDSA_check) fuel.
End ecdsa.

(** *** RSA *)
Section rsa.
Context (p q d_p d_q qinv rsa_encrypt_key rsa_decrypt_key rsa_modulus : option pka_operand).

Definition RSA_send (rsa_ciphertext : pka_operand) (idx : Z) : M bench Z :=
  do s <- mget;
  do data <- mres (st (user_data s) idx (cnt s));
  mmod (fun s => s <| user_data := data |>) ;;;
  match p, rsa_decrypt_key with
  | Some p, _ =>
      do q <- mderef q; do d_p <- mderef d_p; do d_q <- mderef d_q; do qinv <- mderef qinv;
      lib (hw_submit (Some idx) (Modular_exp_crt rsa_ciphertext p q d_p d_q qinv))
  | None, Some d =>
      do n <- mderef rsa_modulus;
      lib (hw_submit (Some idx) (Modular_exp d n rsa_ciphertext))
  | None, None => mexit
  end.

Definition RSA_check (msg : pka_operand) (r : pka_result) : M bench unit :=
  do m <- mderef (results r !! 0%nat);
  check_bytes m msg.

Fixpoint wait_result (fuel : nat) : M bench pka_result :=
  match fuel with
  | O => mfault Out_of_fuel
  | S fuel' =>
      do r <- lib hw_result;
      match r with Some r => ret r | None => wait_result fuel' end
  end.

(** The 48 bytes of the message, in hexadecimal. *)
Definition plaintext : bytes := str "0x112233445566778899101112131415161718192021222324252627282930313233343536373839404142434445464748" ++ [0].

(** [fresh] is the memory [malloc] gives for the message, [endian] the byte
    order the uninitialised local [msg] happens to have, [data] the contents of
    the allocated [user_data]. The message is encrypted once, then decrypted
    again and again. *)
Definition RSAworker (fresh : bytes) (endian : bool) (data : list Z) (fuel : nat) : M bench unit :=
  do (rc, msg) <- mres (from_hex_string (Some fresh) plaintext (operand0 <| big_endian := endian |>));
  if rc <? 0 then mexit else
  do e <- mderef rsa_encrypt_key;
  do n <- mderef rsa_modulus;
  do rc <- lib (hw_submit None (Modular_exp e n msg));
  if rc <? 0 then mexit else
  do r <- wait_result fuel;
  do c <- mderef (results r !! 0%nat);
  do rsa_ciphertext <- mres (copy_operand c (malloc_operand (actual_len c)));
  mmod (fun s => s <| cnt := 0 |> <| cur_command_cnt := 0 |> <| user_data := data |>) ;;;
  bench_loop (RSA_send rsa_ciphertext) (poll_once (RSA_check msg)) fuel.
End rsa.

(** *** TLS 1.3

    Every third command signs; the two after it make a key share and a shared
    secret. [rand] are the values of [rand()], [hwrng] the bytes of the
    generator of the accelerator; the counter [draws] numbers their calls. *)
Section tls13.
Context (P256_curve : ecc_curve) (P256_base_pt : ecc_point) (P256_base_pt_order C255_base_pt_order : pka_operand)
  (X25519_curve : mont_curve) (ec_priv_key hash k : list (option pka_operand))
  (remote_ec_pub_key_x25519 ec_priv_key_x25519_1 : list (option pka_operand))
  (ring_order : bool) (rand : nat -> Z) (hwrng : nat -> Z -> bytes).

Definition USER_DATA_NUM : Z := 1048576.
Definition MAX_OUTSTANDING_CMD_NUM : Z := 512.

Definition next_draw {A} (f : nat -> A) : M bench A := fun s => Ret (f (draws s), s <| draws ::= S |>).
Definition rand_mod (n : Z) : M bench Z := do r <- next_draw rand; ret (Z.rem r n).

(** [rand_non_zero_integer_w_pka_hwrng_and_clamping] on an element of the
    array, which the elements of other commands in flight have been copied from. *)
Definition fresh_scalar (idx : Z) : M bench pka_operand :=
  do s <- mget;
  do x <- elem (priv_x25519_0 s) idx;
  do rng <- next_draw hwrng;
  do x' <- mres (rand_non_zero_integer_w_pka_hwrng_and_clamping ring_order rng x C255_base_pt_order);
  mmod (fun s => s <| priv_x25519_0 ::= insert (Z.to_nat idx) (Some x') |>) ;;;
  ret x'.

Definition tls13_sign (idx : Z) : M bench Z :=
  do key <- elem ec_priv_key idx;
  do h <- elem hash idx;
  do kk <- elem k idx;
  do ptr <- rand_mod USER_DATA_NUM;
  lib (hw_submit (Some ptr) (Ecdsa_generate P256_curve P256_base_pt P256_base_pt_order key h kk)).
Definition tls13_ecdh (idx : Z) (x : pka_operand) : M bench Z :=
  do q <- elem remote_ec_pub_key_x25519 idx;
  do ptr <- rand_mod USER_DATA_NUM;
  lib (hw_submit (Some ptr) (Mont_mult X25519_curve q x)).
Definition tls13_send (idx : Z) : M bench Z :=
  do s <- mget;
  if Z.rem (cnt s) 3 =? 0 then tls13_sign idx
  else if Z.rem (cnt s + 1) 3 =? 0 then do x <- fresh_scalar idx; tls13_ecdh idx x
  else do x <- elem ec_priv_key_x25519_1 idx; tls13_ecdh idx x.

(** A result operand is copied field by field into three entries of
    [memcpy_results] drawn at random. *)
Definition upd_copy (i : nat) (f : pka_operand -> res pka_operand) : M bench unit :=
  do j <- rand_mod MAX_OUTSTANDING_CMD_NUM;
  do s <- mget;
  match memcpy_results s !! Z.to_nat j with
  | None => mfault Out_of_bounds
  | Some ops =>
      match ops !! i with
      | None => mfault Out_of_bounds
      | Some op =>
          do op' <- mres (f op);
          mmod (fun s => s <| memcpy_results ::= insert (Z.to_nat j) (<[i := op']> ops) |>)
      end
  end.
Fixpoint copy_results (i : nat) (rs : list pka_operand) : M bench unit :=
  match rs with
  | [] => ret tt
  | r :: rs' =>
      upd_copy i (fun op => Ret (op <| buf_len := buf_len r |>)) ;;;
      upd_copy i (fun op => Ret (op <| actual_len := actual_len r |>)) ;;;
      upd_copy i (fun op => res_bind (memcpy (buf_ptr op) (buf_ptr r) (buf_len r)) (fun b =>
                            Ret (op <| buf_ptr := b |>))) ;;;
      copy_results (S i) rs'
  end.

Definition count_op (o : pka_opcode) : M bench unit :=
  match o with
  | CC_ECDSA_GENERATE => mmod (fun s => s <| tls13_op_cnt ::= alter (fun n =>
      mk_op_cnt (u64 (ecdsa_done n + 1)) (ecdh_done n)) worker_id |>)
  | CC_MONT_ECDH_MULTIPLY => mmod (fun s => s <| tls13_op_cnt ::= alter (fun n =>
      mk_op_cnt (ecdsa_done n) (u64 (ecdh_done n + 1))) worker_id |>)
  | _ => ret tt
  end.

(** The results are polled until there is none or nothing is outstanding; a
    failed operation is not counted. *)
Fixpoint drain_loop (fuel : nat) : M bench unit :=
  match fuel with
  | O => mfault Out_of_fuel
  | S fuel' =>
      do s <- mget;
      if negb (0 <? cur_command_cnt s) then ret tt else
      do r <- lib hw_result;
      match r with
      | None => mmod (fun s => s <| pka_get_result_fail_cnt ::= fun c => u64 (c + 1) |>)
      | Some r =>
          mmod (fun s => s <| pka_get_result_success_cnt ::= fun c => u64 (c + 1) |>) ;;;
          mmod (fun s => s <| cur_command_cnt ::= Z.pred |>) ;;;
          (if negb (status r =? 0) then ret tt
           else copy_results 0 (results r) ;;; count_op (opcode r)) ;;;
          drain_loop fuel'
      end
  end.

Definition TLS13worker (fuel : nat) : M bench unit :=
  start USER_DATA_NUM ;;; bench_loop tls13_send (drain_loop (S (Z.to_nat outstanding_cmd_num))) fuel.

(** *** Random numbers

    The loop of [RANDworker] has the condition of the others, but nothing ever
    lowers [cur_command_cnt]; adding 1 to the largest [int] is undefined. *)
Definition int_succ (n : Z) : M bench Z := if n + 1 <? 2 ^ 31 then ret (n + 1) else mfault Undefined_value.
Definition rand_one : M bench unit :=
  do s <- mget;
  do idx <- mod_int (cnt s) outstanding_cmd_num;
  do x <- elem (priv_x25519_0 s) idx;
  do rng <- next_draw hwrng;
  do b <- mres (memcpy (buf_ptr x) (rng 32) 32);
  mmod (fun s => s <| priv_x25519_0 ::= insert (Z.to_nat idx) (Some (x <| buf_ptr := b |>)) |>) ;;;
  do c <- int_succ (cnt s);
  do u <- int_succ (cur_command_cnt s);
  mmod (fun s => s <| cnt := c |> <| cur_command_cnt := u |>
                   <| cmd_cnt ::= alter (fun c => u64 (c + 1)) worker_id |>).
Fixpoint rand_loop (fuel : nat) : M bench unit :=
  match fuel with
  | O => mfault Out_of_fuel
  | S fuel' =>
      do s <- mget;
      if (cnt s <? max_cmd_cnt) || (0 <? cur_command_cnt s) then rand_one ;;; rand_loop fuel' else ret tt
  end.
Definition RANDworker (fuel : nat) : M bench unit :=
  mmod (fun s => s <| cnt := 0 |> <| cur_command_cnt := 0 |>) ;;; rand_loop fuel.
End tls13.
End bench.

(** ** The loop of a worker ends

    Whatever a worker sends and however it takes results: if a command that
    fits is accepted, and a turn answers a command or brings the next answer
    nearer, the loop ends with everything sent and nothing outstanding. *)
Module Loop.
Section loop.
Context `{Accelerator} {L : AccelLaws}.
Context (outstanding_cmd_num max_cmd_cnt : Z) (Hout : 0 < outstanding_cmd_num) (Hmax : 0 <= max_cmd_cnt).
Context (send : Z -> M bench Z) (turn : M bench unit) (I : bench -> Prop).

Abbreviation send_one := (submit_one outstanding_cmd_num send).
Abbreviation inner := (submit_loop outstanding_cmd_num max_cmd_cnt send).
Abbreviation outer := (bench_loop outstanding_cmd_num max_cmd_cnt send turn).

Context (I_range : forall s, I s -> 0 <= cnt s <= max_cmd_cnt /\ 0 <= cur_command_cnt s <= outstanding_cmd_num).
Context (submit_ok : forall s, I s -> cnt s < max_cmd_cnt -> cur_command_cnt s < outstanding_cmd_num ->
  exists s', send_one s = Ret (tt, s') /\ I s' /\ cnt s' = cnt s + 1 /\
    cur_command_cnt s' = cur_command_cnt s + 1).
Context (turn_ok : forall s, I s -> 0 < cur_command_cnt s ->
  exists s', turn s = Ret (tt, s') /\ I s' /\ cnt s' = cnt s /\
    (cur_command_cnt s' < cur_command_cnt s \/
     cur_command_cnt s' = cur_command_cnt s /\ (delay (accel s') < delay (accel s))%nat)).

(** Commands still to be sent count twice: once to send, once to answer. *)
Definition work (s : bench) : nat := Z.to_nat (2 * (max_cmd_cnt - cnt s) + cur_command_cnt s).

Lemma submit_loop_run s fuel :
  I s -> outstanding_cmd_num - cur_command_cnt s < Z.of_nat fuel ->
  exists s', inner fuel s = Ret (tt, s') /\ I s' /\ (work s' < work s \/ s' = s)%nat /\
    (cnt s' = max_cmd_cnt \/ cur_command_cnt s' = outstanding_cmd_num) /\
    (0 < cur_command_cnt s -> 0 < cur_command_cnt s') /\ (cnt s < max_cmd_cnt -> 0 < cur_command_cnt s').
Proof.
  revert s. induction fuel as [|fuel IH]; intros s Hi Hf; pose proof (I_range s Hi) as [Hc Hu]; [lia|].
  cbn [submit_loop]. erewrite bind_ret by reflexivity.
  destruct (Z.ltb_spec (cnt s) max_cmd_cnt) as [Hlt|Hge]; cbn [andb].
  2: { exists s. repeat split; try done; [by right|left; lia|lia]. }
  destruct (Z.ltb_spec (cur_command_cnt s) outstanding_cmd_num) as [Hlt2|Hge2].
  2: { exists s. repeat split; try done; [by right|right; lia|lia]. }
  destruct (submit_ok s Hi Hlt Hlt2) as (s1 & E1 & Hi1 & Ec & Eu).
  destruct (IH s1 Hi1 ltac:(lia)) as (s2 & E2 & Hi2 & Hw & Hend & Hp & _).
  exists s2. erewrite bind_ret by exact E1. split; [exact E2|]. split; [done|].
  assert (work s1 < work s)%nat by (pose proof (I_range s1 Hi1); unfold work; lia).
  split; [left; destruct Hw as [| ->]; lia|]. split; [done|]. split; intros _; apply Hp; lia.
Qed.

(** A turn of the outer loop makes progress. *)
Lemma bench_turn s :
  I s -> cnt s < max_cmd_cnt \/ 0 < cur_command_cnt s ->
  exists s', (forall fuel, outer (S fuel) s = outer fuel s') /\ I s' /\
    (work s' < work s \/ (work s' = work s /\ delay (accel s') < delay (accel s)))%nat.
Proof.
  intros Hi Hgo. pose proof (I_range s Hi) as [Hc Hu].
  destruct (submit_loop_run s (S (Z.to_nat outstanding_cmd_num)) Hi ltac:(lia)) as (s1 & E1 & Hi1 & Hw & _ & Hp & Hp').
  destruct (turn_ok s1 Hi1) as (s2 & E2 & Hi2 & Ec & Hd); [destruct Hgo; auto|].
  exists s2. split; [|split; [done|]].
  - intros fuel. cbn [bench_loop]. erewrite bind_ret by reflexivity.
    assert ((cnt s <? max_cmd_cnt) || (0 <? cur_command_cnt s) = true) as ->
      by (apply orb_true_iff; destruct Hgo; [left|right]; by apply Z.ltb_lt).
    erewrite bind_ret by exact E1. by erewrite bind_ret by exact E2.
  - pose proof (I_range s1 Hi1). pose proof (I_range s2 Hi2). unfold work in *. destruct Hw as [| ->]; lia.
Qed.

Lemma bench_loop_ends s : I s ->
  exists n s', (forall fuel, (n <= fuel)%nat -> outer fuel s = Ret (tt, s')) /\
    I s' /\ cnt s' = max_cmd_cnt /\ cur_command_cnt s' = 0.
Proof.
  remember (work s) as w eqn:Ew. revert s Ew. induction (lt_wf w) as [w _ IHw]. intros s.
  remember (delay (accel s)) as d eqn:Ed. revert s Ed. induction (lt_wf d) as [d _ IHd]. intros s Ed Ew Hi.
  pose proof (I_range s Hi) as [Hc Hu].
  destruct (decide (cnt s < max_cmd_cnt \/ 0 < cur_command_cnt s)) as [Hgo|Hno].
  - destruct (bench_turn s Hi Hgo) as (s1 & E & Hi1 & Hprog).
    assert (exists n s', (forall fuel, (n <= fuel)%nat -> outer fuel s1 = Ret (tt, s')) /\
      I s' /\ cnt s' = max_cmd_cnt /\ cur_command_cnt s' = 0) as (n & s' & Hrun & Hend).
    { destruct Hprog as [Hlt|[Heq Hlt]]; [by eapply (IHw (work s1)); [lia|..]|].
      eapply (IHd (delay (accel s1))); [lia|done|lia|done]. }
    exists (S n), s'. split; [|done]. intros [|fuel] Hf; [lia|]. rewrite E. apply Hrun. lia.
  - exists 1%nat, s. split; [|split; [done|lia]]. intros [|fuel] Hf; [lia|]. cbn [bench_loop].
    erewrite bind_ret by reflexivity. rewrite !(proj2 (Z.ltb_ge _ _)) by lia. done.
Qed.
End loop.
End Loop.

(** ** The workers that wait for one result at a time *)
Module Single.
Section single.
Context `{Accelerator} {L : AccelLaws}.
Context (outstanding_cmd_num max_cmd_cnt : Z) (worker_id : nat) (CHECK_CORRECTNESS : bool).
Context (Hout : 0 < outstanding_cmd_num <= capacity) (Hmax : 0 <= max_cmd_cnt < 2 ^ 31).
Context (send : Z -> M bench Z) (check : pka_result -> M bench unit).
Context (cmd : Z -> pka_command) (ok_data : list Z -> Prop) (before : list (option Z * pka_command)) (counts : list Z).

(** The jobs in the order they are sent: number [i] uses the operands and the
    element of [user_data] with the index [i mod outstanding_cmd_num]. *)
Definition job (i : Z) : option Z * pka_command :=
  let idx := i mod outstanding_cmd_num in (Some idx, cmd idx).

Record served (s : bench) : Prop := mk_served {
  srv_cnt : 0 <= cnt s <= max_cmd_cnt;
  srv_cur : cur_command_cnt s = Z.of_nat (length (in_flight (accel s)));
  srv_out : cur_command_cnt s <= outstanding_cmd_num /\ cur_command_cnt s <= cnt s;
  srv_flight : Forall (fun x => exists idx, 0 <= idx < outstanding_cmd_num /\ x = (Some idx, cmd idx)) (in_flight (accel s));
  srv_hist : history (accel s) = before ++ (job <$> seqZ 0 (cnt s));
  srv_count : cmd_cnt s = <[worker_id := cnt s - cur_command_cnt s]> counts;
  srv_data : ok_data (user_data s);
}.

Context (worker_ok : (worker_id < length counts)%nat).
Context (cmd_ok : forall idx, 0 <= idx < outstanding_cmd_num -> valid (cmd idx)).
Context (send_ok : forall s, 0 <= cnt s -> ok_data (user_data s) ->
  let idx := cnt s mod outstanding_cmd_num in
  exists u, ok_data u /\ send idx s =
    let '(rc, d) := hw_submit (Some idx) (cmd idx) (accel s) in Ret (rc, s <| user_data := u |> <| accel := d |>)).
Context (check_ok : CHECK_CORRECTNESS = true -> forall idx s, 0 <= idx < outstanding_cmd_num -> ok_data (user_data s) ->
  fst (compute (cmd idx)) = 0 ->
  check (mk_result (fst (compute (cmd idx))) (opcode_of (cmd idx)) (Some idx) (snd (compute (cmd idx)))) s = Ret (tt, s)).

Lemma served_submit s : served s -> cnt s < max_cmd_cnt -> cur_command_cnt s < outstanding_cmd_num ->
  exists s', submit_one outstanding_cmd_num send s = Ret (tt, s') /\ served s' /\ cnt s' = cnt s + 1 /\
    cur_command_cnt s' = cur_command_cnt s + 1.
Proof.
  intros [Hc Hu Ho Hf Hh Hn Hd] Hlt Hlt2. set (idx := cnt s mod outstanding_cmd_num).
  assert (0 <= idx < outstanding_cmd_num) as Hidx by (apply Z.mod_pos_bound; lia).
  destruct (send_ok s ltac:(lia) Hd) as (u & Hu' & E). fold idx in E.
  destruct (submit_law (Some idx) (cmd idx) (accel s)) as (rc & d & Es & Hrc & Hfl & Hhi); [lia|by apply cmd_ok|].
  rewrite Es in E. eexists. split.
  - unfold submit_one. erewrite bind_ret by reflexivity. unfold mod_int. rewrite (proj2 (Z.eqb_neq _ _)) by lia.
    erewrite bind_ret by reflexivity. rewrite Z.rem_mod_nonneg by lia. fold idx.
    erewrite bind_ret by exact E. rewrite (proj2 (Z.ltb_ge _ _)) by lia. reflexivity.
  - split; [|by split]. split; cbn.
    + lia.
    + rewrite Hfl. cbn [length]. lia.
    + lia.
    + rewrite Hfl. constructor; [by exists idx|done].
    + rewrite Hhi, Hh, <-app_assoc. f_equal. rewrite <-Z.add_1_r, seqZ_app, fmap_app by lia. done.
    + rewrite Hn. f_equal. lia.
    + done.
Qed.

Lemma one_done_run s d x :
  served s -> in_flight (accel s) ≡ₚ x :: in_flight d -> history d = history (accel s) ->
  exists s', one_done worker_id (s <| accel := d |>) = Ret (tt, s') /\ served s' /\ cnt s' = cnt s /\
    cur_command_cnt s' < cur_command_cnt s.
Proof.
  intros [Hc Hu Ho Hf Hh Hn Hd] Hp Hhi. eexists. split; [reflexivity|]. rewrite Hp in Hu, Hf. cbn [length] in Hu.
  apply Forall_cons in Hf as [_ Hf].
  split; [|split; cbn; lia]. split; cbn; [lia|lia|lia|done|by rewrite Hhi| |done].
  rewrite Hn. apply list_eq. intros j. rewrite list_lookup_alter. destruct (decide (j = worker_id)) as [->|Hne].
  - rewrite !list_lookup_insert_eq by done. rewrite decide_True by done. cbn. unfold u64.
    rewrite Z.mod_small by lia. f_equal. lia.
  - rewrite decide_False by done. by rewrite !list_lookup_insert_ne.
Qed.

Lemma served_turn s : served s -> 0 < cur_command_cnt s ->
  exists s', poll_once worker_id CHECK_CORRECTNESS check s = Ret (tt, s') /\ served s' /\ cnt s' = cnt s /\
    (cur_command_cnt s' < cur_command_cnt s \/
     cur_command_cnt s' = cur_command_cnt s /\ (delay (accel s') < delay (accel s))%nat).
Proof.
  intros Hs Hpos. pose proof (result_law (accel s)) as Hr. unfold poll_once, lib.
  destruct (hw_result (accel s)) as [[r|] d] eqn:Ed; destruct Hr as [Hhi Hr];
    erewrite bind_ret by (rewrite Ed; reflexivity).
  - destruct Hr as (ptr & c & Hp & ->). destruct (one_done_run s d _ Hs Hp Hhi) as (s' & E & Hs' & Hc' & Hu').
    exists s'. split; [|by split; [|split; [|left]]]. cbn [status].
    destruct (Z.eqb_spec (fst (compute c)) 0) as [E0|]; cbn [negb]; [|done].
    destruct CHECK_CORRECTNESS eqn:EC; [|by erewrite bind_ret by reflexivity].
    assert (exists idx, 0 <= idx < outstanding_cmd_num /\ (ptr, c) = (Some idx, cmd idx)) as (idx & Hidx & [= -> ->]).
    { pose proof (srv_flight s Hs) as Hf. rewrite Hp in Hf. by apply Forall_cons in Hf as [? _]. }
    erewrite bind_ret; [exact E|]. apply check_ok; [done..|apply Hs|done].
  - destruct Hr as [Hp Hd]. eexists. split; [reflexivity|]. destruct Hs as [Hc Hu Ho Hf Hh Hn Hd'].
    split; [|split; [done|right; split; [done|]]].
    + split; cbn; [done|by rewrite Hp|done|by rewrite Hp|by rewrite Hhi|done|done].
    + apply Hd. intros E. rewrite E in Hu. cbn in Hu. lia.
Qed.

Theorem single_ends s : served s ->
  exists n s', (forall fuel, (n <= fuel)%nat ->
      bench_loop outstanding_cmd_num max_cmd_cnt send (poll_once worker_id CHECK_CORRECTNESS check) fuel s = Ret (tt, s')) /\
    served s' /\ cnt s' = max_cmd_cnt /\ cur_command_cnt s' = 0.
Proof.
  intros Hs. apply Loop.bench_loop_ends; [lia| | | |done].
  - intros s1 [? ? ? ? ? ? ?]. lia.
  - intros s1. apply served_submit.
  - intros s1. apply served_turn.
Qed.

(** What is left at the end, in plain terms. *)
Definition all_answered (s' : bench) : Prop :=
  history (accel s') = before ++ (job <$> seqZ 0 max_cmd_cnt) /\ in_flight (accel s') = [] /\
  cmd_cnt s' = <[worker_id := max_cmd_cnt]> counts.
Lemma served_end s' : served s' -> cnt s' = max_cmd_cnt -> cur_command_cnt s' = 0 -> all_answered s'.
Proof.
  intros [_ Hu _ _ Hh Hn _] Hc E. unfold all_answered. rewrite Hh, Hn, Hc, E, Z.sub_0_r. split; [done|]. split; [|done].
  apply length_zero_iff_nil. lia.
Qed.
End single.
End Single.

(** ** The four workers for single operations *)

(** Two operands of the same number, length and byte order have the same bytes
    in use. *)
Lemma same_number_bytes a b : operand_ok a -> operand_ok b -> operand_val a = operand_val b ->
  big_endian a = big_endian b -> actual_len a = actual_len b ->
  take (Z.to_nat (actual_len b)) (buf_ptr a) = take (Z.to_nat (actual_len b)) (buf_ptr b).
Proof.
  intros Ha Hb Hv Hbe Hl. assert (digits a = digits b) as Hd.
  { pose proof (length_digits a Ha) as La. pose proof (length_digits b Hb) as Lb. rewrite Hl, <-Lb in La.
    pose proof (le_bytes_le_val (reverse (digits a)) (reverse_ok _ (digits_ok a Ha))) as Ea.
    pose proof (le_bytes_le_val (reverse (digits b)) (reverse_ok _ (digits_ok b Hb))) as Eb.
    unfold operand_val, be_val in Hv. rewrite !length_reverse in *. rewrite La, Hv, Eb in Ea.
    by rewrite <-(reverse_involutive (digits a)), <-Ea, reverse_involutive. }
  unfold digits in Hd. rewrite Hl, Hbe in Hd. destruct (big_endian b); [done|].
  apply (f_equal reverse) in Hd. by rewrite !reverse_involutive in Hd.
Qed.

#[export] Instance operand_inhabited : Inhabited pka_operand := populate operand0.
#[export] Instance point_inhabited : Inhabited ecc_point := populate (mk_point operand0 operand0).
#[export] Instance signature_inhabited : Inhabited dsa_signature := populate (mk_sig operand0 operand0).

(** Results that compare equal: the bytes in use of the expected operand, and
    its length where that is looked at. *)
Record same_bytes (result expected : pka_operand) : Prop := mk_same_bytes {
  same_room : actual_len expected <= Z.of_nat (length (buf_ptr result)) /\
              actual_len expected <= Z.of_nat (length (buf_ptr expected));
  same_take : take (Z.to_nat (actual_len expected)) (buf_ptr result) =
              take (Z.to_nat (actual_len expected)) (buf_ptr expected);
}.
Record same_operand (result expected : pka_operand) : Prop := mk_same_operand {
  same_len : actual_len result = actual_len expected;
  same_buf : same_bytes result expected;
}.

Section runs.
Context `{Accelerator}.

Lemma elem_run {A} `{!Inhabited A} (l : list A) i (s : bench) :
  0 <= i < Z.of_nat (length l) -> elem (Some <$> l) i s = Ret (l !!! Z.to_nat i, s).
Proof.
  intros Hi. unfold elem. rewrite (proj2 (Z.leb_le _ _)) by lia.
  destruct (lookup_lt_is_Some_2 l (Z.to_nat i)) as [x E]; [lia|].
  by rewrite list_lookup_fmap, E, (list_lookup_total_correct _ _ _ E).
Qed.

Lemma check_bytes_run r x (s : bench) : same_bytes r x -> check_bytes r x s = Ret (tt, s).
Proof.
  intros [[Hr Hx] Ht]. unfold check_bytes, memcmp_ne. rewrite !(proj2 (Z.leb_le _ _)) by lia. cbn [andb].
  erewrite bind_ret by reflexivity. by rewrite bool_decide_true.
Qed.
Lemma check_sized_run r x (s : bench) : same_operand r x -> check_sized r x s = Ret (tt, s).
Proof.
  intros [Hl Hb]. unfold check_sized. rewrite Hl, Z.eqb_refl. cbn [negb]. by apply (check_bytes_run r x s).
Qed.

Lemma answer_idx_run n idx st0 op rs (s : bench) :
  0 <= idx < n -> user_data s = seqZ 0 n -> answer_idx (mk_result st0 op (Some idx) rs) s = Ret (idx, s).
Proof.
  intros Hi Hd. unfold answer_idx. erewrite bind_ret by reflexivity. erewrite bind_ret by reflexivity.
  unfold mres. rewrite Hd. unfold ld. rewrite (proj2 (Z.leb_le _ _)) by lia.
  rewrite (proj2 (lookup_seqZ 0 n (Z.to_nat idx) idx)) by lia. done.
Qed.

Lemma lib_submit ptr c (s : bench) :
  lib (hw_submit ptr c) s = let '(rc, d) := hw_submit ptr c (accel s) in Ret (rc, s <| user_data := user_data s |> <| accel := d |>).
Proof. by destruct s. Qed.
End runs.

Section workers.
Context `{Accelerator} {L : AccelLaws}.
Context (outstanding_cmd_num max_cmd_cnt : Z) (worker_id : nat) (CHECK_CORRECTNESS : bool).
Context (Hout : 0 < outstanding_cmd_num <= capacity) (Hmax : 0 <= max_cmd_cnt < 2 ^ 31).

(** A worker started with nothing in flight returns, and then every job has been
    sent, in order, and answered, and the counter of the thread says so. *)
Definition completes (worker : nat -> M bench unit) (cmd : Z -> pka_command) (s : bench) : Prop :=
  exists n s', (forall fuel, (n <= fuel)%nat -> worker fuel s = Ret (tt, s')) /\
    Single.all_answered outstanding_cmd_num max_cmd_cnt worker_id cmd (history (accel s)) (cmd_cnt s) s'.

Definition idle (s : bench) : Prop := in_flight (accel s) = [] /\ cmd_cnt s !! worker_id = Some 0.

Lemma served_start cmd ok_data d (s : bench) : idle s -> ok_data d ->
  Single.served outstanding_cmd_num max_cmd_cnt worker_id cmd ok_data (history (accel s)) (cmd_cnt s)
    (s <| cnt := 0 |> <| cur_command_cnt := 0 |> <| user_data := d |>).
Proof.
  intros [Hf Hc] Hd. split; cbn; rewrite ?Hf; try done; try lia.
  - by rewrite app_nil_r.
  - by rewrite list_insert_id.
Qed.

Lemma single_completes send check cmd ok_data d (s : bench) :
  idle s -> ok_data d ->
  (forall idx, 0 <= idx < outstanding_cmd_num -> valid (cmd idx)) ->
  (forall s, 0 <= cnt s -> ok_data (user_data s) ->
   let idx := cnt s mod outstanding_cmd_num in
   exists u, ok_data u /\ send idx s =
     let '(rc, d) := hw_submit (Some idx) (cmd idx) (accel s) in Ret (rc, s <| user_data := u |> <| accel := d |>)) ->
  (CHECK_CORRECTNESS = true -> forall idx s, 0 <= idx < outstanding_cmd_num -> ok_data (user_data s) ->
   fst (compute (cmd idx)) = 0 ->
   check (mk_result (fst (compute (cmd idx))) (opcode_of (cmd idx)) (Some idx) (snd (compute (cmd idx)))) s = Ret (tt, s)) ->
  exists n s', (forall fuel, (n <= fuel)%nat ->
      bench_loop outstanding_cmd_num max_cmd_cnt send (poll_once worker_id CHECK_CORRECTNESS check) fuel
        (s <| cnt := 0 |> <| cur_command_cnt := 0 |> <| user_data := d |>) = Ret (tt, s')) /\
    Single.all_answered outstanding_cmd_num max_cmd_cnt worker_id cmd (history (accel s)) (cmd_cnt s) s'.
Proof.
  intros Hi Hd Hv Hs Hc.
  assert (worker_id < length (cmd_cnt s))%nat as Hw by (apply lookup_lt_is_Some; exists 0; apply Hi).
  destruct (Single.single_ends outstanding_cmd_num max_cmd_cnt worker_id CHECK_CORRECTNESS Hout Hmax send check cmd
    ok_data _ _ Hw Hv Hs Hc _ (served_start cmd ok_data d s Hi Hd)) as (n & s' & Hrun & Hsv & Ec & Eu).
  exists n, s'. split; [done|]. by eapply Single.served_end.
Qed.

Section keys.
Context (P256_curve : ecc_curve) (P256_base_pt : ecc_point) (P256_base_pt_order : pka_operand) (X25519_curve : mont_curve).
Context (remote_ec_pub_key_ep remote_shared_secret_ep : list ecc_point)
  (ec_priv_key hash k remote_ec_pub_key_x25519 ec_priv_key_x25519_0 remote_shared_secret_po : list pka_operand)
  (answer : list dsa_signature).

Definition p256_job (idx : Z) : pka_command :=
  Pt_mult P256_curve (remote_ec_pub_key_ep !!! Z.to_nat idx) (ec_priv_key !!! Z.to_nat idx).
Definition x25519_job (idx : Z) : pka_command :=
  Mont_mult X25519_curve (remote_ec_pub_key_x25519 !!! Z.to_nat idx) (ec_priv_key_x25519_0 !!! Z.to_nat idx).
Definition ecdsa_job (idx : Z) : pka_command :=
  Ecdsa_generate P256_curve P256_base_pt P256_base_pt_order (ec_priv_key !!! Z.to_nat idx)
    (hash !!! Z.to_nat idx) (k !!! Z.to_nat idx).

(** The arrays cover the indices in use. *)
Definition covers {A} (l : list A) : Prop := outstanding_cmd_num <= Z.of_nat (length l).

(** The sending part of the three workers, once the operands are looked up. *)
Lemma submit_keeps (cmd : Z -> pka_command) send (s : bench) (n : Z) :
  0 <= cnt s -> user_data s = seqZ 0 n ->
  (forall idx, 0 <= idx < outstanding_cmd_num -> send idx s = lib (hw_submit (Some idx) (cmd idx)) s) ->
  let idx := cnt s mod outstanding_cmd_num in
  exists u, u = seqZ 0 n /\ send idx s =
    let '(rc, d) := hw_submit (Some idx) (cmd idx) (accel s) in Ret (rc, s <| user_data := u |> <| accel := d |>).
Proof.
  intros Hc Hu Hs idx. exists (user_data s). split; [done|]. rewrite Hs; [apply lib_submit|].
  apply Z.mod_pos_bound. lia.
Qed.

(** The jobs are acceptable and the expected answers are those computed. *)
Record keys_ok : Prop := mk_keys_ok {
  keys_len : covers remote_ec_pub_key_ep /\ covers ec_priv_key /\ covers remote_shared_secret_ep /\
    covers remote_ec_pub_key_x25519 /\ covers ec_priv_key_x25519_0 /\ covers remote_shared_secret_po /\
    covers hash /\ covers k /\ covers answer;
  keys_p256 idx : 0 <= idx < outstanding_cmd_num -> valid (p256_job idx) /\
    exists x y, snd (compute (p256_job idx)) = [x; y] /\
      same_operand x (pt_x (remote_shared_secret_ep !!! Z.to_nat idx)) /\
      same_operand y (pt_y (remote_shared_secret_ep !!! Z.to_nat idx));
  keys_x25519 idx : 0 <= idx < outstanding_cmd_num -> valid (x25519_job idx) /\
    exists x, snd (compute (x25519_job idx)) = [x] /\ same_operand x (remote_shared_secret_po !!! Z.to_nat idx);
  keys_ecdsa idx : 0 <= idx < outstanding_cmd_num -> valid (ecdsa_job idx) /\
    exists r s, snd (compute (ecdsa_job idx)) = [r; s] /\
      same_bytes r (sig_r (answer !!! Z.to_nat idx)) /\ same_bytes s (sig_s (answer !!! Z.to_nat idx));
}.

Ltac look_up := rewrite elem_run by (unfold covers in *; lia).

Lemma p256_completes s : idle s ->
  covers remote_ec_pub_key_ep -> covers ec_priv_key -> covers remote_shared_secret_ep ->
  (forall idx, 0 <= idx < outstanding_cmd_num -> valid (p256_job idx) /\
   exists x y, snd (compute (p256_job idx)) = [x; y] /\
     same_operand x (pt_x (remote_shared_secret_ep !!! Z.to_nat idx)) /\
     same_operand y (pt_y (remote_shared_secret_ep !!! Z.to_nat idx))) ->
  completes (P256worker outstanding_cmd_num max_cmd_cnt worker_id CHECK_CORRECTNESS P256_curve
    (Some <$> remote_ec_pub_key_ep) (Some <$> ec_priv_key) (Some <$> remote_shared_secret_ep)) p256_job s.
Proof.
  intros Hi C1 C2 C3 HP. apply (single_completes _ _ _ (fun u => u = seqZ 0 outstanding_cmd_num) _ s Hi eq_refl).
  - intros idx Hx. by apply HP.
  - intros s1 Hc Hu. apply submit_keeps; [done..|]. intros idx Hx. unfold P256_send.
    erewrite bind_ret by (look_up; done). by erewrite bind_ret by (look_up; done).
  - intros _ idx s1 Hx Hu _. destruct (HP idx Hx) as (_ & x & y & -> & Ex & Ey). unfold P256_check.
    erewrite bind_ret by (by eapply answer_idx_run). erewrite bind_ret by (look_up; done). erewrite bind_ret by reflexivity.
    erewrite bind_ret by (by apply check_sized_run). erewrite bind_ret by reflexivity. by apply check_sized_run.
Qed.

Lemma x25519_completes s : idle s ->
  covers remote_ec_pub_key_x25519 -> covers ec_priv_key_x25519_0 -> covers remote_shared_secret_po ->
  (forall idx, 0 <= idx < outstanding_cmd_num -> valid (x25519_job idx) /\
   exists x, snd (compute (x25519_job idx)) = [x] /\ same_operand x (remote_shared_secret_po !!! Z.to_nat idx)) ->
  completes (X25519worker outstanding_cmd_num max_cmd_cnt worker_id CHECK_CORRECTNESS X25519_curve
    (Some <$> remote_ec_pub_key_x25519) (Some <$> ec_priv_key_x25519_0) (Some <$> remote_shared_secret_po)) x25519_job s.
Proof.
  intros Hi C1 C2 C3 HX. apply (single_completes _ _ _ (fun u => u = seqZ 0 outstanding_cmd_num) _ s Hi eq_refl).
  - intros idx Hx. by apply HX.
  - intros s1 Hc Hu. apply submit_keeps; [done..|]. intros idx Hx. unfold X25519_send.
    erewrite bind_ret by (look_up; done). by erewrite bind_ret by (look_up; done).
  - intros _ idx s1 Hx Hu _. destruct (HX idx Hx) as (_ & x & -> & Ex). unfold X25519_check.
    erewrite bind_ret by (by eapply answer_idx_run). erewrite bind_ret by (look_up; done). erewrite bind_ret by reflexivity.
    by apply check_sized_run.
Qed.

Lemma ecdsa_completes s : idle s -> covers ec_priv_key -> covers hash -> covers k -> covers answer ->
  (forall idx, 0 <= idx < outstanding_cmd_num -> valid (ecdsa_job idx) /\
   exists r s, snd (compute (ecdsa_job idx)) = [r; s] /\
     same_bytes r (sig_r (answer !!! Z.to_nat idx)) /\ same_bytes s (sig_s (answer !!! Z.to_nat idx))) ->
  completes (ECDSAworker outstanding_cmd_num max_cmd_cnt worker_id CHECK_CORRECTNESS P256_curve P256_base_pt
    P256_base_pt_order (Some <$> ec_priv_key) (Some <$> hash) (Some <$> k) (Some <$> answer)) ecdsa_job s.
Proof.
  intros Hi C1 C2 C3 C4 HE. apply (single_completes _ _ _ (fun u => u = seqZ 0 outstanding_cmd_num) _ s Hi eq_refl).
  - intros idx Hx. by apply HE.
  - intros s1 Hc Hu. apply submit_keeps; [done..|]. intros idx Hx. unfold ECDSA_send.
    erewrite bind_ret by (look_up; done). erewrite bind_ret by (look_up; done). by erewrite bind_ret by (look_up; done).
  - intros _ idx s1 Hx Hu _. destruct (HE idx Hx) as (_ & x & y & -> & Ex & Ey). unfold ECDSA_check.
    erewrite bind_ret by (by eapply answer_idx_run). erewrite bind_ret by (look_up; done). erewrite bind_ret by reflexivity.
    erewrite bind_ret by (by apply check_bytes_run). erewrite bind_ret by reflexivity. by apply check_bytes_run.
Qed.

(** C22: as long as the accelerator has room for the outstanding commands, and
    in whatever order and however slowly it answers, the workers for P-256,
    X25519 and ECDSA return: then they have sent the configured number of
    commands in order, each with the operands of its slot, every command has
    been answered and counted - and when results are compared with the
    expected ones, every comparison succeeds, because the answer is looked up
    under the slot that the result carries. *)
Theorem workers_complete s : idle s -> keys_ok ->
  completes (P256worker outstanding_cmd_num max_cmd_cnt worker_id CHECK_CORRECTNESS P256_curve
    (Some <$> remote_ec_pub_key_ep) (Some <$> ec_priv_key) (Some <$> remote_shared_secret_ep)) p256_job s /\
  completes (X25519worker outstanding_cmd_num max_cmd_cnt worker_id CHECK_CORRECTNESS X25519_curve
    (Some <$> remote_ec_pub_key_x25519) (Some <$> ec_priv_key_x25519_0) (Some <$> remote_shared_secret_po)) x25519_job s /\
  completes (ECDSAworker outstanding_cmd_num max_cmd_cnt worker_id CHECK_CORRECTNESS P256_curve P256_base_pt
    P256_base_pt_order (Some <$> ec_priv_key) (Some <$> hash) (Some <$> k) (Some <$> answer)) ecdsa_job s.
Proof.
  intros Hi [(C1 & C2 & C3 & C4 & C5 & C6 & C7 & C8 & C9) HP HX HE].
  split; [by apply p256_completes|split; [by apply x25519_completes|by apply ecdsa_completes]].
Qed.
End keys.

(** *** RSA *)

(** The wait for the only command in flight. *)
Lemma wait_result_run (s : bench) ptr c : in_flight (accel s) = [(ptr, c)] ->
  exists polls d, (forall fuel, (polls < fuel)%nat -> wait_result fuel s =
      Ret (mk_result (fst (compute c)) (opcode_of c) ptr (snd (compute c)), s <| accel := d |>)) /\
    in_flight d = [] /\ history d = history (accel s).
Proof.
  remember (delay (accel s)) as k eqn:Ek. revert s Ek. induction (lt_wf k) as [k _ IH]. intros s Ek Hf.
  pose proof (result_law (accel s)) as Hr. destruct (hw_result (accel s)) as [[r|] d] eqn:Ed; destruct Hr as [Hh Hr].
  - destruct Hr as (ptr' & c' & Hp & ->). rewrite Hf in Hp. apply Permutation_singleton_l in Hp. injection Hp as -> -> Hn.
    exists 0%nat, d. split; [|by rewrite Hn]. intros [|fuel] Hl; [lia|]. cbn [wait_result].
    by erewrite bind_ret by (unfold lib; rewrite Ed; reflexivity).
  - destruct Hr as [Hp Hd]. rewrite Hf in Hp. apply Permutation_singleton_r in Hp.
    destruct (IH (delay d)) with (s := s <| accel := d |>) as (polls & d' & Hrun & Hend & Hh');
      [rewrite Ek; apply Hd; by rewrite Hf|done|done|].
    exists (S polls), d'. split; [|split; [done|by rewrite Hh', <-Hh]]. intros [|fuel] Hl; [lia|]. cbn [wait_result].
    erewrite bind_ret by (unfold lib; rewrite Ed; reflexivity). apply Hrun. lia.
Qed.

Section rsa.
Context (p q d_p d_q qinv rsa_encrypt_key rsa_decrypt_key rsa_modulus : option pka_operand).

(** The private operation: with the five numbers of the Chinese remainder
    theorem if the key has them, else with the exponent. *)
Definition rsa_decryption (rsa_ciphertext : pka_operand) : option pka_command :=
  match p, rsa_decrypt_key with
  | Some p, _ =>
      match q, d_p, d_q, qinv with
      | Some q, Some d_p, Some d_q, Some qinv => Some (Modular_exp_crt rsa_ciphertext p q d_p d_q qinv)
      | _, _, _, _ => None
      end
  | None, Some d => (fun n => Modular_exp d n rsa_ciphertext) <$> rsa_modulus
  | None, None => None
  end.

Lemma RSA_send_run ct c (s : bench) : rsa_decryption ct = Some c -> 0 <= cnt s ->
  Z.of_nat (length (user_data s)) = outstanding_cmd_num ->
  let idx := cnt s mod outstanding_cmd_num in
  exists u, Z.of_nat (length u) = outstanding_cmd_num /\
    RSA_send p q d_p d_q qinv rsa_decrypt_key rsa_modulus ct idx s =
      let '(rc, d) := hw_submit (Some idx) c (accel s) in Ret (rc, s <| user_data := u |> <| accel := d |>).
Proof.
  intros Hc Hn Hl idx. assert (0 <= idx < outstanding_cmd_num) by (apply Z.mod_pos_bound; lia).
  exists (<[Z.to_nat idx := cnt s]> (user_data s)). split; [by rewrite length_insert|].
  unfold RSA_send. erewrite bind_ret by reflexivity.
  erewrite bind_ret by (unfold mres; rewrite st_in by lia; reflexivity). erewrite bind_ret by reflexivity.
  unfold rsa_decryption in Hc. destruct p as [p'|].
  - destruct q as [q'|], d_p as [dp|], d_q as [dq|], qinv as [qi|]; try done. injection Hc as <-.
    exact (lib_submit (Some idx) _ (s <| user_data := <[Z.to_nat idx := cnt s]> (user_data s) |>)).
  - destruct rsa_decrypt_key as [d|]; [|done]. destruct rsa_modulus as [n|]; [|done]. injection Hc as <-.
    exact (lib_submit (Some idx) _ (s <| user_data := <[Z.to_nat idx := cnt s]> (user_data s) |>)).
Qed.

(** The message of 48 bytes, in either byte order. *)
Lemma plaintext_read fresh endian : length fresh = 48%nat -> bytes_ok fresh ->
  exists msg, from_hex_string (Some fresh) plaintext (operand0 <| big_endian := endian |>) = Ret (0, msg) /\
    operand_ok msg /\ actual_len msg = 48 /\ big_endian msg = endian /\
    operand_val msg = 0x112233445566778899101112131415161718192021222324252627282930313233343536373839404142434445464748.
Proof.
  intros Hl Hb.
  change plaintext with ((str "0x112233445566778899101112131415161718192021222324252627282930313233343536373839404142434445464748") ++ 0 :: []).
  set (text := str _). set (value := operand0 <| big_endian := endian |> <| buf_ptr := fresh |> <| buf_len := 48 |>).
  pose proof (from_hex_value text [] value) as Hr.
  assert (forallb number_char (skip_0x text) && ((Z.of_nat (length (digit_values (skip_0x text))) + 1) / 2 <=? 48) = true) as Hc
    by (vm_compute; reflexivity).
  cbv zeta in Hr. change (buf_len value) with 48 in Hr. rewrite Hc in Hr. destruct Hr as (msg & E & Hok & Hbe & Hlen & Hv).
  - by apply (bool_decide_unpack (0 ∉ text)); vm_compute.
  - exact Hb.
  - cbn. lia.
  - exists msg. split; [|split; [done|split; [rewrite Hlen; vm_compute; reflexivity|split; [by rewrite Hbe|]]]].
    2: { rewrite Hv. vm_compute. reflexivity. }
    rewrite <-E. unfold from_hex_string.
    assert (strlen (text ++ [0]) = Ret 98%nat) as -> by (vm_compute; reflexivity). cbn [res_bind].
    assert (take 98 (text ++ [0]) = text) as -> by (vm_compute; reflexivity).
    assert (count_digits (skip_0x text) = Some 96) as -> by (vm_compute; reflexivity).
    cbv zeta. change ((96 + 1) / 2) with 48. change (buf_len value <? 48) with false. cbv iota. reflexivity.
Qed.

Lemma RSA_check_run msg m st0 op ptr (s : bench) : same_bytes m msg -> RSA_check msg (mk_result st0 op ptr [m]) s = Ret (tt, s).
Proof. intros Hm. unfold RSA_check. erewrite bind_ret by reflexivity. by apply check_bytes_run. Qed.

(** The RSA worker encrypts its message once and decrypts the ciphertext
    the configured number of times, through the Chinese remainder theorem when
    the key has its numbers: it returns, every command has been answered and
    counted, and every comparison of a result with the message succeeds,
    whatever the uninitialised byte order of the message and the contents of
    [user_data] are. *)
Theorem RSAworker_completes fresh endian data (s : bench) e n :
  idle s -> rsa_encrypt_key = Some e -> rsa_modulus = Some n ->
  length fresh = 48%nat -> bytes_ok fresh -> Z.of_nat (length data) = outstanding_cmd_num ->
  (forall msg, operand_ok msg -> actual_len msg = 48 -> big_endian msg = endian ->
   operand_val msg = 0x112233445566778899101112131415161718192021222324252627282930313233343536373839404142434445464748 ->
   valid (Modular_exp e n msg) /\
   exists c, compute (Modular_exp e n msg) = (0, [c]) /\ operand_ok c /\
     forall ct, operand_ok ct -> operand_val ct = operand_val c -> big_endian ct = big_endian c -> actual_len ct = actual_len c ->
       exists job m, rsa_decryption ct = Some job /\ valid job /\ compute job = (0, [m]) /\ same_bytes m msg) ->
  exists msg job polls s',
    operand_val msg = 0x112233445566778899101112131415161718192021222324252627282930313233343536373839404142434445464748 /\
    (forall fuel, (polls <= fuel)%nat ->
      RSAworker outstanding_cmd_num max_cmd_cnt worker_id CHECK_CORRECTNESS p q d_p d_q qinv rsa_encrypt_key rsa_decrypt_key
        rsa_modulus fresh endian data fuel s = Ret (tt, s')) /\
    Single.all_answered outstanding_cmd_num max_cmd_cnt worker_id (fun _ => job)
      (history (accel s) ++ [(None, Modular_exp e n msg)]) (cmd_cnt s) s'.
Proof.
  intros Hi He Hn Hl Hb Hd Hrsa.
  destruct (plaintext_read fresh endian Hl Hb) as (msg & Em & Hok & Hlen & Hbe & Hv).
  destruct (Hrsa msg Hok Hlen Hbe Hv) as (Hvalid & c & Ec & Hcok & Hdec).
  destruct (copy_result c Hcok) as (ct & Ect & Hctok & Hctv & Hctb & Hctl).
  destruct (Hdec ct Hctok Hctv Hctb Hctl) as (job & m & Ej & Hjv & Ecj & Hm).
  destruct (submit_law None (Modular_exp e n msg) (accel s)) as (rc & d1 & Es & Hrc & Hf1 & Hh1);
    [rewrite (proj1 Hi); cbn; lia|done|].
  rewrite (proj1 Hi) in Hf1. apply Permutation_singleton_r in Hf1.
  assert (in_flight (accel (s <| accel := d1 |>)) = [(None, Modular_exp e n msg)]) as Hf1' by exact Hf1.
  destruct (wait_result_run _ _ _ Hf1') as (polls & d2 & Ew & Hf2 & Hh2).
  cbn in Hh2.
  destruct (single_completes (RSA_send p q d_p d_q qinv rsa_decrypt_key rsa_modulus ct) (RSA_check msg) (fun _ => job)
    (fun u => Z.of_nat (length u) = outstanding_cmd_num) data (s <| accel := d2 |>)) as (k & s' & Hrun & Hend).
  - split; [done|apply Hi].
  - done.
  - done.
  - intros s1 Hc Hu. by apply RSA_send_run.
  - intros _ idx s1 _ _ _. rewrite Ecj. by apply RSA_check_run.
  - exists msg, job, (S (Nat.max polls k)), s'. split; [done|]. split.
    + intros fuel Hfuel. unfold RSAworker. erewrite bind_ret by (unfold mres; rewrite Em; reflexivity). cbn [Z.ltb Z.compare].
      erewrite bind_ret by (rewrite He; reflexivity). erewrite bind_ret by (rewrite Hn; reflexivity).
      erewrite bind_ret by (unfold lib; rewrite Es; reflexivity). rewrite (proj2 (Z.ltb_ge _ _)) by lia.
      erewrite bind_ret by (apply Ew; lia). rewrite Ec. erewrite bind_ret by reflexivity.
      erewrite bind_ret by (unfold mres; cbn [snd]; rewrite Ect; reflexivity). erewrite bind_ret by reflexivity.
      exact (Hrun fuel ltac:(lia)).
    + cbn in Hend. by rewrite Hh2, Hh1 in Hend.
Qed.
End rsa.
End workers.

(** ** A concrete accelerator

    It answers the youngest command first, after one poll without a result. *)

Definition sample_product (a b : pka_operand) : pka_operand :=
  mk_operand [(operand_val a * operand_val b) mod 251] 1 1 0 false.
Definition sample_compute (c : pka_command) : Z * list pka_operand :=
  match c with
  | Modular_exp _ _ v | Modular_exp_crt v _ _ _ _ _ => (0, [v])
  | Pt_mult _ q k => (0, [sample_product (pt_x q) k; sample_product (pt_y q) k])
  | Mont_mult _ q k => (0, [sample_product q k])
  | Ecdsa_generate _ _ _ key h k => (0, [sample_product h k; sample_product key k])
  end.

Record sample_hw := mk_sample {
  sm_flight : list (option Z * pka_command);
  sm_history : list (option Z * pka_command);
  sm_wait : nat;
}.
(** It answers the last command first, at the second poll. *)
Definition accel_of (f : pka_command -> Z * list pka_operand) : Accelerator :=
  {| hw := sample_hw;
     hw_submit p c d := (0, mk_sample ((p, c) :: sm_flight d) (sm_history d ++ [(p, c)]) 1);
     hw_result d :=
       match sm_flight d, sm_wait d with
       | [], _ => (None, d)
       | _, S w => (None, mk_sample (sm_flight d) (sm_history d) w)
       | (p, c) :: fl, O => (Some (mk_result (fst (f c)) (opcode_of c) p (snd (f c))), mk_sample fl (sm_history d) 1)
       end |}.
Program Definition accel_of_laws f : @AccelLaws (accel_of f) :=
  {| in_flight := sm_flight : @hw (accel_of f) -> _;
     history := sm_history : @hw (accel_of f) -> _;
     delay := sm_wait : @hw (accel_of f) -> _;
     capacity := 512; valid c := True; compute := f |}.
Next Obligation. intros f p c d _ _. eexists _, _. split; [reflexivity|]. by split; [|split]. Qed.
Next Obligation.
  intros f [[|[p c] fl] h [|w]]; cbn; (split; [done|]); [by split..| |]; [by exists p, c|]. split; [done|intros _; lia].
Qed.
Definition sample_accel : Accelerator := accel_of sample_compute.
Definition sample_accel_laws : @AccelLaws sample_accel := accel_of_laws sample_compute.

Definition sample_bench : @bench sample_accel :=
  @mk_bench sample_accel (mk_sample [] [] 0) 7 7 [] [0; 0] [] 0 [] [] 0 0.
Definition sop (v : Z) : pka_operand := mk_operand [v] 1 1 0 false.
Definition spt (x y : Z) : ecc_point := mk_point (sop x) (sop y).

(** Two slots, five commands, results compared. *)
Lemma workers_complete_witness :
  completes (L := sample_accel_laws) 2 5 1
    (@P256worker sample_accel 2 5 1 true curve97 (Some <$> [spt 3 5; spt 4 6]) (Some <$> [sop 10; sop 20])
      (Some <$> [spt 30 50; spt 80 120]))
    (p256_job curve97 [spt 3 5; spt 4 6] [sop 10; sop 20]) sample_bench.
Proof.
  refine (proj1 (workers_complete (L := sample_accel_laws) 2 5 1 true _ _ curve97 (spt 1 2) (sop 97) (mk_mont (sop 97) (sop 3))
    [spt 3 5; spt 4 6] [spt 30 50; spt 80 120] [sop 10; sop 20] [sop 7; sop 8] [sop 2; sop 3] [sop 9; sop 11] [sop 5; sop 6]
    [sop 45; sop 66] [mk_sig (sop 14) (sop 20); mk_sig (sop 24) (sop 60)] sample_bench _ _)).
  1-3: by (cbn; lia) || done.
  assert (forall idx, 0 <= idx < 2 -> idx = 0 \/ idx = 1) as H01 by lia.
  split; [by repeat split|intros idx [-> | ->]%H01..]; (split; [done|]); vm_compute; repeat eexists; done.
Defined.

(** The same key for both operations, which here leave the number as it is. *)
Lemma RSAworker_completes_witness :
  exists msg job polls s',
    (forall fuel, (polls <= fuel)%nat ->
      @RSAworker sample_accel 2 5 1 true None None None None None (Some (sop 3)) (Some (sop 3)) (Some (sop 33))
        (zeros 48) false [77; 77] fuel sample_bench = Ret (tt, s')) /\
    Single.all_answered (L := sample_accel_laws) 2 5 1 (fun _ => job) [(None, Modular_exp (sop 3) (sop 33) msg)] [0; 0] s'.
Proof.
  destruct (RSAworker_completes (L := sample_accel_laws) 2 5 1 true ltac:(cbn; lia) ltac:(lia) None None None None None
    (Some (sop 3)) (Some (sop 3)) (Some (sop 33)) (zeros 48) false [77; 77] sample_bench (sop 3) (sop 33))
    as (msg & job & polls & s' & _ & Hrun & Hend).
  1-6: done || apply zeros_ok.
  - intros msg Hok Hlen Hbe Hv. split; [done|]. exists msg. split; [done|]. split; [done|]. intros ct Hct Hvc Hbc Hlc.
    exists (Modular_exp (sop 3) (sop 33) ct), ct. split; [done|]. split; [done|]. split; [done|].
    pose proof (ok_actual _ Hok). pose proof (ok_actual _ Hct). split; [lia|]. by apply same_number_bytes.
  - exists msg, job, polls, s'. by split.
Defined.
