(* ===== verification/PkaTls.v ===== *)
(** * The measuring workers for TLS 1.3 and for random numbers (pka_benchmark.c;
      helpers.c: [malloc_results])

    The worker that mixes signatures and multiplications as TLS 1.3 does
    ends like the others, copies results within the buffers [main] made and
    counts the commands that succeed; the worker that draws random numbers
    never ends. *)

From S2P Require Import Prelude Operand Bignum BignumEcc PkaBench.

(** ** The TLS 1.3 worker *)

#[export] Instance opcode_eq_dec : EqDecision pka_opcode.
Proof. solve_decision. Defined.

Definition n_op (o : pka_opcode) (l : list (option Z * pka_command)) : Z :=
  Z.of_nat (length (filter (fun x => opcode_of (snd x) = o) l)).
Lemma n_op_perm o l l' : l ≡ₚ l' -> n_op o l = n_op o l'.
Proof. intros Hp. unfold n_op. by rewrite Hp. Qed.
Lemma n_op_cons o x l : n_op o (x :: l) = (if decide (opcode_of (snd x) = o) then 1 else 0) + n_op o l.
Proof. unfold n_op. rewrite filter_cons. case_decide; cbn [length]; lia. Qed.

(** *** Private scalars *)
Definition scalar_ok (x : pka_operand) : Prop := (32 <= length (buf_ptr x))%nat.
Definition filled {A} (P : A -> Prop) (l : list (option A)) : Prop :=
  Forall (fun o => exists x, o = Some x /\ P x) l.

Lemma clamp_run b : (32 <= length b)%nat -> exists b', clamp b = Ret b' /\ length b' = length b.
Proof.
  intros Hb. unfold clamp. rewrite ld_in by lia. cbn [res_bind]. rewrite st_in by lia. cbn [res_bind].
  rewrite ld_in by (rewrite length_insert; lia). cbn [res_bind]. rewrite st_in by (rewrite length_insert; lia). cbn [res_bind].
  rewrite ld_in by (rewrite !length_insert; lia). cbn [res_bind]. rewrite st_in by (rewrite !length_insert; lia).
  eexists. split; [reflexivity|]. by rewrite !length_insert.
Qed.

Section scalars.
Context `{Accelerator} (C255_base_pt_order : pka_operand) (ring_order : bool) (hwrng : nat -> Z -> bytes).
Context (order_32 : operand_byte_len C255_base_pt_order = Ret 32) (rng_32 : forall n, length (hwrng n 32) = 32%nat).

(** A fresh scalar replaces the one at an index of the array. *)
Lemma draw_scalar_run idx (s : bench) : 0 <= idx < Z.of_nat (length (priv_x25519_0 s)) -> filled scalar_ok (priv_x25519_0 s) ->
  exists x, fresh_scalar C255_base_pt_order ring_order hwrng idx s =
      Ret (x, s <| draws ::= S |> <| priv_x25519_0 ::= insert (Z.to_nat idx) (Some x) |>) /\ scalar_ok x /\
    filled scalar_ok (<[Z.to_nat idx := Some x]> (priv_x25519_0 s)).
Proof.
  intros Hi Hf.
  destruct (lookup_lt_is_Some_2 (priv_x25519_0 s) (Z.to_nat idx)) as [o Eo]; [lia|].
  destruct (Forall_lookup_1 _ _ _ _ Hf Eo) as (x0 & -> & Hx0). unfold scalar_ok in Hx0. pose proof (rng_32 (draws s)) as Hr.
  destruct (clamp_run (hwrng (draws s) 32 ++ drop 32 (buf_ptr x0))) as (b & Eb & Hb');
    [rewrite length_app, length_drop; lia|].
  set (x := mk_operand b (buf_len x0) 32 (is_encrypted x0) ring_order). exists x.
  assert (scalar_ok x) as Hx by (unfold scalar_ok, x; cbn; rewrite Hb', length_app, length_drop; lia).
  split; [|split; [done|apply Forall_insert; [done|by exists x]]].
  unfold fresh_scalar. erewrite bind_ret by reflexivity. unfold elem. rewrite (proj2 (Z.leb_le _ _)), Eo by lia.
  erewrite bind_ret by reflexivity. erewrite bind_ret by reflexivity. erewrite bind_ret; [reflexivity|].
  unfold mres, rand_non_zero_integer_w_pka_hwrng_and_clamping. rewrite order_32. cbn [res_bind].
  unfold memcpy. rewrite !(proj2 (Z.leb_le _ _)) by lia. cbn [andb res_bind].
  change (Z.to_nat 32) with 32%nat. rewrite take_ge by lia. by rewrite Eb.
Qed.
End scalars.

(** *** Buffers for results (helpers.c; the loop of [main] that fills
    [memcpy_results]) *)
Section buffers.
Context (MAX_RESULT_CNT MAX_BYTE_LEN : Z).
Definition malloc_results (result_cnt buf_len : Z) : res (list pka_operand) :=
  if MAX_RESULT_CNT <? result_cnt then Fault Assert_failed
  else Ret (replicate (Z.to_nat result_cnt) (mk_operand (zeros (Z.to_nat buf_len)) buf_len 0 0 false)).
Definition init_memcpy_results : res (list (list pka_operand)) :=
  for_loop (Z.to_nat MAX_OUTSTANDING_CMD_NUM) 0 (fun i l =>
    res_bind (malloc_results MAX_RESULT_CNT (MAX_BYTE_LEN + 8)) (fun r => Ret (<[i := r]> l)))
    (replicate (Z.to_nat MAX_OUTSTANDING_CMD_NUM) []).

(** What every entry of [memcpy_results] looks like, and that [main] makes
    them so. *)
Definition shape (l : list (list pka_operand)) : Prop :=
  Z.of_nat (length l) = MAX_OUTSTANDING_CMD_NUM /\
  Forall (fun ops => Z.of_nat (length ops) = MAX_RESULT_CNT /\
    Forall (fun op => Z.of_nat (length (buf_ptr op)) = MAX_BYTE_LEN + 8) ops) l.
Lemma init_memcpy_shape l : 0 <= MAX_RESULT_CNT -> 0 <= MAX_BYTE_LEN -> init_memcpy_results = Ret l -> shape l.
Proof.
  intros Hc Hb. set (ops := replicate (Z.to_nat MAX_RESULT_CNT)
    (mk_operand (zeros (Z.to_nat (MAX_BYTE_LEN + 8))) (MAX_BYTE_LEN + 8) 0 0 false)).
  unfold init_memcpy_results. change (Z.to_nat MAX_OUTSTANDING_CMD_NUM) with 512%nat.
  destruct (for_loop_inv (fun i l => l = replicate i ops ++ replicate (512 - i) [])
    (fun i l => res_bind (malloc_results MAX_RESULT_CNT (MAX_BYTE_LEN + 8)) (fun r => Ret (<[i := r]> l))) 512 0 (replicate 512 []) eq_refl)
    as (l' & -> & ->).
  - intros i l' Hi ->. unfold malloc_results. rewrite Z.ltb_irrefl. cbn [res_bind]. eexists. split; [reflexivity|].
    replace (512 - i)%nat with (S (512 - S i)) by lia. cbn [replicate].
    rewrite insert_app_r_alt by (rewrite length_replicate; lia).
    rewrite length_replicate, Nat.sub_diag. cbn [insert list_insert]. fold ops. by rewrite replicate_cons_app, <-app_assoc.
  - rewrite Nat.sub_diag, app_nil_r. intros E. assert (l = replicate 512 ops) as -> by (symmetry; exact (f_equal (fun r => match r with Ret x => x | Fault _ => l end) E)). split; [by rewrite length_replicate|]. apply Forall_replicate. unfold ops.
    rewrite length_replicate. split; [lia|]. apply Forall_replicate. cbn. rewrite length_zeros. lia.
Qed.

(** Documented behaviour of [pka_get_result]: the operands it hands over are
    the first ones of the caller's [pka_results_t]; it writes their bytes and
    their [actual_len] and leaves the buffers and [buf_len] as the caller
    allocated them, here with [malloc_results]. *)
Definition delivered (rs : list pka_operand) : Prop :=
  exists bufs, malloc_results MAX_RESULT_CNT (MAX_BYTE_LEN + 8) = Ret bufs /\ (length rs <= length bufs)%nat /\
    Forall2 (fun b r => buf_len r = buf_len b /\ length (buf_ptr r) = length (buf_ptr b)) (take (length rs) bufs) rs.
Lemma delivered_fits rs : 0 <= MAX_RESULT_CNT -> 0 <= MAX_BYTE_LEN -> delivered rs ->
  Z.of_nat (length rs) <= MAX_RESULT_CNT /\
  Forall (fun r => buf_len r = MAX_BYTE_LEN + 8 /\ Z.of_nat (length (buf_ptr r)) = MAX_BYTE_LEN + 8) rs.
Proof.
  intros Hc Hb (bufs & E & Hl & Hf). unfold malloc_results in E. rewrite Z.ltb_irrefl in E. injection E as <-.
  rewrite length_replicate in Hl. split; [lia|]. rewrite take_replicate in Hf. apply Forall_forall. intros r Hr.
  apply list_elem_of_lookup_1 in Hr as [i Hi]. destruct (Forall2_lookup_r _ _ _ _ _ Hf Hi) as (b & Eb & H1 & H2).
  apply lookup_replicate in Eb as [-> _]. cbn [buf_len buf_ptr] in H1, H2. rewrite length_zeros in H2. lia.
Qed.
End buffers.

Section tls13.
Context `{Accelerator} {L : AccelLaws}.
Context (outstanding_cmd_num max_cmd_cnt : Z) (worker_id : nat).
Context (Hout : 0 < outstanding_cmd_num <= capacity) (Hmax : 0 <= max_cmd_cnt < 2 ^ 31).
Context (P256_curve : ecc_curve) (P256_base_pt : ecc_point) (P256_base_pt_order C255_base_pt_order : pka_operand)
  (X25519_curve : mont_curve) (ec_priv_key hash k remote_ec_pub_key_x25519 ec_priv_key_x25519_1 : list pka_operand)
  (ring_order : bool) (rand : nat -> Z) (hwrng : nat -> Z -> bytes).
Context (MAX_RESULT_CNT MAX_BYTE_LEN : Z) (Hcnt : 0 <= MAX_RESULT_CNT) (Hlen : 0 <= MAX_BYTE_LEN).
Abbreviation shaped := (shape MAX_RESULT_CNT MAX_BYTE_LEN).

(** A command of this worker; it may fail, and otherwise its operands come
    back in the buffers the worker allocated. *)
Definition succeeds (x : option Z * pka_command) : Prop := fst (compute (snd x)) = 0.
#[local] Instance succeeds_dec x : Decision (succeeds x).
Proof. unfold succeeds. apply _. Defined.
Definition fine (c : pka_command) : Prop :=
  (opcode_of c = CC_ECDSA_GENERATE \/ opcode_of c = CC_MONT_ECDH_MULTIPLY) /\
  (fst (compute c) = 0 -> delivered MAX_RESULT_CNT MAX_BYTE_LEN (snd (compute c))).

(** The keys in use: there are enough of them, the scalars have their 32
    bytes, and the accelerator takes every command made of them. *)
Record tls_keys_ok : Prop := mk_tls_keys_ok {
  tk_len : Forall (fun n => outstanding_cmd_num <= Z.of_nat n)
    [length ec_priv_key; length hash; length k; length remote_ec_pub_key_x25519; length ec_priv_key_x25519_1];
  tk_scalars : Forall scalar_ok ec_priv_key_x25519_1;
  tk_order : operand_byte_len C255_base_pt_order = Ret 32;
  tk_rng n : length (hwrng n 32) = 32%nat;
  tk_rand n : 0 <= rand n;
  tk_sign key h kk : key ∈ ec_priv_key -> h ∈ hash -> kk ∈ k ->
    valid (Ecdsa_generate P256_curve P256_base_pt P256_base_pt_order key h kk);
  tk_ecdh q x : q ∈ remote_ec_pub_key_x25519 -> scalar_ok x -> valid (Mont_mult X25519_curve q x);
  tk_delivered c : valid c -> fst (compute c) = 0 -> delivered MAX_RESULT_CNT MAX_BYTE_LEN (snd (compute c));
}.
Context (Hk : tls_keys_ok).

(** The commands of one kind that succeed. *)
Definition n_good (o : pka_opcode) (l : list (option Z * pka_command)) : Z := n_op o (filter succeeds l).
Lemma n_good_perm o l l' : l ≡ₚ l' -> n_good o l = n_good o l'.
Proof. intros Hp. unfold n_good. apply n_op_perm. by rewrite Hp. Qed.
Lemma n_good_cons o x l :
  n_good o (x :: l) = (if decide (succeeds x /\ opcode_of (snd x) = o) then 1 else 0) + n_good o l.
Proof. unfold n_good. rewrite filter_cons. repeat case_decide; rewrite ?n_op_cons; repeat case_decide; try tauto; lia. Qed.
Lemma n_good_range o l : 0 <= n_good o l <= n_op o l.
Proof.
  induction l as [|x l IH]; [by cbn|]. rewrite n_good_cons, n_op_cons. repeat case_decide; try tauto; lia.
Qed.
Lemma n_good_all o l : Forall succeeds l -> n_good o l = n_op o l.
Proof. induction 1 as [|x l Hx _ IH]; [done|]. rewrite n_good_cons, n_op_cons, IH. repeat case_decide; tauto || lia. Qed.

(** [h0] is what the accelerator had been sent before. *)
Record busy (h0 : list (option Z * pka_command)) (s : bench) : Prop := mk_busy {
  bz_cnt : 0 <= cnt s <= max_cmd_cnt;
  bz_cur : cur_command_cnt s = Z.of_nat (length (in_flight (accel s)));
  bz_out : cur_command_cnt s <= outstanding_cmd_num /\ cur_command_cnt s <= cnt s;
  bz_flight : Forall (fun x => fine (snd x)) (in_flight (accel s));
  bz_ops : exists h a b, history (accel s) = h0 ++ h /\
    n_op CC_ECDSA_GENERATE h = (cnt s + 2) / 3 /\ n_op CC_MONT_ECDH_MULTIPLY h = cnt s - (cnt s + 2) / 3 /\
    tls13_op_cnt s !! worker_id = Some (mk_op_cnt a b) /\ 0 <= a /\ 0 <= b /\
    a + n_good CC_ECDSA_GENERATE (in_flight (accel s)) = n_good CC_ECDSA_GENERATE h /\
    b + n_good CC_MONT_ECDH_MULTIPLY (in_flight (accel s)) = n_good CC_MONT_ECDH_MULTIPLY h;
  bz_priv : outstanding_cmd_num <= Z.of_nat (length (priv_x25519_0 s)) /\ filled scalar_ok (priv_x25519_0 s);
  bz_shape : shaped (memcpy_results s);
}.

(** *** Copying a result *)

Lemma rand_mod_run n (s : bench) : 0 < n ->
  exists r, 0 <= r < n /\ rand_mod rand n s = Ret (r, s <| draws ::= S |>).
Proof.
  intros Hn. exists (Z.rem (rand (draws s)) n). split; [|reflexivity].
  pose proof (tk_rand Hk (draws s)). rewrite Z.rem_mod_nonneg by lia. apply Z.mod_pos_bound. lia.
Qed.

Lemma upd_copy_run i f (s : bench) : shaped (memcpy_results s) -> Z.of_nat i < MAX_RESULT_CNT ->
  (forall op, Z.of_nat (length (buf_ptr op)) = MAX_BYTE_LEN + 8 ->
     exists op', f op = Ret op' /\ Z.of_nat (length (buf_ptr op')) = MAX_BYTE_LEN + 8) ->
  exists m d, upd_copy rand i f s = Ret (tt, s <| memcpy_results := m |> <| draws := d |>) /\ shaped m.
Proof.
  intros [Hl Hsh] Hi Hf. destruct (rand_mod_run MAX_OUTSTANDING_CMD_NUM s) as (r & Hr & Er); [done|].
  destruct (lookup_lt_is_Some_2 (memcpy_results s) (Z.to_nat r)) as [ops Eo]; [lia|].
  pose proof (Forall_lookup_1 _ _ _ _ Hsh Eo) as [Hl2 Hb].
  destruct (lookup_lt_is_Some_2 ops i) as [op Ei]; [lia|].
  destruct (Hf op (Forall_lookup_1 _ _ _ _ Hb Ei)) as (op' & Ef & Hop').
  exists (<[Z.to_nat r := <[i := op']> ops]> (memcpy_results s)), (S (draws s)). split.
  - unfold upd_copy. erewrite bind_ret by exact Er. erewrite bind_ret by reflexivity.
    change (memcpy_results (s <| draws ::= S |>)) with (memcpy_results s). rewrite Eo, Ei.
    erewrite bind_ret by (unfold mres; rewrite Ef; reflexivity). by destruct s.
  - split; [by rewrite length_insert|]. apply Forall_insert; [done|]. rewrite length_insert. split; [done|].
    by apply Forall_insert.
Qed.

Lemma copied_results_run rs i (s : bench) : shaped (memcpy_results s) -> Forall (fun r => buf_len r = MAX_BYTE_LEN + 8 /\ Z.of_nat (length (buf_ptr r)) = MAX_BYTE_LEN + 8) rs -> Z.of_nat (i + length rs) <= MAX_RESULT_CNT ->
  exists m d, copy_results rand i rs s = Ret (tt, s <| memcpy_results := m |> <| draws := d |>) /\ shaped m.
Proof.
  intros Hs Hf. revert i s Hs. induction Hf as [|r rs Hr _ IH]; intros i s Hs Hi; cbn [length copy_results] in *.
  { exists (memcpy_results s), (draws s). split; [by destruct s|done]. }
  destruct (upd_copy_run i (fun op => Ret (op <| buf_len := buf_len r |>)) s Hs ltac:(lia)) as (m1 & d1 & E1 & H1);
    [intros op Hop; by eexists|].
  pose (s1 := s <| memcpy_results := m1 |> <| draws := d1 |>).
  destruct (upd_copy_run i (fun op => Ret (op <| actual_len := actual_len r |>))
    s1 H1 ltac:(lia)) as (m2 & d2 & E2 & H2); [intros op Hop; by eexists|].
  pose (s2 := s <| memcpy_results := m2 |> <| draws := d2 |>).
  destruct (upd_copy_run i (fun op => res_bind (memcpy (buf_ptr op) (buf_ptr r) (buf_len r)) (fun b =>
      Ret (op <| buf_ptr := b |>))) s2 H2 ltac:(lia)) as (m3 & d3 & E3 & H3).
  { intros op Hop. destruct Hr as [Hr1 Hr2]. unfold memcpy. rewrite !(proj2 (Z.leb_le _ _)) by lia. cbn [andb res_bind].
    eexists. split; [reflexivity|]. cbn. rewrite length_app, length_take, length_drop. lia. }
  pose (s3 := s <| memcpy_results := m3 |> <| draws := d3 |>). destruct (IH (S i) s3 H3 ltac:(lia)) as (m4 & d4 & E4 & H4).
  exists m4, d4. split; [|done]. erewrite bind_ret by exact E1. erewrite bind_ret by exact E2.
  erewrite bind_ret by exact E3. exact E4.
Qed.

(** *** Answers *)

Lemma count_op_run o (s : bench) a b : (o = CC_ECDSA_GENERATE \/ o = CC_MONT_ECDH_MULTIPLY) ->
  tls13_op_cnt s !! worker_id = Some (mk_op_cnt a b) -> 0 <= a < 2 ^ 32 -> 0 <= b < 2 ^ 32 ->
  exists l, count_op worker_id o s = Ret (tt, s <| tls13_op_cnt := l |>) /\
    l !! worker_id = Some (mk_op_cnt (a + if decide (o = CC_ECDSA_GENERATE) then 1 else 0)
                                     (b + if decide (o = CC_MONT_ECDH_MULTIPLY) then 1 else 0)).
Proof.
  intros Ho Hl Ha Hb. set (f n := match o with
    | CC_ECDSA_GENERATE => mk_op_cnt (u64 (ecdsa_done n + 1)) (ecdh_done n)
    | _ => mk_op_cnt (ecdsa_done n) (u64 (ecdh_done n + 1)) end).
  exists (alter f worker_id (tls13_op_cnt s)). split; [by destruct Ho as [-> | ->]|].
  rewrite list_lookup_alter, decide_True, Hl by done. unfold f, u64. cbn.
  by destruct Ho as [-> | ->]; cbn; rewrite Z.mod_small, Z.add_0_r by lia.
Qed.

Lemma busy_answer h0 (s : bench) ptr c d succ :
  busy h0 s -> in_flight (accel s) ≡ₚ (ptr, c) :: in_flight d -> history d = history (accel s) ->
  exists s', (if negb (fst (compute c) =? 0) then ret tt else copy_results rand 0 (snd (compute c)) ;;; count_op worker_id (opcode_of c))
      (s <| accel := d |> <| pka_get_result_success_cnt := succ |> <| cur_command_cnt := Z.pred (cur_command_cnt s) |>)
    = Ret (tt, s') /\ busy h0 s' /\ cnt s' = cnt s /\ cur_command_cnt s' = cur_command_cnt s - 1.
Proof.
  intros [Hc Hu Ho Hf Hop Hp Hs] Hfl Hh. pose proof Hf as Hf'. rewrite Hfl in Hf'. apply Forall_cons in Hf' as [[Hoc Hdel] Hf'].
  cbn [snd] in Hoc, Hdel. destruct Hop as (h & a & b & Eh & Hn1 & Hn2 & Hl & Ha & Hb & Ea & Eb).
  rewrite (n_good_perm _ _ _ Hfl), n_good_cons in Ea. rewrite (n_good_perm _ _ _ Hfl), n_good_cons in Eb. cbn [snd] in Ea, Eb. rewrite <-Hh in Eh.
  assert (0 <= (cnt s + 2) / 3 <= cnt s) as Hd.
  { pose proof (Z.div_mod (cnt s + 2) 3). pose proof (Z.mod_pos_bound (cnt s + 2) 3). lia. }
  pose proof (n_good_range CC_ECDSA_GENERATE (in_flight d)). pose proof (n_good_range CC_MONT_ECDH_MULTIPLY (in_flight d)).
  pose proof (n_good_range CC_ECDSA_GENERATE h). pose proof (n_good_range CC_MONT_ECDH_MULTIPLY h).
  apply Permutation_length in Hfl. cbn [length] in Hfl.
  set (s1 := s <| accel := d |> <| pka_get_result_success_cnt := succ |> <| cur_command_cnt := Z.pred (cur_command_cnt s) |>).
  unfold succeeds in Ea, Eb. cbn [snd] in Ea, Eb. destruct (Z.eqb_spec (fst (compute c)) 0) as [Est|Est]; cbn [negb].
  - destruct (delivered_fits _ _ _ Hcnt Hlen (Hdel Est)) as [Hlr Hfit].
    destruct (copied_results_run (snd (compute c)) 0 s1 Hs Hfit ltac:(lia)) as (m & dr & Ecp & Hm).
    set (s2 := s1 <| memcpy_results := m |> <| draws := dr |>) in *.
    destruct (count_op_run (opcode_of c) s2 a b Hoc Hl) as (l & Ecn & El); [repeat case_decide; lia..|].
    exists (s2 <| tls13_op_cnt := l |>). split; [by erewrite bind_ret by exact Ecp|].
    split; [|by split; [|cbn; lia]]. split; cbn; [done|lia|lia|done| |done|done].
    eexists h, _, _. split; [exact Eh|]. do 2 (split; [done|]). split; [exact El|]. repeat case_decide; try tauto; lia.
  - exists s1. split; [done|]. split; [|by split; [|cbn; lia]]. split; cbn; [done|lia|lia|done| |done|done].
    exists h, a, b. split; [exact Eh|]. do 4 (split; [done|]). split; [done|]. repeat case_decide; try tauto; lia.
Qed.

Lemma tls_drain_run fuel h0 (s : bench) : busy h0 s -> cur_command_cnt s < Z.of_nat fuel ->
  exists s', drain_loop worker_id rand fuel s = Ret (tt, s') /\ busy h0 s' /\ cnt s' = cnt s /\
    cur_command_cnt s' <= cur_command_cnt s /\
    (0 < cur_command_cnt s -> cur_command_cnt s' < cur_command_cnt s \/
       cur_command_cnt s' = cur_command_cnt s /\ (delay (accel s') < delay (accel s))%nat).
Proof.
  revert s. induction fuel as [|fuel IH]; intros s Hb Hf; pose proof (bz_cur h0 s Hb) as Hu; [lia|].
  cbn [drain_loop]. erewrite bind_ret by reflexivity. destruct (Z.ltb_spec 0 (cur_command_cnt s)) as [Hpos|Hz]; cbn [negb].
  2: { exists s. split; [done|]. split; [done|]. split; [done|]. split; [lia|]. intros Hpos. lia. }
  pose proof (result_law (accel s)) as Hr. destruct (hw_result (accel s)) as [[r|] d] eqn:Ed; destruct Hr as [Hh Hr];
    erewrite bind_ret by (unfold lib; rewrite Ed; reflexivity).
  - destruct Hr as (ptr & c & Hp & ->). erewrite bind_ret by reflexivity. erewrite bind_ret by reflexivity.
    destruct (busy_answer h0 s ptr c d (u64 (pka_get_result_success_cnt s + 1)) Hb Hp Hh) as (s1 & E1 & Hb1 & Ec & Eu).
    cbn [status results opcode]. erewrite bind_ret by exact E1.
    destruct (IH s1 Hb1 ltac:(lia)) as (s' & E & Hb' & Ec' & Eu' & _).
    exists s'. split; [exact E|]. split; [done|]. split; [congruence|]. lia.
  - destruct Hr as [Hp Hd]. eexists. split; [reflexivity|]. destruct Hb as [Hc Hu' Ho Hfl Hop Hpr Hs].
    split; [|split; [done|split; [done|intros _; right; split; [done|]]]].
    + split; cbn; [done|by rewrite Hp|done|by rewrite Hp| |done|done].
      destruct Hop as (h & a & b & Eh & Hop). exists h, a, b. rewrite Hh. split; [done|]. by rewrite !(n_good_perm _ _ _ Hp).
    + apply Hd. intros E. rewrite E in Hu. cbn in Hu. lia.
Qed.

(** *** Commands *)

Lemma div3_succ n : 0 <= n -> (n + 1 + 2) / 3 = (n + 2) / 3 + if decide (Z.rem n 3 = 0) then 1 else 0.
Proof.
  intros Hn. rewrite Z.rem_mod_nonneg by lia. pose proof (Z.div_mod n 3 ltac:(lia)). pose proof (Z.mod_pos_bound n 3 ltac:(lia)).
  set (q := n / 3) in *. set (r := n mod 3) in *.
  assert (r = 0 \/ r = 1 \/ r = 2) as [E|[E|E]] by lia; rewrite E; cbn [decide];
    [rewrite decide_True by done|rewrite decide_False by done..].
  - rewrite <-(Z.div_unique (n + 1 + 2) 3 (q + 1) 0), <-(Z.div_unique (n + 2) 3 q 2) by lia. lia.
  - rewrite <-(Z.div_unique (n + 1 + 2) 3 (q + 1) 1), <-(Z.div_unique (n + 2) 3 (q + 1) 0) by lia. lia.
  - rewrite <-(Z.div_unique (n + 1 + 2) 3 (q + 1) 2), <-(Z.div_unique (n + 2) 3 (q + 1) 1) by lia. lia.
Qed.

(** The state when a command reaches the library. *)
Lemma n_op_snoc o l x : n_op o (l ++ [x]) = (if decide (opcode_of (snd x) = o) then 1 else 0) + n_op o l.
Proof. rewrite (n_op_perm o _ (x :: l)); [apply n_op_cons|]. by rewrite Permutation_app_comm. Qed.
Lemma busy_submit h0 ptr c (s s1 : bench) : busy h0 s -> cur_command_cnt s < outstanding_cmd_num -> cnt s < max_cmd_cnt ->
  accel s1 = accel s -> cnt s1 = cnt s -> cur_command_cnt s1 = cur_command_cnt s ->
  tls13_op_cnt s1 = tls13_op_cnt s -> memcpy_results s1 = memcpy_results s ->
  outstanding_cmd_num <= Z.of_nat (length (priv_x25519_0 s1)) /\ filled scalar_ok (priv_x25519_0 s1) ->
  valid c -> opcode_of c = (if Z.rem (cnt s) 3 =? 0 then CC_ECDSA_GENERATE else CC_MONT_ECDH_MULTIPLY) ->
  exists rc d, lib (hw_submit ptr c) s1 = Ret (rc, s1 <| accel := d |>) /\ 0 <= rc /\
    busy h0 (s1 <| accel := d |> <| cnt ::= Z.succ |> <| cur_command_cnt ::= Z.succ |>).
Proof.
  intros [Hc Hu Ho Hf (h & a & b & Eh & Hn1 & Hn2 & Hl & Ha & Hb & Ea & Eb) Hp Hs] Hlt Hlt2 E1 E2 E3 E4 E5 Hp1 Hv Hop.
  destruct (submit_law ptr c (accel s)) as (rc & d & Es & Hrc & Hfl & Hh); [lia|done|].
  exists rc, d. split; [unfold lib; by rewrite E1, Es|]. split; [done|].
  split; cbn; rewrite ?E2, ?E3, ?E4, ?E5; [lia| |lia| | |done|done].
  - rewrite Hfl. cbn [length]. lia.
  - rewrite Hfl. constructor; [|done]. split; [|by apply (tk_delivered Hk)]. cbn [snd]. rewrite Hop. destruct (_ =? _); auto.
  - exists (h ++ [(ptr, c)]), a, b. split; [by rewrite Hh, Eh, app_assoc|].
    rewrite !n_op_snoc, !(n_good_perm _ (h ++ _) ((ptr, c) :: h)) by (by rewrite Permutation_app_comm).
    rewrite !(n_good_perm _ _ _ Hfl), !n_good_cons. cbn [snd]. rewrite <-Z.add_1_r, div3_succ by lia. rewrite Hop.
    destruct (Z.eqb_spec (Z.rem (cnt s) 3) 0) as [Ez|Ez]; repeat case_decide; try tauto; try done;
      (do 2 (split; [lia|])); (split; [done|]); lia.
Qed.

Lemma fresh_scalar_run h0 idx (s : bench) : busy h0 s -> 0 <= idx < outstanding_cmd_num ->
  exists x, fresh_scalar C255_base_pt_order ring_order hwrng idx s =
      Ret (x, s <| draws ::= S |> <| priv_x25519_0 ::= insert (Z.to_nat idx) (Some x) |>) /\ scalar_ok x /\
    outstanding_cmd_num <= Z.of_nat (length (<[Z.to_nat idx := Some x]> (priv_x25519_0 s))) /\
    filled scalar_ok (<[Z.to_nat idx := Some x]> (priv_x25519_0 s)).
Proof.
  intros Hb Hi. destruct (bz_priv h0 s Hb) as [Hl Hf].
  destruct (draw_scalar_run C255_base_pt_order ring_order hwrng (tk_order Hk) (tk_rng Hk) idx s) as (x & E & Hx & Hf');
    [lia|done|]. exists x. by rewrite length_insert.
Qed.

Lemma busy_send h0 (s : bench) : busy h0 s -> cnt s < max_cmd_cnt -> cur_command_cnt s < outstanding_cmd_num ->
  let send := tls13_send P256_curve P256_base_pt P256_base_pt_order C255_base_pt_order X25519_curve (Some <$> ec_priv_key)
    (Some <$> hash) (Some <$> k) (Some <$> remote_ec_pub_key_x25519) (Some <$> ec_priv_key_x25519_1) ring_order rand hwrng in
  exists s', submit_one outstanding_cmd_num send s = Ret (tt, s') /\ busy h0 s' /\ cnt s' = cnt s + 1 /\
    cur_command_cnt s' = cur_command_cnt s + 1.
Proof.
  intros Hb Hlt Hlt2 send. pose proof (bz_cnt h0 s Hb) as Hc. set (idx := cnt s mod outstanding_cmd_num).
  assert (0 <= idx < outstanding_cmd_num) as Hi by (apply Z.mod_pos_bound; lia).
  pose proof (tk_len Hk) as Hl. rewrite !Forall_cons in Hl. destruct Hl as (L1 & L2 & L3 & L4 & L5 & _).
  assert (exists rc d s1, send idx s = Ret (rc, s1 <| accel := d |>) /\ 0 <= rc /\ cnt s1 = cnt s /\
    cur_command_cnt s1 = cur_command_cnt s /\ busy h0 (s1 <| accel := d |> <| cnt ::= Z.succ |> <| cur_command_cnt ::= Z.succ |>))
    as (rc & d & s1 & E & Hrc & Ec & Eu & Hb').
  2: { eexists. split; [|split; [exact Hb'|split; cbn; lia]]. unfold submit_one. erewrite bind_ret by reflexivity.
       unfold mod_int. rewrite (proj2 (Z.eqb_neq _ _)) by lia. erewrite bind_ret by reflexivity.
       rewrite Z.rem_mod_nonneg by lia. fold idx. erewrite bind_ret by exact E. by rewrite (proj2 (Z.ltb_ge _ _)) by lia. }
  assert (Z.rem (cnt s) 3 = 0 \/ Z.rem (cnt s) 3 <> 0) as [Hz|Hz] by lia.
  - assert (valid (Ecdsa_generate P256_curve P256_base_pt P256_base_pt_order (ec_priv_key !!! Z.to_nat idx)
      (hash !!! Z.to_nat idx) (k !!! Z.to_nat idx))) as Hv by (apply (tk_sign Hk); apply list_elem_of_lookup_total_2; lia).
    destruct (rand_mod_run USER_DATA_NUM s) as (ptr & _ & Er); [done|].
    pose (s1 := s <| draws ::= S |>). destruct (busy_submit h0 (Some ptr) _ s s1 Hb Hlt2 Hlt eq_refl eq_refl eq_refl eq_refl eq_refl (bz_priv h0 s Hb) Hv)
      as (rc & d & E & Hrc & Hb'); [by rewrite Hz|]. exists rc, d, s1.
    split; [|split; [done|split; [done|split; [done|exact Hb']]]].
    unfold send, tls13_send. erewrite bind_ret by reflexivity. rewrite Hz. cbn [Z.eqb]. unfold tls13_sign.
    do 3 (erewrite bind_ret by (rewrite elem_run by lia; reflexivity)). erewrite bind_ret by exact Er. exact E.
  - assert (forall x (s2 : bench), scalar_ok x -> accel s2 = accel s -> cnt s2 = cnt s -> cur_command_cnt s2 = cur_command_cnt s ->
      tls13_op_cnt s2 = tls13_op_cnt s -> memcpy_results s2 = memcpy_results s ->
      outstanding_cmd_num <= Z.of_nat (length (priv_x25519_0 s2)) /\ filled scalar_ok (priv_x25519_0 s2) ->
      exists rc d s1, tls13_ecdh X25519_curve (Some <$> remote_ec_pub_key_x25519) rand idx x s2 = Ret (rc, s1 <| accel := d |>) /\
        0 <= rc /\ cnt s1 = cnt s /\ cur_command_cnt s1 = cur_command_cnt s /\
        busy h0 (s1 <| accel := d |> <| cnt ::= Z.succ |> <| cur_command_cnt ::= Z.succ |>)) as Hecdh.
    { intros x s2 Hx E1 E2 E3 E4 E5 Hp. assert (valid (Mont_mult X25519_curve (remote_ec_pub_key_x25519 !!! Z.to_nat idx) x)) as Hv
        by (apply (tk_ecdh Hk); [apply list_elem_of_lookup_total_2; lia|done]).
      destruct (rand_mod_run USER_DATA_NUM s2) as (ptr & _ & Er); [done|].
      pose (s1 := s2 <| draws ::= S |>). destruct (busy_submit h0 (Some ptr) _ s s1 Hb Hlt2 Hlt E1 E2 E3 E4 E5 Hp Hv)
        as (rc & d & E & Hrc & Hb'); [by rewrite (proj2 (Z.eqb_neq _ _))|]. exists rc, d, s1.
      split; [|split; [done|split; [done|split; [done|exact Hb']]]].
      unfold tls13_ecdh. erewrite bind_ret by (rewrite elem_run by lia; reflexivity). erewrite bind_ret by exact Er. exact E. }
    unfold send, tls13_send. erewrite bind_ret by reflexivity. rewrite (proj2 (Z.eqb_neq _ _)) by done.
    destruct (Z.rem (cnt s + 1) 3 =? 0).
    + destruct (fresh_scalar_run h0 idx s Hb Hi) as (x & Ex & Hx & Hp). erewrite bind_ret by exact Ex. by apply Hecdh.
    + erewrite bind_ret by (rewrite elem_run by lia; reflexivity). apply Hecdh; try done; [|apply Hb].
      apply (Forall_lookup_1 _ _ (Z.to_nat idx) _ (tk_scalars Hk)).
      destruct (lookup_lt_is_Some_2 ec_priv_key_x25519_1 (Z.to_nat idx)) as [y Ey]; [lia|].
      by rewrite (list_lookup_total_correct _ _ _ Ey).
Qed.

(** C23: the TLS 1.3 worker returns however slowly and in whatever order the
    accelerator answers, provided it takes every command made of the keys and
    hands the results over in the buffers of the caller. Every command has been
    answered; a third of them, rounded up, are signatures and the others
    multiplications, the counters hold how many of each succeeded, and no copy
    of a result leaves the buffers that [main] allocated. So when all commands
    succeed, 3 * m of them count as m sessions. *)
Theorem TLS13worker_completes (s : bench) :
  in_flight (accel s) = [] -> tls13_op_cnt s !! worker_id = Some (mk_op_cnt 0 0) ->
  outstanding_cmd_num <= Z.of_nat (length (priv_x25519_0 s)) -> filled scalar_ok (priv_x25519_0 s) ->
  init_memcpy_results MAX_RESULT_CNT MAX_BYTE_LEN = Ret (memcpy_results s) ->
  exists n s' h, (forall fuel, (n <= fuel)%nat ->
      TLS13worker outstanding_cmd_num max_cmd_cnt worker_id P256_curve P256_base_pt P256_base_pt_order C255_base_pt_order
        X25519_curve (Some <$> ec_priv_key) (Some <$> hash) (Some <$> k) (Some <$> remote_ec_pub_key_x25519)
        (Some <$> ec_priv_key_x25519_1) ring_order rand hwrng fuel s = Ret (tt, s')) /\
    in_flight (accel s') = [] /\ cnt s' = max_cmd_cnt /\ history (accel s') = history (accel s) ++ h /\
    n_op CC_ECDSA_GENERATE h = (max_cmd_cnt + 2) / 3 /\ n_op CC_MONT_ECDH_MULTIPLY h = max_cmd_cnt - (max_cmd_cnt + 2) / 3 /\
    tls13_op_cnt s' !! worker_id = Some (mk_op_cnt (n_good CC_ECDSA_GENERATE h) (n_good CC_MONT_ECDH_MULTIPLY h)) /\
    (Forall succeeds h ->
       tls13_op_cnt s' !! worker_id = Some (mk_op_cnt ((max_cmd_cnt + 2) / 3) (max_cmd_cnt - (max_cmd_cnt + 2) / 3))).
Proof.
  intros Hf Ho Hp1 Hp2 Hs%init_memcpy_shape; [|done..]. set (h0 := history (accel s)).
  set (s0 := s <| cnt := 0 |> <| cur_command_cnt := 0 |> <| user_data := seqZ 0 USER_DATA_NUM |>).
  assert (busy h0 s0) as Hb.
  { split; cbn -[seqZ]; rewrite ?Hf; try done; try lia. exists [], 0, 0. rewrite app_nil_r. split; [done|]. by cbn. }
  destruct (Loop.bench_loop_ends outstanding_cmd_num max_cmd_cnt ltac:(lia)
    (tls13_send P256_curve P256_base_pt P256_base_pt_order C255_base_pt_order X25519_curve (Some <$> ec_priv_key)
      (Some <$> hash) (Some <$> k) (Some <$> remote_ec_pub_key_x25519) (Some <$> ec_priv_key_x25519_1) ring_order rand hwrng)
    (drain_loop worker_id rand (S (Z.to_nat outstanding_cmd_num))) (busy h0)) with (s := s0) as (n & s' & Hrun & Hb' & Ec & Eu).
  - intros s1 [? ? ? ? ? ? ?]. lia.
  - intros s1. apply busy_send.
  - intros s1 Hb1 Hpos. pose proof (bz_out h0 s1 Hb1). destruct (tls_drain_run (S (Z.to_nat outstanding_cmd_num)) h0 s1 Hb1 ltac:(lia))
      as (s2 & E & Hb2 & Ec & Hle & Hprog). exists s2. by auto.
  - done.
  - destruct Hb' as [_ Hu _ _ (h & a & b & Eh & Hn1 & Hn2 & Hl & _ & _ & Ea & Eb) _ _]. rewrite Eu in Hu. rewrite Ec in Hn1, Hn2.
    exists n, s', h. split; [exact Hrun|]. assert (in_flight (accel s') = []) as Hn by (apply length_zero_iff_nil; lia).
    rewrite Hn in Ea, Eb. change (n_good CC_ECDSA_GENERATE []) with 0 in Ea. change (n_good CC_MONT_ECDH_MULTIPLY []) with 0 in Eb.
    rewrite Z.add_0_r in Ea, Eb. rewrite Hl, Ea, Eb. do 6 (split; [done|]).
    intros Hall. by rewrite !n_good_all, Hn1, Hn2 by done.
Qed.
End tls13.

(** ** Random numbers *)
Section random.
Context `{Accelerator}.
Context (outstanding_cmd_num max_cmd_cnt : Z) (worker_id : nat) (hwrng : nat -> Z -> bytes).
Context (Hout : 0 < outstanding_cmd_num) (Hmax : 0 < max_cmd_cnt < 2 ^ 31) (Hrng : forall n, length (hwrng n 32) = 32%nat).

Record drawing (n : Z) (s : bench) : Prop := mk_drawing {
  dw_cnt : cnt s = n;
  dw_cur : cur_command_cnt s = n;
  dw_priv : outstanding_cmd_num <= Z.of_nat (length (priv_x25519_0 s)) /\ filled scalar_ok (priv_x25519_0 s);
}.

Lemma rand_one_run n s : drawing n s -> 0 <= n ->
  if n + 1 <? 2 ^ 31
  then exists s', rand_one outstanding_cmd_num worker_id hwrng s = Ret (tt, s') /\ drawing (n + 1) s'
  else rand_one outstanding_cmd_num worker_id hwrng s = Fault Undefined_value.
Proof.
  intros [Hc Hu [Hl Hf]] Hn. set (idx := n mod outstanding_cmd_num).
  assert (0 <= idx < outstanding_cmd_num) as Hi by (apply Z.mod_pos_bound; lia).
  destruct (lookup_lt_is_Some_2 (priv_x25519_0 s) (Z.to_nat idx)) as [o Eo]; [lia|].
  destruct (Forall_lookup_1 _ _ _ _ Hf Eo) as (x & -> & Hx). unfold scalar_ok in Hx.
  set (b := hwrng (draws s) 32 ++ drop 32 (buf_ptr x)).
  assert (memcpy (buf_ptr x) (hwrng (draws s) 32) 32 = Ret b) as Em.
  { unfold memcpy. rewrite Hrng, !(proj2 (Z.leb_le _ _)) by lia. cbn [andb]. change (Z.to_nat 32) with 32%nat.
    by rewrite take_ge by (rewrite Hrng; lia). }
  pose (s1 := s <| draws ::= S |> <| priv_x25519_0 ::= insert (Z.to_nat idx) (Some (x <| buf_ptr := b |>)) |>).
  assert (rand_one outstanding_cmd_num worker_id hwrng s =
    (do c <- int_succ (cnt s1); do u <- int_succ (cur_command_cnt s1);
     mmod (fun s => s <| cnt := c |> <| cur_command_cnt := u |> <| cmd_cnt ::= alter (fun c => u64 (c + 1)) worker_id |>)) s1) as Er.
  { unfold rand_one. erewrite bind_ret by reflexivity. unfold mod_int. rewrite (proj2 (Z.eqb_neq _ _)) by lia.
    erewrite bind_ret by reflexivity. rewrite Hc, Z.rem_mod_nonneg by lia. fold idx. unfold elem.
    rewrite (proj2 (Z.leb_le _ _)), Eo by lia. erewrite bind_ret by reflexivity. erewrite bind_ret by reflexivity.
    erewrite bind_ret by (unfold mres; rewrite Em; reflexivity). erewrite bind_ret by reflexivity. by cbn; rewrite Hc. }
  rewrite Er. unfold int_succ. cbn [cnt cur_command_cnt s1]. change (cnt s1) with (cnt s).
  change (cur_command_cnt s1) with (cur_command_cnt s). rewrite Hc, Hu.
  destruct (n + 1 <? 2 ^ 31); [|done]. eexists. split; [reflexivity|]. split; cbn; [done|done|].
  rewrite length_insert. split; [done|]. apply Forall_insert; [done|]. eexists. split; [done|].
  unfold scalar_ok, b. cbn. rewrite length_app, length_drop, Hrng. lia.
Qed.

Lemma rand_loop_run fuel n s : 0 <= n < 2 ^ 31 -> drawing n s ->
  rand_loop outstanding_cmd_num max_cmd_cnt worker_id hwrng fuel s =
    Fault (if n + Z.of_nat fuel <? 2 ^ 31 then Out_of_fuel else Undefined_value).
Proof.
  revert n s. induction fuel as [|fuel IH]; intros n s Hn Hs; cbn [rand_loop].
  { by rewrite (proj2 (Z.ltb_lt _ _)) by lia. }
  erewrite bind_ret by reflexivity.
  assert ((cnt s <? max_cmd_cnt) || (0 <? cur_command_cnt s) = true) as ->.
  { rewrite (dw_cnt n s Hs), (dw_cur n s Hs). apply orb_true_iff. rewrite !Z.ltb_lt. lia. }
  pose proof (rand_one_run n s Hs ltac:(lia)) as Hr. destruct (Z.ltb_spec (n + 1) (2 ^ 31)) as [Hlt|Hge].
  - destruct Hr as (s' & E & Hs'). erewrite bind_ret by exact E. rewrite (IH (n + 1) s') by (done || lia).
    by replace (n + 1 + Z.of_nat fuel) with (n + Z.of_nat (S fuel)) by lia.
  - erewrite bind_fault by exact Hr. by rewrite (proj2 (Z.ltb_ge _ _)) by lia.
Qed.

(** [RANDworker] never returns: after the configured number of turns the
    condition of its loop still holds, because [cur_command_cnt] only grows, and
    it goes on drawing random numbers until the counter passes the largest
    [int], which is undefined behaviour. *)
Theorem RANDworker_never_ends fuel (s : bench) :
  outstanding_cmd_num <= Z.of_nat (length (priv_x25519_0 s)) -> filled scalar_ok (priv_x25519_0 s) ->
  RANDworker outstanding_cmd_num max_cmd_cnt worker_id hwrng fuel s =
    Fault (if Z.of_nat fuel <? 2 ^ 31 then Out_of_fuel else Undefined_value).
Proof.
  intros Hl Hf. unfold RANDworker. erewrite bind_ret by reflexivity. by apply (rand_loop_run fuel 0).
Qed.
End random.

(** ** Witnesses *)

(** The accelerator of [PkaBench] writing into buffers of 16 bytes, which
    refuses to sign with the key 20. *)
Definition in_buffer (r : pka_operand) : pka_operand := mk_operand (wr (zeros 16) 0 (take 16 (buf_ptr r))) 16 (actual_len r) 0 false.
Definition tls_compute (c : pka_command) : Z * list pka_operand :=
  (match c with Ecdsa_generate _ _ _ key _ _ => if operand_val key =? 20 then 1 else 0 | _ => 0 end,
   take 2 (in_buffer <$> snd (sample_compute c))).
Definition tls_accel : Accelerator := accel_of tls_compute.
Definition tls_accel_laws : @AccelLaws tls_accel := accel_of_laws tls_compute.
Lemma tls_compute_delivered c : delivered 2 8 (snd (tls_compute c)).
Proof.
  assert (forall r, length (buf_ptr (in_buffer r)) = 16%nat) as Hr.
  { intros r. cbn [in_buffer buf_ptr]. unfold wr. rewrite !length_app, length_take, length_drop, length_zeros, length_take. lia. }
  unfold delivered, tls_compute, malloc_results. cbn [snd Z.ltb Z.compare Pos.compare Pos.compare_cont]. eexists. split; [reflexivity|].
  rewrite length_replicate, length_take. split; [lia|].
  destruct (snd (sample_compute c)) as [|r1 [|r2 rs]]; cbn [fmap list_fmap take length Nat.min]; repeat constructor; apply Hr.
Qed.

Definition tls_bench : @bench tls_accel :=
  @mk_bench tls_accel (mk_sample [] [] 0) 7 7 [] [0; 0] [Some (mk_operand (zeros 40) 40 0 0 false); Some (mk_operand (zeros 40) 40 0 0 false)]
    0 (replicate 512 (replicate 2 (mk_operand (zeros 16) 16 0 0 false))) [mk_op_cnt 0 0] 0 0.
Definition scalar40 : pka_operand := mk_operand (replicate 40 9) 40 32 0 false.

(** Seven commands: three signatures, of which one fails, and four
    multiplications. *)
Lemma TLS13worker_completes_witness :
  exists n s' h, (forall fuel, (n <= fuel)%nat ->
      @TLS13worker tls_accel 2 7 0 curve97 (spt 1 2) (sop 97) scalar40 (mk_mont (sop 97) (sop 3)) (Some <$> [sop 10; sop 20])
        (Some <$> [sop 7; sop 8]) (Some <$> [sop 2; sop 3]) (Some <$> [sop 9; sop 11]) (Some <$> [scalar40; scalar40])
        false Z.of_nat (fun _ n => replicate (Z.to_nat n) 5) fuel tls_bench = Ret (tt, s')) /\
    n_op CC_ECDSA_GENERATE h = 3 /\
    tls13_op_cnt s' !! 0%nat = Some (mk_op_cnt (n_good (L := tls_accel_laws) CC_ECDSA_GENERATE h) (n_good (L := tls_accel_laws) CC_MONT_ECDH_MULTIPLY h)).
Proof.
  destruct (@TLS13worker_completes tls_accel tls_accel_laws 2 7 0 ltac:(cbn; lia) ltac:(lia) curve97 (spt 1 2) (sop 97)
    scalar40 (mk_mont (sop 97) (sop 3)) [sop 10; sop 20] [sop 7; sop 8] [sop 2; sop 3] [sop 9; sop 11] [scalar40; scalar40]
    false Z.of_nat (fun _ n => replicate (Z.to_nat n) 5) 2 8 ltac:(lia) ltac:(lia)) with (s := tls_bench)
    as (n & s' & h & Hrun & _ & _ & _ & Hn & _ & Hops & _).
  - split.
    + by repeat constructor.
    + repeat constructor.
    + by vm_compute.
    + intros _. apply length_replicate.
    + intros m. lia.
    + done.
    + done.
    + intros c _ _. apply tls_compute_delivered.
  - done.
  - done.
  - done.
  - constructor; [|constructor; [|constructor]]; (eexists; split; [reflexivity|unfold scalar_ok; cbn; lia]).
  - by vm_compute.
  - exists n, s', h. split; [exact Hrun|]. split; [exact Hn|exact Hops].
Defined.

(** Told to draw three numbers, the worker is still at it after a thousand. *)
Lemma RANDworker_never_ends_witness :
  @RANDworker tls_accel 2 3 0 (fun _ n => replicate (Z.to_nat n) 5) 1000 tls_bench = Fault Out_of_fuel.
Proof.
  refine (@RANDworker_never_ends tls_accel 2 3 0 (fun _ n => replicate (Z.to_nat n) 5) _ _ _ 1000 tls_bench _ _).
  - lia.
  - lia.
  - intros _. apply length_replicate.
  - done.
  - constructor; [|constructor; [|constructor]]; (eexists; split; [reflexivity|unfold scalar_ok; cbn; lia]).
Defined.
