(* ===== verification/BenchKeys.v ===== *)
(** * The keys of the benchmark (benchmark_example/src/helpers.c)

    Before a measurement the first thread makes key pairs, nonces and the
    answers to compare with, on the accelerator one operation at a time
    (SyncPka.v). The number a random scalar has is settled here too, and that
    the answers for P-256 are those the worker gets, from the laws of the group
    of the curve. *)

From S2P Require Import Prelude Operand Bignum BignumEcc RandOperand SyncPka PkaBench.

(** ** Random scalars below a bound *)

(** What [rand_non_zero_integer] does to a drawn number [v]: left alone below
    [n], else its most significant byte is reduced modulo that of [n]. *)
Definition msb_reduced (v n : Z) : Z :=
  let i := nbytes n - 1 in
  if v <? n then v else v - (byte_at v i - byte_at v i mod byte_at n i) * 256 ^ i.

Lemma split_top v i : 0 <= i -> 0 <= v < 256 ^ (i + 1) ->
  v = v mod 256 ^ i + byte_at v i * 256 ^ i /\ 0 <= v mod 256 ^ i < 256 ^ i.
Proof.
  intros Hi Hv. assert (0 < 256 ^ i) as Hp by (apply Z.pow_pos_nonneg; lia).
  split; [|by apply Z.mod_pos_bound]. unfold byte_at. rewrite Z.pow_add_r in Hv by lia.
  rewrite (Z.mod_small (v / 256 ^ i)); [pose proof (Z.div_mod v (256 ^ i)); lia|].
  split; [apply Z.div_pos; lia|]. apply Z.div_lt_upper_bound; lia.
Qed.

(** The reduced number is below the bound; it is 0 when only the byte that is
    reduced was not 0. *)
Lemma msb_reduced_range v n : 0 < n -> 0 < v < 256 ^ nbytes n ->
  0 <= msb_reduced v n < n /\ (0 < v mod 256 ^ (nbytes n - 1) -> 0 < msb_reduced v n) /\
  (v < n -> msb_reduced v n = v).
Proof.
  intros Hn Hv. unfold msb_reduced. destruct (nbytes_bounds n Hn) as (Hb & Hlo & Hhi).
  set (i := nbytes n - 1) in *. replace (nbytes n) with (i + 1) in * by lia.
  destruct (split_top v i ltac:(lia) ltac:(lia)) as [Ev Rv]. destruct (split_top n i ltac:(lia) ltac:(lia)) as [En Rn].
  pose proof (byte_at_range v i). pose proof (byte_at_range n i). assert (0 < 256 ^ i) by (apply Z.pow_pos_nonneg; lia).
  assert (1 <= byte_at n i) as Ht by nia.
  destruct (Z.ltb_spec v n); [split; [lia|split; [lia|done]]|].
  pose proof (Z.mod_pos_bound (byte_at v i) (byte_at n i) ltac:(lia)) as Hm. split; [|split; [|lia]]; nia.
Qed.

Lemma reduce_msb_spec v n r order : lop v r -> lop n order -> 0 < n -> 0 < v < 256 ^ nbytes n ->
  actual_len r = nbytes n ->
  exists r', reduce_msb r order = Ret r' /\ lop (msb_reduced v n) r' /\ actual_len r' = nbytes n.
Proof.
  intros Hr Ho Hn Hv Hl. unfold reduce_msb, msb_reduced. rewrite (lop_compare Hr Ho). cbn [res_bind].
  destruct (nbytes_bounds n Hn) as (Hb & Hlo & _). pose proof (lop_len Ho) as Hol. pose proof (lop_nbytes Ho).
  pose proof (lop_len Hr) as Hrl.
  destruct (Z.ltb_spec v n) as [Hlt|Hge].
  { rewrite (proj2 (Z.compare_lt_iff _ _)) by done. by exists r. }
  assert (nbytes v = nbytes n) as Evn.
  { pose proof (nbytes_mono n v Hge). pose proof (nbytes_le v (nbytes n)). lia. }
  assert (forall (A : Type) (a b : A), (match code_of (v ?= n) with RC_LEFT_IS_SMALLER => a | _ => b end) = b) as Hc.
  { intros A a b. destruct (Z.compare_spec v n); [done|lia|done]. }
  rewrite Hc, (lop_msb_idx Ho), (lop_msb_idx Hr), Evn by lia. cbn [res_bind]. set (i := nbytes n - 1).
  rewrite (lop_ld Ho), (lop_ld Hr) by lia. cbn [res_bind].
  pose proof (byte_at_top n Hn) as Ht. fold i in Ht. rewrite (proj2 (Z.eqb_neq _ _)) by lia. cbn [res_bind].
  pose proof (Z.mod_pos_bound (byte_at v i) (byte_at n i) ltac:(lia)) as Hm. pose proof (byte_at_range n i).
  rewrite st_in by lia. cbn [res_bind]. eexists. split; [reflexivity|]. split; [|done].
  apply mk_lop_le; cbn; [apply bytes_ok_insert; [apply Hr|unfold is_u8; lia]|rewrite length_insert; lia|
    pose proof (lop_u32 _ _ Hr) as Hu; unfold is_u32 in Hu; lia|apply Hr|].
  rewrite take_insert_lt by lia. rewrite le_val_insert by (rewrite length_take; lia).
  rewrite Z2Nat.id, (lop_le_val Hr) by lia. rewrite rd8_byte_at by (apply Forall_take, Hr).
  rewrite (lop_le_val Hr), Z2Nat.id by lia. ring.
Qed.

(** The draws of the device until one is not 0. *)
Lemma draw_non_zero_spec len draws rest d (op : pka_operand) :
  Forall (fun z => length z = Z.to_nat len /\ bytes_ok z /\ le_val z = 0) draws ->
  length d = Z.to_nat len -> bytes_ok d -> 0 < le_val d -> big_endian op = false -> actual_len op = len ->
  0 <= len < 2 ^ 32 -> length (buf_ptr op) = Z.to_nat len ->
  draw_non_zero (draws ++ d :: rest) op = Some (Ret (op <| buf_ptr := d |>)).
Proof.
  intros Hz Hl Hb Hd He Ha Hlen. revert op He Ha.
  assert (forall z (op : pka_operand), length z = Z.to_nat len -> bytes_ok z -> big_endian op = false -> actual_len op = len ->
    length (buf_ptr op) = Z.to_nat len ->
    fill (buf_ptr op) z = Ret z /\ is_zero (op <| buf_ptr := z |>) = Ret (le_val z =? 0)) as Hone.
  { intros z op Hzl Hzb Hzo Hze Hzlen. split.
    - unfold fill, memcpy. rewrite Hzlen, Hzl, !(proj2 (Z.leb_le _ _)) by lia. cbn [andb].
      rewrite Nat2Z.id, take_ge, drop_ge, app_nil_r by lia. done.
    - assert (lop (le_val z) (op <| buf_ptr := z |>)) as Hlop.
      { apply mk_lop_le; cbn; [done|lia|lia|done|]. by rewrite Hze, take_ge by lia. }
      apply (lop_is_zero Hlop). }
  induction Hz as [|z draws (Hzl & Hzb & Hz0) _ IH]; intros op He Ha Hop; cbn [app draw_non_zero].
  - destruct (Hone d op Hl Hb He Ha Hop) as [-> E]. cbn [res_bind]. rewrite E. cbn [res_bind].
    by rewrite (proj2 (Z.eqb_neq _ _)) by lia.
  - destruct (Hone z op Hzl Hzb He Ha Hop) as [-> E]. cbn [res_bind]. rewrite E, Hz0. cbn [res_bind Z.eqb].
    pose (op1 := op <| buf_ptr := z |>). exact (IH op1 He Ha Hzl).
Qed.

(** [rand_non_zero_integer] as the benchmark calls it: the result is a new
    operand of the length of the bound. *)
Definition rand_scalar (ring_order : bool) (draws : list bytes) (max_plus_1 : pka_operand) : option (res pka_operand) :=
  match operand_byte_len max_plus_1 with
  | Fault f => Some (Fault f)
  | Ret byte_len => rand_non_zero_integer ring_order draws (malloc_operand byte_len) max_plus_1
  end.

Lemma rand_scalar_run draws rest d n order :
  lop n order -> 0 < n ->
  Forall (fun z => length z = Z.to_nat (nbytes n) /\ bytes_ok z /\ le_val z = 0) draws ->
  length d = Z.to_nat (nbytes n) -> bytes_ok d -> 0 < le_val d ->
  exists op, rand_scalar false (draws ++ d :: rest) order = Some (Ret op) /\ lop (msb_reduced (le_val d) n) op /\
    actual_len op = nbytes n /\ 0 <= msb_reduced (le_val d) n < n /\
    (0 < le_val d mod 256 ^ (nbytes n - 1) -> 0 < msb_reduced (le_val d) n).
Proof.
  intros Ho Hn Hz Hl Hb Hd. pose proof (nbytes_pos n Hn) as Hp. pose proof (lop_nbytes Ho) as Hnb.
  pose proof (lop_u32 _ _ Ho) as Hu. unfold is_u32 in Hu.
  pose proof (le_val_range d Hb) as Hr. rewrite Hl, Z2Nat.id in Hr by lia.
  unfold rand_scalar, rand_non_zero_integer. rewrite (lop_byte_len Ho).
  set (op0 := (malloc_operand (nbytes n)) <| big_endian := false |> <| actual_len := nbytes n |>).
  rewrite (draw_non_zero_spec (nbytes n) draws rest d op0 Hz Hl Hb Hd eq_refl eq_refl); [|lia|apply length_zeros].
  cbn [res_bind]. assert (lop (le_val d) (op0 <| buf_ptr := d |>)) as Hlop.
  { apply mk_lop_le; cbn; [done|lia|lia|done|by rewrite take_ge by lia]. }
  destruct (reduce_msb_spec _ n _ order Hlop Ho Hn ltac:(lia) eq_refl) as (op & E & Hop & Hol).
  exists op. rewrite E. destruct (msb_reduced_range (le_val d) n Hn ltac:(lia)) as (Hrg & Hpos & _). by repeat split; try apply Hop; try lia.
Qed.

(** [rand_non_zero_integer] returns a number below its bound, namely the
    first draw that is not 0 if that is below the bound, else the draw with its
    most significant byte reduced; the comment promises a number from 1 on,
    and the result is indeed positive unless all the other bytes of a draw
    that was too large are 0 - then it can be 0. *)
Theorem rand_scalar_range draws rest d n order :
  lop n order -> 0 < n ->
  Forall (fun z => length z = Z.to_nat (nbytes n) /\ bytes_ok z /\ le_val z = 0) draws ->
  length d = Z.to_nat (nbytes n) -> bytes_ok d -> 0 < le_val d ->
  exists op, rand_scalar false (draws ++ d :: rest) order = Some (Ret op) /\ lop (msb_reduced (le_val d) n) op /\
    actual_len op = nbytes n /\ 0 <= msb_reduced (le_val d) n < n /\
    (0 < le_val d mod 256 ^ (nbytes n - 1) -> 0 < msb_reduced (le_val d) n).
Proof. apply rand_scalar_run. Qed.

Lemma rand_scalar_range_witness :
  exists op, rand_scalar false ([[0; 0]] ++ [9; 0xff] :: []) (mk_operand [5; 0x10] 2 2 0 false) = Some (Ret op) /\ lop 0xf09 op.
Proof.
  destruct (rand_scalar_range [[0; 0]] [] [9; 0xff] 0x1005 (mk_operand [5; 0x10] 2 2 0 false)) as (op & E & Hop & _).
  - apply mk_lop_le; [by repeat constructor|cbn; lia|done|done|done].
  - lia.
  - by repeat constructor.
  - done.
  - by repeat constructor.
  - cbn. lia.
  - exists op. split; [exact E|exact Hop].
Defined.

(** A draw of 0x20 followed by zeros, for a bound that starts with 0x10. *)
Example rand_scalar_zero :
  exists op, rand_scalar false [[0; 0; 0x20]] (mk_operand [0xed; 0xd3; 0x10] 3 3 0 false) = Some (Ret op) /\ operand_val op = 0.
Proof. eexists. split; vm_compute; reflexivity. Qed.

(** ** Making the keys *)

Definition SUCCESS : Z := 0.
Definition KEYS : nat := 512.

Definition ONE : pka_operand := mk_operand [1] 1 1 0 false.
Definition P256_p_buf : bytes := be_bytes 32 0xffffffff00000001000000000000000000000000ffffffffffffffffffffffff.
Definition P256_a_buf : bytes := be_bytes 32 0xffffffff00000001000000000000000000000000fffffffffffffffffffffffc.
Definition P256_b_buf : bytes := be_bytes 32 0x5ac635d8aa3a93e7b3ebbd55769886bc651d06b0cc53b0f63bce3c3e27d2604b.
Definition P256_xg_buf : bytes := be_bytes 32 0x6b17d1f2e12c4247f8bce6e563a440f277037d812deb33a0f4a13945d898c296.
Definition P256_yg_buf : bytes := be_bytes 32 0x4fe342e2fe1a7f9b8ee7eb4a7c0f9e162bce33576b315ececbb6406837bf51f5.
Definition P256_n_buf : bytes := be_bytes 32 0xffffffff00000000ffffffffffffffffbce6faada7179e84f3b9cac2fc632551.
Definition X25519_curve_p_buf : bytes := be_bytes 32 (2 ^ 255 - 19).
Definition X25519_curve_A_buf : bytes := [0x07; 0x6D; 0x06].
Definition Curve255_bp_u_buf : bytes := [0x09].
Definition Curve255_bp_v_buf : bytes := be_bytes 32 0x20ae19a1b8a086b4e01edd2c7748d14c923d4d7e6d7c61b229e9c5a27eced3d9.
Definition Curve255_bp_order_buf : bytes := be_bytes 32 (2 ^ 252 + 27742317777372353535851937790883648493).

Section make.
Context `{SyncLib}.

(** The draws of the device at the [j]-th call of [rand_non_zero_integer] and
    of [rand_operand], the result buffers on the stack, and the arbitrary contents of
    the software's local arrays. *)
Context (scalar_draws : nat -> list bytes) (operand_draws : nat -> Z -> bytes) (res1 res2 stack : bytes).

Definition rand_key (j : nat) (order : pka_operand) : M device pka_operand :=
  match rand_scalar rings_byte_order (scalar_draws j) order with
  | None => mfault Prelude.Out_of_fuel
  | Some r => mres r
  end.

(** [for (i = 0; i < n; i++)], the results in a list. *)
Fixpoint rows {A} (n i : nat) (f : nat -> M device A) : M device (list A) :=
  match n with
  | O => ret []
  | S n' => do a <- f i; do l <- rows n' (S i) f; ret (a :: l)
  end.

(** The buffers of the operands made here are never NULL, so the checks of
    [buf_ptr] pass; a point that could not be computed is dereferenced there. *)
Record ec_row (A : Type) := mk_row { own_priv : pka_operand; own_pub : A; remote_priv : pka_operand; remote_pub : A }.
Arguments mk_row {A} _ _ _ _.
Arguments own_priv {A} _.
Arguments own_pub {A} _.
Arguments remote_priv {A} _.
Arguments remote_pub {A} _.

Definition p256_row (fuel : nat) (curve : ecc_curve) (base : ecc_point) (order : pka_operand) (i : nat)
    : M device (ec_row ecc_point) :=
  do k <- rand_key (2 * i) order;
  do q <- sync_ecc_multiply fuel res1 res2 curve base k;
  do k' <- rand_key (2 * i + 1) order;
  do q' <- sync_ecc_multiply fuel res1 res2 curve base k';
  do q <- mderef q;
  do q' <- mderef q';
  ret (mk_row k q k' q').

(** The globals [Get_P256_key_pair] sets. *)
Record p256_keys := mk_p256_keys {
  k_curve : ecc_curve;
  k_base : ecc_point;
  k_order : pka_operand;
  k_rows : list (ec_row ecc_point);
  remote_shared_secret_ep : list (option ecc_point);
}.
Definition Get_P256_key_pair (fuel : nat) (be : bool) : M device (Z * p256_keys) :=
  do curve <- mres (make_ecc_curve P256_p_buf 32 P256_a_buf 32 P256_b_buf 32 be);
  do base <- mres (make_ecc_point P256_xg_buf 32 P256_yg_buf 32 be);
  do order <- mres (make_operand P256_n_buf 32 be);
  do l <- rows KEYS 0 (p256_row fuel curve base order);
  do secrets <- rows KEYS 0 (fun i =>
    do r <- mderef (l !! i);
    sync_ecc_multiply fuel res1 res2 curve (own_pub r) (remote_priv r));
  ret (SUCCESS, mk_p256_keys curve base order l secrets).

(** The accelerator looks at the modulus and the coefficient A of a Montgomery
    curve. *)
Definition mont_args (c : mont_curve) : ecc_curve := mk_curve (mont_p c) (mont_A c) operand0.

Record x25519_keys := mk_x25519_keys {
  x_curve : mont_curve;
  x_base : ecc_point;
  x_order : pka_operand;
  x_order_byte_len : Z;
  x_second : list pka_operand;
  x_rows : list (ec_row pka_operand);
  remote_shared_secret_po : list (option pka_operand);
}.
Definition x25519_row (fuel : nat) (curve : mont_curve) (base : ecc_point) (order : pka_operand) (i : nat)
    : M device (pka_operand * ec_row pka_operand) :=
  do k0 <- rand_key (3 * i) order;
  do k1 <- rand_key (3 * i + 1) order;
  do q <- sync_mont_ecdh fuel res1 (mont_args curve) (pt_x base) k0;
  do k' <- rand_key (3 * i + 2) order;
  do q' <- sync_mont_ecdh fuel res1 (mont_args curve) (pt_x base) k';
  do q <- mderef q;
  do q' <- mderef q';
  ret (k1, mk_row k0 q k' q').
Definition Get_X25519_key_pair (fuel : nat) (be : bool) : M device (Z * x25519_keys) :=
  do p <- mres (set_pka_operand operand0 X25519_curve_p_buf 32 be);
  do A <- mres (set_pka_operand operand0 X25519_curve_A_buf 3 be);
  let curve := mk_mont p A in
  do base <- mres (make_mont_ecc_point Curve255_bp_u_buf 1 Curve255_bp_v_buf 32 be);
  do order <- mres (make_operand Curve255_bp_order_buf 32 be);
  do order_byte_len <- mres (operand_byte_len order);
  do l <- rows KEYS 0 (x25519_row fuel curve base order);
  do secrets <- rows KEYS 0 (fun i =>
    do r <- mderef (l.*2 !! i);
    sync_mont_ecdh fuel res1 (mont_args curve) (own_pub r) (remote_priv r));
  ret (SUCCESS, mk_x25519_keys curve base order order_byte_len l.*1 l.*2 secrets).

(** *** ECDSA *)

(** A nonce: 64 bits more than the order has, reduced modulo the order minus 1,
    plus 1. *)
Definition ecdsa_nonce (fuel i : nat) (order : pka_operand) (n : Z) : M device (option pka_operand) :=
  do c <- mres (rand_operand rings_byte_order (operand_draws (2 * i)) (u32 (n + 64)) false);
  do n_minus_1 <- sync_subtract fuel res1 order ONE;
  do n_minus_1 <- mderef n_minus_1;
  do temp <- sync_modulo fuel res1 c n_minus_1;
  do temp <- mderef temp;
  sync_add fuel res1 temp ONE.

Record ecdsa_row := mk_ecdsa_row {
  e_priv : pka_operand;
  e_pub : ecc_point;
  e_k : option pka_operand;
  e_hash : pka_operand;
  e_answer : option dsa_signature;
}.
Definition ecdsa_key_row (fuel : nat) (curve : ecc_curve) (base : ecc_point) (order : pka_operand) (i : nat)
    : M device ecdsa_row :=
  do key <- rand_key i order;
  do q <- sync_ecc_multiply fuel res1 res2 curve base key;
  do q <- mderef q;
  do n <- mres (operand_bit_len order);
  do k <- ecdsa_nonce fuel i order n;
  do hash <- mres (rand_operand rings_byte_order (operand_draws (2 * i + 1)) (u32 (n - 16)) false);
  do nonce <- mderef k;
  do sg <- mres (sw_ecdsa_gen stack rings_byte_order curve base order key hash nonce);
  ret (mk_ecdsa_row key q k hash sg).

Record ecdsa_keys := mk_ecdsa_keys {
  s_curve : ecc_curve;
  s_base : ecc_point;
  s_order : pka_operand;
  s_rows : list ecdsa_row;
}.
Definition Get_ECDSA_key_pair (fuel : nat) (be : bool) : M device (Z * ecdsa_keys) :=
  do curve <- mres (make_ecc_curve P256_p_buf 32 P256_a_buf 32 P256_b_buf 32 be);
  do base <- mres (make_ecc_point P256_xg_buf 32 P256_yg_buf 32 be);
  do order <- mres (make_operand P256_n_buf 32 be);
  do l <- rows KEYS 0 (ecdsa_key_row fuel curve base order);
  ret (SUCCESS, mk_ecdsa_keys curve base order l).

(** ** Computations that come to an end

    [settles m P]: with enough fuel, from any state of the device, [m] returns
    something in [P], the same whatever more fuel it is given. *)
Definition settles {A} (m : nat -> M device A) (P : A -> Prop) : Prop :=
  forall d, exists n a d', (forall fuel, (n < fuel)%nat -> m fuel d = Ret (a, d')) /\ P a.

Lemma settles_ret {A} (a : A) (P : A -> Prop) : P a -> settles (fun _ => ret a) P.
Proof. intros Ha d. by exists 0%nat, a, d. Qed.
Lemma settles_res {A} (r : res A) a (P : A -> Prop) : r = Ret a -> P a -> settles (fun _ => mres r) P.
Proof. intros -> Ha d. by exists 0%nat, a, d. Qed.
Lemma settles_deref {A} (o : option A) a (P : A -> Prop) : o = Some a -> P a -> settles (fun _ => mderef o) P.
Proof. intros -> Ha d. by exists 0%nat, a, d. Qed.
Lemma settles_bind {A B} (m : nat -> M device A) (k : nat -> A -> M device B) (P : A -> Prop) (Q : B -> Prop) :
  settles m P -> (forall a, P a -> settles (fun fuel => k fuel a) Q) ->
  settles (fun fuel => do a <- m fuel; k fuel a) Q.
Proof.
  intros Hm Hk d. destruct (Hm d) as (n & a & d1 & E & Ha). destruct (Hk a Ha d1) as (n' & b & d2 & E' & Hb).
  exists (Nat.max n n'), b, d2. split; [|done]. intros fuel Hf. erewrite bind_ret by (apply E; lia). apply E'. lia.
Qed.
Lemma settles_weaken {A} (m : nat -> M device A) (P Q : A -> Prop) :
  settles m P -> (forall a, P a -> Q a) -> settles m Q.
Proof. intros Hm Hpq d. destruct (Hm d) as (n & a & d1 & E & Ha). exists n, a, d1. by auto. Qed.

Lemma settles_rows {A} n i (f : nat -> nat -> M device A) (P : nat -> A -> Prop) :
  (forall j, (i <= j < i + n)%nat -> settles (fun fuel => f fuel j) (P j)) ->
  settles (fun fuel => rows n i (f fuel)) (fun l => length l = n /\ forall j a, l !! j = Some a -> P (i + j)%nat a).
Proof.
  revert i. induction n as [|n IH]; intros i Hf; cbn [rows].
  { apply settles_ret. by split; [|intros j a; rewrite lookup_nil]. }
  eapply settles_bind; [apply Hf; lia|]. intros a Ha. eapply settles_bind; [apply IH; intros j Hj; apply Hf; lia|].
  intros l [Hl Hp]. apply settles_ret. split; [cbn; by rewrite Hl|]. intros [|j] b; cbn.
  - intros [= <-]. by rewrite Nat.add_0_r.
  - intros Hj. rewrite <-Nat.add_succ_comm. by apply Hp.
Qed.
End make.

(** ** The answers of P-256 *)

(** Draws that give a scalar below [n] other than 0 (see
    [rand_scalar_range]). *)
Definition draws_ok (n : Z) (l : list bytes) : Prop :=
  exists zs d rest, l = zs ++ d :: rest /\
    Forall (fun z => length z = Z.to_nat (nbytes n) /\ bytes_ok z /\ le_val z = 0) zs /\
    length d = Z.to_nat (nbytes n) /\ bytes_ok d /\ 0 < le_val d /\ 0 < msb_reduced (le_val d) n.

Definition scalar_below (n : Z) (k : pka_operand) : Prop := exists v, lop v k /\ 0 < v < n.

(** The constants as the constructors make them for little-endian rings. *)
Definition p256_n : Z := be_val P256_n_buf.
Definition made {A} (dummy : A) (r : res A) : A := match r with Ret a => a | Fault _ => dummy end.
Definition the_p256_curve : ecc_curve :=
  made (mk_curve operand0 operand0 operand0) (make_ecc_curve P256_p_buf 32 P256_a_buf 32 P256_b_buf 32 false).
Definition the_p256_base : ecc_point := made (mk_point operand0 operand0) (make_ecc_point P256_xg_buf 32 P256_yg_buf 32 false).
Definition the_p256_order : pka_operand := made operand0 (make_operand P256_n_buf 32 false).

Lemma p256_order_lop : lop p256_n the_p256_order.
Proof.
  apply mk_lop_le.
  - apply (bool_decide_unpack _). vm_compute. exact I.
  - split; vm_compute; discriminate.
  - vm_compute. reflexivity.
  - vm_compute. reflexivity.
  - vm_compute. reflexivity.
Qed.

Section p256_made.
Context `{SyncLib} (scalar_draws : nat -> list bytes) (res1 res2 : bytes).
Context (Hro : rings_byte_order = false).

Lemma rand_key_settles j n order : lop n order -> 0 < n -> draws_ok n (scalar_draws j) ->
  settles (fun _ => rand_key scalar_draws j order) (scalar_below n).
Proof.
  intros Ho Hn (zs & d & rest & E & Hz & Hl & Hb & Hd & Hpos).
  assert (exists op, rand_scalar false (zs ++ d :: rest) order = Some (Ret op) /\ scalar_below n op) as (op & Er & Hop).
  { destruct (rand_scalar_run zs rest d n order Ho Hn Hz Hl Hb Hd) as (op & Er & Hop & _ & Hr & _).
    exists op. split; [done|]. exists (msb_reduced (le_val d) n). split; [done|lia]. }
  unfold rand_key. rewrite Hro, E, Er. by apply settles_res with op.
Qed.

(** *** The group

    The points of the curve are an associative structure [G] with a unit, the
    point at infinity; a scalar multiplies by repeated addition. *)
Context {G : Type} (gadd : G -> G -> G) (infinity : G).
Context (gadd_assoc : forall a b c, gadd a (gadd b c) = gadd (gadd a b) c) (gadd_infinity : forall g, gadd infinity g = g).
Definition times (n : nat) (g : G) : G := Nat.iter n (gadd g) infinity.
Definition smul (k : Z) (g : G) : G := times (Z.to_nat k) g.

Lemma times_add n m g : times (n + m) g = gadd (times n g) (times m g).
Proof.
  induction n as [|n IH]; [by rewrite gadd_infinity|]. change (gadd g (times (n + m) g) = gadd (gadd g (times n g)) (times m g)).
  by rewrite IH, gadd_assoc.
Qed.
Lemma times_mul n m g : times n (times m g) = times (n * m) g.
Proof.
  induction n as [|n IH]; [done|]. change (gadd (times m g) (times n (times m g)) = times (m + n * m) g). by rewrite IH, times_add.
Qed.
Lemma smul_comm a b g : smul a (smul b g) = smul b (smul a g).
Proof. unfold smul. by rewrite !times_mul, Nat.mul_comm. Qed.

(** *** The accelerator

    [point_of] reads a point from its operands; [coords] are the ordinates of a
    point other than infinity in the byte order and length in which the
    accelerator writes them. *)
Context (point_of : ecc_point -> G) (coords : G -> bytes * bytes).
Definition exact (b : bytes) : pka_operand := mk_operand b (Z.of_nat (length b)) (Z.of_nat (length b)) 0 false.
Definition encode (g : G) : ecc_point := mk_point (exact (fst (coords g))) (exact (snd (coords g))).
Definition holds (y : pka_operand) (b : bytes) : Prop :=
  actual_len y = Z.of_nat (length b) /\ (length b <= length (buf_ptr y))%nat /\ take (length b) (buf_ptr y) = b /\ big_endian y = false.

(** Documented behaviour: P-256 has the prime order [p256_n], so that a scalar
    below it takes no point but infinity to infinity, and the accelerator
    multiplies a point other than infinity by a scalar from 1 to the order
    minus 1: it accepts the request and has the ordinates of the multiple in the
    two buffers after finitely many polls. *)
Record ecc_device : Prop := mk_ecc_device {
  ed_max : 0 <= MAX_RESULT;
  ed_base : point_of the_p256_base <> infinity;
  ed_order k g : 0 < k < p256_n -> g <> infinity -> smul k g <> infinity;
  ed_coords g : g <> infinity -> point_of (encode g) = g;
  ed_mult q k v d : lop v k -> 0 < v < p256_n -> point_of q <> infinity ->
    exists d1, submit (Ecc_pt_mult the_p256_curve q k) d = (PKA_SUCCESS, d1) /\
      forall buf, length (buf_ptr buf) = Z.to_nat MAX_RESULT -> exists polls x y d2,
        replies [buf; buf] polls d1 (PKA_SUCCESS, [x; y]) d2 /\
        holds x (fst (coords (smul v (point_of q)))) /\ holds y (snd (coords (smul v (point_of q))));
}.
Context (Hecc : ecc_device) (Hres1 : length res1 = Z.to_nat MAX_RESULT) (Hres2 : length res2 = Z.to_nat MAX_RESULT).

Lemma fresh_copy_holds y b : holds y b -> fresh_copy y = Ret (exact b).
Proof.
  intros (Ha & Hl & Ht & He). unfold fresh_copy, memcpy. rewrite Ha, length_zeros, !(proj2 (Z.leb_le _ _)) by lia.
  cbn [andb res_bind]. rewrite Nat2Z.id, Ht, drop_ge, app_nil_r by (rewrite length_zeros; lia). by rewrite He.
Qed.
Lemma result_buffer_run l : length l = Z.to_nat MAX_RESULT ->
  result_buffer l = Ret (mk_operand (zeros (Z.to_nat MAX_RESULT)) MAX_RESULT 0 0 false).
Proof.
  intros Hl. pose proof (ed_max Hecc). unfold result_buffer, memset0. rewrite (proj2 (Z.leb_le _ _)) by lia.
  by rewrite drop_ge, app_nil_r by lia.
Qed.

Lemma holds_same y b : holds y b -> same_operand y (exact b).
Proof.
  intros (Ha & Hl & Ht & _). split; [done|]. split; cbn [exact actual_len buf_ptr]; [lia..|].
  rewrite Nat2Z.id, Ht. by rewrite take_ge.
Qed.
(** The blocking call returns the multiple. *)
Lemma ecc_multiply_settles q k v : lop v k -> 0 < v < p256_n -> point_of q <> infinity ->
  settles (fun fuel => sync_ecc_multiply fuel res1 res2 the_p256_curve q k) (fun r => r = Some (encode (smul v (point_of q)))).
Proof.
  intros Hk Hv Hq d. destruct (ed_mult Hecc q k v d Hk Hv Hq) as (d1 & Es & Hr).
  set (buf := mk_operand (zeros (Z.to_nat MAX_RESULT)) MAX_RESULT 0 0 false).
  destruct (Hr buf) as (polls & x & y & d2 & Hp & Hx & Hy); [apply length_zeros|].
  exists polls, (Some (encode (smul v (point_of q)))), d2. split; [|done]. intros fuel Hf. unfold sync_ecc_multiply.
  erewrite bind_ret by (unfold lib_call; rewrite Es; reflexivity). cbn [negb Z.eqb PKA_SUCCESS].
  assert (exists pt, malloc_ecc_point (actual_len (curve_p the_p256_curve)) (actual_len (curve_p the_p256_curve)) rings_byte_order
    = Ret pt) as [pt Ept] by (rewrite Hro; vm_compute; by eexists).
  erewrite bind_ret by (unfold mres; rewrite Ept; reflexivity). unfold get_results. rewrite bind_assoc.
  erewrite bind_ret by (unfold mres; rewrite result_buffer_run by done; reflexivity). rewrite bind_assoc.
  erewrite bind_ret by (unfold mres; rewrite result_buffer_run by done; reflexivity). rewrite bind_assoc.
  erewrite bind_ret by (by eapply wait_replies). cbv beta iota. cbn [negb Z.eqb PKA_SUCCESS].
  rewrite bind_assoc. erewrite bind_ret by reflexivity. rewrite bind_assoc. erewrite bind_ret by reflexivity. rewrite bind_assoc.
  erewrite bind_ret by (unfold mres; rewrite (fresh_copy_holds _ _ Hx); reflexivity). rewrite bind_assoc.
  by erewrite bind_ret by (unfold mres; rewrite (fresh_copy_holds _ _ Hy); reflexivity).
Qed.

(** A row of the key table: [a] and [b] are the two scalars. *)
Abbreviation base_pt := (point_of the_p256_base).
Definition row_made (r : ec_row ecc_point) (a b : Z) : Prop :=
  lop a (own_priv _ r) /\ 0 < a < p256_n /\ own_pub _ r = encode (smul a base_pt) /\
  lop b (remote_priv _ r) /\ 0 < b < p256_n /\ remote_pub _ r = encode (smul b base_pt).
Lemma public_key a : 0 < a < p256_n -> point_of (encode (smul a base_pt)) = smul a base_pt /\ smul a base_pt <> infinity.
Proof. intros Ha. pose proof (ed_order Hecc a _ Ha (ed_base Hecc)). split; [by apply (ed_coords Hecc)|done]. Qed.

Lemma p256_row_settles i : (forall j, draws_ok p256_n (scalar_draws j)) ->
  settles (fun fuel => p256_row scalar_draws res1 res2 fuel the_p256_curve the_p256_base the_p256_order i)
    (fun r => exists a b, row_made r a b).
Proof.
  intros Hd. unfold p256_row. assert (0 < p256_n) as Hn by (by vm_compute). pose proof p256_order_lop as Ho.
  eapply settles_bind; [by apply rand_key_settles|]. intros k (a & Hk & Ha).
  eapply settles_bind; [by apply (ecc_multiply_settles the_p256_base k a), (ed_base Hecc)|]. intros ? ->.
  eapply settles_bind; [by apply rand_key_settles|]. intros k' (b & Hk' & Hb).
  eapply settles_bind; [by apply (ecc_multiply_settles the_p256_base k' b), (ed_base Hecc)|]. intros ? ->.
  eapply settles_bind; [by eapply (settles_deref _ _ (fun p => p = encode (smul a base_pt)))|]. intros ? ->.
  eapply settles_bind; [by eapply (settles_deref _ _ (fun p => p = encode (smul b base_pt)))|]. intros ? ->.
  apply settles_ret. exists a, b. exact (conj Hk (conj Ha (conj eq_refl (conj Hk' (conj Hb eq_refl))))).
Qed.

(** What [Get_P256_key_pair] leaves in the globals. *)
Record p256_made (ks : p256_keys) : Prop := mk_p256_made {
  pm_curve : k_curve ks = the_p256_curve;
  pm_rows : length (k_rows ks) = KEYS;
  pm_row i r : k_rows ks !! i = Some r -> exists a b, row_made r a b /\
    remote_shared_secret_ep ks !! i = Some (Some (encode (smul b (smul a base_pt))));
  pm_secrets : length (remote_shared_secret_ep ks) = KEYS;
}.

Lemma Get_P256_settles : (forall j, draws_ok p256_n (scalar_draws j)) ->
  settles (fun fuel => Get_P256_key_pair scalar_draws res1 res2 fuel false) (fun r => fst r = SUCCESS /\ p256_made (snd r)).
Proof.
  intros Hd. unfold Get_P256_key_pair.
  eapply settles_bind; [apply (settles_res _ the_p256_curve (fun c => c = the_p256_curve)); [vm_compute; reflexivity|done]|]. intros ? ->.
  eapply settles_bind; [apply (settles_res _ the_p256_base (fun p => p = the_p256_base)); [vm_compute; reflexivity|done]|]. intros ? ->.
  eapply settles_bind; [apply (settles_res _ the_p256_order (fun o => o = the_p256_order)); [vm_compute; reflexivity|done]|]. intros ? ->.
  eapply settles_bind; [apply settles_rows; intros j _; by apply p256_row_settles|].
  intros l [Hl Hr]. eapply settles_bind.
  - apply (settles_rows KEYS 0 (fun fuel i => do r <- mderef (l !! i);
      sync_ecc_multiply fuel res1 res2 the_p256_curve (own_pub _ r) (remote_priv _ r))
      (fun i s => exists r a b, l !! i = Some r /\ row_made r a b /\ s = Some (encode (smul b (smul a base_pt))))).
    intros j Hj. destruct (lookup_lt_is_Some_2 l j ltac:(lia)) as [r Er].
    destruct (Hr j r Er) as (a & b & Ha & Hra & Epub & Hb & Hrb & Erem). destruct (public_key a Hra) as [Ep Hne].
    eapply settles_bind; [by apply (settles_deref _ r (fun p => p = r))|]. intros ? ->.
    eapply settles_weaken; [apply (ecc_multiply_settles _ _ b Hb Hrb); by rewrite Epub, Ep|].
    intros s ->. rewrite Epub, Ep. by exists r, a, b.
  - intros secrets [Hls Hs]. apply settles_ret. split; [done|]. split; cbn [snd k_curve k_rows remote_shared_secret_ep]; [done|done| |done].
    intros i r Er. destruct (lookup_lt_is_Some_2 secrets i) as [x Ex]; [apply lookup_lt_Some in Er; lia|].
    destruct (Hs i x Ex) as (r' & a & b & Er' & Hm & ->). cbn in Er'. rewrite Er in Er'. injection Er' as <-. by exists a, b.
Qed.

(** C24: the keys of the P-256 benchmark fit its measurement. If no scalar drawn
    comes out as 0, the blocking calls and the commands of the accelerator
    multiply a point of the curve by a scalar from 1 to the order minus 1 and
    write the ordinates the same way, and it takes the worker's commands, then
    [Get_P256_key_pair] returns, and the worker with the comparison of results
    switched on returns too, with every command answered and no mismatch: the
    expected answer, the own public key times the remote scalar, is the point
    the command, the remote public key times the own scalar, computes. *)
Theorem p256_benchmark_agrees `{!Accelerator} {L : AccelLaws} outstanding_cmd_num max_cmd_cnt worker_id s d :
  (forall j, draws_ok p256_n (scalar_draws j)) ->
  (forall q k v, lop v k -> 0 < v < p256_n -> point_of q <> infinity ->
     valid (Pt_mult the_p256_curve q k) /\
     exists x y, compute (Pt_mult the_p256_curve q k) = (0, [x; y]) /\
       holds x (fst (coords (smul v (point_of q)))) /\ holds y (snd (coords (smul v (point_of q))))) ->
  0 < outstanding_cmd_num <= capacity -> outstanding_cmd_num <= 512 -> 0 <= max_cmd_cnt < 2 ^ 31 ->
  idle worker_id s ->
  exists n ks d', (forall fuel, (n < fuel)%nat ->
      Get_P256_key_pair scalar_draws res1 res2 fuel false d = Ret ((SUCCESS, ks), d')) /\
    completes outstanding_cmd_num max_cmd_cnt worker_id
      (P256worker outstanding_cmd_num max_cmd_cnt worker_id true (k_curve ks) (Some <$> (remote_pub _ <$> k_rows ks))
         (Some <$> (own_priv _ <$> k_rows ks)) (remote_shared_secret_ep ks))
      (p256_job (k_curve ks) (remote_pub _ <$> k_rows ks) (own_priv _ <$> k_rows ks)) s.
Proof.
  intros Hd Hc Hout H512 Hmax Hi. destruct (Get_P256_settles Hd d) as (n & [rc ks] & d' & E & Erc & Hm).
  cbn in Erc. subst rc. exists n, ks, d'. split; [done|]. cbn [snd] in Hm. destruct Hm as [Ecv Hl Hr Hls].
  set (secrets := fun o : option ecc_point => match o with Some p => p | None => the_p256_base end).
  assert (remote_shared_secret_ep ks = Some <$> (secrets <$> remote_shared_secret_ep ks)) as Hsec.
  { apply list_eq_same_length with KEYS; [by rewrite !length_fmap|done|]. intros i x y Hlt Ex Ey.
    destruct (lookup_lt_is_Some_2 (k_rows ks) i) as [r Er]; [lia|]. destruct (Hr i r Er) as (a & b & _ & Es).
    rewrite !list_lookup_fmap, Es in Ey. rewrite Es in Ex. by injection Ex as <-; injection Ey as <-. }
  rewrite Hsec, Ecv. unfold KEYS in Hl, Hls.
  apply p256_completes; [exact Hout|exact Hmax|exact Hi|unfold covers; rewrite !length_fmap; lia..|].
  intros idx Hx. destruct (lookup_lt_is_Some_2 (k_rows ks) (Z.to_nat idx)) as [r Er]; [lia|].
  destruct (Hr _ _ Er) as (a & b & (Ha & Hra & _ & Hb & Hrb & Erem) & Es). destruct (public_key b Hrb) as [Ep Hne].
  assert (forall (A : Type) `{!Inhabited A} (f : ec_row ecc_point -> A), (f <$> k_rows ks) !!! Z.to_nat idx = f r) as Hat.
  { intros A HA f. apply list_lookup_total_correct. by rewrite list_lookup_fmap, Er. }
  assert ((secrets <$> remote_shared_secret_ep ks) !!! Z.to_nat idx = encode (smul b (smul a base_pt))) as ->
    by (apply list_lookup_total_correct; by rewrite list_lookup_fmap, Es).
  unfold p256_job. rewrite !Hat, Erem. destruct (Hc (encode (smul b base_pt)) (own_priv _ r) a Ha Hra) as (Hv & x & y & Ecomp & Hhx & Hhy);
    [by rewrite Ep|]. split; [done|]. rewrite Ecomp. exists x, y. split; [done|]. rewrite Ep, smul_comm in Hhx, Hhy.
  split; by apply holds_same.
Qed.
End p256_made.

(** ** The nonces of ECDSA *)
Section nonce.
Context `{SyncLib} `{!SyncLaws} (operand_draws : nat -> Z -> bytes) (res1 : bytes).
Context (Hro : rings_byte_order = false) (Hres : length res1 = Z.to_nat MAX_RESULT) (Hmax : MAX_RESULT < 2 ^ 32 - 1).

Record gives (x : Z) (o : option pka_operand) : Prop := mk_gives {
  gives_op : exists op, o = Some op /\ operand_ok op /\ big_endian op = false /\ operand_val op = x /\ actual_len op <= MAX_RESULT;
}.

Lemma request_settles r x : operands_ok r -> asked r = Some x -> 0 <= x < 256 ^ MAX_RESULT ->
  settles (fun fuel => request_result fuel res1 r) (gives x).
Proof.
  intros Ho Ha Hx d. destruct (accepted_run res1 r x d Ho Ha Hx Hres) as (k & op & d' & E & Hok & Hb & Hv & Hl).
  exists k, (Some op), d'. split; [done|]. split. by exists op.
Qed.

Lemma below_capacity op x : operand_ok op -> operand_val op = x -> actual_len op <= MAX_RESULT -> 0 <= x < 256 ^ MAX_RESULT.
Proof.
  intros Ho <- Hl. pose proof (ok_actual _ Ho). pose proof (be_val_range (digits op) (digits_ok op Ho)) as Hr.
  rewrite length_digits, Z2Nat.id in Hr by (done || lia). unfold operand_val.
  pose proof (Z.pow_le_mono_r 256 (actual_len op) MAX_RESULT). lia.
Qed.

(** A nonce of [Get_ECDSA_key_pair] is the random number, which has 64
    bits more than the order, modulo the order minus 1, plus 1: it is from 1
    to the order minus 1, as a nonce has to be, whether the accelerator or the
    software does the additions. *)
Theorem ecdsa_nonce_range i n order nb :
  lop n order -> 2 < n < 2 ^ nb -> 0 < nb < 2 ^ 31 -> actual_len order <= MAX_RESULT -> (nb + 71) / 8 < MAX_RESULT ->
  (forall len, 0 <= len -> length (operand_draws (2 * i) len) = Z.to_nat len /\ bytes_ok (operand_draws (2 * i) len)) ->
  settles (fun fuel => ecdsa_nonce operand_draws res1 fuel i order nb)
    (fun o => exists c k, 2 ^ (nb + 63) <= c < 2 ^ (nb + 64) /\ o = Some k /\ operand_ok k /\
       operand_val k = c mod (n - 1) + 1 /\ 1 <= operand_val k <= n - 1).
Proof.
  intros Ho Hn Hnb Hlo Hcl Hd. unfold ecdsa_nonce. rewrite u32_id by (unfold is_u32; lia).
  assert (0 <= (nb + 64 + 7) / 8) as Hc0 by (apply Z.div_pos; lia). destruct (Hd _ Hc0) as [Hdl Hdb].
  destruct (rand_operand_bits rings_byte_order (operand_draws (2 * i)) (nb + 64) false ltac:(lia) Hdb Hdl)
    as (c & Ec & Hcok & Hcal & Hcb & Hcv & _). rewrite Hro in Hcb.
  replace (nb + 64 + 7) with (nb + 71) in Hcal by lia. replace (nb + 64 - 1) with (nb + 63) in Hcv by lia.
  assert (operand_ok ONE /\ operand_val ONE = 1) as [H1ok H1v] by (split; [split; [by repeat constructor|cbn; lia]|done]).
  eapply settles_bind; [by apply (settles_res _ c (fun a => a = c))|]. intros ? ->.
  eapply settles_bind.
  { apply (request_settles (Subtract order ONE) (n - 1)); [exact (conj (lop_ok _ _ Ho) (conj H1ok (conj (lop_le _ _ Ho) eq_refl)))| |].
    - cbn [asked]. by rewrite H1v, (lop_val _ _ Ho), (proj2 (Z.leb_le _ _)) by lia.
    - pose proof (below_capacity order n (lop_ok _ _ Ho) (lop_val _ _ Ho) Hlo). lia. }
  intros ? [(m & -> & Hmok & Hmb & Hmv & Hml)].
  eapply settles_bind; [by apply (settles_deref _ m (fun a => a = m))|]. intros ? ->.
  pose proof (Z.pow_lt_mono_r 2 nb (nb + 63) ltac:(lia) ltac:(lia) ltac:(lia)) as Hp.
  eapply (settles_bind _ _ (gives (operand_val c mod (n - 1)))).
  { pose proof (lop_of c Hcok Hcb ltac:(lia)) as Lc. pose proof (lop_of m Hmok Hmb ltac:(lia)) as Lm.
    pose proof (below_capacity c _ Hcok eq_refl ltac:(lia)) as Hcap.
    pose proof (Z.mod_pos_bound (operand_val c) (n - 1) ltac:(lia)). pose proof (Z.mod_le (operand_val c) (n - 1)).
    pose proof (request_settles (Modulo c m) (operand_val c mod (n - 1))) as Hr.
    cbn [asked] in Hr. rewrite Hmv, (proj2 (Z.ltb_lt _ _)) in Hr by lia.
    intros d. destruct (Hr (conj Hcok (conj Hmok (conj Hcb Hmb))) eq_refl ltac:(lia) d) as (k & a & d' & E & Ha).
    exists k, a, d'. split; [|done]. intros fuel Hf. unfold sync_modulo. rewrite (lop_compare Lc Lm), Hmv.
    erewrite bind_ret by reflexivity. destruct (Z.compare_spec (operand_val c) (n - 1)); cbn [code_of]; [by apply E|lia|by apply E]. }
  intros ? [(t & -> & Htok & Htb & Htv & Htl)].
  eapply settles_bind; [by apply (settles_deref _ t (fun a => a = t))|]. intros ? ->.
  pose proof (Z.mod_pos_bound (operand_val c) (n - 1) ltac:(lia)) as Hm.
  unfold sync_add. cbn [actual_len ONE]. destruct (Z.leb_spec MAX_RESULT (Z.max (actual_len t) 1 + 1)).
  - destruct (sw_add_spec t ONE Htok H1ok Htb eq_refl) as (k & Ek & Hkok & _ & Hkv); [cbn; lia|].
    rewrite Hro, Ek. apply (settles_res _ (Some k)); [done|]. exists (operand_val c), k. rewrite Hkv, H1v, Htv.
    split; [lia|]. split; [done|]. split; [done|]. split; [done|]. lia.
  - eapply settles_weaken; [apply (request_settles (Add t ONE) (operand_val t + 1)); [done|by cbn [asked]; rewrite H1v|]|].
    + pose proof (below_capacity order n (lop_ok _ _ Ho) (lop_val _ _ Ho) Hlo). lia.
    + intros ? [(k & -> & Hkok & _ & Hkv & _)]. exists (operand_val c), k. rewrite Hkv, Htv.
      split; [lia|]. split; [done|]. split; [done|]. split; [done|]. lia.
Qed.
End nonce.

(** ** The RSA key

    [Get_RSA_key_pair] takes the numbers OpenSSL read from the PEM file; a
    number that is missing is NULL. *)
Record rsa_numbers := mk_rsa_numbers {
  rn_p : option pka_bignum; rn_q : option pka_bignum; rn_dmp1 : option pka_bignum; rn_dmq1 : option pka_bignum;
  rn_iqmp : option pka_bignum; rn_d : option pka_bignum; rn_n : option pka_bignum; rn_e : option pka_bignum;
}.
Record rsa_globals := mk_rsa_globals {
  g_p : option pka_operand; g_q : option pka_operand; g_d_p : option pka_operand; g_d_q : option pka_operand;
  g_qinv : option pka_operand;
  g_rsa_encrypt_key : option pka_operand; g_rsa_decrypt_key : option pka_operand; g_rsa_modulus : option pka_operand;
}.
Definition is_set {A} (o : option A) : bool := match o with Some _ => true | None => false end.

Definition Get_RSA_key_pair (rsa : rsa_numbers) (g : rsa_globals) : res rsa_globals :=
  let conv := bignum_to_operand_rsa in
  res_bind (if is_set (rn_p rsa) && is_set (rn_q rsa) && is_set (rn_dmp1 rsa) && is_set (rn_dmq1 rsa) && is_set (rn_iqmp rsa)
    then res_bind (conv (rn_p rsa)) (fun p => res_bind (conv (rn_q rsa)) (fun q => res_bind (conv (rn_dmp1 rsa)) (fun d_p =>
         res_bind (conv (rn_dmq1 rsa)) (fun d_q => res_bind (conv (rn_iqmp rsa)) (fun qinv =>
         Ret (mk_rsa_globals p q d_p d_q qinv (g_rsa_encrypt_key g) (g_rsa_decrypt_key g) (g_rsa_modulus g)))))))
    else Ret g) (fun g =>
  if is_set (rn_d rsa)
  then res_bind (conv (rn_e rsa)) (fun e => res_bind (conv (rn_d rsa)) (fun d => res_bind (conv (rn_n rsa)) (fun n =>
       Ret (mk_rsa_globals (g_p g) (g_q g) (g_d_p g) (g_d_q g) (g_qinv g) e d n))))
  else Ret g).

(** A number of OpenSSL, stored with its least significant byte first, and an
    operand whose bytes are those of [v] in the other order. *)
Definition given (b : option pka_bignum) (v : Z) : Prop :=
  exists d top dmax, b = Some (mk_bignum (Some d) top dmax) /\ bignum_ok d top dmax /\ v = bn_val (take (Z.to_nat top) d).
Definition reversed_of (v : Z) (o : option pka_operand) : Prop :=
  exists op len, o = Some op /\ actual_len op = Z.of_nat len /\ v < 256 ^ Z.of_nat len /\ operand_val op = be_val (le_bytes len v).

Lemma bignum_to_operand_rsa_reversed b v :
  given b v -> exists o, bignum_to_operand_rsa b = Ret o /\ reversed_of v o.
Proof.
  intros (d & top & dmax & -> & [Hl Hu Hs Hd] & ->).
  assert (Forall (fun l => 0 <= l < 2 ^ 64) (take (Z.to_nat top) d)) as Ht by (by apply Forall_take).
  set (t := take (Z.to_nat top) d) in *.
  assert (length t = Z.to_nat top) as Hlt by (unfold t; rewrite length_take; lia).
  unfold bignum_to_operand_rsa, make_operand_rsa, PKA_BYTES. cbn [bn_d bn_top bn_dmax].
  rewrite !u32_id by (unfold is_u32; lia). rewrite (proj2 (Z.eqb_neq _ _)) by lia.
  unfold operand_byte_copy. cbn [buf_len big_endian buf_ptr]. rewrite (proj2 (Z.leb_le _ _)) by lia. cbn [negb].
  unfold memcpy. rewrite (proj2 (Z.leb_le _ _)) by len. rewrite (proj2 (Z.leb_le _ _)) by (rewrite length_limb_bytes; lia).
  cbn [andb res_bind]. eexists. split; [reflexivity|].
  assert (take (Z.to_nat (top * 8)) (limb_bytes d) = limb_bytes t) as Htk.
  { unfold t. rewrite <-take_limb_bytes. f_equal. lia. }
  eexists _, (8 * length t)%nat. split; [reflexivity|]. split; [simpl; lia|].
  pose proof (le_val_range (limb_bytes t) (limb_bytes_ok t)) as Hr.
  rewrite length_limb_bytes, le_val_limb_bytes in Hr by done. split; [lia|].
  unfold operand_val, digits. simpl. rewrite Htk, take_app_le by (rewrite length_limb_bytes; lia).
  rewrite firstn_all2 by (rewrite length_limb_bytes; lia).
  rewrite <-(le_val_limb_bytes t) by done. f_equal.
  rewrite <-(le_bytes_le_val (limb_bytes t)) at 1 by apply limb_bytes_ok. by rewrite length_limb_bytes.
Qed.

(** Every number of the RSA key the benchmark sets up is the OpenSSL number
    with its bytes reversed: [make_operand_rsa] is told that the limb array,
    which is little endian, is big endian, and nothing corrects the flag. *)
Theorem Get_RSA_key_pair_reversed rsa g p q dp dq qinv d n e :
  given (rn_p rsa) p -> given (rn_q rsa) q -> given (rn_dmp1 rsa) dp -> given (rn_dmq1 rsa) dq -> given (rn_iqmp rsa) qinv ->
  given (rn_d rsa) d -> given (rn_n rsa) n -> given (rn_e rsa) e ->
  exists g', Get_RSA_key_pair rsa g = Ret g' /\
    reversed_of p (g_p g') /\ reversed_of q (g_q g') /\ reversed_of dp (g_d_p g') /\ reversed_of dq (g_d_q g') /\
    reversed_of qinv (g_qinv g') /\ reversed_of d (g_rsa_decrypt_key g') /\ reversed_of n (g_rsa_modulus g') /\
    reversed_of e (g_rsa_encrypt_key g').
Proof.
  intros Hp Hq Hdp Hdq Hi Hd Hn He. unfold Get_RSA_key_pair.
  assert (forall b v, given b v -> is_set b = true) as Hset by (by intros b v (? & ? & ? & -> & _)).
  rewrite (Hset _ _ Hp), (Hset _ _ Hq), (Hset _ _ Hdp), (Hset _ _ Hdq), (Hset _ _ Hi), (Hset _ _ Hd). cbn [andb].
  apply bignum_to_operand_rsa_reversed in Hp as (? & -> & ?), Hq as (? & -> & ?), Hdp as (? & -> & ?),
    Hdq as (? & -> & ?), Hi as (? & -> & ?), Hd as (? & -> & ?), Hn as (? & -> & ?), He as (? & -> & ?).
  cbn [res_bind]. eexists. split; [reflexivity|]. by repeat split.
Qed.

(** ** A concrete accelerator for points

    The natural numbers with addition stand for the group: the point [g] has the
    ordinates [g] and 0. *)
Definition n_coords (g : N) : bytes * bytes := (le_bytes (Z.to_nat (nbytes (Z.of_N g))) (Z.of_N g), [0]).
Definition n_point (q : ecc_point) : N := Z.to_N (le_val (take (Z.to_nat (actual_len (pt_x q))) (buf_ptr (pt_x q)))).
Definition n_times (q : ecc_point) (k : pka_operand) : bytes * bytes := n_coords (Z.to_N (operand_val k) * n_point q).
Definition sample_ecc_sync : SyncLib :=
  {| device := list bytes;
     submit r d := (PKA_SUCCESS, match r with
                                 | Ecc_pt_mult c q k => [fst (n_times q k); snd (n_times q k)]
                                 | _ => []
                                 end);
     poll bufs d := (Some (PKA_SUCCESS, exact <$> d), d);
     MAX_RESULT := 16;
     rings_byte_order := false |}.
Definition sample_ecc_compute (c : pka_command) : Z * list pka_operand :=
  (0, match c with Pt_mult _ q k => [exact (fst (n_times q k)); exact (snd (n_times q k))] | _ => [] end).

Lemma n_smul k g : 0 <= k -> smul N.add 0%N k g = (Z.to_N k * g)%N.
Proof.
  intros Hk. unfold smul. replace (Z.to_N k) with (N.of_nat (Z.to_nat k)) by lia. induction (Z.to_nat k) as [|n IH]; [done|].
  change (g + times N.add 0 n g = N.of_nat (S n) * g)%N. rewrite IH. lia.
Qed.
Lemma n_coords_val g : g <> 0%N -> n_point (encode n_coords g) = g.
Proof.
  intros Hg. unfold n_point, encode, n_coords, exact. cbn [pt_x fst actual_len buf_ptr]. rewrite Nat2Z.id, take_ge by done.
  rewrite le_val_le_bytes, Z.mod_small; [lia|]. pose proof (nbytes_bounds (Z.of_N g) ltac:(lia)) as (? & _ & ?).
  rewrite Z2Nat.id by lia. lia.
Qed.
Lemma exact_holds b : holds (exact b) b.
Proof. unfold holds, exact. cbn [actual_len buf_ptr big_endian]. by rewrite take_ge. Qed.
Lemma n_times_smul q k v : lop v k -> 0 < v < p256_n -> n_times q k = n_coords (smul N.add 0%N v (n_point q)).
Proof. intros Hk Hv. unfold n_times. by rewrite (lop_val _ _ Hk), n_smul by lia. Qed.

Lemma sample_ecc_device : @ecc_device sample_ecc_sync N N.add 0%N n_point n_coords.
Proof.
  split.
  - done.
  - by vm_compute.
  - intros k g Hk Hg. rewrite n_smul by lia. lia.
  - apply n_coords_val.
  - intros q k v d Hk Hv _. exists [fst (n_times q k); snd (n_times q k)]. split; [done|]. intros buf _.
    exists 0%nat, (exact (fst (n_times q k))), (exact (snd (n_times q k))), [fst (n_times q k); snd (n_times q k)].
    split; [by apply replies_now|]. rewrite <-(n_times_smul q k v) by done. split; apply exact_holds.
Qed.

Definition ecc_bench : @bench (accel_of sample_ecc_compute) :=
  @mk_bench (accel_of sample_ecc_compute) (mk_sample [] [] 0) 7 7 [] [0; 0] [] 0 [] [] 0 0.
Lemma p256_benchmark_agrees_witness :
  exists n ks d', (forall fuel, (n < fuel)%nat ->
      @Get_P256_key_pair sample_ecc_sync (fun _ => [replicate 32 1]) (zeros 16) (zeros 16) fuel false [] = Ret ((SUCCESS, ks), d')) /\
    completes (L := accel_of_laws sample_ecc_compute) 2 5 1
      (@P256worker (accel_of sample_ecc_compute) 2 5 1 true (k_curve ks) (Some <$> (remote_pub _ <$> k_rows ks))
         (Some <$> (own_priv _ <$> k_rows ks)) (remote_shared_secret_ep ks))
      (p256_job (k_curve ks) (remote_pub _ <$> k_rows ks) (own_priv _ <$> k_rows ks)) ecc_bench.
Proof.
  refine (@p256_benchmark_agrees sample_ecc_sync (fun _ => [replicate 32 1]) (zeros 16) (zeros 16) eq_refl N N.add 0%N
    N.add_assoc N.add_0_l n_point n_coords sample_ecc_device eq_refl eq_refl
    (accel_of sample_ecc_compute) (accel_of_laws sample_ecc_compute) 2 5 1 ecc_bench [] _ _ _ _ _ _).
  - intros _. exists [], (replicate 32 1), []. split; [done|]. split; [constructor|]. split; [by vm_compute|].
    split; [apply Forall_replicate; unfold is_u8; lia|]. split; by vm_compute.
  - intros q k v Hk Hv _. split; [done|]. exists (exact (fst (n_times q k))), (exact (snd (n_times q k))). split; [done|].
    rewrite <-(n_times_smul q k v) by done. split; apply exact_holds.
  - cbn. lia.
  - lia.
  - lia.
  - done.
Defined.

(** The order 65521 of 16 bits and a random number of 80 bits. *)
Lemma ecdsa_nonce_range_witness :
  exists polls k d', (forall fuel, (polls < fuel)%nat ->
      @ecdsa_nonce sample_sync (fun _ n => replicate (Z.to_nat n) 200) (zeros 16) fuel 0
        (mk_operand [241; 255] 2 2 0 false) 16 (0%nat, None) = Ret (Some k, d')) /\ 1 <= operand_val k <= 65520.
Proof.
  destruct (@ecdsa_nonce_range sample_sync sample_sync_laws (fun _ n => replicate (Z.to_nat n) 200) (zeros 16) eq_refl
    eq_refl ltac:(cbn; lia) 0 65521 (mk_operand [241; 255] 2 2 0 false) 16) with (d := (0%nat, None) : @device sample_sync)
    as (polls & o & d' & E & c & k & _ & -> & _ & _ & Hk).
  - apply mk_lop_le; [by repeat constructor|cbn; lia|done|done|done].
  - lia.
  - lia.
  - cbn. lia.
  - done.
  - intros len Hl. split; [apply length_replicate|apply Forall_replicate; unfold is_u8; lia].
  - exists polls, k, d'. split; [exact E|lia].
Defined.
