(* ===== verification/PkaHkdf.v ===== *)
(** * The benchmark with key derivation (pka_with_hkdf/src/pka_benchmark.c,
      helpers.c)

    Thread 0 ([ASYMworker]) sends commands to the accelerator; the others
    ([HKDFworker]) derive keys and tell it through one ring each what to send:
    a signature with every handshake, two multiplications with every
    application key. [exec] runs the program under an explicit schedule, and
    the theorems hold for every schedule: no operation is lost or invented
    between the threads, the program ends when they take turns, and what it
    does with one thread, or after a second. *)

From Stdlib Require Import String.
From S2P Require Import Prelude Ring Operand Bignum BignumEcc SyncPka HexString KeySchedule PkaBench PkaTls.

(** ** Key derivation with the functions of OpenSSL 3 *)

Inductive kdf_algorithm : Type := OSSL_KDF_NAME_HKDF | OSSL_KDF_NAME_TLS1_3_KDF.
Inductive kdf_mode : Type := EVP_KDF_HKDF_MODE_EXTRACT_ONLY | EVP_KDF_HKDF_MODE_EXPAND_ONLY.
Inductive evp_md : Type := EVP_sha384.

(** The [OSSL_PARAM] array; a parameter that is not given is [None]. *)
Record kdf_params := mk_kdf_params {
  kp_mode : kdf_mode;
  kp_digest : evp_md;
  kp_salt : option bytes;
  kp_key : option bytes;
  kp_prefix : option bytes;
  kp_label : option bytes;
  kp_data : option bytes;
}.

(** The functions the code calls; [None] is a null pointer or a result that
    is not positive. *)
Class EvpKdf := {
  evp_kdf : Type;
  kdf_ctx : Type;
  EVP_KDF_fetch : kdf_algorithm -> option evp_kdf;
  EVP_KDF_CTX_new : evp_kdf -> option kdf_ctx;
  EVP_KDF_CTX_set_params : kdf_ctx -> kdf_params -> option kdf_ctx;
  EVP_KDF_derive : kdf_ctx -> nat -> option bytes;
}.

Section kdf.
Context `{EvpKdf}.

Definition hkdf_ctx_new (algorithm : kdf_algorithm) : option kdf_ctx :=
  kdf ← EVP_KDF_fetch algorithm; EVP_KDF_CTX_new kdf.

(** [out] is the caller's array, of which [out_len] bytes are written. *)
Definition derive_into (algorithm : kdf_algorithm) (params : kdf_params) (out : bytes) (out_len : nat) : Z * bytes :=
  match (kctx ← hkdf_ctx_new algorithm; kctx ← EVP_KDF_CTX_set_params kctx params; EVP_KDF_derive kctx out_len) with
  | None => (0, out)
  | Some d => (1, wr out 0 d)
  end.
Definition hkdf_extract (out : bytes) (out_len : nat) (salt key : bytes) (md : evp_md) : Z * bytes :=
  derive_into OSSL_KDF_NAME_HKDF
    (mk_kdf_params EVP_KDF_HKDF_MODE_EXTRACT_ONLY md (Some salt) (Some key) None None None) out out_len.
Definition hkdf_expand_label (out : bytes) (out_len : nat) (key label ctx : bytes) (md : evp_md) : Z * bytes :=
  derive_into OSSL_KDF_NAME_TLS1_3_KDF
    (mk_kdf_params EVP_KDF_HKDF_MODE_EXPAND_ONLY md None (Some key) (Some (str "tls13 ")) (Some label) (Some ctx)) out out_len.

(** What an array of [n] bytes holds that is not initialised, and the hash. *)
Context (stack : nat -> bytes) (SHA384 : bytes -> bytes).

(** A call whose failure makes the thread return. *)
Definition or_return (r : Z * bytes) : option bytes := if fst r =? 0 then None else Some (snd r).
Definition extract (salt key : bytes) : option bytes := or_return (hkdf_extract (stack 48) 48 salt key EVP_sha384).
Definition expand (n : nat) (key : bytes) (label : string) (ctx : bytes) : option bytes :=
  or_return (hkdf_expand_label (stack n) n key (str label) ctx EVP_sha384).

Record traffic_keys := mk_traffic_keys { client_key : bytes; server_key : bytes; client_iv : bytes; server_iv : bytes }.

Definition expand_keys (client_secret server_secret : bytes) : option traffic_keys :=
  ck ← expand 32 client_secret "key" [];
  sk ← expand 32 server_secret "key" [];
  ci ← expand 12 client_secret "iv" [];
  si ← expand 12 server_secret "iv" [];
  Some (mk_traffic_keys ck sk ci si).

(** The two branches of [HKDFworker]: the messages and the shared secret are
    dummies; the second starts from a handshake secret it never sets. *)
Definition derive_handshake : option traffic_keys :=
  let hello_hash := SHA384 (zeros 338) in
  early_secret ← extract (zeros 48) (zeros 48);
  derived_secret ← expand 48 early_secret "derived" (SHA384 []);
  handshake_secret ← extract derived_secret (zeros 32);
  client_secret ← expand 48 handshake_secret "c hs traffic" hello_hash;
  server_secret ← expand 48 handshake_secret "s hs traffic" hello_hash;
  expand_keys client_secret server_secret.
Definition derive_app : option traffic_keys :=
  let handshake_hash := SHA384 (zeros 973) in
  derived_secret ← expand 48 (stack 48) "derived" (SHA384 []);
  master_secret ← extract derived_secret (zeros 48);
  app_client_secret ← expand 48 master_secret "c ap traffic" handshake_hash;
  app_server_secret ← expand 48 master_secret "s ap traffic" handshake_hash;
  expand_keys app_client_secret app_server_secret.
End kdf.

(** ** The threads *)

(** The enumeration whose values the rings carry: a pointer to one of the
    globals [handshake_key_derive] and [app_key_derive], which never change. *)
Definition HANDSHAKE_KEY_DERIVE : Z := 0.
Definition APP_KEY_DERIVE : Z := 1.
Definition MAX_THREAD_NUM : Z := 16.

(** A key-derivation thread: its counter in [thread_ctx] and whether it has
    returned. [put], what it has put in its ring so far, is not in the code:
    the theorems speak of it. *)
Record hkdf_thread := mk_hkdf_thread { outstanding_hkdf_num : Z; returned : bool; put : list Z }.

(** The globals the threads share, and where each is. The ASYM thread is [asym],
    whose [cur_command_cnt] is [ctx->outstanding_pka_num]; [loop_i] is the [i]
    of its [for] loop. *)
Record world `{Accelerator} := mk_world {
  asym : bench;
  loop_i : nat;
  work_done : bool;
  pka_cmd_rings : list (option (sj_ring Z));
  threads : list hkdf_thread;
}.
Arguments mk_world {_} _ _ _ _ _.

Section program.
Context `{Accelerator} `{EvpKdf} (stack : nat -> bytes) (SHA384 : bytes -> bytes).
Context (thread_num : nat) (outstanding_cmd_num cmd_cnt_per_thread : Z).
Context (P256_curve : ecc_curve) (P256_base_pt : ecc_point) (P256_base_pt_order C255_base_pt_order : pka_operand)
  (X25519_curve : mont_curve) (ec_priv_key hash k remote_ec_pub_key_x25519 : list (option pka_operand))
  (ring_order : bool) (rand : nat -> Z) (hwrng : nat -> Z -> bytes).

(** *** HKDFworker

    One turn of the loop, from the test of [work_done]; [r] is the value of
    [rand_r]. Nothing but the enqueue and the counter touches what another
    thread sees. *)
Definition derive (token : Z) : option traffic_keys :=
  if token =? HANDSHAKE_KEY_DERIVE then derive_handshake stack SHA384 else derive_app stack SHA384.
Definition hkdf_turn (r : Z) (done : bool) (t : hkdf_thread) (ring : sj_ring Z) : res (hkdf_thread * sj_ring Z) :=
  if returned t then Ret (t, ring)
  else if done then Ret (mk_hkdf_thread (outstanding_hkdf_num t) true (put t), ring) else
  let rand_num := Z.rem r 2 in
  if (rand_num =? HANDSHAKE_KEY_DERIVE) || (rand_num =? APP_KEY_DERIVE) then
    res_bind (sj_ring_enqueue ring rand_num) (fun '(rc, ring') =>
    if negb (rc =? 0) then Ret (t, ring')
    else match derive rand_num with
         | None => Ret (mk_hkdf_thread (outstanding_hkdf_num t) true (put t ++ [rand_num]), ring')
         | Some _ =>
             Ret (mk_hkdf_thread (outstanding_hkdf_num t + if rand_num =? HANDSHAKE_KEY_DERIVE then 1 else 0) false
                    (put t ++ [rand_num]), ring')
         end)
  else Ret (t, ring).

(** *** ASYMworker *)

(** A command that is refused ends the process. *)
Definition checked (send : M bench Z) : M bench unit :=
  do pka_status <- send;
  if pka_status <? 0 then mexit else
  mmod (fun s => s <| cnt ::= Z.succ |> <| cur_command_cnt ::= Z.succ |>).

Definition serve (tls_state idx : Z) : M bench unit :=
  if tls_state =? HANDSHAKE_KEY_DERIVE then
    checked (tls13_sign P256_curve P256_base_pt P256_base_pt_order ec_priv_key hash k rand idx)
  else if tls_state =? APP_KEY_DERIVE then
    do x <- fresh_scalar C255_base_pt_order ring_order hwrng idx;
    checked (tls13_ecdh X25519_curve remote_ec_pub_key_x25519 rand idx x) ;;;
    do s <- mget;
    do x' <- elem (priv_x25519_0 s) (idx + 1);
    checked (tls13_ecdh X25519_curve remote_ec_pub_key_x25519 rand (idx + 1) x')
  else ret tt.

(** One turn of the [for] loop over the rings. *)
Definition scan (i : nat) (w : world) : res world :=
  res_bind (mod_int (cnt (asym w)) (outstanding_cmd_num - 1) (asym w)) (fun '(idx, b) =>
  match pka_cmd_rings w !! i with
  | None => Fault Out_of_bounds
  | Some None => Fault Null_deref
  | Some (Some r) =>
      res_bind (sj_ring_dequeue r) (fun '(rc, tls_state, r') =>
      let rings := <[i := Some r']> (pka_cmd_rings w) in
      if rc =? 0 then
        match tls_state with
        | None => Fault Undefined_value
        | Some t => res_bind (serve t idx b) (fun '(_, b') =>
                      Ret (mk_world b' (loop_i w) (work_done w) rings (threads w)))
        end
      else Ret (mk_world b (loop_i w) (work_done w) rings (threads w)))
  end).

(** The results are taken until there is none; every one counts. *)
Fixpoint asym_drain (fuel : nat) : M bench unit :=
  match fuel with
  | O => mfault Out_of_fuel
  | S fuel' =>
      do s <- mget;
      if negb (0 <=? cur_command_cnt s) then ret tt else
      do r <- lib hw_result;
      match r with
      | None => ret tt
      | Some r => mmod (fun s => s <| cur_command_cnt ::= Z.pred |>) ;;; count_op 0 (opcode r) ;;; asym_drain fuel'
      end
  end.

(** The report of a second: it divides by a global that nothing increments.
    [PrintStatistics] changes its own statics only. *)
Definition pka_get_result_cnt : Z := 0.
Definition report_due (diff : Z) : M bench unit :=
  if 1000000000 <? diff then do _ <- mod_int 0 pka_get_result_cnt; ret tt else ret tt.

(** A step of the ASYM thread: one ring, or the rest of the turn of its outer
    loop. [diff] is the time since the last report. *)
Definition asym_step (diff : Z) (w : world) : res world :=
  if work_done w then Ret w
  else if (loop_i w <? thread_num)%nat then
    res_bind (scan (loop_i w) w) (fun w' =>
    Ret (mk_world (asym w') (S (loop_i w')) (work_done w') (pka_cmd_rings w') (threads w')))
  else
    res_bind ((asym_drain (S (S (Z.to_nat (cur_command_cnt (asym w))))) ;;; report_due diff) (asym w)) (fun '(_, b) =>
    if cnt b <? cmd_cnt_per_thread then Ret (mk_world b 1 false (pka_cmd_rings w) (threads w))
    else Ret (mk_world b (loop_i w) true (pka_cmd_rings w) (threads w))).

Definition hkdf_step (i : nat) (r : Z) (w : world) : res world :=
  match threads w !! i, pka_cmd_rings w !! i with
  | Some t, Some (Some ring) =>
      res_bind (hkdf_turn r (work_done w) t ring) (fun '(t', ring') =>
      Ret (mk_world (asym w) (loop_i w) (work_done w) (<[i := Some ring']> (pka_cmd_rings w)) (<[i := t']> (threads w))))
  | Some _, Some None => Fault Null_deref
  | _, _ => Fault Out_of_bounds
  end.

(** A schedule says which thread moves next. *)
Inductive choice : Type :=
| Hkdf (i : nat) (r : Z)
| Asym (diff : Z).
Definition move (c : choice) (w : world) : res world :=
  match c with
  | Hkdf i r => if (0 <? i)%nat && (i <? thread_num)%nat then hkdf_step i r w else Ret w
  | Asym diff => asym_step diff w
  end.
Fixpoint exec (cs : list choice) (w : world) : res world :=
  match cs with
  | [] => Ret w
  | c :: cs' => res_bind (move c w) (exec cs')
  end.

(** *** main

    The contexts are cleared, then the rings are made (a second ring per thread,
    of the same size, is never used); before the barrier every
    key-derivation thread puts a first token in its ring. *)
Definition clear_ctx (l : list hkdf_thread) : res (list hkdf_thread) :=
  for_loop thread_num 0 (fun i l =>
    if (i <? length l)%nat then Ret (<[i := mk_hkdf_thread 0 false []]> l) else Fault Out_of_bounds) l.
Definition create_rings (l : list (option (sj_ring Z))) : res (list (option (sj_ring Z))) :=
  for_loop (thread_num - 1) 1 (fun i l =>
    res_bind (sj_ring_create Z outstanding_cmd_num) (fun r =>
    if (i <? length l)%nat then Ret (<[i := Some r]> l) else Fault Out_of_bounds)) l.
Definition first_token (i : nat) (w : world) : res world :=
  match threads w !! i, pka_cmd_rings w !! i with
  | Some t, Some (Some ring) =>
      res_bind (sj_ring_enqueue ring APP_KEY_DERIVE) (fun '(rc, ring') =>
      Ret (mk_world (asym w) (loop_i w) (work_done w) (<[i := Some ring']> (pka_cmd_rings w))
             (<[i := if rc =? 0 then mk_hkdf_thread (outstanding_hkdf_num t) (returned t) (put t ++ [APP_KEY_DERIVE]) else t]>
                (threads w))))
  | Some _, Some None => Fault Null_deref
  | _, _ => Fault Out_of_bounds
  end.
Definition main (b : bench) (ctxs : list hkdf_thread) : res world :=
  res_bind (clear_ctx ctxs) (fun ctxs =>
  res_bind (create_rings (replicate (Z.to_nat MAX_THREAD_NUM) None)) (fun rings =>
  for_loop (thread_num - 1) 1 first_token (mk_world b 1 false rings ctxs))).

(** [main] waits for thread 0, which returns once it has set [work_done], and
    for the key-derivation threads. *)
Definition joined (w : world) : bool :=
  work_done w && forallb (fun i => match threads w !! i with Some t => returned t | None => false end) (seq 1 (thread_num - 1)).
End program.

(** ** The derived keys

    Documented behaviour of the two algorithms of OpenSSL with SHA-384:
    HKDF-Extract of RFC 5869 and HKDF-Expand-Label of RFC 8446. *)
Class EvpLaws `{EvpKdf} (hmac : bytes -> bytes -> bytes) : Prop := {
  hmac_48 salt key : length (hmac salt key) = 48%nat;
  evp_extract salt key : exists kctx kctx', hkdf_ctx_new OSSL_KDF_NAME_HKDF = Some kctx /\
    EVP_KDF_CTX_set_params kctx
      (mk_kdf_params EVP_KDF_HKDF_MODE_EXTRACT_ONLY EVP_sha384 (Some salt) (Some key) None None None) = Some kctx' /\
    EVP_KDF_derive kctx' 48 = Some (hmac salt key);
  evp_expand key label data n : (0 < n <= 255 * 48)%nat -> (length label <= 249)%nat -> (length data <= 255)%nat ->
    exists kctx kctx', hkdf_ctx_new OSSL_KDF_NAME_TLS1_3_KDF = Some kctx /\
      EVP_KDF_CTX_set_params kctx
        (mk_kdf_params EVP_KDF_HKDF_MODE_EXPAND_ONLY EVP_sha384 None (Some key) (Some (str "tls13 ")) (Some label) (Some data))
        = Some kctx' /\
      EVP_KDF_derive kctx' n = Some (ExpandLabel hmac key label data n) /\ length (ExpandLabel hmac key label data n) = n;
}.

Section keys.
Context `{EvpKdf} (hmac : bytes -> bytes -> bytes) {L : EvpLaws hmac} (stack : nat -> bytes) (SHA384 : bytes -> bytes).
Context (stack_len : forall n, length (stack n) = n) (sha_len : forall m, length (SHA384 m) = 48%nat).

Lemma extract_spec salt key : extract stack salt key = Some (Extract hmac salt key).
Proof.
  destruct (evp_extract (hmac := hmac) salt key) as (kctx & kctx' & E1 & E2 & E3).
  unfold extract, or_return, hkdf_extract, derive_into. rewrite E1. cbn. rewrite E2. cbn. rewrite E3. cbn. f_equal.
  unfold wr. cbn. rewrite drop_ge; [by rewrite app_nil_r|]. rewrite (hmac_48 (hmac := hmac)), stack_len. lia.
Qed.
Lemma expand_spec n key label ctx : (0 < n <= 255 * 48)%nat -> (length (str label) <= 249)%nat -> (length ctx <= 255)%nat ->
  expand stack n key label ctx = Some (ExpandLabel hmac key (str label) ctx n).
Proof.
  intros Hn Hl Hc. destruct (evp_expand (hmac := hmac) key (str label) ctx n Hn Hl Hc) as (kctx & kctx' & E1 & E2 & E3 & E4).
  unfold expand, or_return, hkdf_expand_label, derive_into. rewrite E1. cbn -[str]. rewrite E2. cbn -[str]. rewrite E3. cbn -[str].
  f_equal. unfold wr. rewrite E4, drop_ge; [by rewrite app_nil_r|]. rewrite stack_len. lia.
Qed.

(** What RFC 8446 derives from a pair of traffic secrets. *)
Definition keys_of (client_secret server_secret : bytes) : traffic_keys :=
  mk_traffic_keys (traffic_key hmac client_secret) (traffic_key hmac server_secret)
    (traffic_iv hmac client_secret) (traffic_iv hmac server_secret).

Lemma expand_keys_spec c s : expand_keys stack c s = Some (keys_of c s).
Proof. unfold expand_keys. by rewrite !expand_spec by (cbn; lia). Qed.

(** The keys a thread derives with every handshake are those of RFC 8446
    for the dummy messages and secret; with the application keys it derives
    the right function of a handshake secret it never initialised. *)
Theorem hkdf_worker_keys_rfc8446 :
  let secret hs (label : string) len := DeriveSecret hmac SHA384 hs (str label) (zeros len) in
  let hs := HandshakeSecret hmac SHA384 (zeros 32) in
  let ms := MasterSecret hmac SHA384 (stack 48) in
  derive stack SHA384 HANDSHAKE_KEY_DERIVE = Some (keys_of (secret hs "c hs traffic"%string 338%nat) (secret hs "s hs traffic"%string 338%nat)) /\
  derive stack SHA384 APP_KEY_DERIVE = Some (keys_of (secret ms "c ap traffic"%string 973%nat) (secret ms "s ap traffic"%string 973%nat)).
Proof.
  intros secret hs ms. unfold derive. cbn [Z.eqb HANDSHAKE_KEY_DERIVE APP_KEY_DERIVE]. split.
  - unfold derive_handshake. rewrite extract_spec. cbn [mbind option_bind]. rewrite expand_spec by (rewrite ?sha_len; cbn; lia).
    cbn [mbind option_bind]. rewrite extract_spec. cbn [mbind option_bind]. rewrite !expand_spec by (rewrite ?sha_len; cbn; lia).
    apply expand_keys_spec.
  - unfold derive_app. rewrite expand_spec by (rewrite ?sha_len; cbn; lia). cbn [mbind option_bind]. rewrite extract_spec.
    cbn [mbind option_bind]. rewrite !expand_spec by (rewrite ?sha_len; cbn; lia). apply expand_keys_spec.
Qed.
End keys.

(** ** The threads together *)

Definition n_tok (t : Z) (l : list Z) : Z := Z.of_nat (length (filter (fun x => x = t) l)).

Lemma n_tok_app t l l' : n_tok t (l ++ l') = n_tok t l + n_tok t l'.
Proof. unfold n_tok. rewrite filter_app, length_app. lia. Qed.
Lemma n_tok_cons t x l : n_tok t (x :: l) = (if decide (x = t) then 1 else 0) + n_tok t l.
Proof. unfold n_tok. rewrite filter_cons. case_decide; cbn [length]; lia. Qed.
Section threads.
Context `{Accelerator} {L : AccelLaws} `{EvpKdf} (hmac : bytes -> bytes -> bytes) {EL : EvpLaws hmac}.
Context (stack : nat -> bytes) (SHA384 : bytes -> bytes).
Context (stack_len : forall n, length (stack n) = n) (sha_len : forall m, length (SHA384 m) = 48%nat).
Context (thread_num : nat) (outstanding_cmd_num cmd_cnt_per_thread : Z).
Context (P256_curve : ecc_curve) (P256_base_pt : ecc_point) (P256_base_pt_order C255_base_pt_order : pka_operand)
  (X25519_curve : mont_curve) (ec_priv_key hash k remote_ec_pub_key_x25519 : list pka_operand)
  (ring_order : bool) (rand : nat -> Z) (hwrng : nat -> Z -> bytes).

(** The options [main] accepts and the program can work with, and the keys. *)
Record setup : Prop := mk_setup {
  su_threads : (2 <= thread_num <= 16)%nat;
  su_out : exists e, 1 <= e <= 9 /\ outstanding_cmd_num = 2 ^ e;
  su_cnt : 0 < cmd_cnt_per_thread < 2 ^ 31 - 30;
  su_capacity : cmd_cnt_per_thread + 2 * Z.of_nat thread_num <= capacity;
  su_keys : Forall (fun n => outstanding_cmd_num <= Z.of_nat n)
    [length ec_priv_key; length hash; length k; length remote_ec_pub_key_x25519];
  su_order : operand_byte_len C255_base_pt_order = Ret 32;
  su_rng n : length (hwrng n 32) = 32%nat;
  su_rand n : 0 <= rand n;
  su_sign key h kk : valid (Ecdsa_generate P256_curve P256_base_pt P256_base_pt_order key h kk);
  su_ecdh q x : scalar_ok x -> valid (Mont_mult X25519_curve q x);
}.
Context (Hs : setup).

Lemma out_range : 2 <= outstanding_cmd_num <= 512.
Proof.
  destruct (su_out Hs) as (e & He & ->). pose proof (Z.pow_le_mono_r 2 1 e). pose proof (Z.pow_le_mono_r 2 e 9). lia.
Qed.

(** The ASYM thread when it has sent [h] signatures and [m] multiplications. *)
Record asym_ok (b : bench) (h m : Z) : Prop := mk_asym_ok {
  ao_cnt : cnt b = h + m;
  ao_cur : cur_command_cnt b = Z.of_nat (length (in_flight (accel b)));
  ao_ops : exists x y, tls13_op_cnt b !! 0%nat = Some (mk_op_cnt x y) /\ 0 <= x /\ 0 <= y /\
    x + n_op CC_ECDSA_GENERATE (in_flight (accel b)) = h /\ y + n_op CC_MONT_ECDH_MULTIPLY (in_flight (accel b)) = m;
  ao_flight : Forall (fun c => opcode_of (snd c) = CC_ECDSA_GENERATE \/ opcode_of (snd c) = CC_MONT_ECDH_MULTIPLY)
    (in_flight (accel b));
  ao_priv : outstanding_cmd_num <= Z.of_nat (length (priv_x25519_0 b)) /\ filled scalar_ok (priv_x25519_0 b);
}.

Lemma flight_length (fl : list (option Z * pka_command)) :
  Forall (fun c => opcode_of (snd c) = CC_ECDSA_GENERATE \/ opcode_of (snd c) = CC_MONT_ECDH_MULTIPLY) fl ->
  Z.of_nat (length fl) = n_op CC_ECDSA_GENERATE fl + n_op CC_MONT_ECDH_MULTIPLY fl.
Proof.
  induction 1 as [|c fl Hc _ IH]; [done|]. rewrite !n_op_cons. cbn [length].
  destruct Hc as [Hc|Hc]; rewrite Hc; repeat case_decide; try done; lia.
Qed.

Lemma checked_run send (s s1 : bench) ptr c h m :
  send s = lib (hw_submit ptr c) s1 -> asym_ok s1 h m -> cnt s1 < cmd_cnt_per_thread + 2 * Z.of_nat thread_num ->
  valid c -> opcode_of c = CC_ECDSA_GENERATE \/ opcode_of c = CC_MONT_ECDH_MULTIPLY ->
  exists d, checked send s = Ret (tt, s1 <| accel := d |> <| cnt := cnt s1 + 1 |> <| cur_command_cnt := cur_command_cnt s1 + 1 |>) /\
    asym_ok (s1 <| accel := d |> <| cnt := cnt s1 + 1 |> <| cur_command_cnt := cur_command_cnt s1 + 1 |>)
      (h + if decide (opcode_of c = CC_ECDSA_GENERATE) then 1 else 0)
      (m + if decide (opcode_of c = CC_MONT_ECDH_MULTIPLY) then 1 else 0).
Proof.
  intros E [Hc Hu (x & y & El & Hx & Hy & Ex & Ey) Hf Hp] Hlt Hv Ho.
  pose proof (flight_length _ Hf). pose proof (su_capacity Hs).
  destruct (submit_law ptr c (accel s1)) as (rc & d & Es & Hrc & Hfl & _); [lia|done|].
  exists d. split.
  { unfold checked. erewrite bind_ret by (rewrite E; unfold lib; rewrite Es; reflexivity).
    by rewrite (proj2 (Z.ltb_ge _ _)) by lia. }
  split; cbn; [destruct Ho as [-> | ->]; repeat case_decide; done || lia| | | |done].
  - rewrite Hfl. cbn [length]. lia.
  - exists x, y. rewrite !(n_op_perm _ _ _ Hfl), !n_op_cons. cbn [snd].
    split; [done|]. split; [done|]. split; [done|]. repeat case_decide; lia.
  - rewrite Hfl. by constructor.
Qed.

Lemma elem_some {A} (l : list A) idx (s : bench) : 0 <= idx < Z.of_nat (length l) ->
  exists x, elem (Some <$> l) idx s = Ret (x, s) /\ l !! Z.to_nat idx = Some x.
Proof.
  intros Hi. destruct (lookup_lt_is_Some_2 l (Z.to_nat idx)) as [x Ex]; [lia|]. exists x. split; [|done].
  unfold elem. by rewrite (proj2 (Z.leb_le _ _)), list_lookup_fmap, Ex by lia.
Qed.
Lemma keys_len idx : 0 <= idx < outstanding_cmd_num ->
  0 <= idx < Z.of_nat (length ec_priv_key) /\ 0 <= idx < Z.of_nat (length hash) /\ 0 <= idx < Z.of_nat (length k) /\
  0 <= idx < Z.of_nat (length remote_ec_pub_key_x25519).
Proof. intros Hi. pose proof (su_keys Hs) as Hk. rewrite !Forall_cons in Hk. cbv beta in Hk. lia. Qed.

(** What a token makes the ASYM thread send. *)
Lemma asym_ok_ext (b b' : bench) h m : asym_ok b h m -> accel b' = accel b -> cnt b' = cnt b ->
  cur_command_cnt b' = cur_command_cnt b -> tls13_op_cnt b' = tls13_op_cnt b ->
  outstanding_cmd_num <= Z.of_nat (length (priv_x25519_0 b')) /\ filled scalar_ok (priv_x25519_0 b') -> asym_ok b' h m.
Proof. intros [Hc Hu Ho Hf _] E1 E2 E3 E4 Hp. split; rewrite ?E1, ?E2, ?E3, ?E4; done. Qed.

Lemma sign_run idx (s : bench) h m : asym_ok s h m -> 0 <= idx < outstanding_cmd_num ->
  cnt s < cmd_cnt_per_thread + 2 * Z.of_nat thread_num ->
  exists s', checked (tls13_sign P256_curve P256_base_pt P256_base_pt_order (Some <$> ec_priv_key) (Some <$> hash) (Some <$> k)
    rand idx) s = Ret (tt, s') /\ asym_ok s' (h + 1) m /\ cnt s' = cnt s + 1.
Proof.
  intros Ho Hi Hlt. destruct (keys_len idx Hi) as (K1 & K2 & K3 & _).
  destruct (elem_some _ idx s K1) as (key & Ek & _), (elem_some _ idx s K2) as (hh & Eh & _), (elem_some _ idx s K3) as (kk & Ekk & _).
  pose (s1 := s <| draws ::= S |>).
  assert (asym_ok s1 h m) as Ho1 by (by eapply asym_ok_ext; [exact Ho|..|apply (ao_priv _ _ _ Ho)]).
  destruct (checked_run (tls13_sign P256_curve P256_base_pt P256_base_pt_order (Some <$> ec_priv_key) (Some <$> hash)
    (Some <$> k) rand idx) s s1 (Some (Z.rem (rand (draws s)) USER_DATA_NUM))
    (Ecdsa_generate P256_curve P256_base_pt P256_base_pt_order key hh kk) h m) as (d & E & Hd).
  - unfold tls13_sign. erewrite bind_ret by exact Ek. erewrite bind_ret by exact Eh. by erewrite bind_ret by exact Ekk.
  - exact Ho1.
  - exact Hlt.
  - apply (su_sign Hs).
  - by left.
  - eexists. split; [exact E|]. split; [|done]. rewrite Z.add_0_r in Hd. exact Hd.
Qed.
Lemma ecdh_run x idx (s : bench) h m : asym_ok s h m -> scalar_ok x -> 0 <= idx < outstanding_cmd_num ->
  cnt s < cmd_cnt_per_thread + 2 * Z.of_nat thread_num ->
  exists s', checked (tls13_ecdh X25519_curve (Some <$> remote_ec_pub_key_x25519) rand idx x) s = Ret (tt, s') /\
    asym_ok s' h (m + 1) /\ cnt s' = cnt s + 1.
Proof.
  intros Ho Hx Hi Hlt. destruct (keys_len idx Hi) as (_ & _ & _ & K4).
  destruct (elem_some _ idx s K4) as (q & Eq & _). pose (s1 := s <| draws ::= S |>).
  assert (asym_ok s1 h m) as Ho1 by (by eapply asym_ok_ext; [exact Ho|..|apply (ao_priv _ _ _ Ho)]).
  destruct (checked_run (tls13_ecdh X25519_curve (Some <$> remote_ec_pub_key_x25519) rand idx x) s s1
    (Some (Z.rem (rand (draws s)) USER_DATA_NUM)) (Mont_mult X25519_curve q x) h m) as (d & E & Hd).
  - unfold tls13_ecdh. by erewrite bind_ret by exact Eq.
  - exact Ho1.
  - exact Hlt.
  - by apply (su_ecdh Hs).
  - by right.
  - eexists. split; [exact E|]. split; [|done]. rewrite Z.add_0_r in Hd. exact Hd.
Qed.

Abbreviation served := (serve P256_curve P256_base_pt P256_base_pt_order C255_base_pt_order X25519_curve (Some <$> ec_priv_key)
  (Some <$> hash) (Some <$> k) (Some <$> remote_ec_pub_key_x25519) ring_order rand hwrng).
Definition signs (t : Z) : Z := if decide (t = HANDSHAKE_KEY_DERIVE) then 1 else 0.
Definition mults (t : Z) : Z := if decide (t = APP_KEY_DERIVE) then 2 else 0.

Lemma serve_run t idx (s : bench) h m : asym_ok s h m -> t = HANDSHAKE_KEY_DERIVE \/ t = APP_KEY_DERIVE ->
  0 <= idx < outstanding_cmd_num - 1 -> cnt s + 1 < cmd_cnt_per_thread + 2 * Z.of_nat thread_num ->
  exists s', served t idx s = Ret (tt, s') /\ asym_ok s' (h + signs t) (m + mults t) /\ cnt s + 1 <= cnt s' <= cnt s + 2.
Proof.
  intros Ho [-> | ->] Hi Hlt; unfold serve;
    [change (HANDSHAKE_KEY_DERIVE =? HANDSHAKE_KEY_DERIVE) with true
    |change (APP_KEY_DERIVE =? HANDSHAKE_KEY_DERIVE) with false; change (APP_KEY_DERIVE =? APP_KEY_DERIVE) with true]; cbv iota.
  - destruct (sign_run idx s h m Ho) as (s' & E & Ho' & Ec); [lia..|]. exists s'. unfold signs, mults. cbn. rewrite Z.add_0_r.
    split; [exact E|]. split; [done|lia].
  - destruct (ao_priv _ _ _ Ho) as [Hl Hf].
    destruct (draw_scalar_run C255_base_pt_order ring_order hwrng (su_order Hs) (su_rng Hs) idx s ltac:(lia) Hf) as (x & E & Hx & Hf').
    erewrite bind_ret by exact E.
    pose (s0 := s <| draws ::= S |> <| priv_x25519_0 ::= insert (Z.to_nat idx) (Some x) |>).
    assert (asym_ok s0 h m) as Ho0 by (eapply asym_ok_ext; [exact Ho|done..|split; [by cbn; rewrite length_insert|done]]).
    destruct (ecdh_run x idx s0 h m Ho0 Hx ltac:(lia)) as (s1 & E1 & Ho1 & Ec1); [cbn; lia|]. erewrite bind_ret by exact E1.
    destruct (ao_priv _ _ _ Ho1) as [Hl1 Hf1].
    destruct (lookup_lt_is_Some_2 (priv_x25519_0 s1) (Z.to_nat (idx + 1))) as [o1 Eo]; [lia|].
    destruct (Forall_lookup_1 _ _ _ _ Hf1 Eo) as (x1 & -> & Hx1).
    destruct (ecdh_run x1 (idx + 1) s1 h (m + 1) Ho1 Hx1 ltac:(lia)) as (s2 & E2 & Ho2 & Ec2); [cbn in *; lia|].
    exists s2. unfold signs, mults. cbn. rewrite Z.add_0_r. split; [|split; [by rewrite <-Z.add_assoc in Ho2|cbn in *; lia]].
    assert (elem (priv_x25519_0 s1) (idx + 1) s1 = Ret (x1, s1)) as Ee
      by (unfold elem; by rewrite (proj2 (Z.leb_le _ _)), Eo by lia).
    by erewrite bind_ret by exact Ee.
Qed.

(** Taking results: each answers a command, so their number bounds the loop. *)
Lemma asym_drain_run fuel (s : bench) h m : asym_ok s h m -> 0 <= h -> 0 <= m -> h + m < 2 ^ 32 ->
  cur_command_cnt s < Z.of_nat fuel ->
  exists s', asym_drain fuel s = Ret (tt, s') /\ asym_ok s' h m.
Proof.
  revert s. induction fuel as [|fuel IH]; intros s Ho Hh Hm Hlt Hf; pose proof (ao_cur _ _ _ Ho) as Hu; [lia|].
  cbn [asym_drain]. erewrite bind_ret by reflexivity. rewrite (proj2 (Z.leb_le _ _)) by lia. cbn [negb].
  pose proof (result_law (accel s)) as Hr. destruct (hw_result (accel s)) as [r d] eqn:Er. destruct Hr as [_ Hr].
  erewrite bind_ret by (unfold lib; rewrite Er; reflexivity). destruct r as [r|].
  2: { exists (s <| accel := d |>). split; [done|]. destruct Hr as [Hp _]. destruct Ho as [H1 H2 (x & y & H3) H4 H5].
       split; cbn; [done|by rewrite Hp| |by rewrite Hp|done]. exists x, y. by rewrite !(n_op_perm _ _ _ Hp). }
  destruct Hr as (p & c & Hp & ->). destruct Ho as [H1 H2 (x & y & El & Hx & Hy & Ex & Ey) H4 H5].
  rewrite (n_op_perm _ _ _ Hp), n_op_cons in Ex. rewrite (n_op_perm _ _ _ Hp), n_op_cons in Ey. cbn [snd opcode] in *.
  pose proof H4 as H4'. rewrite Hp in H4'. apply Forall_cons in H4' as [Hoc Hf']. cbn [snd] in Hoc.
  pose proof (flight_length _ Hf').
  assert (forall o l, 0 <= n_op o l) as Hn by (intros; unfold n_op; lia).
  pose proof (Hn CC_ECDSA_GENERATE (in_flight d)). pose proof (Hn CC_MONT_ECDH_MULTIPLY (in_flight d)).
  pose (s1 := s <| accel := d |> <| cur_command_cnt ::= Z.pred |>).
  destruct (count_op_run 0 (opcode_of c) s1 x y Hoc El) as (l & Ecn & El'); [repeat case_decide; lia..|].
  erewrite bind_ret by reflexivity. erewrite bind_ret by exact Ecn.
  apply IH; [|done|done|done|cbn; lia]. apply Permutation_length in Hp. cbn [length] in Hp.
  split; cbn; [done|lia| |done|done]. eexists _, _. split; [exact El'|]. repeat case_decide; lia.
Qed.

(** *** The invariant

    [qs] are the tokens in the rings. *)
Definition ring_is (o : option (sj_ring Z)) (q : list Z) : Prop :=
  match o with None => q = [] | Some r => ring_rep r q /\ size r = outstanding_cmd_num end.
Definition token (t : Z) : Prop := t = HANDSHAKE_KEY_DERIVE \/ t = APP_KEY_DERIVE.

Record inv (w : world) (qs : list (list Z)) (h m : Z) : Prop := mk_inv {
  iv_asym : asym_ok (asym w) h m;
  iv_rings : Forall2 ring_is (pka_cmd_rings w) qs;
  iv_len : length (pka_cmd_rings w) = 16%nat /\ length (threads w) = 16%nat;
  iv_some i : (1 <= i < thread_num)%nat -> exists r, pka_cmd_rings w !! i = Some (Some r);
  iv_tokens : Forall (Forall token) qs;
  iv_h : zsum (fun t => n_tok HANDSHAKE_KEY_DERIVE (put t)) (threads w) = h + zsum (n_tok HANDSHAKE_KEY_DERIVE) qs;
  iv_m : 2 * zsum (fun t => n_tok APP_KEY_DERIVE (put t)) (threads w) = m + 2 * zsum (n_tok APP_KEY_DERIVE) qs;
  iv_put : Forall (fun t => outstanding_hkdf_num t = n_tok HANDSHAKE_KEY_DERIVE (put t)) (threads w);
  iv_running : Forall (fun t => returned t = true -> work_done w = true) (threads w);
  iv_pos : 0 <= h /\ 0 <= m;
  iv_i : (1 <= loop_i w <= thread_num)%nat;
  iv_range : if work_done w then cmd_cnt_per_thread <= cnt (asym w) < cmd_cnt_per_thread + 2 * (Z.of_nat thread_num - 1)
             else cnt (asym w) < cmd_cnt_per_thread + 2 * (Z.of_nat (loop_i w) - 1);
}.

Lemma derive_some t : exists ks, derive stack SHA384 t = Some ks.
Proof.
  destruct (hkdf_worker_keys_rfc8446 hmac stack SHA384 stack_len sha_len) as [E1 E2]. cbv zeta in E1, E2.
  unfold derive in *. destruct (t =? HANDSHAKE_KEY_DERIVE); [by eexists; exact E1|by eexists; exact E2].
Qed.

Lemma token_cases r : 0 <= r -> token (Z.rem r 2).
Proof. intros Hr. rewrite Z.rem_mod_nonneg by lia. pose proof (Z.mod_pos_bound r 2). unfold token, HANDSHAKE_KEY_DERIVE, APP_KEY_DERIVE. lia. Qed.

(** A thread's ring, and what putting a token in it does to the invariant. *)
Lemma ring_at w qs h m i : inv w qs h m -> (1 <= i < thread_num)%nat ->
  exists t r q, threads w !! i = Some t /\ pka_cmd_rings w !! i = Some (Some r) /\ qs !! i = Some q /\
    ring_rep r q /\ size r = outstanding_cmd_num.
Proof.
  intros Hi Hlt. pose proof (su_threads Hs). destruct (iv_len _ _ _ _ Hi) as [_ Hl].
  destruct (iv_some _ _ _ _ Hi i Hlt) as [r Er]. destruct (lookup_lt_is_Some_2 (threads w) i) as [t Et]; [lia|].
  destruct (Forall2_lookup_l _ _ _ _ _ (iv_rings _ _ _ _ Hi) Er) as (q & Eq & Hr). by exists t, r, q.
Qed.

Lemma inv_put w qs h m i t r r' q tok t' : inv w qs h m -> threads w !! i = Some t -> pka_cmd_rings w !! i = Some (Some r) ->
  qs !! i = Some q -> ring_rep r' (q ++ [tok]) -> size r' = outstanding_cmd_num -> token tok ->
  put t' = put t ++ [tok] -> outstanding_hkdf_num t' = outstanding_hkdf_num t + signs tok ->
  (returned t' = true -> work_done w = true) ->
  inv (mk_world (asym w) (loop_i w) (work_done w) (<[i := Some r']> (pka_cmd_rings w)) (<[i := t']> (threads w)))
    (<[i := q ++ [tok]]> qs) h m.
Proof.
  intros [Ha Hr [Hl1 Hl2] Hso Ht Hh Hm Hp Hrun Hpos Hi Hrng] Et Er Eq Hr' Hsz Htok Ep Eo Hret.
  split; cbn -[insert zsum]; [done| | | | | | | | |done|done|done].
  - apply Forall2_insert; [done|]. by split.
  - by rewrite !length_insert.
  - intros j Hj. destruct (decide (i = j)) as [<-|]; [|by rewrite list_lookup_insert_ne; [apply Hso|]].
    rewrite list_lookup_insert_eq by (by eapply lookup_lt_Some). by eexists.
  - apply Forall_insert; [done|]. apply Forall_app. split; [by eapply Forall_lookup_1 in Ht|by constructor].
  - rewrite (zsum_insert _ _ _ _ _ Et), (zsum_insert _ _ _ _ _ Eq), Ep, !n_tok_app. lia.
  - rewrite (zsum_insert _ _ _ _ _ Et), (zsum_insert _ _ _ _ _ Eq), Ep, !n_tok_app. lia.
  - apply Forall_insert; [done|]. eapply Forall_lookup_1 in Hp; [|done]. rewrite Eo, Ep, n_tok_app, n_tok_cons. unfold signs.
    change (n_tok _ []) with 0. lia.
  - by apply Forall_insert.
Qed.
Lemma inv_thread w qs h m i t t' r : inv w qs h m -> threads w !! i = Some t -> pka_cmd_rings w !! i = Some (Some r) ->
  put t' = put t -> outstanding_hkdf_num t' = outstanding_hkdf_num t -> (returned t' = true -> work_done w = true) ->
  inv (mk_world (asym w) (loop_i w) (work_done w) (<[i := Some r]> (pka_cmd_rings w)) (<[i := t']> (threads w))) qs h m.
Proof.
  intros [Ha Hr [Hl1 Hl2] Hso Ht Hh Hm Hp Hrun Hpos Hi Hrng] Et Er Ep Eo Hret.
  rewrite (list_insert_id _ _ _ Er).
  split; cbn -[insert zsum]; [done..| |done|done| | | | |done|done|done].
  - by rewrite length_insert.
  - rewrite (zsum_insert _ _ _ _ _ Et), Ep. lia.
  - rewrite (zsum_insert _ _ _ _ _ Et), Ep. lia.
  - apply Forall_insert; [done|]. eapply Forall_lookup_1 in Hp; [|done]. by rewrite Eo, Ep.
  - by apply Forall_insert.
Qed.

(** Queues only grow under a step of a key-derivation thread, and the one of
    the thread is not empty after it as long as the program runs. *)
Definition kept (qs qs' : list (list Z)) : Prop :=
  forall j q, qs !! j = Some q -> q <> [] -> exists q', qs' !! j = Some q' /\ q' <> [].
Definition filled_at (qs : list (list Z)) (i : nat) : Prop := exists q, qs !! i = Some q /\ q <> [].

Lemma kept_insert qs i q q' : qs !! i = Some q -> (q <> [] -> q' <> []) -> kept qs (<[i := q']> qs).
Proof.
  intros Eq Hq j p Ep Hp. destruct (decide (i = j)) as [<-|].
  - exists q'. rewrite list_lookup_insert_eq by (by eapply lookup_lt_Some). split; [done|]. apply Hq. congruence.
  - exists p. by rewrite list_lookup_insert_ne.
Qed.

Lemma hkdf_step_run w qs h m i r : inv w qs h m -> (1 <= i < thread_num)%nat -> 0 <= r ->
  exists w' qs', hkdf_step stack SHA384 i r w = Ret w' /\ inv w' qs' h m /\ kept qs qs' /\
    asym w' = asym w /\ loop_i w' = loop_i w /\ work_done w' = work_done w /\ (work_done w = false -> filled_at qs' i).
Proof.
  intros Hi Hlt Hr. destruct (ring_at w qs h m i Hi Hlt) as (t & ring & q & Et & Er & Eq & Hrep & Hsz).
  unfold hkdf_step. rewrite Et, Er. unfold hkdf_turn.
  pose proof (Forall_lookup_1 _ _ _ _ (iv_running _ _ _ _ Hi) Et) as Hret.
  assert (forall t', put t' = put t -> outstanding_hkdf_num t' = outstanding_hkdf_num t ->
    (returned t' = true -> work_done w = true) -> (work_done w = false -> q <> []) ->
    exists w' qs', Ret (mk_world (asym w) (loop_i w) (work_done w) (<[i := Some ring]> (pka_cmd_rings w)) (<[i := t']> (threads w)))
      = Ret w' /\ inv w' qs' h m /\ kept qs qs' /\ asym w' = asym w /\ loop_i w' = loop_i w /\ work_done w' = work_done w /\
      (work_done w = false -> filled_at qs' i)) as Hsame.
  { intros t' Ep Eo Hrt Hq. eexists _, qs. split; [reflexivity|]. split; [by eapply inv_thread|].
    split; [by intros j p Ep' Hp; exists p|]. do 3 (split; [done|]). intros Hw. exists q. by split; [|apply Hq]. }
  destruct (returned t) eqn:Ert; [cbn [res_bind]; apply Hsame; try done; intros Hw; by rewrite Hret in Hw|].
  destruct (work_done w) eqn:Ewd; [by apply Hsame|].
  pose proof (token_cases r Hr) as Htok. set (rn := Z.rem r 2) in *.
  assert ((rn =? HANDSHAKE_KEY_DERIVE) || (rn =? APP_KEY_DERIVE) = true) as -> by (destruct Htok as [-> | ->]; done).
  pose proof (Seq.enqueue_spec ring q rn Hrep) as Hq. case_decide as Hd.
  - destruct Hq as (ring' & -> & Hrep' & Hsz'). cbn [res_bind].
    change (negb (SJ_SUCCESS =? 0)) with false. cbv iota. destruct (derive_some rn) as [ks ->]. cbn [res_bind].
    eexists _, (<[i := q ++ [rn]]> qs). split; [reflexivity|]. split; [|split; [|split; [done|split; [done|split; [done|]]]]].
    + rewrite <-Ewd. eapply inv_put; [exact Hi|exact Et|exact Er|exact Eq|exact Hrep'|by rewrite Hsz'|done|done| |done].
      cbn. unfold signs. destruct Htok as [-> | ->]; done.
    + eapply kept_insert; [done|]. intros _. by destruct q.
    + intros _. exists (q ++ [rn]). rewrite list_lookup_insert_eq by (by eapply lookup_lt_Some). split; [done|by destruct q].
  - rewrite Hq. cbn [res_bind]. change (negb (SJ_ERROR =? 0)) with true. cbv iota. cbn [res_bind].
    apply Hsame; [done|done|by rewrite Ert|]. intros _ ->. pose proof out_range. cbn [length] in Hd. lia.
Qed.

Abbreviation scanned := (scan outstanding_cmd_num P256_curve P256_base_pt P256_base_pt_order C255_base_pt_order X25519_curve
  (Some <$> ec_priv_key) (Some <$> hash) (Some <$> k) (Some <$> remote_ec_pub_key_x25519) ring_order rand hwrng).
Abbreviation asym_stepped := (asym_step thread_num outstanding_cmd_num cmd_cnt_per_thread P256_curve P256_base_pt
  P256_base_pt_order C255_base_pt_order X25519_curve (Some <$> ec_priv_key) (Some <$> hash) (Some <$> k)
  (Some <$> remote_ec_pub_key_x25519) ring_order rand hwrng).

Lemma zsum_lookup_insert_tok t qs i (x : Z) q : qs !! i = Some (x :: q) ->
  zsum (n_tok t) (<[i := q]> qs) = zsum (n_tok t) qs - if decide (x = t) then 1 else 0.
Proof. intros E. rewrite (zsum_insert _ _ _ _ _ E), n_tok_cons. lia. Qed.

Lemma signs_tok t : signs t = if decide (t = HANDSHAKE_KEY_DERIVE) then 1 else 0.
Proof. done. Qed.

(** Looking at one ring takes at most one token; a full ring gives one. *)
Lemma scan_run w qs h m : inv w qs h m -> work_done w = false -> (loop_i w < thread_num)%nat ->
  exists w' qs' h' m', scanned (loop_i w) w = Ret w' /\
    inv (mk_world (asym w') (S (loop_i w')) (work_done w') (pka_cmd_rings w') (threads w')) qs' h' m' /\
    loop_i w' = loop_i w /\ work_done w' = false /\ cnt (asym w) <= cnt (asym w') /\
    (filled_at qs (loop_i w) -> cnt (asym w) < cnt (asym w')) /\
    (forall j, j <> loop_i w -> filled_at qs j -> filled_at qs' j).
Proof.
  intros Hi Hw Hlt. pose proof (iv_i _ _ _ _ Hi) as Hii. set (i := loop_i w) in *.
  destruct (ring_at w qs h m i Hi ltac:(lia)) as (t & ring & q & Et & Er & Eq & Hrep & Hsz).
  pose proof out_range as Ho. pose proof (iv_range _ _ _ _ Hi) as Hrng. rewrite Hw in Hrng. fold i in Hrng.
  destruct (iv_pos _ _ _ _ Hi) as [Hh Hm]. pose proof (ao_cnt _ _ _ (iv_asym _ _ _ _ Hi)) as Hc.
  pose proof (Z.mod_pos_bound (cnt (asym w)) (outstanding_cmd_num - 1) ltac:(lia)) as Hidx.
  unfold scan, mod_int. rewrite (proj2 (Z.eqb_neq _ _)) by lia. cbn [ret res_bind].
  rewrite Z.rem_mod_nonneg by lia. fold i. rewrite Er. pose proof (Seq.dequeue_spec ring q Hrep) as Hq.
  assert (forall w' qs' h' m', asym_ok (asym w') h' m' -> Forall2 ring_is (pka_cmd_rings w') qs' ->
    threads w' = threads w -> loop_i w' = i -> work_done w' = false -> length (pka_cmd_rings w') = length (pka_cmd_rings w) ->
    (forall j, (1 <= j < thread_num)%nat -> exists r, pka_cmd_rings w' !! j = Some (Some r)) -> Forall (Forall token) qs' ->
    h' + zsum (n_tok HANDSHAKE_KEY_DERIVE) qs' = h + zsum (n_tok HANDSHAKE_KEY_DERIVE) qs ->
    m' + 2 * zsum (n_tok APP_KEY_DERIVE) qs' = m + 2 * zsum (n_tok APP_KEY_DERIVE) qs -> 0 <= h' /\ 0 <= m' ->
    cnt (asym w') <= cnt (asym w) + 2 ->
    inv (mk_world (asym w') (S (loop_i w')) (work_done w') (pka_cmd_rings w') (threads w')) qs' h' m') as Hmk.
  { intros w' qs' h' m' Ha Hr Eth Eli Ewd El Hso Htk Ehh Emm Hpos Hcnt. destruct Hi as [_ _ Hl _ _ Hh0 Hm0 Hp0 Hrun0 _ _ _].
    split; cbn -[zsum]; rewrite ?Eth, ?Eli, ?Ewd, ?El; [done|done|done|done|done|lia|lia|done| |done|lia|lia].
    eapply Forall_impl; [exact Hrun0|]. cbn. intros x Hx Hx'. rewrite <-Hw. by apply Hx. }
  destruct q as [|x q].
  - rewrite Hq. cbn [res_bind]. change (SJ_ERROR =? 0) with false. cbv iota. eexists _, qs, h, m. split; [reflexivity|].
    rewrite (list_insert_id _ _ _ Er). split; [|cbn; split; [done|split; [done|split; [lia|split; [|done]]]]].
    + apply Hmk; cbn; try done; [apply Hi|apply Hi|apply Hi|apply Hi|lia].
    + intros (q' & Eq' & Hne). rewrite Eq in Eq'. by injection Eq' as <-.
  - destruct Hq as (ring' & -> & Hrep' & Hsz'). cbn [res_bind]. change (SJ_SUCCESS =? 0) with true. cbv iota.
    pose proof (Forall_lookup_1 _ _ _ _ (iv_tokens _ _ _ _ Hi) Eq) as Htk. apply Forall_cons in Htk as [Hx Htk].
    destruct (serve_run x (cnt (asym w) mod (outstanding_cmd_num - 1)) (asym w) h m (iv_asym _ _ _ _ Hi) Hx Hidx) as (b' & Es & Ha' & Hc');
      [lia|]. rewrite Es. cbn [res_bind]. eexists _, (<[i := q]> qs), _, _. split; [reflexivity|].
    split; [|cbn -[insert]; split; [done|split; [done|split; [lia|split; [lia|]]]]].
    + apply Hmk; cbn -[insert zsum]; try done.
      * apply Forall2_insert; [apply Hi|]. split; [done|]. by rewrite Hsz'.
      * by rewrite length_insert.
      * intros j Hj. destruct (decide (i = j)) as [<-|]; [|by rewrite list_lookup_insert_ne; [by apply (iv_some _ _ _ _ Hi)|]].
        rewrite list_lookup_insert_eq by (by eapply lookup_lt_Some). by eexists.
      * apply Forall_insert; [apply Hi|done].
      * rewrite (zsum_lookup_insert_tok _ _ _ _ _ Eq). unfold signs. lia.
      * rewrite (zsum_lookup_insert_tok _ _ _ _ _ Eq). unfold mults. case_decide; lia.
      * unfold signs, mults. repeat case_decide; lia.
      * lia.
    + intros j Hj (p & Ep & Hp). exists p. by rewrite list_lookup_insert_ne.
Qed.

Lemma asym_step_run w qs h m diff : inv w qs h m -> diff <= 1000000000 ->
  exists w' qs' h' m', asym_stepped diff w = Ret w' /\ inv w' qs' h' m' /\ cnt (asym w) <= cnt (asym w') /\
    (work_done w = true -> w' = w) /\
    (work_done w = false ->
      ((loop_i w < thread_num)%nat -> loop_i w' = S (loop_i w) /\ work_done w' = false /\
         (filled_at qs (loop_i w) -> cnt (asym w) < cnt (asym w')) /\
         (forall j, j <> loop_i w -> filled_at qs j -> filled_at qs' j)) /\
      (loop_i w = thread_num -> cnt (asym w') = cnt (asym w) /\ qs' = qs /\
         (work_done w' = true /\ cmd_cnt_per_thread <= cnt (asym w) \/ work_done w' = false /\ loop_i w' = 1%nat))).
Proof.
  intros Hi Hd. unfold asym_step. destruct (work_done w) eqn:Ew.
  { exists w, qs, h, m. split; [done|]. split; [done|]. split; [lia|]. by split. }
  destruct (Nat.ltb_spec (loop_i w) thread_num) as [Hlt|Hge].
  - destruct (scan_run w qs h m Hi Ew Hlt) as (w' & qs' & h' & m' & E & Hi' & El & Ewd & Hc & Hf & Hk).
    rewrite E. cbn [res_bind]. eexists _, qs', h', m'. split; [reflexivity|]. split; [exact Hi'|]. cbn.
    split; [done|]. split; [done|]. intros _. split; [intros _; split; [by rewrite El|done]|lia].
  - destruct Hi as [Ha Hr Hl Hso Htk Hh Hm Hp Hrun Hpos Hii Hrng]. rewrite Ew in Hrng.
    pose proof (su_cnt Hs). pose proof (su_threads Hs). pose proof (ao_cnt _ _ _ Ha) as Hc.
    assert (loop_i w = thread_num) as El by lia. rewrite El in Hrng.
    destruct (asym_drain_run (S (S (Z.to_nat (cur_command_cnt (asym w))))) (asym w) h m Ha) as (b & E & Ha'); [lia..|].
    pose proof (ao_cnt _ _ _ Ha') as Hc'. erewrite bind_ret by exact E. unfold report_due.
    rewrite (proj2 (Z.ltb_ge _ _)) by lia. cbn [ret res_bind].
    destruct (Z.ltb_spec (cnt b) cmd_cnt_per_thread) as [Hlt2|Hge2].
    + eexists _, qs, h, m. split; [reflexivity|]. split; [|split; [cbn; lia|split; [done|intros _; split; [lia|]]]].
      * split; cbn -[zsum]; try done; [by rewrite <-Ew|lia|lia].
      * intros _. cbn. split; [lia|]. split; [done|]. by right.
    + eexists _, qs, h, m. split; [reflexivity|]. split; [|split; [cbn; lia|split; [done|intros _; split; [lia|]]]].
      * split; cbn -[zsum]; try done; [|lia]. by eapply Forall_impl; [exact Hrun|].
      * intros _. cbn. split; [lia|]. split; [done|]. left. by split; [|lia].
Qed.

Abbreviation stepped := (move stack SHA384 thread_num outstanding_cmd_num cmd_cnt_per_thread P256_curve P256_base_pt
  P256_base_pt_order C255_base_pt_order X25519_curve (Some <$> ec_priv_key) (Some <$> hash) (Some <$> k)
  (Some <$> remote_ec_pub_key_x25519) ring_order rand hwrng).
Abbreviation executed := (exec stack SHA384 thread_num outstanding_cmd_num cmd_cnt_per_thread P256_curve P256_base_pt
  P256_base_pt_order C255_base_pt_order X25519_curve (Some <$> ec_priv_key) (Some <$> hash) (Some <$> k)
  (Some <$> remote_ec_pub_key_x25519) ring_order rand hwrng).

(** A step before the first report is due. *)
Definition quick (c : choice) : Prop :=
  match c with Hkdf _ r => 0 <= r | Asym diff => diff <= 1000000000 end.

Lemma exec_app cs cs' w : executed (cs ++ cs') w = res_bind (executed cs w) (executed cs').
Proof.
  revert w. induction cs as [|c cs IH]; intros w; [done|]. cbn [app exec].
  destruct (stepped c w) as [w1|f]; [|done]. cbn [res_bind]. apply IH.
Qed.

Lemma step_run w qs h m c : inv w qs h m -> quick c ->
  exists w' qs' h' m', stepped c w = Ret w' /\ inv w' qs' h' m' /\ cnt (asym w) <= cnt (asym w') /\
    (work_done w = true -> work_done w' = true).
Proof.
  intros Hi Hq. destruct c as [i r|diff]; cbn [move quick] in *.
  - destruct (Nat.ltb_spec 0 i), (Nat.ltb_spec i thread_num); cbn [andb];
      try by (exists w, qs, h, m; split; [done|split; [done|split; [lia|done]]]).
    destruct (hkdf_step_run w qs h m i r Hi ltac:(lia) Hq) as (w' & qs' & E & Hi' & _ & Ea & _ & Ed & _).
    exists w', qs', h, m. split; [exact E|]. split; [done|]. rewrite Ea, Ed. split; [lia|done].
  - destruct (asym_step_run w qs h m diff Hi Hq) as (w' & qs' & h' & m' & E & Hi' & Hc & Hd & _).
    exists w', qs', h', m'. split; [exact E|]. split; [done|]. split; [done|]. intros Hw. by rewrite (Hd Hw).
Qed.
Lemma exec_run cs w qs h m : inv w qs h m -> Forall quick cs ->
  exists w' qs' h' m', executed cs w = Ret w' /\ inv w' qs' h' m' /\ cnt (asym w) <= cnt (asym w') /\
    (work_done w = true -> work_done w' = true).
Proof.
  revert w qs h m. induction cs as [|c cs IH]; intros w qs h m Hi Hq.
  { exists w, qs, h, m. split; [done|]. split; [done|]. split; [lia|done]. }
  apply Forall_cons in Hq as [Hc Hq]. cbn [exec].
  destruct (step_run w qs h m c Hi Hc) as (w1 & qs1 & h1 & m1 & -> & Hi1 & Hc1 & Hd1). cbn [res_bind].
  destruct (IH w1 qs1 h1 m1 Hi1 Hq) as (w2 & qs2 & h2 & m2 & E & Hi2 & Hc2 & Hd2).
  exists w2, qs2, h2, m2. split; [exact E|]. split; [done|]. split; [lia|auto].
Qed.

(** *** Progress

    From the position [i] of its loop the ASYM thread needs [dist i j] steps
    to look at the ring [j]; there is a token then if there is one now. *)
Definition dist (i j : nat) : nat := if (i <=? j)%nat then j - i + 1 else thread_num - i + 1 + j.
Definition is_asym (c : choice) : bool := match c with Asym _ => true | Hkdf _ _ => false end.
Definition asym_steps (cs : list choice) : nat := length (filter is_asym cs).

Lemma asym_steps_cons c cs : asym_steps (c :: cs) = ((match c with Asym _ => 1 | Hkdf _ _ => 0 end) + asym_steps cs)%nat.
Proof. by destruct c. Qed.

Lemma progress cs w qs h m j : inv w qs h m -> work_done w = false -> (1 <= j < thread_num)%nat -> filled_at qs j ->
  Forall quick cs -> (dist (loop_i w) j <= asym_steps cs)%nat ->
  exists w' qs' h' m', executed cs w = Ret w' /\ inv w' qs' h' m' /\ (work_done w' = true \/ cnt (asym w) < cnt (asym w')).
Proof.
  revert w qs h m. induction cs as [|c cs IH]; intros w qs h m Hi Hw Hj Hf Hq Hd; pose proof (iv_i _ _ _ _ Hi) as Hli.
  { exfalso. unfold dist in Hd. change (asym_steps []) with 0%nat in Hd. destruct (loop_i w <=? j)%nat; lia. }
  apply Forall_cons in Hq as [Hc Hq]. rewrite asym_steps_cons in Hd. cbn [exec]. destruct c as [i r|diff]; cbn [move quick] in *.
  - destruct (Nat.ltb_spec 0 i), (Nat.ltb_spec i thread_num); cbn [andb res_bind]; try by eapply IH.
    destruct (hkdf_step_run w qs h m i r Hi ltac:(lia) Hc) as (w1 & qs1 & -> & Hi1 & Hk & Ea & El & Ed & _). cbn [res_bind].
    destruct Hf as (q & Eq & Hne). rewrite <-Ea.
    apply (IH w1 qs1 h m Hi1); [by rewrite Ed|done|by apply (Hk j q)|done|by rewrite El].
  - destruct (asym_step_run w qs h m diff Hi Hc) as (w1 & qs1 & h1 & m1 & -> & Hi1 & Hc1 & _ & Hs1). cbn [res_bind].
    destruct (Hs1 Hw) as [Hscan Hdrain]. clear Hs1. destruct (decide (loop_i w < thread_num)%nat) as [Hlt|Hge].
    + destruct (Hscan Hlt) as (El & Ed & Hg & Hk). destruct (decide (loop_i w = j)) as [Ej|Hne].
      * destruct (exec_run cs w1 qs1 h1 m1 Hi1 Hq) as (w2 & qs2 & h2 & m2 & E & Hi2 & Hc2 & _).
        exists w2, qs2, h2, m2. split; [exact E|]. split; [done|]. right. rewrite Ej in Hg. specialize (Hg Hf). lia.
      * destruct (IH w1 qs1 h1 m1 Hi1 Ed Hj (Hk j ltac:(done) Hf) Hq) as (w2 & qs2 & h2 & m2 & E & Hi2 & Hc2).
        { rewrite El. unfold dist in *. destruct (Nat.leb_spec (loop_i w) j), (Nat.leb_spec (S (loop_i w)) j); lia. }
        exists w2, qs2, h2, m2. split; [exact E|]. split; [done|]. destruct Hc2; [by left|right; lia].
    + destruct (Hdrain ltac:(lia)) as (Ec & -> & [[Ed _]|[Ed El]]).
      * destruct (exec_run cs w1 qs h1 m1 Hi1 Hq) as (w2 & qs2 & h2 & m2 & E & Hi2 & _ & Hd2).
        exists w2, qs2, h2, m2. split; [exact E|]. split; [done|]. left. auto.
      * destruct (IH w1 qs h1 m1 Hi1 Ed Hj Hf Hq) as (w2 & qs2 & h2 & m2 & E & Hi2 & Hc2).
        { rewrite El. unfold dist in *. destruct (Nat.leb_spec (loop_i w) j), (Nat.leb_spec 1 j); lia. }
        exists w2, qs2, h2, m2. split; [exact E|]. split; [done|]. destruct Hc2; [by left|right; lia].
Qed.

Lemma dist_le i j : (1 <= i <= thread_num)%nat -> (1 <= j < thread_num)%nat -> (dist i j <= thread_num)%nat.
Proof. intros Hi Hj. unfold dist. destruct (Nat.leb_spec i j); lia. Qed.

(** A round: a key-derivation thread moves, and then the ASYM thread once for
    every thread. *)
Definition round (cs : list choice) : Prop :=
  exists pre i r suf, cs = pre ++ Hkdf i r :: suf /\ (1 <= i < thread_num)%nat /\ (thread_num <= asym_steps suf)%nat.

Lemma one_round_run cs w qs h m : inv w qs h m -> work_done w = false -> Forall quick cs -> round cs ->
  exists w' qs' h' m', executed cs w = Ret w' /\ inv w' qs' h' m' /\ (work_done w' = true \/ cnt (asym w) < cnt (asym w')).
Proof.
  intros Hi Hw Hq (pre & i & r & suf & -> & Hir & Hn). apply Forall_app in Hq as [Hq1 Hq2]. apply Forall_cons in Hq2 as [Hq2 Hq3].
  destruct (exec_run pre w qs h m Hi Hq1) as (w1 & qs1 & h1 & m1 & E1 & Hi1 & Hc1 & Hd1).
  rewrite exec_app, E1. cbn [res_bind exec move]. rewrite (proj2 (Nat.ltb_lt 0 i)), (proj2 (Nat.ltb_lt i thread_num)) by lia.
  cbn [andb]. destruct (hkdf_step_run w1 qs1 h1 m1 i r Hi1 Hir Hq2) as (w2 & qs2 & -> & Hi2 & Hk & Ea & El & Ed & Hf).
  cbn [res_bind]. destruct (work_done w1) eqn:Ew1.
  - destruct (exec_run suf w2 qs2 h1 m1 Hi2 Hq3) as (w3 & qs3 & h3 & m3 & E3 & Hi3 & _ & Hd3).
    exists w3, qs3, h3, m3. split; [exact E3|]. split; [done|]. left. auto.
  - destruct (progress suf w2 qs2 h1 m1 i Hi2 Ed Hir (Hf eq_refl) Hq3) as (w3 & qs3 & h3 & m3 & E3 & Hi3 & Hc3).
    { pose proof (dist_le (loop_i w2) i (iv_i _ _ _ _ Hi2) Hir). lia. }
    exists w3, qs3, h3, m3. split; [exact E3|]. split; [done|]. rewrite Ea in Hc3. destruct Hc3; [by left|right; lia].
Qed.
Lemma rounds_run css w qs h m : inv w qs h m -> Forall (Forall quick) css -> Forall round css ->
  exists w' qs' h' m', executed (concat css) w = Ret w' /\ inv w' qs' h' m' /\
    (work_done w' = true \/ cnt (asym w) + Z.of_nat (length css) <= cnt (asym w') /\ work_done w' = false).
Proof.
  revert w qs h m. induction css as [|cs css IH]; intros w qs h m Hi Hq Hr.
  { exists w, qs, h, m. split; [done|]. split; [done|]. destruct (work_done w); [by left|right; cbn; split; [lia|done]]. }
  apply Forall_cons in Hq as [Hq1 Hq2]. apply Forall_cons in Hr as [Hr1 Hr2]. cbn [concat]. rewrite exec_app.
  assert (exists w1 qs1 h1 m1, executed cs w = Ret w1 /\ inv w1 qs1 h1 m1 /\
    (work_done w1 = true \/ cnt (asym w) < cnt (asym w1) /\ work_done w1 = false)) as (w1 & qs1 & h1 & m1 & -> & Hi1 & Hc1).
  { destruct (work_done w) eqn:Ew.
    - destruct (exec_run cs w qs h m Hi Hq1) as (w1 & qs1 & h1 & m1 & E & Hi1 & _ & Hd).
      exists w1, qs1, h1, m1. split; [done|]. split; [done|]. left. auto.
    - destruct (one_round_run cs w qs h m Hi Ew Hq1 Hr1) as (w1 & qs1 & h1 & m1 & E & Hi1 & Hc).
      exists w1, qs1, h1, m1. split; [done|]. split; [done|]. destruct (work_done w1); [by left|destruct Hc; [done|by right]]. }
  cbn [res_bind]. destruct (IH w1 qs1 h1 m1 Hi1 Hq2 Hr2) as (w2 & qs2 & h2 & m2 & E & Hi2 & Hc2).
  exists w2, qs2, h2, m2. split; [exact E|]. split; [done|]. destruct Hc2 as [|[Hc2 Hd2]]; [by left|].
  destruct Hc1 as [Hd1|[Hc1 _]]; [|right; cbn [length]; split; [lia|done]].
  destruct (exec_run (concat css) w1 qs1 h1 m1 Hi1) as (w3 & ? & ? & ? & E3 & _ & _ & Hd3); [by apply Forall_concat|].
  rewrite E in E3. injection E3 as <-. rewrite Hd3 in Hd2 by done. done.
Qed.

(** *** The program from its start *)

Definition thread0 : hkdf_thread := mk_hkdf_thread 0 false [].
Abbreviation started b := (main thread_num outstanding_cmd_num b (replicate 16 thread0)).

(** The state of thread 0 at the barrier: nothing sent yet, and its keys. *)
Record ready (b : bench) : Prop := mk_ready {
  re_cnt : cnt b = 0 /\ cur_command_cnt b = 0;
  re_flight : in_flight (accel b) = [];
  re_ops : tls13_op_cnt b !! 0%nat = Some (mk_op_cnt 0 0);
  re_priv : outstanding_cmd_num <= Z.of_nat (length (priv_x25519_0 b)) /\ filled scalar_ok (priv_x25519_0 b);
}.

Lemma create_rings_run : exists l, create_rings thread_num outstanding_cmd_num (replicate 16 None) = Ret l /\
  Forall2 ring_is l (replicate 16 []) /\ length l = 16%nat /\
  forall i, (1 <= i < thread_num)%nat -> exists r, l !! i = Some (Some r).
Proof.
  pose proof (su_threads Hs) as Ht. destruct (su_out Hs) as (e & He & Eo).
  destruct (proj2 (Seq.ring_create_spec (A := Z) outstanding_cmd_num ltac:(pose proof out_range; lia))) as (r & Er & Hr & Hsz);
    [exists e; split; [lia|done]|].
  destruct (for_loop_inv (fun i l => Forall2 ring_is l (replicate 16 []) /\ length l = 16%nat /\
    forall j, (1 <= j < i)%nat -> exists r, l !! j = Some (Some r))
    (fun i l => res_bind (sj_ring_create Z outstanding_cmd_num) (fun r =>
       if (i <? length l)%nat then Ret (<[i := Some r]> l) else Fault Out_of_bounds)) (thread_num - 1) 1 (replicate 16 None))
    as (l & E & H1 & H2 & H3).
  - split; [|split; [done|lia]]. repeat (constructor; [done|]). constructor.
  - intros j l Hj (H1 & H2 & H3). rewrite Er. cbn [res_bind]. rewrite (proj2 (Nat.ltb_lt _ _)) by lia.
    eexists. split; [reflexivity|]. split; [|split; [by rewrite length_insert|]].
    + rewrite <-(list_insert_id (replicate 16 []) j []) by (apply lookup_replicate_2; lia).
      apply Forall2_insert; [done|]. by split.
    + intros j' Hj'. destruct (decide (j = j')) as [<-|]; [|rewrite list_lookup_insert_ne by done; apply H3; lia].
      rewrite list_lookup_insert_eq by lia. by eexists.
  - exists l. split; [exact E|]. split; [done|]. split; [done|]. intros i Hi. apply H3. lia.
Qed.

Lemma main_run b : ready b ->
  exists w qs, started b = Ret w /\ inv w qs 0 0 /\ work_done w = false /\ cnt (asym w) = 0.
Proof.
  intros [[Hc Hu] Hf Hop Hp]. pose proof (su_threads Hs) as Ht. pose proof (su_cnt Hs) as Hn. unfold main.
  destruct (for_loop_inv (fun _ l => l = replicate 16 thread0)
    (fun i l => if (i <? length l)%nat then Ret (<[i := mk_hkdf_thread 0 false []]> l) else Fault Out_of_bounds)
    thread_num 0 (replicate 16 thread0) eq_refl) as (l0 & E0 & ->).
  { intros j l Hj ->. rewrite length_replicate, (proj2 (Nat.ltb_lt _ _)) by lia. eexists. split; [reflexivity|].
    apply list_insert_id, lookup_replicate_2. lia. }
  unfold clear_ctx. rewrite E0. cbn [res_bind]. destruct create_rings_run as (rings & Er & Hr & Hl & Hso).
  change (Z.to_nat MAX_THREAD_NUM) with 16%nat. rewrite Er. cbn [res_bind].
  destruct (for_loop_inv (fun _ w => exists qs, inv w qs 0 0 /\ work_done w = false /\ cnt (asym w) = 0) first_token
    (thread_num - 1) 1 (mk_world b 1 false rings (replicate 16 thread0))) as (w & E & qs & Hi & Hw & Hcw).
  - exists (replicate 16 []). split; [|done].
    split; cbn -[zsum replicate]; [|done|by split|done| |done|done| | |lia|lia|lia].
    + split; [done|by rewrite Hf| |by rewrite Hf|done]. exists 0, 0. by rewrite Hf.
    + apply Forall_replicate. constructor.
    + by apply Forall_replicate.
    + by apply Forall_replicate.
  - intros j w Hj (qs & Hi & Hw & Hcw). destruct (ring_at w qs 0 0 j Hi ltac:(lia)) as (t & ring & q & Et & Er' & Eq & Hrep & Hsz).
    unfold first_token. rewrite Et, Er'. pose proof (Seq.enqueue_spec ring q APP_KEY_DERIVE Hrep) as Hq. case_decide.
    + destruct Hq as (ring' & -> & Hrep' & Hsz'). cbn [res_bind]. change (SJ_SUCCESS =? 0) with true. cbv iota.
      eexists. split; [reflexivity|]. exists (<[j := q ++ [APP_KEY_DERIVE]]> qs). split; [|done].
      eapply inv_put; [exact Hi|exact Et|exact Er'|exact Eq|exact Hrep'|by rewrite Hsz'|by right|done|change (signs APP_KEY_DERIVE) with 0; cbn; lia|].
      cbn. apply (Forall_lookup_1 _ _ _ _ (iv_running _ _ _ _ Hi) Et).
    + rewrite Hq. cbn [res_bind]. change (SJ_ERROR =? 0) with false. cbv iota. eexists. split; [reflexivity|].
      exists qs. split; [|done]. eapply inv_thread; [exact Hi|exact Et|exact Er'|done|done|].
      apply (Forall_lookup_1 _ _ _ _ (iv_running _ _ _ _ Hi) Et).
  - exists w, qs. by split.
Qed.

(** C20: whatever the order in which the threads run, before a report is due the
    program neither fails nor loses an operation: every handshake a thread has
    counted is a signature that is done, in flight, or whose token is still in
    a ring; every application key is two multiplications; the commands counted
    are those sent; and when the ASYM thread has returned it has sent at least
    the number asked for, by less than two per ring more. *)
Theorem no_operation_lost b cs : ready b -> Forall quick cs ->
  exists w0 w qs x y, started b = Ret w0 /\ executed cs w0 = Ret w /\
    let fl := in_flight (accel (asym w)) in
    Forall2 ring_is (pka_cmd_rings w) qs /\ tls13_op_cnt (asym w) !! 0%nat = Some (mk_op_cnt x y) /\
    zsum outstanding_hkdf_num (threads w) = x + n_op CC_ECDSA_GENERATE fl + zsum (n_tok HANDSHAKE_KEY_DERIVE) qs /\
    2 * zsum (fun t => n_tok APP_KEY_DERIVE (put t)) (threads w)
      = y + n_op CC_MONT_ECDH_MULTIPLY fl + 2 * zsum (n_tok APP_KEY_DERIVE) qs /\
    cur_command_cnt (asym w) = Z.of_nat (length fl) /\ cnt (asym w) = x + y + cur_command_cnt (asym w) /\
    (work_done w = true ->
       cmd_cnt_per_thread <= cnt (asym w) < cmd_cnt_per_thread + 2 * (Z.of_nat thread_num - 1)).
Proof.
  intros Hb Hq. destruct (main_run b Hb) as (w0 & qs0 & E0 & Hi0 & _ & _).
  destruct (exec_run cs w0 qs0 0 0 Hi0 Hq) as (w & qs & h & m & E & [Ha Hr _ _ _ Hh Hm Hp _ _ _ Hrng] & _ & _).
  destruct Ha as [Hc Hu (x & y & El & Hx & Hy & Ex & Ey) Hf _]. pose proof (flight_length _ Hf) as Hfl.
  exists w0, w, qs, x, y. cbv zeta. split; [exact E0|]. split; [exact E|]. split; [done|]. split; [done|].
  assert (zsum outstanding_hkdf_num (threads w) = zsum (fun t => n_tok HANDSHAKE_KEY_DERIVE (put t)) (threads w)) as ->.
  { clear -Hp. induction Hp as [|t l Ht _ IH]; [done|].
    change (outstanding_hkdf_num t + zsum outstanding_hkdf_num l =
      n_tok HANDSHAKE_KEY_DERIVE (put t) + zsum (fun t => n_tok HANDSHAKE_KEY_DERIVE (put t)) l). by rewrite Ht, IH. }
  split; [lia|]. split; [lia|]. split; [done|]. split; [lia|]. intros Hw. by rewrite Hw in Hrng.
Qed.

(** Once the ASYM thread has returned, a key-derivation thread returns at its
    next turn, and a thread that has returned does nothing more. *)
Lemma last_move c w w' : work_done w = true -> stepped c w = Ret w' ->
  work_done w' = true /\
  (forall i t, threads w !! i = Some t -> exists t', threads w' !! i = Some t' /\ (returned t = true -> returned t' = true)) /\
  (forall i r t, c = Hkdf i r -> (1 <= i < thread_num)%nat -> threads w !! i = Some t ->
     exists t', threads w' !! i = Some t' /\ returned t' = true).
Proof.
  intros Hw. destruct c as [i r|diff]; cbn [move].
  - destruct (Nat.ltb_spec 0 i), (Nat.ltb_spec i thread_num); cbn [andb];
      try (intros [= <-]; split; [done|]; split; [intros j t Et; by exists t|intros j r' t [= <- <-] Hj; lia]).
    unfold hkdf_step. destruct (threads w !! i) as [t|] eqn:Et; [|done]. pose proof (lookup_lt_Some _ _ _ Et) as Hlen.
    destruct (pka_cmd_rings w !! i) as [[ring|]|]; [|done..]. unfold hkdf_turn. rewrite Hw.
    set (t' := if returned t then t else mk_hkdf_thread (outstanding_hkdf_num t) true (put t)).
    assert (returned t' = true) as Ht' by (unfold t'; by destruct (returned t) eqn:?).
    intros E. assert (w' = mk_world (asym w) (loop_i w) true (<[i := Some ring]> (pka_cmd_rings w)) (<[i := t']> (threads w))) as ->
      by (unfold t'; destruct (returned t); by injection E as <-).
    split; [done|]. cbn [threads]. split.
    + intros j u Eu. destruct (decide (i = j)) as [<-|Hne].
      * exists t'. by rewrite list_lookup_insert_eq.
      * exists u. by rewrite list_lookup_insert_ne.
    + intros j r' u [= <- <-] _ Eu. exists t'. by rewrite list_lookup_insert_eq.
  - unfold asym_step. rewrite Hw. intros [= <-]. split; [done|]. split; [intros j t Et; by exists t|done].
Qed.
Lemma last_moves cs w w' : work_done w = true -> executed cs w = Ret w' ->
  work_done w' = true /\
  (forall i t, threads w !! i = Some t -> exists t', threads w' !! i = Some t' /\
     (returned t = true \/ (1 <= i < thread_num)%nat /\ (exists r, Hkdf i r ∈ cs) -> returned t' = true)).
Proof.
  revert w. induction cs as [|c cs IH]; intros w Hw; cbn [exec].
  { intros [= <-]. split; [done|]. intros i t Et. exists t. split; [done|]. intros [Hr|[_ [r Hin]]]; [done|by apply elem_of_nil in Hin]. }
  destruct (stepped c w) as [w1|] eqn:E1; [|done]. cbn [res_bind]. intros E.
  destruct (last_move c w w1 Hw E1) as (Hw1 & Hkeep & Hgo). destruct (IH w1 Hw1 E) as [Hw' Hth]. split; [done|].
  intros i t Et. destruct (Hkeep i t Et) as (t1 & Et1 & Hr1). destruct (Hth i t1 Et1) as (t' & Et' & Hr'). exists t'. split; [done|].
  intros [Hr|[Hi [r Hin]]]; [apply Hr'; left; auto|]. apply elem_of_cons in Hin as [Hc|Hin]; [|apply Hr'; right; split; [done|by exists r]].
  destruct (Hgo i r t (eq_sym Hc) Hi Et) as (t1' & Et1' & Hr1'). apply Hr'. left. congruence.
Qed.

(** C21: the program ends when its threads take turns and no report is due (no
    more than a second since the start), on an accelerator that takes every
    command and has room for all of them ([setup]): after as many rounds as
    commands are asked for and two more per thread, each with a move of some
    key-derivation thread and then one of the ASYM thread per thread, and one
    move more of every key-derivation thread, all the threads have returned, so
    that [main], which waits for them, returns. *)
Theorem hkdf_benchmark_ends b css cs : ready b -> Forall (Forall quick) css -> Forall round css ->
  cmd_cnt_per_thread + 2 * Z.of_nat thread_num <= Z.of_nat (length css) ->
  Forall quick cs -> (forall i, (1 <= i < thread_num)%nat -> exists r, Hkdf i r ∈ cs) ->
  exists w0 w, started b = Ret w0 /\ executed (concat css ++ cs) w0 = Ret w /\ joined thread_num w = true.
Proof.
  intros Hb Hq Hr Hn Hqc Hall. destruct (main_run b Hb) as (w0 & qs0 & E0 & Hi0 & _ & Hc0).
  destruct (rounds_run css w0 qs0 0 0 Hi0 Hq Hr) as (w & qs & h & m & E & Hi & [Hw|[Hc Hw]]).
  - destruct (exec_run cs w qs h m Hi Hqc) as (w' & qs' & h' & m' & E' & Hi' & _ & _).
    destruct (last_moves cs w w' Hw E') as [Hw' Hth]. exists w0, w'. split; [done|]. split; [by rewrite exec_app, E|].
    unfold joined. rewrite Hw'. cbn [andb]. apply forallb_forall. intros i Hin%in_seq.
    destruct (lookup_lt_is_Some_2 (threads w) i) as [t Et];
      [rewrite (proj2 (iv_len _ _ _ _ Hi)); pose proof (su_threads Hs); lia|].
    destruct (Hth i t Et) as (t' & -> & Hret). apply Hret. right. split; [lia|]. apply Hall. lia.
  - exfalso. pose proof (iv_range _ _ _ _ Hi) as Hrng. pose proof (iv_i _ _ _ _ Hi). rewrite Hw in Hrng. lia.
Qed.

(** The report of the first second: a division by zero, at the end of the turn
    in which it is due. *)
Theorem report_divides_by_zero b cs w0 w diff : ready b -> Forall quick cs -> started b = Ret w0 -> executed cs w0 = Ret w ->
  work_done w = false -> loop_i w = thread_num -> 1000000000 < diff ->
  executed (cs ++ [Asym diff]) w0 = Fault Undefined_value.
Proof.
  intros Hb Hq E0 E Hw Hl Hd. destruct (main_run b Hb) as (w0' & qs0 & E0' & Hi0 & _ & _). rewrite E0 in E0'. injection E0' as <-.
  destruct (exec_run cs w0 qs0 0 0 Hi0 Hq) as (w' & qs & h & m & E' & Hi & _ & _). rewrite E in E'. injection E' as <-.
  rewrite exec_app, E. cbn [res_bind exec move]. unfold asym_step. rewrite Hw, (proj2 (Nat.ltb_ge _ _)) by lia.
  pose proof (ao_cur _ _ _ (iv_asym _ _ _ _ Hi)) as Hu. destruct (iv_pos _ _ _ _ Hi) as [Hh Hm].
  pose proof (iv_range _ _ _ _ Hi) as Hrng. rewrite Hw in Hrng. pose proof (ao_cnt _ _ _ (iv_asym _ _ _ _ Hi)) as Hc.
  pose proof (su_cnt Hs). pose proof (su_threads Hs).
  destruct (asym_drain_run (S (S (Z.to_nat (cur_command_cnt (asym w))))) (asym w) h m (iv_asym _ _ _ _ Hi)) as (b' & E' & _); [lia..|].
  erewrite bind_ret by exact E'. unfold report_due. rewrite (proj2 (Z.ltb_lt _ _)) by lia. done.
Qed.
End threads.

(** ** Options the program does not work with *)
Section options.
Context `{Accelerator} {L : AccelLaws} `{EvpKdf} (stack : nat -> bytes) (SHA384 : bytes -> bytes).
Context (outstanding_cmd_num cmd_cnt_per_thread : Z) (Hcnt : 0 < cmd_cnt_per_thread).
Context (P256_curve : ecc_curve) (P256_base_pt : ecc_point) (P256_base_pt_order C255_base_pt_order : pka_operand)
  (X25519_curve : mont_curve) (ec_priv_key hash k remote_ec_pub_key_x25519 : list (option pka_operand))
  (ring_order : bool) (rand : nat -> Z) (hwrng : nat -> Z -> bytes).
Abbreviation executed thread_num := (exec stack SHA384 thread_num outstanding_cmd_num cmd_cnt_per_thread P256_curve P256_base_pt
  P256_base_pt_order C255_base_pt_order X25519_curve ec_priv_key hash k remote_ec_pub_key_x25519 ring_order rand hwrng).

Lemma alone_step (b : bench) rings ths c : in_flight (accel b) = [] -> cur_command_cnt b = 0 -> cnt b = 0 -> quick c ->
  exists b', move stack SHA384 1 outstanding_cmd_num cmd_cnt_per_thread P256_curve P256_base_pt P256_base_pt_order
      C255_base_pt_order X25519_curve ec_priv_key hash k remote_ec_pub_key_x25519 ring_order rand hwrng c (mk_world b 1 false rings ths)
    = Ret (mk_world b' 1 false rings ths) /\ in_flight (accel b') = [] /\ cur_command_cnt b' = 0 /\ cnt b' = 0.
Proof.
  intros Hf Hu Hc Hq. destruct c as [i r|diff]; cbn [move].
  { exists b. split; [|done]. by destruct i as [|[|i]]. }
  unfold asym_step. cbn [work_done loop_i asym pka_cmd_rings threads Nat.ltb Nat.leb]. cbn [quick] in Hq.
  pose proof (result_law (accel b)) as Hr. destruct (hw_result (accel b)) as [r d] eqn:Er. destruct Hr as [_ Hr]. rewrite Hf in Hr.
  destruct r as [r|]; [destruct Hr as (p & c & Hp & _); by apply Permutation_length in Hp|].
  assert (in_flight d = []) as Hd by (destruct Hr as [Hp _]; by apply Permutation_nil_r).
  assert (asym_drain (S (S (Z.to_nat (cur_command_cnt b)))) b = Ret (tt, b <| accel := d |>)) as E.
  { cbn [asym_drain]. erewrite bind_ret by reflexivity. rewrite Hu. cbn [Z.leb Z.compare negb].
    by erewrite bind_ret by (unfold lib; rewrite Er; reflexivity). }
  erewrite bind_ret by exact E. unfold report_due. rewrite (proj2 (Z.ltb_ge _ _)) by lia. cbn [ret res_bind].
  exists (b <| accel := d |>). cbn. rewrite Hc, (proj2 (Z.ltb_lt _ _)) by lia. by split.
Qed.

(** With one thread, which is the default, there is nobody to say what to
    send: the program polls for ever and sends nothing. *)
Theorem one_thread_never_ends b cs : in_flight (accel b) = [] -> cur_command_cnt b = 0 -> cnt b = 0 -> Forall quick cs ->
  exists w0 w, main 1 outstanding_cmd_num b (replicate 16 thread0) = Ret w0 /\ executed 1%nat cs w0 = Ret w /\
    work_done w = false /\ cnt (asym w) = 0 /\ in_flight (accel (asym w)) = [].
Proof.
  intros Hf Hu Hc Hq. exists (mk_world b 1 false (replicate 16 None) (replicate 16 thread0)).
  set (rings := replicate 16 None). set (ths := replicate 16 thread0).
  assert (exists b', executed 1%nat cs (mk_world b 1 false rings ths) = Ret (mk_world b' 1 false rings ths) /\
    in_flight (accel b') = [] /\ cnt b' = 0) as (b' & E & Hf' & Hc').
  { revert b Hf Hu Hc. induction Hq as [|c cs Hc0 _ IH]; intros b Hf Hu Hc; [by exists b|]. cbn [exec].
    destruct (alone_step b rings ths c Hf Hu Hc Hc0) as (b1 & -> & Hf1 & Hu1 & Hc1). cbn [res_bind]. by apply IH. }
  eexists. split; [reflexivity|]. split; [exact E|]. by split.
Qed.

(** Options that [main] accepts: 17 to 32 threads write past the 16 contexts;
    with two threads or more a number of outstanding commands that is not a
    power of two ends the program, and 1 is a division by zero. *)
Theorem options_not_supported thread_num (b : bench) :
  ((16 < thread_num)%nat -> main thread_num outstanding_cmd_num b (replicate 16 thread0) = Fault Out_of_bounds) /\
  ((2 <= thread_num <= 16)%nat -> 0 < outstanding_cmd_num <= 512 -> outstanding_cmd_num <> 2 ^ Z.log2 outstanding_cmd_num ->
     main thread_num outstanding_cmd_num b (replicate 16 thread0) = Fault Exit_failure) /\
  (outstanding_cmd_num = 1 -> forall w diff, work_done w = false -> (loop_i w < thread_num)%nat ->
     executed thread_num [Asym diff] w = Fault Undefined_value).
Proof.
  split; [|split].
  - intros Ht. unfold main, clear_ctx.
    rewrite (for_loop_fault (fun _ l => length l = 16%nat) _ _ _ 16 Out_of_bounds); [done|apply length_replicate|lia| |].
    + intros j l Hj Hl. rewrite (proj2 (Nat.ltb_lt _ _)) by lia. eexists. split; [reflexivity|by rewrite length_insert].
    + intros l Hl. by rewrite Hl.
  - intros Ht Ho Hne. unfold main, clear_ctx.
    destruct (for_loop_inv (fun _ l => l = replicate 16 thread0)
      (fun i l => if (i <? length l)%nat then Ret (<[i := mk_hkdf_thread 0 false []]> l) else Fault Out_of_bounds)
      thread_num 0 (replicate 16 thread0) eq_refl) as (l0 & E0 & ->).
    { intros j l Hj ->. rewrite length_replicate, (proj2 (Nat.ltb_lt _ _)) by lia. eexists. split; [reflexivity|].
      apply list_insert_id, lookup_replicate_2. lia. }
    rewrite E0. cbn [res_bind]. unfold create_rings. destruct (thread_num - 1)%nat eqn:En; [lia|]. cbn [for_loop].
    unfold sj_ring_create. rewrite (proj2 (Z.eqb_neq _ _)), u32_id by (unfold is_u32; lia). cbn [orb].
    by rewrite (proj2 (Z.eqb_neq (Z.land _ _) 0)) by (by rewrite land_pred_pow2 by lia).
  - intros E w diff Hw Hl. cbn [exec move]. unfold asym_step. rewrite Hw, (proj2 (Nat.ltb_lt _ _)) by done.
    unfold scan. by rewrite E.
Qed.
End options.

(** ** Witnesses *)

#[local] Instance sample_evp : EvpKdf :=
  {| evp_kdf := unit; kdf_ctx := option kdf_params; EVP_KDF_fetch _ := Some tt; EVP_KDF_CTX_new _ := Some None;
     EVP_KDF_CTX_set_params _ p := Some (Some p);
     EVP_KDF_derive c n :=
       match c with
       | Some (mk_kdf_params EVP_KDF_HKDF_MODE_EXTRACT_ONLY _ (Some salt) (Some key) _ _ _) => Some (toy48 salt key)
       | Some (mk_kdf_params EVP_KDF_HKDF_MODE_EXPAND_ONLY _ _ (Some key) _ (Some label) (Some data)) =>
           Some (ExpandLabel toy48 key label data n)
       | _ => None
       end |}.
#[local] Instance sample_evp_laws : EvpLaws toy48.
Proof.
  split.
  - intros salt key. apply length_replicate.
  - intros salt key. exists None. eexists. by repeat split.
  - intros key label data n Hn _ _. exists None. eexists. split; [done|]. split; [reflexivity|]. split; [done|].
    apply (Hkdf.length_expand_label toy48_ops toy48 (fun c k d => c = (k, d))).
Qed.

Lemma hkdf_worker_keys_rfc8446_witness :
  let hs := HandshakeSecret toy48 toy_sha (zeros 32) in
  exists s, derive zeros toy_sha HANDSHAKE_KEY_DERIVE
    = Some (keys_of toy48 (DeriveSecret toy48 toy_sha hs (str "c hs traffic") (zeros 338)) s).
Proof.
  destruct (hkdf_worker_keys_rfc8446 toy48 zeros toy_sha length_zeros toy_sha_len) as [E _]. eexists. exact E.
Defined.

Definition priv40 : option pka_operand := Some (mk_operand (zeros 40) 40 0 0 false).
Definition hkdf_bench : @bench sample_accel :=
  @mk_bench sample_accel (mk_sample [] [] 0) 0 0 [] [] (replicate 4 priv40) 0 [] [mk_op_cnt 0 0] 0 0.
Lemma hkdf_bench_ready : @ready sample_accel sample_accel_laws 4 hkdf_bench.
Proof.
  split; [done|done|done|]. split; [cbn; lia|]. apply Forall_replicate. eexists. split; [reflexivity|].
  unfold scalar_ok. cbn. lia.
Qed.
Lemma sample_setup : @setup sample_accel sample_accel_laws 3 4 3 curve97 (spt 1 2) (sop 97) scalar40 (mk_mont (sop 97) (sop 3))
  (replicate 4 (sop 10)) (replicate 4 (sop 7)) (replicate 4 (sop 2)) (replicate 4 (sop 9))
  Z.of_nat (fun _ n => replicate (Z.to_nat n) 5).
Proof.
  split; [lia|by exists 2|lia|cbn; lia|by repeat constructor|by vm_compute|intros _; apply length_replicate|lia|done|done].
Qed.

(** Two key-derivation threads. The program is told to send three commands and
    ends with four in flight and a handshake nobody signs in a ring. *)
Lemma no_operation_lost_witness :
  let cs := [Hkdf 1 0; Asym 5; Asym 5; Asym 5; Hkdf 2 4; Asym 5; Hkdf 2 7; Asym 5] in
  exists w0 w qs x y, main 3 4 hkdf_bench (replicate 16 thread0) = Ret w0 /\
    exec zeros toy_sha 3 4 3 curve97 (spt 1 2) (sop 97) scalar40 (mk_mont (sop 97) (sop 3))
      (Some <$> replicate 4 (sop 10)) (Some <$> replicate 4 (sop 7)) (Some <$> replicate 4 (sop 2)) (Some <$> replicate 4 (sop 9))
      false Z.of_nat (fun _ n => replicate (Z.to_nat n) 5) cs w0 = Ret w /\
    zsum outstanding_hkdf_num (threads w)
      = x + n_op CC_ECDSA_GENERATE (sm_flight (accel (asym w))) + zsum (n_tok HANDSHAKE_KEY_DERIVE) qs /\
    cnt (asym w) = x + y + cur_command_cnt (asym w).
Proof.
  intros cs. destruct (no_operation_lost toy48 zeros toy_sha length_zeros toy_sha_len 3 4 3 curve97 (spt 1 2) (sop 97)
    scalar40 (mk_mont (sop 97) (sop 3)) _ _ _ _ false Z.of_nat _ sample_setup hkdf_bench cs hkdf_bench_ready)
    as (w0 & w & qs & x & y & E0 & E & _ & _ & E1 & _ & _ & E2 & _).
  - unfold cs. repeat (constructor; [cbn; lia|]). constructor.
  - exists w0, w, qs, x, y. exact (conj E0 (conj E (conj E1 E2))).
Defined.

Lemma hkdf_benchmark_ends_witness :
  exists w0 w, main 3 4 hkdf_bench (replicate 16 thread0) = Ret w0 /\
    exec zeros toy_sha 3 4 3 curve97 (spt 1 2) (sop 97) scalar40 (mk_mont (sop 97) (sop 3))
      (Some <$> replicate 4 (sop 10)) (Some <$> replicate 4 (sop 7)) (Some <$> replicate 4 (sop 2)) (Some <$> replicate 4 (sop 9))
      false Z.of_nat (fun _ n => replicate (Z.to_nat n) 5)
      (concat (replicate 9 [Hkdf 2 7; Asym 5; Asym 5; Asym 5]) ++ [Hkdf 1 0; Asym 9; Hkdf 2 1]) w0 = Ret w /\ joined 3 w = true.
Proof.
  apply (hkdf_benchmark_ends toy48 zeros toy_sha length_zeros toy_sha_len 3 4 3 curve97 (spt 1 2) (sop 97)
    scalar40 (mk_mont (sop 97) (sop 3)) _ _ _ _ false Z.of_nat _ sample_setup hkdf_bench _ _ hkdf_bench_ready).
  - apply Forall_replicate. repeat (constructor; [cbn; lia|]). constructor.
  - apply Forall_replicate. exists [], 2%nat, 7, [Asym 5; Asym 5; Asym 5]. split; [done|]. split; [lia|by apply Nat.leb_le].
  - cbn. lia.
  - repeat (constructor; [cbn; lia|]). constructor.
  - intros [|[|[|i]]] Hi; [lia|exists 0; left|exists 1; right; right; left|lia].
Defined.

Lemma one_thread_never_ends_witness :
  exists w0 w, main 1 4 hkdf_bench (replicate 16 thread0) = Ret w0 /\
    exec zeros toy_sha 1 4 20000 curve97 (spt 1 2) (sop 97) scalar40 (mk_mont (sop 97) (sop 3)) [] [] [] []
      false Z.of_nat (fun _ n => replicate (Z.to_nat n) 5) (replicate 100 (Asym 5)) w0 = Ret w /\
    work_done w = false /\ cnt (asym w) = 0.
Proof.
  destruct (one_thread_never_ends (L := sample_accel_laws) zeros toy_sha 4 20000 ltac:(lia) curve97 (spt 1 2) (sop 97) scalar40
    (mk_mont (sop 97) (sop 3)) [] [] [] [] false Z.of_nat (fun _ n => replicate (Z.to_nat n) 5) hkdf_bench
    (replicate 100 (Asym 5))) as (w0 & w & E0 & E & Hw & Hc & _); try done.
  - apply Forall_replicate. cbn. lia.
  - exists w0, w. by repeat split.
Defined.
