(* ===== verification/BenchHkdf.v ===== *)
(** * The TLS 1.3 worker with key derivation (benchmark_example/src/
      pka_benchmark.c: [TLS13HKDFworker], built when TEST_RSA is 0)

    [TLS13worker] with the derivation of [PkaHkdf] on the same thread after
    each signature and each key share. A derivation that fails returns from the
    thread; as OpenSSL's does not, the worker does to the accelerator exactly
    what [TLS13worker] does. *)

From S2P Require Import Prelude Operand Bignum BignumEcc KeySchedule PkaBench PkaTls PkaHkdf.

Section worker.
Context `{Accelerator} `{EvpKdf} (stack : nat -> bytes) (SHA384 : bytes -> bytes).
Context (outstanding_cmd_num max_cmd_cnt : Z) (worker_id : nat).
Context (P256_curve : ecc_curve) (P256_base_pt : ecc_point) (P256_base_pt_order C255_base_pt_order : pka_operand)
  (X25519_curve : mont_curve) (ec_priv_key hash k : list (option pka_operand))
  (remote_ec_pub_key_x25519 ec_priv_key_x25519_1 : list (option pka_operand))
  (ring_order : bool) (rand : nat -> Z) (hwrng : nat -> Z -> bytes).

Abbreviation send := (tls13_send P256_curve P256_base_pt P256_base_pt_order C255_base_pt_order X25519_curve ec_priv_key hash k
  remote_ec_pub_key_x25519 ec_priv_key_x25519_1 ring_order rand hwrng).

(** What is derived after the command with the number [cnt]; [false] is
    [return NULL]. *)
Definition hkdf_part (cnt : Z) : bool :=
  if Z.rem cnt 3 =? 0 then match derive_app stack SHA384 with Some _ => true | None => false end
  else if Z.rem (cnt + 1) 3 =? 0 then match derive_handshake stack SHA384 with Some _ => true | None => false end
  else true.

(** The loops of the worker, [false] when the thread has returned. *)
Definition hkdf_submit_one : M bench bool :=
  do s <- mget;
  do idx <- mod_int (cnt s) outstanding_cmd_num;
  do pka_status <- send idx;
  if pka_status <? 0 then mexit else
  if negb (hkdf_part (cnt s)) then ret false else
  mmod (fun s => s <| cnt ::= Z.succ |> <| cur_command_cnt ::= Z.succ |>) ;;; ret true.
Fixpoint hkdf_submit_loop (fuel : nat) : M bench bool :=
  match fuel with
  | O => mfault Out_of_fuel
  | S fuel' =>
      do s <- mget;
      if (cnt s <? max_cmd_cnt) && (cur_command_cnt s <? outstanding_cmd_num)
      then do go <- hkdf_submit_one; if go then hkdf_submit_loop fuel' else ret false
      else ret true
  end.
Fixpoint hkdf_bench_loop (fuel : nat) : M bench bool :=
  match fuel with
  | O => mfault Out_of_fuel
  | S fuel' =>
      do s <- mget;
      if (cnt s <? max_cmd_cnt) || (0 <? cur_command_cnt s)
      then do go <- hkdf_submit_loop (S (Z.to_nat outstanding_cmd_num));
           if go then drain_loop worker_id rand (S (Z.to_nat outstanding_cmd_num)) ;;; hkdf_bench_loop fuel' else ret false
      else ret true
  end.
Definition TLS13HKDFworker (fuel : nat) : M bench bool := start USER_DATA_NUM ;;; hkdf_bench_loop fuel.

Context (hmac : bytes -> bytes -> bytes) {L : EvpLaws hmac}.
Context (stack_len : forall n, length (stack n) = n) (sha_len : forall m, length (SHA384 m) = 48%nat).

Lemma hkdf_part_true n : hkdf_part n = true.
Proof.
  unfold hkdf_part. destruct (hkdf_worker_keys_rfc8446 hmac stack SHA384 stack_len sha_len) as [E1 E2].
  unfold derive in E1, E2. cbn [Z.eqb HANDSHAKE_KEY_DERIVE APP_KEY_DERIVE] in E1, E2. rewrite E1, E2.
  by destruct (Z.rem n 3 =? 0), (Z.rem (n + 1) 3 =? 0).
Qed.

(** The same computation, with the answer that the thread has not returned
    early. *)
Definition same {A} (m : M bench bool) (m' : M bench A) : Prop := forall s, m s = bind m' (fun _ => ret true) s.

Lemma bind_congr {A B} (m : M bench A) (f g : A -> M bench B) s : (forall a s, f a s = g a s) -> bind m f s = bind m g s.
Proof. intros Hf. unfold bind. by destruct (m s) as [[a s']|]. Qed.
Lemma same_seq {A B} (m : M bench bool) (m' : M bench A) (n : M bench bool) (n' : M bench B) :
  same m m' -> same n n' -> same (bind m (fun go => if go then n else ret false)) (bind m' (fun _ => n')).
Proof.
  intros Hm Hn s. rewrite bind_assoc. unfold bind at 1 2. rewrite Hm. unfold bind at 1.
  destruct (m' s) as [[a s']|]; [|done]. apply Hn.
Qed.

Lemma submit_one_same : same hkdf_submit_one (submit_one outstanding_cmd_num send).
Proof.
  intros s. unfold hkdf_submit_one, submit_one. rewrite bind_assoc. apply bind_congr. intros s0 s1.
  rewrite bind_assoc. apply bind_congr. intros idx s2. rewrite bind_assoc. apply bind_congr. intros rc s3.
  rewrite hkdf_part_true. by destruct (rc <? 0).
Qed.
Lemma submit_loop_same fuel : same (hkdf_submit_loop fuel) (submit_loop outstanding_cmd_num max_cmd_cnt send fuel).
Proof.
  induction fuel as [|fuel IH]; [done|]. intros s. cbn [hkdf_submit_loop submit_loop]. rewrite bind_assoc.
  apply bind_congr. intros s0 s1. destruct (_ && _); [|done]. by apply same_seq; [exact submit_one_same|].
Qed.
Lemma bench_loop_same fuel : same (hkdf_bench_loop fuel)
  (bench_loop outstanding_cmd_num max_cmd_cnt send (drain_loop worker_id rand (S (Z.to_nat outstanding_cmd_num))) fuel).
Proof.
  induction fuel as [|fuel IH]; [done|]. intros s. cbn [hkdf_bench_loop bench_loop]. rewrite bind_assoc.
  apply bind_congr. intros s0 s1. destruct (_ || _); [|done]. apply same_seq; [apply submit_loop_same|].
  intros s2. rewrite bind_assoc. apply bind_congr. intros [] s3. apply IH.
Qed.

(** With derivations that do not fail the worker does what [TLS13worker]
    does: from every state it makes the same calls and ends in the same state,
    or is still in its loop, after the same number of turns. *)
Theorem TLS13HKDFworker_equiv fuel s :
  TLS13HKDFworker fuel s =
    bind (TLS13worker outstanding_cmd_num max_cmd_cnt worker_id P256_curve P256_base_pt P256_base_pt_order C255_base_pt_order
      X25519_curve ec_priv_key hash k remote_ec_pub_key_x25519 ec_priv_key_x25519_1 ring_order rand hwrng fuel)
      (fun _ => ret true) s.
Proof. unfold TLS13HKDFworker, TLS13worker. rewrite bind_assoc. apply bind_congr. intros [] s1. apply bench_loop_same. Qed.
End worker.

#[local] Instance op_cnt_eq_dec : EqDecision tls13_op_cnt_t.
Proof. solve_decision. Defined.

(** The worker on two commands: a signature, then a key share with its
    derivation. *)
Abbreviation sample_tls := (@TLS13worker tls_accel 2 2 0 curve97 (spt 1 2) (sop 97) scalar40 (mk_mont (sop 97) (sop 3))
  (Some <$> [sop 10; sop 20]) (Some <$> [sop 7; sop 8]) (Some <$> [sop 2; sop 3]) (Some <$> [sop 9; sop 11])
  (Some <$> [scalar40; scalar40]) false Z.of_nat (fun _ n => replicate (Z.to_nat n) 5)).
Abbreviation sample_tls_hkdf := (@TLS13HKDFworker tls_accel sample_evp zeros toy_sha 2 2 0 curve97 (spt 1 2) (sop 97) scalar40
  (mk_mont (sop 97) (sop 3)) (Some <$> [sop 10; sop 20]) (Some <$> [sop 7; sop 8]) (Some <$> [sop 2; sop 3])
  (Some <$> [sop 9; sop 11]) (Some <$> [scalar40; scalar40]) false Z.of_nat (fun _ n => replicate (Z.to_nat n) 5)).
Definition counted (s : @bench tls_accel) : bool := bool_decide (tls13_op_cnt s !! 0%nat = Some (mk_op_cnt 1 1)).

Lemma sample_tls_counts : match sample_tls 5%nat tls_bench with Ret (_, s) => counted s | Fault _ => false end = true.
Proof. lazy. reflexivity. Qed.
Lemma run_true {S} (m : M S unit) s (P : S -> bool) :
  match m s with Ret (_, s') => P s' | Fault _ => false end = true ->
  exists s', bind m (fun _ => ret true) s = Ret (true, s') /\ P s' = true.
Proof. unfold bind. destruct (m s) as [[u s']|]; [|done]. intros Hp. by exists s'. Qed.

Lemma TLS13HKDFworker_equiv_witness : exists s', sample_tls_hkdf 5%nat tls_bench = Ret (true, s') /\ counted s' = true.
Proof.
  pose proof sample_tls_counts as Hc. apply run_true in Hc. destruct Hc as (s' & E & H). exists s'. split; [|exact H].
  exact (eq_trans (@TLS13HKDFworker_equiv tls_accel sample_evp zeros toy_sha 2 2 0 curve97 (spt 1 2) (sop 97) scalar40
    (mk_mont (sop 97) (sop 3)) (Some <$> [sop 10; sop 20]) (Some <$> [sop 7; sop 8]) (Some <$> [sop 2; sop 3])
    (Some <$> [sop 9; sop 11]) (Some <$> [scalar40; scalar40]) false Z.of_nat (fun _ n => replicate (Z.to_nat n) 5)
    toy48 sample_evp_laws length_zeros toy_sha_len 5 tls_bench) E).
Defined.
