(* ===== verification/BenchMain.v ===== *)
(** * The benchmark program (benchmark_example/src/pka_benchmark.c: [main];
      helpers.c: [PrintStatistics])

    Options, the threads they start, and the figures that are printed: which
    command lines start the workers of [PkaBench] and [PkaTls] and which do
    not, and how the totals printed differ from the operations counted. *)

From S2P Require Import Prelude Operand Bignum BignumEcc PkaBench PkaTls.

(** ** Options *)

Definition RSA_DECRYPTION : Z := 0.
Definition P256 : Z := 1.
Definition X25519 : Z := 2.
Definition ECDSA_SIG_GEN : Z := 3.
Definition TLS13_ASYM : Z := 4.
Definition TLS13_ASYM_HKDF : Z := 5.
Definition RAND : Z := 6.
Definition SPSC : Z := 7.

Definition PKA_MAX_RING_CNT : Z := 64.
Definition PKA_MAX_QUEUE_CNT : Z := 32.
Definition MAX_THREAD_NUM : Z := 16.

Record options := mk_options {
  operation_mode : Z;
  thread_num : Z;
  ring_num : Z;
  outstanding_cmd_num : Z;
  cmd_cnt_per_thread : Z;
}.
Definition defaults : options := mk_options 0 1 4 4 20000.

(** What [getopt] returns with [optarg] read by [atoi]; the last stands for
    ['?']. *)
Inductive opt : Type := Opt_m (v : Z) | Opt_t (v : Z) | Opt_r (v : Z) | Opt_o (v : Z) | Opt_n (v : Z) | Opt_unknown.

(** [exit(1)] and [exit(0)] both end the program. *)
Definition parse_option (o : opt) (s : options) : res options :=
  match o with
  | Opt_m v => if (v <? RSA_DECRYPTION) || (SPSC <? v) then Fault Exit_failure else
      Ret (mk_options v (thread_num s) (ring_num s) (outstanding_cmd_num s) (cmd_cnt_per_thread s))
  | Opt_t v => if (v <=? 0) || (PKA_MAX_QUEUE_CNT <? v) then Fault Exit_failure else
      Ret (mk_options (operation_mode s) v (ring_num s) (outstanding_cmd_num s) (cmd_cnt_per_thread s))
  | Opt_r v => if (v <=? 0) || (PKA_MAX_RING_CNT <? v) then Fault Exit_failure else
      Ret (mk_options (operation_mode s) (thread_num s) v (outstanding_cmd_num s) (cmd_cnt_per_thread s))
  | Opt_o v => if v <=? 0 then Fault Exit_failure else if MAX_OUTSTANDING_CMD_NUM <? v then Fault Exit_failure else
      Ret (mk_options (operation_mode s) (thread_num s) (ring_num s) v (cmd_cnt_per_thread s))
  | Opt_n v => if v <=? 0 then Fault Exit_failure else
      Ret (mk_options (operation_mode s) (thread_num s) (ring_num s) (outstanding_cmd_num s) v)
  | Opt_unknown => Fault Exit_failure
  end.
Fixpoint parse_options (os : list opt) (s : options) : res options :=
  match os with
  | [] => Ret s
  | o :: os' => res_bind (parse_option o s) (parse_options os')
  end.

(** ** Starting the threads *)

Inductive worker : Type := W_RSA | W_P256 | W_X25519 | W_ECDSA | W_TLS13 | W_TLS13HKDF | W_RAND | W_Producer | W_Consumer.

(** What the thread function finds where its argument points: [None] when
    there is no argument. *)
Record started := mk_started { st_worker : worker; st_id : option Z }.

(** What the calls of [main] answer that can fail: the file of the RSA key,
    [pka_init_global], [CPU_ALLOC] and [pthread_attr_init] by thread, and
    [pthread_create] by the number of the call. *)
Record machine := mk_machine {
  pem_ok : bool;
  pka_init_global_ok : bool;
  cpu_alloc_ok : nat -> bool;
  attr_init_ok : nat -> bool;
  create_ok : nat -> bool;
}.

(** The locals and globals [main] indexes by thread; an element of [tid] or
    [p_thread] that has not been set is [None]. *)
Record main_state := mk_main {
  tid : list (option Z);
  p_thread : list (option started);
  cmd_counts : list Z;
  is_tls13_benchmark : bool;
}.
Definition main_state0 (counts : list Z) : main_state :=
  mk_main (replicate (Z.to_nat MAX_THREAD_NUM) None) (replicate (Z.to_nat MAX_THREAD_NUM) None) counts false.

Section program.
Context (TEST_RSA : bool) (m : machine).

(** The function of an operation mode; the build with the RSA code has none
    for [TLS13_ASYM_HKDF]. *)
Definition worker_of (mode : Z) : option worker :=
  if mode =? RSA_DECRYPTION then Some W_RSA
  else if mode =? P256 then Some W_P256
  else if mode =? X25519 then Some W_X25519
  else if mode =? ECDSA_SIG_GEN then Some W_ECDSA
  else if mode =? TLS13_ASYM then Some W_TLS13
  else if negb TEST_RSA && (mode =? TLS13_ASYM_HKDF) then Some W_TLS13HKDF
  else if mode =? RAND then Some W_RAND
  else None.

(** One turn of the loop over the threads; [cpusetp[i]] is written first. *)
Definition start_one (mode : Z) (i : nat) (s : main_state) : res main_state :=
  if (length (tid s) <=? i)%nat then Fault Out_of_bounds else
  if negb (cpu_alloc_ok m i) then Fault Exit_failure else
  if negb (attr_init_ok m i) then Fault Exit_failure else
  let tids := <[i := Some (Z.of_nat i)]> (tid s) in
  let counts := <[i := 0]> (cmd_counts s) in
  match worker_of mode with
  | Some k =>
      let tls := is_tls13_benchmark s || ((mode =? TLS13_ASYM) || (mode =? TLS13_ASYM_HKDF)) in
      if negb (create_ok m i) then Fault Exit_failure else
      Ret (mk_main tids (<[i := Some (mk_started k (Some (Z.of_nat i)))]> (p_thread s)) counts tls)
  | None => if mode =? SPSC then Ret (mk_main tids (p_thread s) counts (is_tls13_benchmark s)) else Fault Exit_failure
  end.

(** The two threads of the last mode. The second is given [&tid[i]] with the
    [i] the loop has left: its thread reads an element that was never set, or
    one past the end. *)
Definition start_spsc (n : nat) (s : main_state) : res main_state :=
  if negb (create_ok m 0) then Fault Exit_failure else
  if negb (create_ok m 1) then Fault Exit_failure else
  match tid s !! n with
  | None => Fault Out_of_bounds
  | Some None => Fault Undefined_value
  | Some (Some id) =>
      Ret (mk_main (tid s)
             (<[1%nat := Some (mk_started W_Consumer (Some id))]> (<[0%nat := Some (mk_started W_Producer None)]> (p_thread s)))
             (cmd_counts s) true)
  end.

Definition start_threads (o : options) (s : main_state) : res main_state :=
  let n := Z.to_nat (thread_num o) in
  res_bind (for_loop n 0 (start_one (operation_mode o)) s) (fun s =>
  if operation_mode o =? SPSC then start_spsc n s else Ret s).

(** The key file is read in the build with the RSA code. *)
Definition main (os : list opt) (counts : list Z) : res main_state :=
  res_bind (parse_options os defaults) (fun o =>
  if TEST_RSA && negb (pem_ok m) then Fault Exit_failure else
  if negb (pka_init_global_ok m) then Fault Exit_failure else
  start_threads o (main_state0 counts)).
End program.

(** ** The printed figures *)

Record statics := mk_statics {
  prev_cmd_cnt : list Z;
  total_cmd : Z;
  prev_sess_cnt : list Z;
  total_sess : Z;
}.
Definition statics0 : statics := mk_statics (replicate 16 0) 0 (replicate 16 0) 0.

(** The counters are those of running threads: [cmd_cnt[i]] is read when the
    difference is taken and again when it is stored for the next report. *)
Record counter_reads := mk_reads { rd_diff : Z; rd_stored : Z }.

(** One thread of a report: the difference to the last one is printed per
    second and added to the sum. *)
Record report := mk_report { total_diff : Z; prevs : list Z; printed : list Z }.
Definition rate (diff interval : Z) : res Z :=
  if interval =? 0 then Fault Undefined_value else Ret (u64 (diff * 1000000000) / interval).
Definition report_thread (interval : Z) (reads : list counter_reads) (i : nat) (r : report) : res report :=
  match reads !! i, prevs r !! i with
  | Some c, Some p =>
      let diff := u64 (rd_diff c - p) in
      res_bind (rate diff interval) (fun v =>
      Ret (mk_report (u64 (total_diff r + diff)) (<[i := rd_stored c]> (prevs r)) (printed r ++ [v])))
  | _, _ => Fault Out_of_bounds
  end.

(** The sessions of a thread: the counters are read for the comparison, and
    the one that is less is read again. *)
Record op_reads := mk_op_reads { rd_compared : tls13_op_cnt_t; rd_taken : tls13_op_cnt_t }.
Definition sess_cnt (r : op_reads) : Z :=
  if ecdsa_done (rd_compared r) <? ecdh_done (rd_compared r) / 2 then ecdsa_done (rd_taken r) else ecdh_done (rd_taken r) / 2.
(** [tls13_sess_cnt] belongs to the thread that prints. *)
Definition report_session (interval : Z) (counts : list Z) (i : nat) (r : report) : res report :=
  match counts !! i with
  | Some 0 => Ret r
  | _ => report_thread interval ((fun c => mk_reads c c) <$> counts) i r
  end.

(** The average is computed from the new total; [printf] is not modelled
    beyond the figures. *)
Definition PrintStatistics (tls : bool) (n : nat) (interval : Z) (cmd_cnt : list counter_reads) (op_cnt : list op_reads) (s : statics)
    : res (list Z * statics) :=
  if negb tls then
    res_bind (for_loop n 0 (report_thread interval cmd_cnt) (mk_report 0 (prev_cmd_cnt s) [])) (fun r =>
    let total := u64 (total_cmd s + total_diff r) in
    res_bind (rate (total_diff r) interval) (fun v =>
    Ret (printed r ++ [v], mk_statics (prevs r) total (prev_sess_cnt s) (total_sess s))))
  else
    let tls13_sess_cnt := sess_cnt <$> op_cnt in
    res_bind (for_loop (Z.to_nat MAX_THREAD_NUM) 0 (report_session interval tls13_sess_cnt) (mk_report 0 (prev_sess_cnt s) [])) (fun r =>
    let total := u64 (total_sess s + total_diff r) in
    res_bind (rate (total_diff r) interval) (fun v =>
    Ret (printed r ++ [v], mk_statics (prev_cmd_cnt s) (total_cmd s) (prevs r) total))).

(** ** What the options start *)

(** The options that are accepted, the value in effect when one is given
    several times, and the worker of each mode. *)
Definition accepted (p : opt) : Prop :=
  match p with
  | Opt_m v => 0 <= v <= 7
  | Opt_t v => 1 <= v <= 32
  | Opt_r v => 1 <= v <= 64
  | Opt_o v => 1 <= v <= 512
  | Opt_n v => 1 <= v
  | Opt_unknown => False
  end.
Definition chosen (get : opt -> option Z) (d : Z) (ps : list opt) : Z := default d (last (omap get ps)).
Definition m_value (p : opt) : option Z := match p with Opt_m v => Some v | _ => None end.
Definition t_value (p : opt) : option Z := match p with Opt_t v => Some v | _ => None end.
Definition r_value (p : opt) : option Z := match p with Opt_r v => Some v | _ => None end.
Definition o_value (p : opt) : option Z := match p with Opt_o v => Some v | _ => None end.
Definition n_value (p : opt) : option Z := match p with Opt_n v => Some v | _ => None end.
Definition mode_table (TEST_RSA : bool) : list (Z * worker) :=
  [(0, W_RSA); (1, W_P256); (2, W_X25519); (3, W_ECDSA); (4, W_TLS13); (6, W_RAND)]
  ++ if TEST_RSA then [] else [(5, W_TLS13HKDF)].

Lemma chosen_cons get d p ps : chosen get d (p :: ps) = chosen get (default d (get p)) ps.
Proof.
  unfold chosen. cbn [omap list_omap]. destruct (get p) as [v|]; [|done]. rewrite last_cons. by destruct (last (omap get ps)).
Qed.
Definition options_of (o : options) (ps : list opt) : options :=
  mk_options (chosen m_value (operation_mode o) ps) (chosen t_value (thread_num o) ps) (chosen r_value (ring_num o) ps)
    (chosen o_value (outstanding_cmd_num o) ps) (chosen n_value (cmd_cnt_per_thread o) ps).

Lemma parse_option_spec p o :
  accepted p /\ parse_option p o = Ret (options_of o [p]) \/ ~ accepted p /\ parse_option p o = Fault Exit_failure.
Proof.
  unfold parse_option, RSA_DECRYPTION, SPSC, PKA_MAX_QUEUE_CNT, PKA_MAX_RING_CNT, MAX_OUTSTANDING_CMD_NUM.
  destruct p as [v|v|v|v|v|]; cbn [accepted];
    repeat match goal with |- context [?a <? ?b] => destruct (Z.ltb_spec a b) | |- context [?a <=? ?b] => destruct (Z.leb_spec a b) end;
    cbn [orb]; first [left; split; [lia|by destruct o]|right; split; [lia || tauto|done]].
Qed.
Lemma parse_options_spec ps o :
  Forall accepted ps /\ parse_options ps o = Ret (options_of o ps) \/
  ~ Forall accepted ps /\ parse_options ps o = Fault Exit_failure.
Proof.
  revert o. induction ps as [|p ps IH]; intros o; cbn [parse_options]; [left; split; [done|by destruct o]|].
  rewrite Forall_cons. destruct (parse_option_spec p o) as [[Hp ->]|[Hp ->]]; [|right; split; [tauto|done]]. cbn [res_bind].
  destruct (IH (options_of o [p])) as [[Hps E]|[Hps E]]; [left|right; split; [tauto|exact E]]. split; [done|].
  rewrite E. unfold options_of. rewrite !chosen_cons. by destruct p.
Qed.
Lemma chosen_in get d ps (P : Z -> Prop) : P d -> (forall p v, accepted p -> get p = Some v -> P v) -> Forall accepted ps ->
  P (chosen get d ps).
Proof.
  intros Hd Hget Hps. revert d Hd. induction Hps as [|p ps Hp _ IH]; intros d Hd; [done|]. rewrite chosen_cons. apply IH.
  destruct (get p) as [v|] eqn:E; [by eapply Hget|done].
Qed.

Lemma worker_of_table TEST_RSA mode k : worker_of TEST_RSA mode = Some k <-> (mode, k) ∈ mode_table TEST_RSA.
Proof.
  unfold worker_of, mode_table, RSA_DECRYPTION, P256, X25519, ECDSA_SIG_GEN, TLS13_ASYM, TLS13_ASYM_HKDF, RAND.
  destruct TEST_RSA; cbn [negb andb app]; rewrite !elem_of_cons, elem_of_nil;
    repeat match goal with |- context [?a =? ?b] => destruct (Z.eqb_spec a b) as [->|] end;
    (split; [intros [= <-]; tauto|intros Hin; destruct_or? Hin; by simplify_eq]).
Qed.

(** The state after the threads [0 .. i-1] have been started. *)
Definition tids (i : nat) : list (option Z) := (fun j => if (j <? i)%nat then Some (Z.of_nat j) else None) <$> seq 0 16.
Definition workers (k : worker) (i : nat) : list (option started) :=
  (fun j => if (j <? i)%nat then Some (mk_started k (Some (Z.of_nat j))) else None) <$> seq 0 16.
Definition cleared (counts : list Z) (i : nat) : list Z := zeros i ++ drop i counts.

Lemma insert_upto {A} (f : nat -> A) i : (i < 16)%nat ->
  <[i := Some (f i)]> ((fun j => if (j <? i)%nat then Some (f j) else None) <$> seq 0 16)
    = (fun j => if (j <? S i)%nat then Some (f j) else None) <$> seq 0 16.
Proof.
  intros Hi. apply list_eq. intros j. destruct (decide (i = j)) as [<-|Hne].
  - rewrite list_lookup_insert_eq by (rewrite length_fmap, length_seq; lia).
    rewrite list_lookup_fmap, lookup_seq_lt by lia. cbn [fmap option_fmap option_map].
    by rewrite Nat.add_0_l, (proj2 (Nat.ltb_lt _ _)) by lia.
  - rewrite list_lookup_insert_ne, !list_lookup_fmap by done.
    destruct (seq 0 16 !! j) as [x|] eqn:E; [|done]. apply lookup_seq in E as [-> _]. cbn [fmap option_fmap option_map].
    destruct (Nat.ltb_spec (0 + j) i), (Nat.ltb_spec (0 + j) (S i)); done || lia.
Qed.
Lemma cleared_succ counts i : length counts = 16%nat -> (i < 16)%nat -> <[i := 0]> (cleared counts i) = cleared counts (S i).
Proof.
  intros Hl Hi. unfold cleared. destruct (lookup_lt_is_Some_2 counts i) as [c Ec]; [lia|].
  rewrite (drop_S _ _ _ Ec), insert_app_r_alt by (rewrite length_zeros; lia). rewrite length_zeros, Nat.sub_diag. cbn [insert list_insert].
  unfold zeros. rewrite replicate_S_end, <-app_assoc. done.
Qed.

Section starts.
Context (TEST_RSA : bool) (m : machine).

(** The state after [i] turns of the loop, if the mode has a thread for it. *)
Definition upto (mode : Z) (counts : list Z) (i : nat) : main_state :=
  mk_main (tids i) (match worker_of TEST_RSA mode with Some k => workers k i | None => replicate 16 None end) (cleared counts i)
    (match worker_of TEST_RSA mode with
     | Some _ => (0 <? i)%nat && ((mode =? TLS13_ASYM) || (mode =? TLS13_ASYM_HKDF)) | None => false end).
(** The calls for thread [i] succeed; no thread is made in the loop for the
    last mode. *)
Definition calls_ok (mode : Z) (i : nat) : bool :=
  cpu_alloc_ok m i && attr_init_ok m i && ((mode =? SPSC) || create_ok m i).

Lemma upto_0 mode counts : main_state0 counts = upto mode counts 0.
Proof. unfold upto, main_state0, cleared. by destruct (worker_of TEST_RSA mode). Qed.
Lemma upto_tids mode counts i : length (tid (upto mode counts i)) = 16%nat.
Proof. cbn [upto tid]. unfold tids. by rewrite length_fmap. Qed.
Lemma spsc_no_worker : worker_of TEST_RSA SPSC = None.
Proof. by destruct TEST_RSA. Qed.
Lemma start_one_upto mode counts i : length counts = 16%nat -> (i < 16)%nat -> worker_of TEST_RSA mode <> None \/ mode = SPSC ->
  start_one TEST_RSA m mode i (upto mode counts i)
  = if calls_ok mode i then Ret (upto mode counts (S i)) else Fault Exit_failure.
Proof.
  intros Hl Hi Hw. unfold start_one, calls_ok. rewrite upto_tids, (proj2 (Nat.leb_gt _ _)) by lia.
  destruct (cpu_alloc_ok m i), (attr_init_ok m i); cbn [negb andb]; try done.
  change (tid (upto mode counts i)) with (tids i). change (cmd_counts (upto mode counts i)) with (cleared counts i).
  cbv zeta. rewrite cleared_succ by done. unfold tids. rewrite (insert_upto Z.of_nat) by done.
  unfold upto, tids. destruct (worker_of TEST_RSA mode) as [k|] eqn:Ek; cbn [p_thread is_tls13_benchmark].
  - destruct (Z.eqb_spec mode SPSC) as [E7|_]; [by rewrite E7, spsc_no_worker in Ek|]. cbn [orb]. destruct (create_ok m i); [|done].
    cbn [negb]. unfold workers. rewrite (insert_upto (fun j => mk_started k (Some (Z.of_nat j)))) by done. do 2 f_equal.
    destruct i; [done|]. cbn [Nat.ltb Nat.leb andb]. by destruct ((mode =? TLS13_ASYM) || _).
  - destruct Hw as [|Hw]; [done|]. by rewrite (proj2 (Z.eqb_eq _ _)).
Qed.
Lemma start_loop_run mode counts k i : length counts = 16%nat -> (i <= 16)%nat -> worker_of TEST_RSA mode <> None \/ mode = SPSC ->
  for_loop k i (start_one TEST_RSA m mode) (upto mode counts i) =
    if forallb (calls_ok mode) (seq i (Nat.min (i + k) 16 - i))
    then if (i + k <=? 16)%nat then Ret (upto mode counts (i + k)) else Fault Out_of_bounds
    else Fault Exit_failure.
Proof.
  intros Hl Hi Hw. revert i Hi. induction k as [|k IH]; intros i Hi; cbn [for_loop].
  { rewrite Nat.add_0_r, Nat.min_l, Nat.sub_diag by done. cbn [seq forallb]. by rewrite (proj2 (Nat.leb_le _ _)). }
  destruct (decide (i = 16%nat)) as [->|Hne].
  { rewrite Nat.min_r, Nat.sub_diag by lia. cbn [seq forallb]. rewrite (proj2 (Nat.leb_gt (16 + S k) 16)) by lia.
    unfold start_one at 1. by rewrite upto_tids. }
  rewrite start_one_upto by (done || lia). replace (Nat.min (i + S k) 16 - i)%nat with (S (Nat.min (S i + k) 16 - S i)) by lia.
  cbn [seq forallb]. destruct (calls_ok mode i); [|done]. cbn [andb res_bind]. rewrite IH by lia.
  by replace (S i + k)%nat with (i + S k)%nat by lia.
Qed.
Lemma no_worker_exits mode counts n : (0 < n)%nat -> worker_of TEST_RSA mode = None -> mode <> SPSC ->
  for_loop n 0 (start_one TEST_RSA m mode) (main_state0 counts) = Fault Exit_failure.
Proof.
  intros Hn Hw Hm. destruct n as [|n]; [lia|]. cbn [for_loop]. unfold start_one at 1. rewrite Hw, (proj2 (Z.eqb_neq _ _)) by done.
  change (length (tid (main_state0 counts)) <=? 0)%nat with false. cbv iota.
  by destruct (cpu_alloc_ok m 0), (attr_init_ok m 0).
Qed.

(** C26: what the program does with its command line, when the value given last
    for an option is the one in effect (by default mode 0 and one thread). An
    option out of range ends it, and so does a key file (in the build with the RSA code)
    or a PKA instance that it cannot have. Otherwise modes 0 to 4 and 6
    (and 5 without the RSA code) start, as [mode_table] lists them, the workers
    numbered from 0, with cleared counters, unless a call for one of them
    fails, which ends it too; from 17 threads on it writes past its arrays of
    16. Mode 5 of the build with the RSA code ends the program. In mode 7 the
    thread that takes the commands is given the address of an element of [tid]
    that was never set or is past the end. *)
Theorem main_starts_workers ps counts : length counts = 16%nat ->
  let mode := chosen m_value 0 ps in
  let n := Z.to_nat (chosen t_value 1 ps) in
  let all_ok := forallb (calls_ok mode) (seq 0 (Nat.min n 16)) in
  (~ Forall accepted ps \/ TEST_RSA && negb (pem_ok m) = true \/ pka_init_global_ok m = false ->
     main TEST_RSA m ps counts = Fault Exit_failure) /\
  (Forall accepted ps -> TEST_RSA && negb (pem_ok m) = false -> pka_init_global_ok m = true ->
     (1 <= n <= 32)%nat /\
     (forall k, (mode, k) ∈ mode_table TEST_RSA ->
        main TEST_RSA m ps counts =
          if all_ok
          then if (n <=? 16)%nat
               then Ret (mk_main (tids n) (workers k n) (cleared counts n) ((mode =? 4) || (mode =? 5)))
               else Fault Out_of_bounds
          else Fault Exit_failure) /\
     (mode = 5 -> TEST_RSA = true -> main TEST_RSA m ps counts = Fault Exit_failure) /\
     (mode = 7 ->
        main TEST_RSA m ps counts =
          if all_ok
          then if (16 <? n)%nat then Fault Out_of_bounds
               else if create_ok m 0 && create_ok m 1
                    then if (n <? 16)%nat then Fault Undefined_value else Fault Out_of_bounds
                    else Fault Exit_failure
          else Fault Exit_failure)).
Proof.
  intros Hl mode n all_ok. unfold main. split.
  { intros Hbad. destruct (parse_options_spec ps defaults) as [[Hps ->]|[_ ->]]; [|done]. cbn [res_bind].
    destruct Hbad as [|[-> | ->]]; [done..|]. by destruct (TEST_RSA && _). }
  intros Hps Hpem Hinit. destruct (parse_options_spec ps defaults) as [[_ ->]|[]]; [|done]. cbn [res_bind]. rewrite Hpem, Hinit.
  cbn [negb]. unfold start_threads, options_of. cbn [thread_num operation_mode defaults]. fold mode. fold n.
  assert (1 <= n <= 32)%nat as Hn.
  { assert (1 <= chosen t_value 1 ps <= 32); [|lia]. apply (chosen_in t_value 1 ps (fun v => 1 <= v <= 32)); [lia| |done].
    by intros [] x Hp [= <-]. }
  split; [done|]. pose proof (start_loop_run mode counts n 0 Hl ltac:(lia)) as Hrun. rewrite Nat.add_0_l, Nat.sub_0_r in Hrun.
  fold all_ok in Hrun. rewrite <-upto_0 in Hrun. split; [|split].
  - intros k Hk%worker_of_table. rewrite Hrun by (left; by rewrite Hk). destruct all_ok; [|done].
    destruct (n <=? 16)%nat; [|done]. cbn [res_bind].
    destruct (Z.eqb_spec mode SPSC) as [E7|_]; [by rewrite E7, spsc_no_worker in Hk|]. unfold upto.
    by rewrite Hk, (proj2 (Nat.ltb_lt 0 n)) by lia.
  - intros E5 Hrsa. rewrite no_worker_exits; [done|lia| |by rewrite E5]. by rewrite E5, Hrsa.
  - intros E7. rewrite Hrun by (by right). destruct all_ok; [|done]. destruct (Nat.leb_spec n 16) as [H16|H16].
    + rewrite (proj2 (Nat.ltb_ge 16 n)) by lia. cbn [res_bind]. rewrite E7. cbn [Z.eqb SPSC Pos.eqb]. unfold start_spsc.
      destruct (create_ok m 0), (create_ok m 1); cbn [negb andb]; [|done..]. cbn [upto tid]. unfold tids. rewrite list_lookup_fmap.
      destruct (Nat.ltb_spec n 16); [|by rewrite lookup_ge_None_2 by (rewrite length_seq; lia)].
      rewrite lookup_seq_lt by lia. cbn [fmap option_fmap option_map]. by rewrite (proj2 (Nat.ltb_ge _ _)) by lia.
    + by rewrite (proj2 (Nat.ltb_lt 16 n)) by lia.
Qed.
End starts.

(** ** The printed totals *)

Lemma u64_add a b : u64 (u64 a + u64 b) = u64 (a + b).
Proof. unfold u64. by rewrite <-Z.add_mod by done. Qed.

Lemma u64_add_l a b : u64 (u64 a + b) = u64 (a + b).
Proof. unfold u64. by rewrite Z.add_mod_idemp_l by done. Qed.
Lemma u64_add_r a b : u64 (a + u64 b) = u64 (a + b).
Proof. unfold u64. by rewrite Z.add_mod_idemp_r by done. Qed.

Abbreviation total := (zsum (fun x : Z => x)).

Lemma total_take_S (l : list Z) i c : l !! i = Some c -> total (take (S i) l) = total (take i l) + c.
Proof. intros E. rewrite (take_S_r _ _ _ E), zsum_app, zsum_cons. change (total []) with 0. lia. Qed.
Lemma prevs_succ (new prev : list Z) i c : new !! i = Some c -> (i < length prev)%nat ->
  <[i := c]> (take i new ++ drop i prev) = take (S i) new ++ drop (S i) prev.
Proof.
  intros E Hp. pose proof (lookup_lt_Some _ _ _ E) as Hc. destruct (lookup_lt_is_Some_2 prev i Hp) as [p Ep].
  rewrite (drop_S _ _ _ Ep), insert_app_r_alt by (rewrite length_take; lia).
  rewrite length_take, Nat.min_l, Nat.sub_diag by lia. cbn [insert list_insert]. by rewrite (take_S_r _ _ _ E), <-app_assoc.
Qed.

(** A loop over threads that takes each difference, or leaves a thread out. *)
Lemma report_loop body interval (reads : list counter_reads) prev n :
  interval <> 0 -> length prev = length reads -> (n <= length reads)%nat ->
  (forall i r c p, reads !! i = Some c -> prev !! i = Some p ->
     body i r = report_thread interval reads i r \/ body i r = Ret r /\ c = mk_reads p p) ->
  exists r, for_loop n 0 body (mk_report 0 prev []) = Ret r /\ prevs r = take n (rd_stored <$> reads) ++ drop n prev /\
    total_diff r = u64 (total (take n (rd_diff <$> reads)) - total (take n prev)).
Proof.
  intros Hint Hl Hn Hbody.
  destruct (for_loop_inv (fun i r => prevs r = take i (rd_stored <$> reads) ++ drop i prev /\
    total_diff r = u64 (total (take i (rd_diff <$> reads)) - total (take i prev))) body n 0 (mk_report 0 prev [])) as (r & E & H1 & H2);
    [done| |by exists r].
  intros i r Hi (H1 & H2). destruct (lookup_lt_is_Some_2 reads i) as [c Ec]; [lia|].
  destruct (lookup_lt_is_Some_2 prev i) as [p Ep]; [lia|].
  assert ((rd_stored <$> reads) !! i = Some (rd_stored c)) as Es by (by rewrite list_lookup_fmap, Ec).
  assert ((rd_diff <$> reads) !! i = Some (rd_diff c)) as Ed by (by rewrite list_lookup_fmap, Ec).
  pose proof (prevs_succ (rd_stored <$> reads) prev i _ Es ltac:(lia)) as Hins.
  destruct (Hbody i r c p Ec Ep) as [->|(-> & ->)].
  - unfold report_thread. rewrite Ec, H1, lookup_app_r by (rewrite length_take, length_fmap; lia).
    rewrite length_take, length_fmap, Nat.min_l, Nat.sub_diag, lookup_drop, Nat.add_0_r, Ep by lia.
    unfold rate. rewrite (proj2 (Z.eqb_neq _ _)) by done. cbn [res_bind]. eexists. split; [reflexivity|].
    cbn [prevs total_diff]. split; [done|]. rewrite H2, u64_add. f_equal.
    rewrite (total_take_S _ _ _ Ed), (total_take_S _ _ _ Ep). lia.
  - exists r. split; [done|]. rewrite H1, H2, (total_take_S _ _ _ Ed), (total_take_S _ _ _ Ep). split; [|f_equal; cbn; lia].
    rewrite (take_S_r _ _ _ Es), <-app_assoc. f_equal. by rewrite (drop_S _ _ _ Ep).
Qed.

(** A sequence of reports: the interval and what is read of the counters at
    each. *)
Record report_call := mk_report_call { rc_interval : Z; rc_cmds : list counter_reads; rc_ops : list op_reads }.
Fixpoint run_reports (tls : bool) (n : nat) (l : list report_call) (s : statics) : res (list (list Z) * statics) :=
  match l with
  | [] => Ret ([], s)
  | c :: l' =>
      res_bind (PrintStatistics tls n (rc_interval c) (rc_cmds c) (rc_ops c) s) (fun '(out, s) =>
      res_bind (run_reports tls n l' s) (fun '(outs, s) => Ret (out :: outs, s)))
  end.
Definition call_ok (c : report_call) : Prop :=
  rc_interval c <> 0 /\ length (rc_cmds c) = 16%nat /\ length (rc_ops c) = 16%nat.

(** The operations that threads [0 .. n-1] count between the two reads of a
    report, and the count that was read last. *)
Definition lost (n : nat) (l : list report_call) : Z :=
  zsum (fun c => zsum (fun r => rd_stored r - rd_diff r) (take n (rc_cmds c))) l.
Definition counted (n : nat) (prev : list Z) (l : list report_call) : Z :=
  total (take n (match last l with Some c => rd_stored <$> rc_cmds c | None => prev end)).
(** The counters only grow. *)
Fixpoint growing (prev : list Z) (l : list report_call) : Prop :=
  match l with
  | [] => True
  | c :: l' => Forall2 (fun p r => p <= rd_diff r <= rd_stored r) prev (rc_cmds c) /\ growing (rd_stored <$> rc_cmds c) l'
  end.
(** The sessions of each thread at its last report that was not skipped for
    having none. *)
Definition reported (prev : list Z) (c : report_call) : list Z :=
  zip_with (fun v p => if v =? 0 then p else v) (sess_cnt <$> rc_ops c) prev.

(** What a report does to the totals. *)
Lemma print_cmd n c s : call_ok c -> length (prev_cmd_cnt s) = 16%nat -> (n <= 16)%nat ->
  exists out s', PrintStatistics false n (rc_interval c) (rc_cmds c) (rc_ops c) s = Ret (out, s') /\
    length (prev_cmd_cnt s') = 16%nat /\ take n (prev_cmd_cnt s') = take n (rd_stored <$> rc_cmds c) /\
    total_cmd s' = u64 (total_cmd s + (total (take n (rd_diff <$> rc_cmds c)) - total (take n (prev_cmd_cnt s)))).
Proof.
  intros (Hint & Hc & _) Hp Hn. unfold PrintStatistics. cbn [negb].
  destruct (report_loop (report_thread (rc_interval c) (rc_cmds c)) (rc_interval c) (rc_cmds c) (prev_cmd_cnt s) n Hint) as (r & -> & E1 & E2);
    [lia|lia|by left|]. cbn [res_bind]. unfold rate. rewrite (proj2 (Z.eqb_neq _ _)) by done. cbn [res_bind].
  eexists _, _. split; [reflexivity|]. cbn [prev_cmd_cnt total_cmd]. rewrite E1, E2.
  split; [rewrite length_app, length_take, length_drop, length_fmap; lia|].
  split; [by rewrite take_app_le, take_idemp by (rewrite length_take, length_fmap; lia)|]. apply u64_add_r.
Qed.
Lemma print_sess n c s : call_ok c -> length (prev_sess_cnt s) = 16%nat -> total_sess s = u64 (total (prev_sess_cnt s)) ->
  exists out s', PrintStatistics true n (rc_interval c) (rc_cmds c) (rc_ops c) s = Ret (out, s') /\
    prev_sess_cnt s' = reported (prev_sess_cnt s) c /\ total_sess s' = u64 (total (reported (prev_sess_cnt s) c)).
Proof.
  intros (Hint & _ & Hc) Hp Ht. unfold PrintStatistics. cbn [negb]. set (sess := sess_cnt <$> rc_ops c).
  assert (length sess = 16%nat) as Hl by (unfold sess; by rewrite length_fmap).
  set (reads := zip_with (fun v p => if v =? 0 then mk_reads p p else mk_reads v v) sess (prev_sess_cnt s)).
  assert (length reads = 16%nat) as Hlr by (unfold reads; rewrite length_zip_with; lia).
  assert (rd_diff <$> reads = reported (prev_sess_cnt s) c /\ rd_stored <$> reads = reported (prev_sess_cnt s) c) as [Ed Es].
  { unfold reads, reported. fold sess. clear. generalize (prev_sess_cnt s) as ps. induction sess as [|v vs IH]; intros [|p ps]; [done..|].
    cbn [zip_with fmap list_fmap]. destruct (IH ps) as [IH1 IH2]. change (list_fmap _ _ ?f ?l) with (f <$> l). rewrite IH1, IH2.
    by destruct (v =? 0). }
  destruct (report_loop (report_session (rc_interval c) sess) (rc_interval c) reads (prev_sess_cnt s) 16 Hint) as (r & E & E1 & E2);
    [lia|lia| |].
  { intros i r rd p Er Ep. unfold reads in Er. apply lookup_zip_with_Some in Er as (v & p' & -> & Ev & Ep').
    rewrite Ep in Ep'. injection Ep' as <-. unfold report_session. rewrite Ev. destruct (Z.eqb_spec v 0) as [->|Hv]; [by right|].
    left. assert (report_thread (rc_interval c) ((fun c => mk_reads c c) <$> sess) i r = report_thread (rc_interval c) reads i r) as <-
      by (unfold report_thread, reads; by rewrite list_lookup_fmap, lookup_zip_with, Ev, Ep; cbn; rewrite (proj2 (Z.eqb_neq _ _))).
    by destruct v. }
  change (Z.to_nat MAX_THREAD_NUM) with 16%nat. rewrite E. cbn [res_bind]. unfold rate. rewrite (proj2 (Z.eqb_neq _ _)) by done.
  cbn [res_bind]. eexists _, _. split; [reflexivity|]. cbn [prev_sess_cnt total_sess]. rewrite E1, E2, Ht, u64_add, Ed, Es.
  assert (length (reported (prev_sess_cnt s) c) = 16%nat) by (by rewrite <-Ed, length_fmap).
  rewrite !take_ge, drop_ge, app_nil_r by lia. split; [done|]. f_equal. lia.
Qed.

Lemma total_diffs rs : total (rd_diff <$> rs) = total (rd_stored <$> rs) - zsum (fun r => rd_stored r - rd_diff r) rs.
Proof. induction rs as [|r rs IH]; [done|]. rewrite !fmap_cons, !zsum_cons. lia. Qed.
Lemma reports_cmd n l s L : (n <= 16)%nat -> Forall call_ok l -> length (prev_cmd_cnt s) = 16%nat ->
  total_cmd s = u64 (total (take n (prev_cmd_cnt s)) - L) ->
  exists outs s', run_reports false n l s = Ret (outs, s') /\ total_cmd s' = u64 (counted n (prev_cmd_cnt s) l - (L + lost n l)).
Proof.
  intros Hn Hl. revert s L. induction Hl as [|c l Hc _ IH]; intros s L Hp Ht.
  { exists [], s. split; [done|]. rewrite Ht. change (lost n []) with 0.
    change (counted n (prev_cmd_cnt s) []) with (total (take n (prev_cmd_cnt s))). f_equal. lia. }
  destruct (print_cmd n c s Hc Hp Hn) as (out & s1 & E & Hp1 & Etk & Ht1). cbn [run_reports]. rewrite E. cbn [res_bind].
  set (d := zsum (fun r => rd_stored r - rd_diff r) (take n (rc_cmds c))).
  assert (total (take n (rd_diff <$> rc_cmds c)) = total (take n (rd_stored <$> rc_cmds c)) - d) as Hd.
  { unfold d. rewrite <-!fmap_take. apply total_diffs. }
  destruct (IH s1 (L + d) Hp1) as (outs & s2 & E2 & Ht2).
  { rewrite Ht1, Ht, Hd, Etk, u64_add_l. f_equal. lia. }
  rewrite E2. cbn [res_bind]. eexists _, s2. split; [reflexivity|]. rewrite Ht2. unfold lost. rewrite zsum_cons.
  fold d. fold (lost n l). unfold counted. rewrite last_cons. f_equal.
  destruct (last l); [lia|]. rewrite Etk. lia.
Qed.
Lemma reports_sess n l s : Forall call_ok l -> length (prev_sess_cnt s) = 16%nat -> total_sess s = u64 (total (prev_sess_cnt s)) ->
  exists outs s', run_reports true n l s = Ret (outs, s') /\ total_sess s' = u64 (total (foldl reported (prev_sess_cnt s) l)).
Proof.
  intros Hl. revert s. induction Hl as [|c l Hc _ IH]; intros s Hp Ht; [by exists [], s|].
  destruct (print_sess n c s Hc Hp Ht) as (out & s1 & E & Hp1 & Ht1). cbn [run_reports foldl]. rewrite E. cbn [res_bind].
  destruct (IH s1) as (outs & s2 & E2 & Ht2); rewrite ?Hp1; [|done|].
  { unfold reported. rewrite length_zip_with, length_fmap, (proj2 (proj2 Hc)). lia. }
  rewrite E2. cbn [res_bind]. eexists _, s2. split; [reflexivity|]. by rewrite Ht2, Hp1.
Qed.
Lemma lost_range n l prev : growing prev l -> 0 <= lost n l <= counted n prev l - total (take n prev).
Proof.
  revert prev. induction l as [|c l IH]; intros prev.
  { intros _. change (lost n []) with 0. change (counted n prev []) with (total (take n prev)). lia. }
  intros [Hle Hg]. specialize (IH _ Hg). unfold lost. rewrite zsum_cons. fold (lost n l).
  assert (0 <= zsum (fun r => rd_stored r - rd_diff r) (take n (rc_cmds c))
            <= total (take n (rd_stored <$> rc_cmds c)) - total (take n prev)) as Hd.
  { clear IH Hg. rewrite <-fmap_take. apply (Forall2_take _ _ _ n) in Hle.
    induction Hle as [|p r ps rs Hr _ IHr]; [done|]. rewrite !fmap_cons, !zsum_cons. lia. }
  assert (counted n prev (c :: l) = counted n (rd_stored <$> rc_cmds c) l) as -> by (unfold counted; rewrite last_cons; by destruct (last l)).
  lia.
Qed.

(** The sessions of a worker that has sent [n] commands and counts no more
    while it is read. *)
Lemma sessions_of_commands n : 0 <= n -> sess_cnt (mk_op_reads (mk_op_cnt ((n + 2) / 3) (n - (n + 2) / 3)) (mk_op_cnt ((n + 2) / 3) (n - (n + 2) / 3))) = n / 3.
Proof.
  intros Hn. unfold sess_cnt. cbn [rd_compared rd_taken ecdsa_done ecdh_done]. pose proof (Z.div_mod n 3 ltac:(lia)). pose proof (Z.mod_pos_bound n 3 ltac:(lia)).
  pose proof (Z.div_mod (n + 2) 3 ltac:(lia)). pose proof (Z.mod_pos_bound (n + 2) 3 ltac:(lia)).
  set (m := n - (n + 2) / 3) in *. pose proof (Z.div_mod m 2 ltac:(lia)). pose proof (Z.mod_pos_bound m 2 ltac:(lia)).
  destruct (Z.ltb_spec ((n + 2) / 3) (m / 2)); lia.
Qed.

(** C25: whatever the times of the reports, the total of operations the average
    is computed from falls short of what the threads had counted when they were
    last read by exactly the operations counted between the two reads that
    every report makes of a counter: it never exceeds the count. The total of
    TLS 1.3 sessions is the sum of the sessions of each thread at its last
    report that found some; a worker that has sent [m] commands, all answered,
    has a third of them. *)
Theorem statistics_accounted n l : (n <= 16)%nat -> Forall call_ok l ->
  (exists outs s, run_reports false n l statics0 = Ret (outs, s) /\
     total_cmd s = u64 (counted n (replicate 16 0) l - lost n l) /\
     (growing (replicate 16 0) l -> 0 <= lost n l <= counted n (replicate 16 0) l)) /\
  (exists outs s, run_reports true n l statics0 = Ret (outs, s) /\
     total_sess s = u64 (zsum (fun x => x) (foldl reported (replicate 16 0) l))) /\
  (forall m, 0 <= m -> let c := mk_op_cnt ((m + 2) / 3) (m - (m + 2) / 3) in sess_cnt (mk_op_reads c c) = m / 3).
Proof.
  intros Hn Hl. assert (total (take n (replicate 16 0)) = 0) as H0 by (rewrite take_replicate, zsum_replicate; lia).
  split; [|split; [|exact sessions_of_commands]].
  - destruct (reports_cmd n l statics0 0 Hn Hl eq_refl) as (outs & s & E & Ht).
    { cbn [total_cmd prev_cmd_cnt statics0]. by rewrite H0. }
    exists outs, s. split; [done|]. split; [done|]. intros Hg. pose proof (lost_range n l _ Hg). lia.
  - by destruct (reports_sess n l statics0 Hl eq_refl eq_refl) as (outs & s & E & Ht); exists outs, s.
Qed.

(** ** Witnesses *)

Definition all_well : machine := mk_machine true true (fun _ => true) (fun _ => true) (fun _ => true).
(** The TLS 1.3 workers; too many threads; a thread that is not made. *)
Lemma main_starts_workers_witness :
  main true all_well [Opt_m 4; Opt_t 2; Opt_o 100] (replicate 16 9)
    = Ret (mk_main (tids 2) (workers W_TLS13 2) (cleared (replicate 16 9) 2) true) /\
  main true all_well [Opt_m 2; Opt_t 17] (replicate 16 9) = Fault Out_of_bounds /\
  main true (mk_machine true true (fun _ => true) (fun _ => true) (fun i => (i <? 3)%nat)) [Opt_t 2; Opt_t 4] (replicate 16 9)
    = Fault Exit_failure.
Proof.
  split; [|split].
  - refine (proj1 (proj2 (proj2 (main_starts_workers true all_well [Opt_m 4; Opt_t 2; Opt_o 100] (replicate 16 9) eq_refl) _ _ _)) W_TLS13 _);
      [repeat constructor; lia|done|done|by vm_compute; right; right; right; right; left].
  - refine (proj1 (proj2 (proj2 (main_starts_workers true all_well [Opt_m 2; Opt_t 17] (replicate 16 9) eq_refl) _ _ _)) W_X25519 _);
      [repeat constructor; lia|done|done|by vm_compute; right; right; left].
  - refine (proj1 (proj2 (proj2 (main_starts_workers true _ [Opt_t 2; Opt_t 4] (replicate 16 9) eq_refl) _ _ _)) W_RSA _);
      [repeat constructor; lia|done|done|left].
Defined.

(** Two threads and two reports. Thread 1 counts three operations between the
    two reads of the first report: of 25 operations 22 are reported. *)
Definition sample_calls : list report_call :=
  let idle := mk_op_cnt 0 0 in
  [mk_report_call 1000000001 (mk_reads 5 5 :: mk_reads 4 7 :: replicate 14 (mk_reads 0 0))
     (mk_op_reads (mk_op_cnt 3 6) (mk_op_cnt 3 6) :: mk_op_reads (mk_op_cnt 1 4) (mk_op_cnt 2 4) :: replicate 14 (mk_op_reads idle idle));
   mk_report_call 1000000007 (mk_reads 12 12 :: mk_reads 13 13 :: replicate 14 (mk_reads 0 0))
     (mk_op_reads (mk_op_cnt 7 12) (mk_op_cnt 7 12) :: mk_op_reads (mk_op_cnt 3 8) (mk_op_cnt 3 8) :: replicate 14 (mk_op_reads idle idle))].
Lemma statistics_accounted_witness :
  (exists outs s, run_reports false 2 sample_calls statics0 = Ret (outs, s) /\ total_cmd s = 22) /\
  (exists outs s, run_reports true 2 sample_calls statics0 = Ret (outs, s) /\ total_sess s = 9).
Proof.
  destruct (statistics_accounted 2 sample_calls) as ((outs1 & s1 & E1 & Ht1 & _) & (outs2 & s2 & E2 & Ht2) & _).
  - lia.
  - by repeat constructor.
  - split; [exists outs1, s1|exists outs2, s2]; (split; [assumption|]); [rewrite Ht1|rewrite Ht2]; reflexivity.
Defined.
