(* ===== verification/SslPools.v ===== *)
(** * Pools of records and crypto operations (ssl.c: [init_random],
      [remove_pending_pka_op], [new_ssl_crypto_op], [init_record],
      [new_recv_record], [new_send_record], [store_handshake],
      [delete_record], [delete_op], [clear_results])

    A worker core hands out TLS records and crypto operations from two tail
    queues and takes them back cleared. Nothing keeps the code from releasing
    an object twice, which breaks the links of its pool; the invariant
    [pools_ok] holds in that case too. *)

From S2P Require Import Prelude TailQ Ring FlowTable Operand ClientHello NicState.

(** ** Random bytes *)

Definition RAND_MAX_LOCAL : Z := 1073741823 * 4 + 3.
Definition lcg (seed : Z) : Z := u64 (seed * 1103515245 + 12345).

(** The two loops of [init_random]: words, then the bytes that are left. *)
Fixpoint random_words (n : nat) (seed : Z) : bytes * Z :=
  match n with
  | O => ([], seed)
  | S n' =>
      let seed := lcg seed in
      let w := u32 (seed / (RAND_MAX_LOCAL * 21) mod RAND_MAX_LOCAL) in
      let (r, seed') := random_words n' seed in
      (le_bytes 4 w ++ r, seed')
  end.
Fixpoint random_bytes (n : nat) (seed : Z) : bytes :=
  match n with
  | O => []
  | S n' => let seed := lcg seed in u8 seed :: random_bytes n' seed
  end.

Definition init_random (rand_seed : Z) (size : nat) : bytes :=
  let (w, seed) := random_words (size / 4) (lcg rand_seed) in
  w ++ random_bytes (size - 4 * (size / 4)) seed.

(** ** Crypto operations *)

Definition new_ssl_crypto_op : nicM nat :=
  do s <- mget;
  match TAILQ_FIRST POOL (op_pool s) with
  | None => mexit
  | Some target =>
      do q <- mres (TAILQ_REMOVE POOL target (op_pool s));
      mput (s <| op_pool := q |> <| free_op_cnt ::= Z.pred |> <| using_op_cnt ::= Z.succ |>);;;
      ret target
  end.

Definition delete_op (op : nat) : nicM unit :=
  mod_op op (fun _ => op0);;;
  do s <- mget;
  do q <- mres (release POOL op (op_pool s));
  mput (s <| op_pool := q |> <| free_op_cnt ::= Z.succ |> <| using_op_cnt ::= Z.pred |>).

(** ** Records *)

Definition init_record (r : record) (seq : Z) (is_received_ : bool) : record :=
  r <| r_data := [] |> <| r_decrypted := [] |> <| r_aliased := false |>
    <| r_current_len := 0 |> <| r_length := 0 |> <| r_seq_num := seq |>
    <| r_is_encrypted := false |>
    <| pt_record_type := 0 |> <| pt_version := mk_version 0 0 |> <| pt_length := 0 |>
    <| ct_length := 0 |>
    <| f_msg_type := 0 |> <| f_length := zeros 3 |> <| f_client_hello := client_hello0 |>
    <| f_verify_data := zeros 48 |> <| f_level := 0 |> <| f_description := 0 |>
    <| r_is_received := is_received_ |>
    <| r_state := if is_received_ then TO_UNPACK_HEADER else TO_PACK_HEADER |>.

(** The common body of [new_recv_record] and [new_send_record]. *)
Definition take_record (sess : nat) (seq : Z) (is_received_ : bool) : nicM nat :=
  mod_sess sess (fun x => x <| num_current_records ::= fun n => u16 (n + 1) |>);;;
  do s <- mget;
  match TAILQ_FIRST POOL (record_pool s) with
  | None => mexit
  | Some r =>
      do q <- mres (TAILQ_REMOVE POOL r (record_pool s));
      mput (s <| record_pool := q |> <| free_record_cnt ::= Z.pred |>
              <| using_record_cnt ::= Z.succ |>);;;
      do x <- get_sess sess;
      mod_rec r (fun rc => (init_record (rc <| r_sess := Some sess |>) seq is_received_)
                             <| r_id := next_record_id x |>);;;
      mod_sess sess (fun x => x <| next_record_id ::= Z.succ |>);;;
      ret r
  end.

Definition new_recv_record (sess : nat) : nicM nat := take_record sess 0 true.

Definition new_send_record (sess : nat) : nicM nat :=
  do x <- get_sess sess;
  take_record sess (send_seq_num_ x) false.

(** [memset(record, 0, sizeof(record_t))], which clears the links of both
    queues, and the return to the pool. *)
Definition release_record (r : nat) : nicM unit :=
  mod_rec r (fun _ => record0);;;
  do s <- mget;
  do q <- mres (release POOL r (record_pool s));
  mput (s <| record_pool := q |> <| recv_qs ::= clear_links r |> <| free_record_cnt ::= Z.succ |>
          <| using_record_cnt ::= Z.pred |>).

Definition delete_record (sess r : nat) : nicM unit :=
  release_record r;;;
  mod_sess sess (fun x => x <| num_current_records ::= fun n => u16 (n - 1) |>).

(** The memory [decrypted] points to. *)
Definition decrypted (r : record) : bytes := if r_aliased r then r_data r else r_decrypted r.
(** [plain_text.fragment], set to [decrypted + RECORD_HEADER_SIZE]. *)
Definition fragment (r : record) : bytes := drop (Z.to_nat RECORD_HEADER_SIZE) (decrypted r).

Definition MAX_HANDSHAKE_LENGTH : Z := 4096.

(** [store_handshake] appends the message to the transcript; -1 and no change
    for a message type that is not past the state. The copy is checked against
    the array before the assertion is reached. *)
Definition store_handshake (sess r : nat) : nicM Z :=
  do x <- get_sess sess;
  do rc <- get_rec r;
  if f_msg_type rc <=? handshake_state x then ret (-1) else
  let n := if pt_record_type rc =? APPLICATION_DATA then pt_length rc - 1 else pt_length rc in
  let len := Z.of_nat (length (handshake_msgs x)) + n in
  if (n <? 0) || (MAX_HANDSHAKE_LENGTH <? len) then mfault Out_of_bounds else
  mod_sess sess (fun x => x <| handshake_msgs ::= fun l => l ++ rdn (Z.to_nat n) (fragment rc) 0 |>);;;
  massert (len <? MAX_HANDSHAKE_LENGTH);;;
  ret len.

(** [remove_pending_pka_op]. *)
Definition remove_pending_pka_op (sess : nat) : nicM unit :=
  do x <- get_sess sess;
  (match pending_pka_op x with
   | None => ret tt
   | Some op =>
       mod_op op (fun o => o <| op_pka_flag := false |>);;;
       do o <- get_op op;
       (match op_data o with Some r => delete_record sess r | None => ret tt end);;;
       delete_op op;;;
       mod_sess sess (fun x => x <| pending_pka_op := None |>);;;
       mmod (fun s => s <| cur_crypto_cnt ::= fun n => u32 (n - 1) |>)
   end);;;
  do x <- get_sess sess;
  match pending_pka_op_1 x with
  | None => ret tt
  | Some op =>
      mod_op op (fun o => o <| op_pka_flag := false |>);;;
      delete_op op;;;
      mod_sess sess (fun x => x <| pending_pka_op_1 := None |>);;;
      mmod (fun s => s <| cur_crypto_cnt ::= fun n => u32 (n - 1) |>)
  end.

(** [clear_results] on the two operands of [pka_results]. *)
Definition clear_result (o : pka_operand) : res pka_operand :=
  res_bind (memset0 (buf_ptr o) (buf_len o))
    (fun b => Ret (o <| buf_ptr := b |> <| actual_len := 0 |>)).
Fixpoint clear_results (l : list pka_operand) : res (list pka_operand) :=
  match l with
  | [] => Ret []
  | o :: l' => res_bind (clear_result o) (fun o' =>
                 res_bind (clear_results l') (fun l'' => Ret (o' :: l'')))
  end.

(** ** The pools are kept *)

(** What every function keeps, even after an object was released twice: the
    links of a pool lead to objects of the pool, so that taking an object
    fails only when the head is [NULL], and the counters add up to the number
    of objects. *)
Record pools_ok (s : nic) : Prop := mk_pools_ok {
  pool_linked : linked_within (record_pool s) POOL (fun r => is_Some (records s !! r));
  pool_total : free_record_cnt s + using_record_cnt s = Z.of_nat (base.size (records s));
  ops_linked : linked_within (op_pool s) POOL (fun o => is_Some (ops s !! o));
  ops_total : free_op_cnt s + using_op_cnt s = Z.of_nat (base.size (ops s));
}.

(** Taking the first object of a queue. *)
Lemma take_inv {A} (f : nic -> tailq) (g : tailq -> nic -> nic) (k : nat -> nicM A) s a s' :
  (do s <- mget;
   match TAILQ_FIRST POOL (f s) with
   | None => mexit
   | Some x => do q <- mres (TAILQ_REMOVE POOL x (f s)); mput (g q s);;; k x
   end) s = Ret (a, s') ->
  exists x q, TAILQ_FIRST POOL (f s) = Some x /\ TAILQ_REMOVE POOL x (f s) = Ret q /\ k x (g q s) = Ret (a, s').
Proof.
  intros (? & ? & [= <- <-] & E)%bind_inv. case_match eqn:Ef; [|done].
  apply bind_inv in E as (q & ? & [Hq ->]%mres_inv & E). apply bind_inv in E as (? & ? & [= _ <-] & E). by eauto.
Qed.
(** Returning an object to a queue and storing the new queue. *)
Lemma release_inv (f : nic -> tailq) x (g : tailq -> nic -> nic) s s' :
  (do s <- mget; do q <- mres (release POOL x (f s)); mput (g q s)) s = Ret (tt, s') ->
  exists q, TAILQ_INSERT_TAIL POOL x (f s) = Ret q /\ s' = g q s.
Proof.
  intros (? & ? & [= <- <-] & (q & ? & [Hq ->]%mres_inv & [= <-])%bind_inv)%bind_inv.
  rewrite release_insert in Hq. by eauto.
Qed.

Lemma NoDup_snoc {A} (x : A) l : NoDup l -> x ∉ l -> NoDup (l ++ [x]).
Proof. intros Hl Hx. apply NoDup_app. split; [done|]. split; [set_solver|]. apply NoDup_singleton. Qed.

(** Writing an object that is there keeps the domain. *)
Lemma size_insert_present {A} (m : gmap nat A) i a : is_Some (m !! i) -> base.size (<[i:=a]> m) = base.size m.
Proof. intros [b Hb]. by rewrite map_size_insert, Hb. Qed.
Lemma present_insert {A} (m : gmap nat A) i j a : is_Some (m !! j) -> is_Some (<[i:=a]> m !! j).
Proof. intros H. by rewrite lookup_insert_is_Some'; right. Qed.

Section pools.
Implicit Types (s : nic).

(** The crypto operations when they succeed. *)
Lemma new_op_run s op rest : tq_rep (op_pool s) POOL (op :: rest) ->
  exists q, new_ssl_crypto_op s = Ret (op, s <| op_pool := q |> <| free_op_cnt ::= Z.pred |>
                                   <| using_op_cnt ::= Z.succ |>) /\ tq_rep q POOL rest.
Proof.
  intros (E & q & Eq & Hq)%remove_first_rep. exists q. split; [|done].
  unfold new_ssl_crypto_op, bind, mget, mres. by rewrite E, Eq.
Qed.
Lemma delete_op_run s op o l : ops s !! op = Some o -> tq_rep (op_pool s) POOL l -> (op ∉ l) ->
  exists q, delete_op op s = Ret (tt, s <| ops ::= insert op op0 |> <| op_pool := q |>
                              <| free_op_cnt ::= Z.succ |> <| using_op_cnt ::= Z.pred |>) /\
    tq_rep q POOL (l ++ [op]).
Proof.
  intros E Hr Hn. destruct (insert_tail_rep _ _ _ op Hr Hn) as (q & Eq & Hq). exists q. split; [|done].
  unfold delete_op. erewrite bind_ret by (by apply mod_op_run).
  unfold bind, mget, mres, mput. rewrite release_insert. simpl. by rewrite Eq.
Qed.

Lemma pools_conn i f : preserves pools_ok (mod_conn i f).
Proof.
  intros s ? s' Hp (c & s1 & H & E)%bind_inv. unfold get_conn in H. case_match; [|done].
  injection H as <- <-. injection E as _ <-. destruct Hp. by split.
Qed.
Lemma pools_get_conn i : preserves pools_ok (get_conn i).
Proof. intros s ? s' Hp H. unfold get_conn in H. case_match; [|done]. by injection H as _ <-. Qed.
Lemma pools_get_sess i : preserves pools_ok (get_sess i).
Proof. intros s ? s' Hp H. unfold get_sess in H. case_match; [|done]. by injection H as _ <-. Qed.
Lemma pools_get_rec i : preserves pools_ok (get_rec i).
Proof. intros s ? s' Hp H. unfold get_rec in H. case_match; [|done]. by injection H as _ <-. Qed.
Lemma pools_get_op i : preserves pools_ok (get_op i).
Proof. intros s ? s' Hp H. unfold get_op in H. case_match; [|done]. by injection H as _ <-. Qed.
Lemma pools_sess i f : preserves pools_ok (mod_sess i f).
Proof.
  intros s ? s' Hp (c & s1 & H & E)%bind_inv. unfold get_sess in H. case_match; [|done].
  injection H as <- <-. injection E as _ <-. destruct Hp. by split.
Qed.
Lemma pools_rec i f : preserves pools_ok (mod_rec i f).
Proof.
  intros s ? s' Hp (c & s1 & H & E)%bind_inv. unfold get_rec in H. case_match eqn:Hr; [|done].
  injection H as <- <-. injection E as _ <-. destruct Hp as [Hl ? ? ?]. split; simpl; try done.
  - eapply linked_mono; [|exact Hl]. intros r'. apply present_insert.
  - by rewrite size_insert_present by eauto.
Qed.
Lemma pools_op i f : preserves pools_ok (mod_op i f).
Proof.
  intros s ? s' Hp (c & s1 & H & E)%bind_inv. unfold get_op in H. case_match eqn:Hr; [|done].
  injection H as <- <-. injection E as _ <-. destruct Hp as [? ? Hl ?]. split; simpl; try done.
  - eapply linked_mono; [|exact Hl]. intros r'. apply present_insert.
  - by rewrite size_insert_present by eauto.
Qed.
Lemma pools_transmit b : preserves pools_ok (transmit b).
Proof. apply pres_mod. intros s []. by split. Qed.
Lemma pools_rand `{Platform} : preserves pools_ok next_rand.
Proof. intros s ? s' Hp E. injection E as _ <-. destruct Hp. by split. Qed.

(** Releasing a record. *)
Lemma delete_record_run s sess r rc :
  records s !! r = Some rc -> forall x, sessions s !! sess = Some x -> forall q, TAILQ_INSERT_TAIL POOL r (record_pool s) = Ret q ->
  exists s', delete_record sess r s = Ret (tt, s') /\ record_pool s' = q /\
    is_Some (records s' !! r) /\ op_pool s' = op_pool s /\
    sessions s' !! sess = Some (x <| num_current_records ::= fun n => u16 (n - 1) |>).
Proof.
  intros Hr x Hx q Eq. unfold delete_record, release_record. rewrite !bind_assoc.
  erewrite bind_ret by (by apply mod_rec_run). unfold bind, mget, mres, mput. rewrite release_insert. simpl.
  rewrite Eq. erewrite mod_sess_run by (simpl; exact Hx).
  eexists. split; [reflexivity|]. simpl. rewrite !lookup_insert_eq. by split_and!.
Qed.
(** The first operation of a sound pool exists and is not further on. *)
Lemma first_op s op rest : pools_ok s -> tq_rep (op_pool s) POOL (op :: rest) ->
  exists o, ops s !! op = Some o /\ (op ∉ rest).
Proof.
  intros [_ _ Hl _] [Hn (E & _) _]. destruct (lw_points _ _ _ Hl op) as [[o Ho] _]; [left; by exists POOL|].
  exists o. split; [done|]. by apply NoDup_cons in Hn as [? _].
Qed.
End pools.
#[export] Hint Resolve pools_conn pools_get_conn pools_get_sess pools_get_rec pools_get_op
  pools_sess pools_rec pools_op pools_transmit pools_rand : pres.

Lemma pools_new_op : preserves pools_ok new_ssl_crypto_op.
Proof.
  intros s o s' [? ? Hl Ht] (x & q & Ef & Eq & [= <- <-])%(take_inv op_pool (fun q s => s <| op_pool := q |>
    <| free_op_cnt ::= Z.pred |> <| using_op_cnt ::= Z.succ |>) ret).
  destruct (linked_remove _ _ _ _ Hl Ef) as (q' & Eq' & Hq). same_ret. split; simpl; try done.
  lia.
Qed.
Lemma pools_delete_op op : preserves pools_ok (delete_op op).
Proof.
  intros s [] s' Hp (? & s1 & Hm & E)%bind_inv.
  assert (is_Some (ops s1 !! op)) as Hop.
  { apply bind_inv in Hm as (? & ? & Hg & Hm). injection Hm as _ <-. simpl.
    apply lookup_insert_is_Some'. by left. }
  apply pools_op in Hm as [? ? Hl Ht]; [|done]. apply release_inv in E as (q & Hq & ->).
  destruct (linked_insert _ _ _ _ Hl Hop) as (q' & Eq' & Hq'). same_ret. split; simpl; try done. lia.
Qed.
Lemma pools_take sess seq b : preserves pools_ok (take_record sess seq b).
Proof.
  unfold take_record. apply pres_bind; [auto with pres|]. intros _ s r s' [Hl Ht ? ?].
  intros (x & q & Ef & Eq & E)%(take_inv record_pool (fun q s => s <| record_pool := q |>
    <| free_record_cnt ::= Z.pred |> <| using_record_cnt ::= Z.succ |>)).
  destruct (linked_remove _ _ _ _ Hl Ef) as (q' & Eq' & Hq). same_ret.
  refine ((_ : preserves pools_ok _) _ _ _ _ E); [pres|]. split; simpl; try done. lia.
Qed.
Lemma pools_release r : preserves pools_ok (release_record r).
Proof.
  intros s [] s' Hp (? & s1 & Hm & E)%bind_inv.
  assert (is_Some (records s1 !! r)) as Hop.
  { apply bind_inv in Hm as (? & ? & Hg & Hm). injection Hm as _ <-. simpl.
    apply lookup_insert_is_Some'. by left. }
  apply pools_rec in Hm as [Hl Ht ? ?]; [|done]. apply release_inv in E as (q & Hq & ->).
  destruct (linked_insert _ _ _ _ Hl Hop) as (q' & Eq' & Hq'). same_ret. split; simpl; try done. lia.
Qed.
Lemma pools_cnt f : preserves pools_ok (mmod (fun s => s <| cur_crypto_cnt ::= f |>)).
Proof. apply pres_mod. intros s []. by split. Qed.
#[export] Hint Resolve pools_new_op pools_delete_op pools_take pools_release pools_cnt : pres.

Lemma pools_recv sess : preserves pools_ok (new_recv_record sess).
Proof. apply pools_take. Qed.
Lemma pools_send sess : preserves pools_ok (new_send_record sess).
Proof. unfold new_send_record. pres. Qed.
Lemma pools_delete_record sess r : preserves pools_ok (delete_record sess r).
Proof. unfold delete_record. pres. Qed.
Lemma pools_store sess r : preserves pools_ok (store_handshake sess r).
Proof. unfold store_handshake. pres. Qed.
#[export] Hint Resolve pools_recv pools_send pools_delete_record pools_store : pres.
Lemma pools_remove_pending sess : preserves pools_ok (remove_pending_pka_op sess).
Proof. unfold remove_pending_pka_op. pres. Qed.
#[export] Hint Resolve pools_remove_pending : pres.
