(* ===== verification/TcpOut.v ===== *)
(** * Connections and outgoing packets (tcp.c, host.c)

    The TCP layer of a worker core, up to the handlers of received packets:
    sequence numbers, SYN cookies, taking a connection from the free queue,
    finding and giving back one, and building the packets the SmartNIC sends
    to the client (SYN-ACK, data segments, resets) and to the host (the meta
    packets that migrate a connection).

    [wf] is the invariant of the connection tables: the hash table represents
    a map from flows to connections, the counters count, and each connection
    is either free or live, never both. The ring of connections waiting for
    the deletion of a flow rule is empty: in this build nothing is put in. *)

From S2P Require Import Prelude TailQ Ring FlowTable Operand ClientHello NicState SslPools.

(** ** Sequence numbers (ssloff.h) *)

Definition SEQ_LT (a b : Z) : bool := s32 (a - b) <? 0.
Definition SEQ_LEQ (a b : Z) : bool := s32 (a - b) <=? 0.
Definition SEQ_GT (a b : Z) : bool := 0 <? s32 (a - b).
Definition SEQ_GEQ (a b : Z) : bool := 0 <=? s32 (a - b).

(** ** SYN cookies *)

Definition update_cookie : nicM unit := mmod (fun s =>
  if t_minor s =? 63 then
    if t_major s =? 31 then s <| t_major := 0 |> <| t_minor := 0 |>
    else s <| t_major ::= fun n => u8 (n + 1) |> <| t_minor := 0 |>
  else s <| t_minor ::= fun n => u8 (n + 1) |>).

Section out.
Context `{Platform}.

Definition get_cookie (major : Z) (client_ip client_port server_ip server_port : Z) : Z :=
  let cookie := u32 (u32 (Z.shiftl major 3) + 3) in
  let input := le_bytes 4 client_ip ++ le_bytes 4 server_ip ++
               le_bytes 4 (Z.lor client_port (u32 (Z.shiftl server_port 16))) in
  let hash := SHA1 input in
  let cookie := u32 (u32 (Z.shiftl cookie 8) + rd8 hash 0) in
  let cookie := u32 (u32 (Z.shiftl cookie 8) + rd8 hash 1) in
  u32 (u32 (Z.shiftl cookie 8) + rd8 hash 2).

(** ** Clearing *)

Definition clear_tcp_connection (c : tcp_connection) : tcp_connection :=
  c <| c_state := TCP_SESSION_IDLE |> <| portid := 0 |> <| ip_id := 0 |>
    <| c_flow := flow0 |> <| onload := false |> <| window := 0 |> <| total_sent := 0 |>
    <| last_recv_seq := 0 |> <| last_recv_ack := 0 |> <| last_recv_len := 0 |>
    <| last_sent_seq := 0 |> <| last_sent_ack := 0 |> <| last_sent_len := 0 |>
    <| recv_mig_fin := false |> <| hws_inserted := false |> <| hws_applied := false |>
    <| hws_ready_to_del := false |> <| hws_deleted := false |>
    <| c_pending_syn := pending_syn0 |> <| need_to_send_rst_meta := false |>
    <| pending_app_data_len := 0 |>.

(** The loop of [clear_ssl_session] over the receive queue; a turn per record
    is enough for a sound queue ([drain_run]). *)
Fixpoint drain_recv_q (fuel sess : nat) (cur : option nat) : nicM unit :=
  match cur with
  | None => ret tt
  | Some cur =>
      match fuel with
      | O => mfault Prelude.Out_of_fuel
      | S fuel' =>
          do s <- mget;
          let next := TAILQ_NEXT cur (recv_qs s) in
          do q <- mres (TAILQ_REMOVE sess cur (recv_qs s));
          mmod (fun s => s <| recv_qs := q |>);;;
          release_record cur;;;
          drain_recv_q fuel' sess next
      end
  end.

(** [memset(sess->meta_hdr, 0, sizeof(sess->meta_hdr))] clears the size of a
    pointer. *)
Definition clear_ssl_session (sess : nat) : nicM unit :=
  mod_sess sess (fun x => x
    <| s_state := STATE_INIT |> <| handshake_state := HELLO_REQUEST |>
    <| current_read_record := None |> <| version := mk_version 0 0 |>
    <| recv_seq_num_ := 0 |> <| send_seq_num_ := 0 |> <| handshake_msgs := [] |>
    <| client_write_MAC_secret := key0 |> <| server_write_MAC_secret := key0 |>
    <| client_write_key := key0 |> <| server_write_key := key0 |>
    <| client_write_IV := key0 |> <| server_write_IV := key0 |>
    <| client_write_IV_seq_num := 0 |> <| server_write_IV_seq_num := 0 |>
    <| tls13 := tls13_ctx0 |> <| meta_hdr ::= fun m => wr m 0 (zeros 8) |>);;;
  do r <- next_rand;
  mod_sess sess (fun x => x
    <| rand_seed := r |> <| send_buffer := [] |> <| send_buffer_offset := 0 |>
    <| read_sp := security_params0 |> <| write_sp := security_params0 |>
    <| pending_sp := security_params0 |>);;;
  do x <- get_sess sess;
  do res <- mres (clear_results (pka_results x));
  mod_sess sess (fun x => x
    <| pka_results := res |> <| waiting_crypto := false |> <| completed_crypto := false |>);;;
  remove_pending_pka_op sess;;;
  do s <- mget;
  drain_recv_q (base.size (records s)) sess (TAILQ_FIRST sess (recv_qs s));;;
  mod_sess sess (fun x => x
    <| num_current_records := 0 |> <| recv_q_cnt := 0 |> <| waiting_crypto := false |>
    <| num_cke_retransmitted := 0 |> <| tls13 := tls13_ctx0 |>
    <| id_ := init_random (rand_seed x) 32 |>
    <| num_of_retransmitted_ch := 0 |> <| num_of_retransmitted_meta_pkt := 0 |>).

(** ** The tables of connections *)

Definition pop_free_connection : nicM nat :=
  do s <- mget;
  match free_session_q s with
  | [] => mexit
  | target :: rest =>
      mput (s <| free_session_q := rest |> <| free_cnt ::= Z.pred |>);;; ret target
  end.

Definition search_tcp_connection (f : flow) : nicM (option nat) :=
  do s <- mget;
  mres (ht_search (key_of (conns s)) (idle (conns s)) (active_session_table s) f).

(** The fields [insert_tcp_connection] sets. *)
Definition fill_connection (major port : Z) (client_mac_ server_mac_ : bytes) (f : flow)
    (seq_no window_ payload_len : Z) (c : tcp_connection) : tcp_connection :=
  let k := get_cookie major (client_ip f) (client_port f) (server_ip f) (server_port f) in
  c <| client_mac := client_mac_ |> <| server_mac := server_mac_ |>
    <| c_state := TCP_SESSION_RECEIVED |> <| portid := port |> <| c_flow := f |>
    <| cookie := k |> <| last_recv_ack := u32 (k + 1) |> <| last_recv_seq := u32 (seq_no + 1) |>
    <| last_recv_len := payload_len |> <| last_sent_ack := u32 (seq_no + 1) |>
    <| last_sent_seq := k |> <| last_sent_len := 0 |> <| window := window_ |> <| ip_id := 1 |>.

Definition insert_tcp_connection (port : Z) (client_mac_ : bytes) (f : flow) (server_mac_ : bytes)
    (seq_no window_ payload_len : Z) : nicM nat :=
  do target <- pop_free_connection;
  do c <- get_conn target;
  massert (bool_decide (c_state c = TCP_SESSION_IDLE));;;
  do s <- mget;
  put_conn target
    (fill_connection (t_major s) port client_mac_ server_mac_ f seq_no window_ payload_len c);;;
  do s <- mget;
  do ht <- mres (ht_insert (key_of (conns s)) (active_session_table s) target);
  mmod (fun s => s <| active_session_table := ht |> <| active_cnt ::= Z.succ |>);;;
  ret target.

Definition remove_session (sess : nat) : nicM unit :=
  do s <- mget;
  massert (0 <? active_cnt s);;;
  do ht <- mres (ht_remove (key_of (conns s)) (active_session_table s) sess);
  mmod (fun s => s <| active_session_table := ht |> <| active_cnt ::= Z.pred |>);;;
  clear_ssl_session sess;;;
  mod_conn sess clear_tcp_connection;;;
  mmod (fun s => s <| free_session_q ::= (fun q => q ++ [sess]) |> <| free_cnt ::= Z.succ |>).

(** ** Packets to the client *)

(** The headers of a segment sent for a connection; [len] is its payload. *)
Definition conn_packet (c : tcp_connection) (flags seq ack len : Z) (payload : bytes) : packet :=
  mk_packet
    (mk_ether_hdr (client_mac c) (server_mac c) (htons RTE_ETHER_TYPE_IPV4))
    (mk_ipv4_hdr 0x45 0x00 (htons (u16 (IP_HEADER_LEN + TCP_HEADER_LEN + len))) (htons (ip_id c))
       (htons 0x4000) 0x40 IPPROTO_TCP (server_ip (c_flow c)) (client_ip (c_flow c)))
    (mk_tcp_hdr (server_port (c_flow c)) (client_port (c_flow c)) (htonl seq) (htonl ack)
       (Z.shiftl (Z.shiftr TCP_HEADER_LEN 2) 4) flags (htons 8192))
    payload.

Definition MSS : Z := MAX_PKT_SIZE - IP_HEADER_LEN - TCP_HEADER_LEN.

(** The acknowledgement number of [send_tcp_packet]. *)
Definition recv_ack_of (c : tcp_connection) (st : ssl_session_state) : Z :=
  let a := u32 (last_recv_seq c + last_recv_len c) in
  if bool_decide (st = STATE_ACTIVE) && (126 <? last_recv_len c) then u32 (a - 126) else a.

(** One turn of the loop of [send_tcp_packet]. *)
Definition send_segment (i : nat) (payload : bytes) (flags already byte_to_send : Z) : nicM unit :=
  do c <- get_conn i;
  do x <- get_sess i;
  let ack := recv_ack_of c (s_state x) in
  let seq := u32 (last_recv_ack c + already) in
  transmit (TxTcp (portid c) (conn_packet c flags seq ack byte_to_send
    (rdn (Z.to_nat byte_to_send) payload (Z.to_nat already))));;;
  put_conn i (c <| ip_id := u16 (ip_id c + 1) |> <| last_sent_seq := seq |>
    <| last_sent_ack := ack |> <| last_sent_len := byte_to_send |>
    <| total_sent := u32 (total_sent c + byte_to_send) |> <| c_state := TCP_SESSION_SENT |>).

(** [do { ... } while (left_to_send > 0)]. *)
Fixpoint send_loop (fuel : nat) (i : nat) (payload : bytes) (flags left already : Z) : nicM unit :=
  let byte_to_send := Z.min left MSS in
  send_segment i payload flags already byte_to_send;;;
  let left := left - byte_to_send in
  if left <=? 0 then ret tt else
  match fuel with
  | O => mfault Out_of_fuel
  | S fuel' => send_loop fuel' i payload flags left (already + byte_to_send)
  end.

(** A 16-bit length needs at most 45 segments. *)
Definition send_tcp_packet (i : nat) (payload : bytes) (payload_len flags : Z) : nicM Z :=
  send_loop 45 i payload flags (u16 payload_len) 0;;; ret 0.

Definition abort_session (sess : nat) : nicM Z :=
  do r <- send_tcp_packet sess [] 0 (Z.lor TCP_FLAG_RST TCP_FLAG_ACK);
  if r <? 0 then ret (-1) else
  remove_session sess;;; ret 0.

(** The packet built by the two [send_synack_packet] functions. *)
Definition synack (p : packet) (option_ : bytes) (option_len cookie_ id : Z) : packet :=
  mk_packet
    (mk_ether_hdr (src_addr (ethh p)) (dst_addr (ethh p)) (ether_type (ethh p)))
    (mk_ipv4_hdr 0x45 0x00 (htons (u16 (IP_HEADER_LEN + TCP_HEADER_LEN + option_len))) id
       (htons 0x4000) 0x40 IPPROTO_TCP (ip_dst (iph p)) (ip_src (iph p)))
    (mk_tcp_hdr (dst_port (tcph p)) (src_port (tcph p)) (htonl cookie_)
       (htonl (u32 (ntohl (sent_seq (tcph p)) + 1)))
       (u8 (Z.shiftl (Z.shiftr (TCP_HEADER_LEN + option_len) 2) 4))
       (Z.lor TCP_FLAG_SYN TCP_FLAG_ACK) (rx_win (tcph p)))
    option_.

(** [option_len] is a 16-bit difference of pointers: a data offset under 5
    makes it huge and the copy leaves the buffers. *)
Definition option_len_of (data_off : Z) : Z := u16 (Z.shiftr (Z.land data_off 0xf0) 2 - TCP_HEADER_LEN).

Definition send_synack_packet (port : Z) (p : packet) (cookie_ : Z) : nicM Z :=
  let option_len := option_len_of (data_off (tcph p)) in
  do r <- next_rand;
  if 40 <? option_len then mfault Out_of_bounds else
  transmit (TxTcp port (synack p (rdn (Z.to_nat option_len) (tcp_data p) 0) option_len cookie_ (u16 r)));;;
  ret (TOTAL_HEADER_LEN + option_len).

Definition send_synack_packet_for_saved_new_syn (port : Z) (ps : pending_syn) (cookie_ : Z)
    : nicM Z :=
  do r <- next_rand;
  if 40 <? ps_option_len ps then mfault Out_of_bounds else
  transmit (TxTcp port (synack (mk_packet (ps_ethh ps) (ps_iph ps) (ps_tcph ps) [])
    (rdn (Z.to_nat (ps_option_len ps)) (ps_options ps) 0) (ps_option_len ps) cookie_ (u16 r)));;;
  ret (TOTAL_HEADER_LEN + ps_option_len ps).

Definition send_raw_reset (port : Z) (hw_src hw_dst : bytes) (ip_src_ ip_dst_ tcp_src tcp_dst seq ack : Z)
    : nicM Z :=
  transmit (TxTcp port (mk_packet
    (mk_ether_hdr hw_dst hw_src (htons RTE_ETHER_TYPE_IPV4))
    (mk_ipv4_hdr 69 0 (htons (IP_HEADER_LEN + TCP_HEADER_LEN)) (htons 0xffff) (htons 0x4000) 64
       IPPROTO_TCP ip_src_ ip_dst_)
    (mk_tcp_hdr tcp_src tcp_dst (htonl seq) (htonl ack) (Z.shiftl (Z.shiftr TCP_HEADER_LEN 2) 4)
       (Z.lor TCP_FLAG_RST TCP_FLAG_ACK) (htons 8192)) []));;;
  ret 0.
End out.

(** ** The invariant

    [wf_map m o s]: the state's tables represent the map [m] of live
    connections; [o] is a connection in transit, neither free nor live. *)

Record wf_map (m : gmap flow nat) (o : option nat) (s : nic) : Prop := mk_wf_map {
  wf_table : table_rep (key_of (conns s)) (active_session_table s) m;
  wf_active_cnt : active_cnt s = Z.of_nat (base.size m);
  wf_free_cnt : free_cnt s = Z.of_nat (length (free_session_q s));
  wf_nodup : NoDup (free_session_q s);
  wf_live : forall k i, m !! k = Some i -> idle (conns s) i = false /\ (i ∉ free_session_q s);
  wf_free : forall i, i ∈ free_session_q s -> is_Some (conns s !! i);
  wf_transit : forall i, o = Some i ->
    is_Some (conns s !! i) /\ (i ∉ free_session_q s) /\ (forall k, m !! k <> Some i);
  wf_cover : forall i, is_Some (conns s !! i) ->
    (i ∈ free_session_q s) \/ (exists k, m !! k = Some i) \/ o = Some i;
  wf_dom : dom (sessions s) = dom (conns s);
  wf_ring : head (waiting_hws_del_ring s) = tail (waiting_hws_del_ring s);
}.

Definition wf (s : nic) : Prop := exists m, wf_map m None s.

(** States that agree on what [wf_map] reads. *)
Definition same_tables (s s' : nic) : Prop :=
  conns s' = conns s /\ active_session_table s' = active_session_table s /\
  active_cnt s' = active_cnt s /\ free_session_q s' = free_session_q s /\
  free_cnt s' = free_cnt s /\ dom (sessions s') = dom (sessions s) /\
  waiting_hws_del_ring s' = waiting_hws_del_ring s.

Lemma wf_same s s' m o : same_tables s s' -> wf_map m o s -> wf_map m o s'.
Proof.
  intros (Ec & Et & Ea & Eq & Ef & Ed & Er) [].
  split; rewrite ?Ec, ?Et, ?Ea, ?Eq, ?Ef, ?Ed, ?Er; done.
Qed.

(** Properties of the state that only read the tables: the operations on
    sessions, records and crypto operations keep all of them. *)
Class Framed (W : nic -> Prop) : Prop :=
  framed : forall s s', same_tables s s' -> W s -> W s'.
#[export] Instance wf_framed m o : Framed (wf_map m o).
Proof. intros s s'. apply wf_same. Qed.
#[export] Instance same_framed s0 : Framed (same_tables s0).
Proof.
  intros s s' (A1 & A2 & A3 & A4 & A5 & A6 & A7) (B1 & B2 & B3 & B4 & B5 & B6 & B7).
  repeat split; congruence.
Qed.

(** Changing one connection. *)
Lemma wf_put_conn s m o i c c' :
  wf_map m o s -> conns s !! i = Some c ->
  (o = Some i \/ c_flow c' = c_flow c /\ (c_state c' = TCP_SESSION_IDLE -> c_state c = TCP_SESSION_IDLE)) ->
  wf_map m o (s <| conns ::= insert i c' |>).
Proof.
  intros [] Hc Hf. split; simpl; try done.
  - eapply table_rep_ext; [|done]. intros k x Hm. unfold key_of.
    destruct (decide (x = i)) as [->|]; [|by rewrite lookup_insert_ne].
    rewrite lookup_insert_eq, Hc. simpl. f_equal. destruct Hf as [->|[Hf _]]; [|done].
    destruct (wf_transit0 i eq_refl) as (_ & _ & Hn). by destruct (Hn k).
  - intros k x Hm. destruct (wf_live0 k x Hm) as [Hi Hq]. split; [|done].
    unfold idle in *. destruct (decide (x = i)) as [->|]; [|by rewrite lookup_insert_ne].
    rewrite lookup_insert_eq. rewrite Hc in Hi. apply bool_decide_eq_false in Hi.
    apply bool_decide_eq_false. destruct Hf as [->|[_ Hf]]; [|by auto].
    destruct (wf_transit0 i eq_refl) as (_ & _ & Hn). by destruct (Hn k).
  - intros x Hx. apply lookup_insert_is_Some'. right. auto.
  - intros x Hx. destruct (wf_transit0 x Hx) as (? & ? & ?). split; [|done].
    apply lookup_insert_is_Some'. by right.
  - intros x [->|Hx]%lookup_insert_is_Some'; apply wf_cover0; [by eexists|done].
  - rewrite dom_insert_L, wf_dom0. assert (i ∈ dom (conns s)) by (by apply elem_of_dom_2 in Hc).
    set_solver.
Qed.

(** *** Operations that do not touch the tables *)

Lemma same_tables_refl s : same_tables s s.
Proof. by repeat split. Qed.

Ltac wf_frame := eapply framed; [|eassumption]; by repeat split.

Section frame.
Context (W : nic -> Prop) `{!Framed W}.

Lemma wf_get_conn i : preserves W (get_conn i).
Proof. intros s ? s' Hp E. unfold get_conn in E. case_match; [|done]. by injection E as _ <-. Qed.
Lemma wf_get_sess i : preserves W (get_sess i).
Proof. intros s ? s' Hp E. unfold get_sess in E. case_match; [|done]. by injection E as _ <-. Qed.
Lemma wf_get_rec i : preserves W (get_rec i).
Proof. intros s ? s' Hp E. unfold get_rec in E. case_match; [|done]. by injection E as _ <-. Qed.
Lemma wf_get_op i : preserves W (get_op i).
Proof. intros s ? s' Hp E. unfold get_op in E. case_match; [|done]. by injection E as _ <-. Qed.

Lemma wf_mod_sess i f : preserves W (mod_sess i f).
Proof.
  intros s ? s' Hp (x & s1 & E & E')%bind_inv. unfold get_sess in E. case_match eqn:Hx; [|done].
  injection E as <- <-. injection E' as _ <-. eapply framed; [|done]. repeat split. simpl.
  rewrite dom_insert_L. assert (i ∈ dom (sessions s)) by (by apply elem_of_dom_2 in Hx). set_solver.
Qed.
Lemma wf_mod_rec i f : preserves W (mod_rec i f).
Proof.
  intros s ? s' Hp (x & s1 & E & E')%bind_inv. unfold get_rec in E. case_match eqn:Hx; [|done].
  injection E as <- <-. injection E' as _ <-. wf_frame.
Qed.
Lemma wf_mod_op i f : preserves W (mod_op i f).
Proof.
  intros s ? s' Hp (x & s1 & E & E')%bind_inv. unfold get_op in E. case_match eqn:Hx; [|done].
  injection E as <- <-. injection E' as _ <-. wf_frame.
Qed.
(** A field update outside the tables. *)
Lemma wf_mmod f : (forall s, same_tables s (f s)) -> preserves W (mmod f).
Proof. intros Hf. apply pres_mod. intros s Hs. by eapply framed. Qed.
Lemma wf_transmit b : preserves W (transmit b).
Proof. apply wf_mmod. intros s. by repeat split. Qed.
Lemma wf_rand `{Platform} : preserves W next_rand.
Proof. intros s ? s' Hp E. injection E as _ <-. wf_frame. Qed.

Lemma wf_release (f : nic -> tailq) x (g : tailq -> nic -> nic) :
  (forall q s, same_tables s (g q s)) ->
  preserves W (do s <- mget; do q <- mres (release POOL x (f s)); mput (g q s)).
Proof. intros Hg s [] s' Hp (q & _ & ->)%release_inv. by eapply framed. Qed.

Lemma wf_new_op : preserves W new_ssl_crypto_op.
Proof.
  intros s o s' Hp (x & q & _ & _ & [= _ <-])%(take_inv op_pool (fun q s => s <| op_pool := q |>
    <| free_op_cnt ::= Z.pred |> <| using_op_cnt ::= Z.succ |>) ret). wf_frame.
Qed.
Lemma wf_delete_op i : preserves W (delete_op i).
Proof.
  apply pres_bind; [apply wf_mod_op|]. intros _. apply wf_release. intros. by repeat split.
Qed.
Lemma wf_release_record r : preserves W (release_record r).
Proof.
  apply pres_bind; [apply wf_mod_rec|]. intros _. apply wf_release. intros. by repeat split.
Qed.
End frame.

Lemma wf_mod_conn m o i f :
  (forall c, c_flow (f c) = c_flow c /\ (c_state (f c) = TCP_SESSION_IDLE -> c_state c = TCP_SESSION_IDLE)) ->
  preserves (wf_map m o) (mod_conn i f).
Proof.
  intros Hf s ? s' Hp (c & s1 & E & E')%bind_inv. unfold get_conn in E. case_match eqn:Hx; [|done].
  injection E as <- <-. injection E' as _ <-. eapply wf_put_conn; [done|done|]. right. apply Hf.
Qed.

#[export] Hint Resolve wf_get_conn wf_get_sess wf_get_rec wf_get_op wf_mod_sess wf_mod_rec wf_mod_op
  wf_transmit wf_rand wf_new_op wf_delete_op wf_release_record : pres.
#[export] Hint Extern 0 (Framed _) => apply _ : pres.
#[export] Hint Extern 1 (preserves _ (mmod _)) => (apply wf_mmod; [apply _|intros; by repeat split]) : pres.
#[export] Hint Extern 1 (preserves (wf_map _ _) (mod_conn _ _)) => (apply wf_mod_conn; done) : pres.

Section frame_ops.
Context (W : nic -> Prop) `{!Framed W}.

Lemma wf_take_record i seq b : preserves W (take_record i seq b).
Proof.
  apply pres_bind; [auto with pres|]. intros _ s r s' Hp.
  intros (x & q & _ & _ & E)%(take_inv record_pool (fun q s => s <| record_pool := q |>
    <| free_record_cnt ::= Z.pred |> <| using_record_cnt ::= Z.succ |>)).
  refine ((_ : preserves W _) _ _ _ _ E); [pres|wf_frame].
Qed.
Lemma wf_store i r : preserves W (store_handshake i r).
Proof. unfold store_handshake. pres. Qed.
Lemma wf_delete_record i r : preserves W (delete_record i r).
Proof. unfold delete_record. pres. Qed.
#[local] Hint Resolve wf_take_record wf_delete_record : pres.
Lemma wf_new_recv i : preserves W (new_recv_record i).
Proof. unfold new_recv_record. pres. Qed.
Lemma wf_new_send i : preserves W (new_send_record i).
Proof. unfold new_send_record. pres. Qed.
Lemma wf_remove_pending i : preserves W (remove_pending_pka_op i).
Proof. unfold remove_pending_pka_op. pres. Qed.
Lemma wf_drain fuel i c : preserves W (drain_recv_q fuel i c).
Proof. revert c. induction fuel as [|fuel IH]; intros [c|]; simpl; pres. Qed.
#[local] Hint Resolve wf_remove_pending wf_drain : pres.
Lemma wf_clear_ssl `{Platform} i : preserves W (clear_ssl_session i).
Proof. unfold clear_ssl_session. pres. Qed.

Lemma wf_synack `{Platform} port p k : preserves W (send_synack_packet port p k).
Proof. unfold send_synack_packet. pres. Qed.
Lemma wf_saved_synack `{Platform} port p k : preserves W (send_synack_packet_for_saved_new_syn port p k).
Proof. unfold send_synack_packet_for_saved_new_syn. pres. Qed.
Lemma wf_raw_reset port a b c d e f g h : preserves W (send_raw_reset port a b c d e f g h).
Proof. unfold send_raw_reset. pres. Qed.
Lemma wf_search f : preserves W (search_tcp_connection f).
Proof. unfold search_tcp_connection. pres. Qed.
End frame_ops.

Lemma wf_segment m o i payload flags a n : preserves (wf_map m o) (send_segment i payload flags a n).
Proof.
  intros s [] s' Hp (c & s1 & E & E1)%bind_inv. unfold get_conn in E.
  destruct (conns s !! i) as [c'|] eqn:Hc; [|done]. injection E as <- <-.
  apply bind_inv in E1 as (x & s2 & E & E1). unfold get_sess in E. case_match; [|done].
  injection E as <- <-. apply bind_inv in E1 as (? & s3 & E & E1).
  injection E as _ <-. injection E1 as <-.
  apply (wf_put_conn _ _ _ i c'); [wf_frame|done|]. by right.
Qed.
Lemma wf_send_loop m o fuel i payload flags l a : preserves (wf_map m o) (send_loop fuel i payload flags l a).
Proof.
  revert l a. induction fuel as [|n IH]; intros l a; simpl;
    (apply pres_bind; [apply wf_segment|intros _]); pres.
Qed.
Lemma wf_send_tcp m o i payload n flags : preserves (wf_map m o) (send_tcp_packet i payload n flags).
Proof. apply pres_bind; [apply wf_send_loop|pres]. Qed.
#[export] Hint Resolve wf_take_record wf_store wf_delete_record wf_new_recv wf_new_send
  wf_remove_pending wf_drain wf_clear_ssl wf_send_tcp wf_synack wf_saved_synack wf_raw_reset
  wf_search : pres.

(** *** Taking and giving back connections *)

Section tables.
Context `{Platform}.

Lemma pop_spec m s i s' : wf_map m None s -> pop_free_connection s = Ret (i, s') ->
  free_session_q s = i :: free_session_q s' /\ conns s' = conns s /\ wf_map m (Some i) s'.
Proof.
  intros [] E. unfold pop_free_connection in E. step_in E.
  destruct (free_session_q s) as [|t q] eqn:Eq; [done|]. injection E as <- <-.
  split; [done|]. split; [done|]. apply NoDup_cons in wf_nodup0 as [Ht Hq].
  simpl in wf_free_cnt0. split; simpl; try done.
  - lia.
  - intros k x Hm. destruct (wf_live0 k x Hm). set_solver.
  - intros x Hx. apply wf_free0. set_solver.
  - intros x [= <-]. split; [apply wf_free0; set_solver|]. split; [done|].
    intros k Hk. destruct (wf_live0 k t Hk). set_solver.
  - intros x Hx. destruct (wf_cover0 x Hx) as [[->|]%elem_of_cons|[|]]; auto. done.
Qed.

(** Entering a connection in transit under a fresh flow. *)
Lemma enter_spec m s i f c :
  wf_map m (Some i) s -> conns s !! i = Some c -> c_flow c = f ->
  c_state c <> TCP_SESSION_IDLE -> m !! f = None ->
  exists ht, ht_insert (key_of (conns s)) (active_session_table s) i = Ret ht /\
    wf_map (<[f := i]> m) None (s <| active_session_table := ht |> <| active_cnt ::= Z.succ |>).
Proof.
  intros [] Hc Hf Hst Hn.
  destruct (ht_insert_spec (key_of (conns s)) (active_session_table s) m i f) as (ht & Hi & Hr);
    [done|unfold key_of; by rewrite Hc, <-Hf|done|].
  destruct (wf_transit0 i eq_refl) as (_ & Hq & Hm). exists ht. split; [done|].
  split; simpl; try done.
  - rewrite map_size_insert_None by done. lia.
  - intros k x [[<- <-]|[_ Hk]]%lookup_insert_Some; [|by eauto]. split; [|done].
    unfold idle. rewrite Hc. by apply bool_decide_eq_false.
  - intros x Hx. destruct (wf_cover0 x Hx) as [?|[[k Hk]|[= <-]]]; [by left| |].
    + right. left. exists k. rewrite lookup_insert_ne; [done|]. congruence.
    + right. left. exists f. by rewrite lookup_insert_eq.
Qed.

Lemma insert_inv m s port cm f sm seq w pl i s' :
  wf_map m None s -> m !! f = None ->
  insert_tcp_connection port cm f sm seq w pl s = Ret (i, s') ->
  wf_map (<[f := i]> m) None s' /\ free_session_q s = i :: free_session_q s' /\
  exists c, conns s !! i = Some c /\
    conns s' = <[i := fill_connection (t_major s) port cm sm f seq w pl c]> (conns s).
Proof.
  intros Hw Hn (t & s1 & Hpop & E)%bind_inv.
  assert (t_major s1 = t_major s) as Hmaj.
  { unfold pop_free_connection in Hpop. step_in Hpop. case_match; [done|]. by injection Hpop as _ <-. }
  destruct (pop_spec _ _ _ _ Hw Hpop) as (Hq & Hc & Hw1).
  apply bind_inv in E as (c & s2 & E & E1). unfold get_conn in E.
  destruct (conns s1 !! t) as [c'|] eqn:Ht; [|done]. injection E as <- <-.
  apply bind_inv in E1 as (? & s3 & E & E1). unfold massert in E.
  destruct (bool_decide (c_state c' = _)); [|done]. injection E as _ <-. step_in E1.
  set (fc := fill_connection _ _ _ _ _ _ _ _ c') in *.
  destruct (enter_spec m (s1 <| conns ::= insert t fc |>) t f fc) as (ht & Hi & Hw2);
    [|by apply lookup_insert_eq|done|done|done|].
  { eapply wf_put_conn; [done|done|by left]. }
  unfold mres in E1. simpl in Hi. rewrite Hi in E1. injection E1 as <- <-.
  split; [exact Hw2|]. split; [done|]. exists c'. rewrite <-Hc. split; [done|].
  by rewrite <-Hmaj.
Qed.

Lemma insert_run m s port cm f sm seq w pl i q c :
  wf_map m None s -> m !! f = None -> free_session_q s = i :: q ->
  conns s !! i = Some c -> c_state c = TCP_SESSION_IDLE ->
  exists s', insert_tcp_connection port cm f sm seq w pl s = Ret (i, s') /\ rand_idx s' = rand_idx s
    /\ tx s' = tx s.
Proof.
  intros Hw Hn Hq Hc Hi. unfold insert_tcp_connection, pop_free_connection, get_conn, put_conn.
  step. rewrite Hq. simpl. rewrite Hc. simpl. rewrite bool_decide_true by done. simpl.
  destruct (pop_spec m s i (s <| free_session_q := q |> <| free_cnt ::= Z.pred |>) Hw)
    as (_ & _ & Hw1).
  { unfold pop_free_connection. step. by rewrite Hq. }
  set (fc := fill_connection _ _ _ _ _ _ _ _ _).
  destruct (enter_spec m (s <| free_session_q := q |> <| free_cnt ::= Z.pred |>
    <| conns ::= insert i fc |>) i f fc) as (ht & Hins & _);
    [|by apply lookup_insert_eq|done|done|done|].
  { eapply wf_put_conn; [done|done|by left]. }
  simpl in Hins. unfold mres. rewrite Hins. by eauto.
Qed.

Lemma detach_spec m s i k ht :
  wf_map m None s -> key_of (conns s) i = Some k ->
  ht_remove (key_of (conns s)) (active_session_table s) i = Ret ht ->
  m !! k = Some i /\
  wf_map (delete k m) (Some i) (s <| active_session_table := ht |> <| active_cnt ::= Z.pred |>).
Proof.
  intros [] Hk Hr.
  assert (m !! k = Some i) as Hm.
  { unfold ht_remove in Hr. rewrite Hk in Hr. case_match eqn:Hb; [|done].
    case_decide; [|done]. by apply (rep_member (key_of (conns s)) (active_session_table s) m i k l). }
  split; [done|].
  destruct (ht_remove_spec (key_of (conns s)) (active_session_table s) m i k) as (ht' & Hr' & Hrep);
    [done..|]. rewrite Hr in Hr'. injection Hr' as <-.
  pose proof (map_size_ne_0_lookup_2 m k (mk_is_Some _ _ Hm)).
  destruct (wf_live0 k i Hm) as [Hid Hq].
  assert (is_Some (conns s !! i)) as Hs.
  { unfold key_of in Hk. by destruct (conns s !! i). }
  split; simpl; try done.
  - rewrite map_size_delete, Hm. lia.
  - intros k' x [_ Hx]%lookup_delete_Some. by eauto.
  - intros x [= <-]. split; [done|]. split; [done|].
    intros k' [Hne Hx]%lookup_delete_Some. apply Hne. exact (rep_inj (key_of (conns s)) _ m k k' i wf_table0 Hm Hx).
  - intros x Hx. destruct (wf_cover0 x Hx) as [?|[[k' Hk']|]]; [by left| |done].
    destruct (decide (k' = k)) as [->|Hne]; [right; right; congruence|].
    right. left. exists k'. by rewrite lookup_delete_ne.
Qed.

(** Back to the free queue. *)
Lemma free_spec m s i :
  wf_map m (Some i) s ->
  wf_map m None (s <| free_session_q ::= (fun q => q ++ [i]) |> <| free_cnt ::= Z.succ |>).
Proof.
  intros []. destruct (wf_transit0 i eq_refl) as (Hs & Hni & Hn).
  split; simpl; try done.
  - rewrite length_app. simpl. lia.
  - by apply NoDup_snoc.
  - intros k x Hk. destruct (wf_live0 k x Hk) as [Hid Hq]. split; [done|].
    intros [?| ->%list_elem_of_singleton]%elem_of_app; [done|]. by eapply Hn.
  - intros x [?| ->%list_elem_of_singleton]%elem_of_app; auto.
  - intros x Hx. destruct (wf_cover0 x Hx) as [?|[?|[= <-]]]; [left; set_solver|right; left; by eauto|left; set_solver].
Qed.

Lemma remove_inv m s i s' : wf_map m None s -> remove_session i s = Ret (tt, s') ->
  exists k, m !! k = Some i /\ wf_map (delete k m) None s'.
Proof.
  intros Hw (? & ? & [= <- <-] & E)%bind_inv.
  apply bind_inv in E as (? & s1 & Ha & E). unfold massert in Ha.
  destruct (0 <? active_cnt s); [|done]. injection Ha as _ <-.
  apply bind_inv in E as (ht & s1 & [Hr ->]%mres_inv & E).
  destruct (key_of (conns s) i) as [k|] eqn:Hk; [|unfold ht_remove in Hr; by rewrite Hk in Hr].
  destruct (detach_spec m s i k ht) as [Hm Hw1]; [done..|]. exists k. split; [done|].
  apply bind_inv in E as (? & s1 & [= _ <-] & E).
  apply bind_inv in E as (? & s2 & Hcl & E).
  apply (wf_clear_ssl (wf_map (delete k m) (Some i))) in Hcl; [|done].
  apply bind_inv in E as (? & s3 & Hmc & E).
  assert (wf_map (delete k m) (Some i) s3) as Hw3.
  { apply bind_inv in Hmc as (c & s4 & Hg & Hp). unfold get_conn in Hg.
    case_match eqn:Hc; [|done]. injection Hg as <- <-. injection Hp as _ <-.
    eapply wf_put_conn; [done|done|by left]. }
  injection E as <-. by apply free_spec.
Qed.
End tables.

(** Clearing a session without pending work. *)
Lemma clear_ssl_run `{Platform} i s x r :
  sessions s !! i = Some x -> clear_results (pka_results x) = Ret r ->
  pending_pka_op x = None -> pending_pka_op_1 x = None -> TAILQ_FIRST i (recv_qs s) = None ->
  exists s', clear_ssl_session i s = Ret (tt, s') /\ same_tables s s' /\ tx s' = tx s /\
    records s' = records s /\ record_pool s' = record_pool s /\ ops s' = ops s /\ op_pool s' = op_pool s /\
    free_record_cnt s' = free_record_cnt s /\ free_op_cnt s' = free_op_cnt s.
Proof.
  intros Hx Hr Hp Hp1 Hq. unfold clear_ssl_session.
  erewrite bind_ret by (by apply mod_sess_run). unfold bind at 1, next_rand.
  erewrite bind_ret by (apply mod_sess_run; simpl; apply lookup_insert_eq).
  erewrite bind_ret by (apply get_sess_run; simpl; apply lookup_insert_eq).
  erewrite bind_ret by (unfold mres; simpl; by rewrite Hr).
  erewrite bind_ret by (apply mod_sess_run; simpl; apply lookup_insert_eq).
  unfold remove_pending_pka_op at 1. 
  erewrite bind_ret.
  2: { erewrite bind_ret by (apply get_sess_run; simpl; apply lookup_insert_eq). simpl. rewrite Hp.
       unfold bind at 1, ret at 1.
       erewrite bind_ret by (apply get_sess_run; simpl; apply lookup_insert_eq). simpl. by rewrite Hp1. }
  unfold bind at 1, mget. simpl. rewrite Hq.
  erewrite bind_ret by (destruct (base.size (records s)); reflexivity). eexists. split; [apply mod_sess_run; simpl; apply lookup_insert_eq|].
  split; [|done]. repeat split. simpl. rewrite !dom_insert_L.
  assert (i ∈ dom (sessions s)) by (by apply elem_of_dom_2 in Hx). set_solver.
Qed.

(** The loop over a sound receive queue returns every record to the pool. *)
Lemma release_record_run s r rc l : records s !! r = Some rc -> tq_rep (record_pool s) POOL l -> r ∉ l ->
  exists s', release_record r s = Ret (tt, s') /\ tq_rep (record_pool s') POOL (l ++ [r]) /\
    recv_qs s' = clear_links r (recv_qs s) /\ dom (records s') = dom (records s).
Proof.
  intros E Hr Hn. destruct (insert_tail_rep _ _ _ r Hr Hn) as (q & Eq & Hq). eexists. split.
  - unfold release_record. erewrite bind_ret by (by apply mod_rec_run).
    unfold bind, mget, mres, mput. rewrite release_insert. simpl. by rewrite Eq.
  - simpl. split; [done|]. split; [done|]. rewrite dom_insert_L. apply elem_of_dom_2 in E. set_solver.
Qed.
Lemma drain_run fuel : forall i l lp s,
  tq_rep (recv_qs s) i l -> tq_rep (record_pool s) POOL lp -> NoDup (lp ++ l) ->
  (forall r, r ∈ l -> r ∈ dom (records s)) -> (length l <= fuel)%nat ->
  exists s', drain_recv_q fuel i (hd_error l) s = Ret (tt, s') /\ tq_rep (recv_qs s') i [] /\
    tq_rep (record_pool s') POOL (lp ++ l).
Proof.
  induction fuel as [|fuel IH]; intros i [|r l] lp s Hr Hp Hn Hd Hl; simpl in Hl; try lia;
    try (exists s; by rewrite app_nil_r).
  cbn [hd_error drain_recv_q]. unfold bind at 1, mget.
  assert (TAILQ_NEXT r (recv_qs s) = hd_error l) as Hnext.
  { destruct Hr as [_ (_ & _ & Hs) _]. destruct l; [exact Hs|exact (proj1 Hs)]. }
  destruct (remove_first_rep _ _ _ _ Hr) as (_ & q & Eq & Hq).
  erewrite bind_ret by (unfold mres; rewrite Eq; reflexivity).
  rewrite (bind_ret (mmod _) _ s tt (s <| recv_qs := q |>)) by reflexivity.
  apply NoDup_app in Hn as (Hn1 & Hn2 & [Hr' Hn3]%NoDup_cons).
  destruct (proj1 (elem_of_dom (records s) r) (Hd r ltac:(set_solver))) as [rc Erc].
  set (s0 := s <| recv_qs := q |>).
  destruct (release_record_run s0 r rc lp Erc Hp ltac:(set_solver)) as (s1 & E1 & Hp1 & Eq1 & Ed1).
  rewrite (bind_ret _ _ _ _ _ E1), Hnext.
  destruct (IH i l (lp ++ [r]) s1) as (s2 & E2 & Hq2 & Hp2); [|done| | |lia|].
  - rewrite Eq1. by apply clear_links_rep.
  - rewrite <-app_assoc. apply NoDup_app. split; [done|]. split; [done|]. by apply NoDup_cons.
  - intros x Hx. rewrite Ed1. apply Hd. set_solver.
  - exists s2. by rewrite <-app_assoc in Hp2.
Qed.

(** ** The pools are kept *)

Section out_pools.
Context `{Platform}.

Lemma pools_put_conn i c : preserves pools_ok (put_conn i c).
Proof. apply pres_mod. intros s []. by split. Qed.
#[local] Hint Extern 2 (preserves pools_ok (mmod _)) =>
  (apply pres_mod; intros ? []; by split) : pres.
Lemma pools_drain fuel i c : preserves pools_ok (drain_recv_q fuel i c).
Proof. revert c. induction fuel as [|fuel IH]; intros [c|]; simpl; pres. Qed.
#[local] Hint Resolve pools_put_conn pools_drain : pres.
Lemma pools_clear_ssl i : preserves pools_ok (clear_ssl_session i).
Proof. unfold clear_ssl_session. pres. Qed.
Lemma pools_send_loop fuel i payload flags l a : preserves pools_ok (send_loop fuel i payload flags l a).
Proof.
  revert l a. induction fuel as [|n IH]; intros l a; simpl; unfold send_segment; pres.
Qed.
#[local] Hint Resolve pools_clear_ssl pools_send_loop : pres.
Lemma pools_send_tcp i payload n flags : preserves pools_ok (send_tcp_packet i payload n flags).
Proof. unfold send_tcp_packet. pres. Qed.
Lemma pools_remove i : preserves pools_ok (remove_session i).
Proof. unfold remove_session. pres. Qed.
Lemma pools_synack port p k : preserves pools_ok (send_synack_packet port p k).
Proof. unfold send_synack_packet. pres. Qed.
Lemma pools_saved_synack port p k : preserves pools_ok (send_synack_packet_for_saved_new_syn port p k).
Proof. unfold send_synack_packet_for_saved_new_syn. pres. Qed.
Lemma pools_raw_reset port a b c d e f g h : preserves pools_ok (send_raw_reset port a b c d e f g h).
Proof. unfold send_raw_reset. pres. Qed.
Lemma pools_search f : preserves pools_ok (search_tcp_connection f).
Proof. unfold search_tcp_connection. pres. Qed.
Lemma pools_pop : preserves pools_ok pop_free_connection.
Proof.
  intros s i s' Hp E. unfold pop_free_connection in E. step_in E. case_match; [done|].
  injection E as _ <-. destruct Hp. by split.
Qed.
#[local] Hint Resolve pools_pop : pres.
Lemma pools_insert port cm f sm seq w pl : preserves pools_ok (insert_tcp_connection port cm f sm seq w pl).
Proof. unfold insert_tcp_connection. pres. Qed.
End out_pools.
#[export] Hint Resolve pools_put_conn pools_clear_ssl pools_send_tcp pools_remove pools_synack
  pools_saved_synack pools_raw_reset pools_search pools_insert : pres.
#[export] Hint Extern 2 (preserves pools_ok (mmod _)) =>
  (apply pres_mod; intros ? []; by split) : pres.

(** ** Segmentation *)

(** What [send_tcp_packet] promises of the segment at offset [off]. *)
Definition segment_ok (c : tcp_connection) (st : ssl_session_state) (flags off : Z) (p : packet) : Prop :=
  ntohl (sent_seq (tcph p)) = u32 (last_recv_ack c + off) /\
  ntohl (recv_ack (tcph p)) = recv_ack_of c st /\
  Z.of_nat (length (tcp_data p)) <= MSS /\
  ntohs (total_length (iph p)) = 40 + Z.of_nat (length (tcp_data p)) /\
  tcp_flags (tcph p) = flags /\
  mk_flow (ip_dst (iph p)) (ip_src (iph p)) (dst_port (tcph p)) (src_port (tcph p)) = c_flow c.

Lemma recv_ack_range c st : is_u32 (recv_ack_of c st).
Proof. unfold recv_ack_of, is_u32. case_match; apply u32_range. Qed.

Lemma conn_packet_ok c st flags off n payload :
  length payload = Z.to_nat n -> 0 <= n <= MSS ->
  segment_ok c st flags off (conn_packet c flags (u32 (last_recv_ack c + off)) (recv_ack_of c st) n payload).
Proof.
  intros Hl Hn. unfold segment_ok, conn_packet, MSS in *. simpl in *.
  rewrite bswap32_involutive by apply u32_range. rewrite bswap32_involutive by apply recv_ack_range.
  rewrite (u16_id (IP_HEADER_LEN + TCP_HEADER_LEN + n)) by (unfold is_u16, MAX_PKT_SIZE, IP_HEADER_LEN, TCP_HEADER_LEN in *; lia).
  rewrite bswap16_involutive by (unfold is_u16, MAX_PKT_SIZE, IP_HEADER_LEN, TCP_HEADER_LEN in *; lia).
  rewrite Hl, Z2Nat.id by lia. split; [done|]. split; [done|]. split; [lia|].
  split; [unfold IP_HEADER_LEN, TCP_HEADER_LEN; lia|]. split; [done|]. by destruct (c_flow c).
Qed.

(** What a segment leaves in the connection. *)
Definition after_segment (seq ack n : Z) (c : tcp_connection) : tcp_connection :=
  c <| ip_id := u16 (ip_id c + 1) |> <| last_sent_seq := seq |>
    <| last_sent_ack := ack |> <| last_sent_len := n |>
    <| total_sent := u32 (total_sent c + n) |> <| c_state := TCP_SESSION_SENT |>.

Lemma send_segment_run i payload flags already n s c x :
  conns s !! i = Some c -> sessions s !! i = Some x ->
  0 <= n <= MSS -> 0 <= already -> already + n <= Z.of_nat (length payload) ->
  exists pk s', send_segment i payload flags already n s = Ret (tt, s') /\
    conns s' !! i = Some (after_segment (u32 (last_recv_ack c + already)) (recv_ack_of c (s_state x)) n c) /\
    sessions s' !! i = Some x /\ tx s' = tx s ++ [TxTcp (portid c) pk] /\
    segment_ok c (s_state x) flags already pk /\
    tcp_data pk = take (Z.to_nat n) (drop (Z.to_nat already) payload).
Proof.
  intros Hc Hx Hn Ha Hl. unfold send_segment.
  erewrite bind_ret by (by apply get_conn_run). erewrite bind_ret by (by apply get_sess_run).
  eexists _, _. split; [reflexivity|]. split; [simpl; apply lookup_insert_eq|].
  split; [done|]. split; [reflexivity|].
  split; [apply conn_packet_ok; [by rewrite length_rdn|done]|]. apply rdn_slice. lia.
Qed.

Lemma send_loop_run i payload flags fuel : forall left already s c x,
  conns s !! i = Some c -> sessions s !! i = Some x ->
  0 <= left <= MSS * Z.of_nat (S fuel) -> 0 <= already -> already + left <= Z.of_nat (length payload) ->
  exists segs s', send_loop fuel i payload flags left already s = Ret (tt, s') /\
    tx s' = tx s ++ (TxTcp (portid c) <$> segs) /\ (0 < length segs)%nat /\
    concat (tcp_data <$> segs) = take (Z.to_nat left) (drop (Z.to_nat already) payload) /\
    forall j p, segs !! j = Some p -> segment_ok c (s_state x) flags (already + MSS * Z.of_nat j) p.
Proof.
  assert (MSS = 1460) as HM by reflexivity.
  induction fuel as [|fuel IH]; intros left already s c x Hc Hx Hl Ha Hp;
    cbn [send_loop]; set (b := Z.min left MSS);
    (destruct (send_segment_run i payload flags already b s c x)
      as (pk & s1 & E1 & Hc1 & Hx1 & Htx1 & Hok & Hd); [done|done|lia|lia|lia|]);
    erewrite bind_ret by exact E1;
    (destruct (Z.leb_spec (left - b) 0) as [Hle|Hgt];
      [exists [pk], s1; split; [reflexivity|]; split; [done|]; split; [simpl; lia|];
       split; [simpl; rewrite app_nil_r, Hd; by replace b with left by lia|];
       intros [|j] p E; [injection E as <-; by rewrite Z.mul_0_r, Z.add_0_r|done]|]).
  { exfalso. lia. }
  destruct (IH (left - b) (already + b) s1 _ x Hc1 Hx1) as (segs & s' & E & Htx & Hn & Hcat & Hseg);
    [lia|lia|lia|].
  exists (pk :: segs), s'. split; [exact E|]. split; [by rewrite Htx, Htx1, <-app_assoc|].
  split; [simpl; lia|]. split.
  { rewrite fmap_cons. cbn [concat]. rewrite Hcat, Hd. replace (Z.to_nat (already + b)) with (Z.to_nat already + Z.to_nat b)%nat by lia.
    rewrite <-drop_drop. replace (Z.to_nat left) with (Z.to_nat b + Z.to_nat (left - b))%nat by lia.
    apply take_take_drop. }
  intros [|j] p Ej; [injection Ej as <-; by rewrite Z.mul_0_r, Z.add_0_r|].
  apply Hseg in Ej. replace (already + MSS * Z.of_nat (S j)) with (already + b + MSS * Z.of_nat j) by lia.
  exact Ej.
Qed.

(** C28: [send_tcp_packet] returns 0 and queues one or more segments on the
    connection's port: each carries at most 1460 bytes, has the sequence
    number of its offset, the current acknowledgement and the flow of the
    connection, and together they carry exactly the payload in order. *)
Theorem send_tcp_packet_segments i payload n flags s c x :
  conns s !! i = Some c -> sessions s !! i = Some x ->
  is_u16 n -> n <= Z.of_nat (length payload) ->
  exists segs s', send_tcp_packet i payload n flags s = Ret (0, s') /\
    tx s' = tx s ++ (TxTcp (portid c) <$> segs) /\ (0 < length segs)%nat /\
    concat (tcp_data <$> segs) = take (Z.to_nat n) payload /\
    forall j p, segs !! j = Some p -> segment_ok c (s_state x) flags (MSS * Z.of_nat j) p.
Proof.
  intros Hc Hx Hn Hl. unfold is_u16 in Hn.
  destruct (send_loop_run i payload flags 45 n 0 s c x) as (segs & s' & E & Htx & Hs & Hcat & Hseg);
    [done|done|unfold MSS, MAX_PKT_SIZE, IP_HEADER_LEN, TCP_HEADER_LEN; lia|lia|lia|].
  exists segs, s'. unfold send_tcp_packet. rewrite u16_id by done.
  erewrite bind_ret by exact E. done.
Qed.

(** One established connection, to run the theorem on. *)
Definition sample_conn : tcp_connection := tcp_connection0
  <| c_state := TCP_SESSION_RECEIVED |> <| c_flow := mk_flow 0x0100000a 0x0200000a 0x5000 0xbb01 |>
  <| last_recv_ack := 0xfffffc00 |> <| last_recv_seq := 7 |> <| last_recv_len := 300 |>.
Definition sample_sess : ssl_session := @ssl_session0 sample_platform.
Definition sample_nic : nic :=
  mk_nic {[ 0%nat := sample_conn ]} {[ 0%nat := sample_sess ]} (create_ht NUM_BINS) 0 [] 0 ∅ tailq0 tailq0 0 0 ∅
    tailq0 0 0 false (mk_sj_ring 0 0 0 0 []) [] 0 0 (mk_sj_ring 0 0 0 0 []) 0 0 0%nat 0 [].

Lemma send_tcp_packet_segments_witness :
  exists segs s', send_tcp_packet 0 (replicate 3000 65) 3000 TCP_FLAG_ACK sample_nic = Ret (0, s') /\
    tx s' = [] ++ (TxTcp 0 <$> segs) /\ (0 < length segs)%nat /\
    concat (tcp_data <$> segs) = take 3000 (replicate 3000 65) /\
    forall j p, segs !! j = Some p ->
      segment_ok sample_conn STATE_INIT TCP_FLAG_ACK (MSS * Z.of_nat j) p.
Proof.
  apply (send_tcp_packet_segments 0 (replicate 3000 65) 3000 TCP_FLAG_ACK sample_nic sample_conn sample_sess);
    [reflexivity|reflexivity|unfold is_u16; lia|rewrite length_replicate; lia].
Defined.

(** The three segments of that run: offsets and lengths, across the wrap of
    the sequence number. *)
Example sample_segments :
  match send_tcp_packet 0 (replicate 3000 65) 3000 TCP_FLAG_ACK sample_nic with
  | Ret (_, s) => (fun b => match b with
                            | TxTcp _ p => (ntohl (sent_seq (tcph p)), length (tcp_data p))
                            | TxRaw _ _ => (0, 0%nat) end) <$> tx s
  | Fault _ => []
  end = [(0xfffffc00, 1460%nat); (436, 1460%nat); (1896, 80%nat)].
Proof. vm_compute. reflexivity. Qed.
