(* ===== verification/MetaOut.v ===== *)
(** * Meta packets to the host (host.c: [build_connection_meta]; tcp.c:
      [send_key_meta], [send_rst_conn_meta])

    When the server's flight is ready the SmartNIC sends the host one raw
    frame with the connection's addresses, sequence numbers and application
    keys. Its layout is [meta_hdr_t], packed, with [conn_meta_t] at offset 38;
    the offsets below are those of the C fields. *)

From S2P Require Import Prelude TailQ Ring FlowTable Operand ClientHello NicState.

Definition CONN_META_SIZE : nat := 788.
(** Offsets in [meta_hdr_t]. *)
Definition off_server_seq_num : nat := 4.
Definition off_server_ack_num : nat := 8.
Definition off_custom_eth_type : nat := 12.
Definition off_client_ip : nat := 26.
Definition off_server_ip : nat := 30.
Definition off_client_port : nat := 34.
Definition off_server_port : nat := 36.
Definition off_conn_meta : nat := 38.
(** Offsets in [conn_meta_t]. *)
Definition cm_session_id : nat := 0.
Definition cm_version : nat := 2.
Definition cm_bulk_cipher : nat := 4.
Definition cm_cipher_type : nat := 8.
Definition cm_mac_algorithm : nat := 12.
Definition cm_mac_key_size : nat := 16.
Definition cm_client_MAC : nat := 17.
Definition cm_server_MAC : nat := 145.
Definition cm_enc_key_size : nat := 273.
Definition cm_client_key : nat := 274.
Definition cm_server_key : nat := 402.
Definition cm_fixed_iv_length : nat := 530.
Definition cm_client_IV : nat := 531.
Definition cm_server_IV : nat := 659.

(** [memcpy(&meta->field, key, n)] of a [MAX_KEY_SIZE] array. *)
Definition put_key (off : nat) (key : bytes) (n : Z) (meta : bytes) : res bytes :=
  if Z.of_nat MAX_KEY_SIZE <? n then Fault Out_of_bounds
  else Ret (wr meta off (rdn (Z.to_nat n) key 0)).

Definition build_connection_meta (c : tcp_connection) (x : ssl_session) : res bytes :=
  let sp := write_sp x in
  let m := zeros CONN_META_SIZE in
  let m := wr m cm_session_id (le_bytes 2 (session_id c)) in
  let m := wr m cm_version [major (version x); minor (version x)] in
  let m := wr m cm_bulk_cipher (le_bytes 4 (bulk_cipher_algorithm sp)) in
  let m := wr m cm_cipher_type (le_bytes 4 (cipher_type sp)) in
  let m := wr m cm_mac_algorithm (le_bytes 4 (mac_algorithm sp)) in
  let m := wr m cm_mac_key_size [mac_key_size sp] in
  res_bind (put_key cm_client_MAC (client_write_MAC_secret x) (mac_key_size sp) m) (fun m =>
  res_bind (put_key cm_server_MAC (server_write_MAC_secret x) (mac_key_size sp) m) (fun m =>
  let m := wr m (cm_version + 1) [0x04] in
  let m := wr m cm_enc_key_size [enc_key_size sp] in
  res_bind (put_key cm_client_key (client_application_key (tls13 x)) (enc_key_size sp) m) (fun m =>
  res_bind (put_key cm_server_key (server_application_key (tls13 x)) (enc_key_size sp) m) (fun m =>
  let m := wr m cm_fixed_iv_length [fixed_iv_length sp] in
  res_bind (put_key cm_client_IV (client_application_iv (tls13 x)) (fixed_iv_length sp) m) (fun m =>
  put_key cm_server_IV (server_application_iv (tls13 x)) (fixed_iv_length sp) m))))).

(** [key_eth_types]. *)
Definition key_eth_types : list Z :=
  [0x0801; 0x0802; 0x0803; 0x0804; 0x0805; 0x0806; 0x0807; 0x0808;
   0x0809; 0x080A; 0x080B; 0x080C; 0x080D; 0x080E; 0x080F; 0x0810].
Definition RST_CONN_META_ETH_TYPE : Z := 0x08FF.

Section meta.
Context `{Platform}.

(** The header fields of [send_key_meta], written into [sess->meta_hdr]. *)
Definition fill_key_meta (c : tcp_connection) (x : ssl_session) (eth_type : Z) (m : bytes) : bytes :=
  let f := c_flow c in
  let m := wr m off_client_ip (le_bytes 4 (client_ip f)) in
  let m := wr m off_server_ip (le_bytes 4 (server_ip f)) in
  let m := wr m off_client_port (le_bytes 2 (client_port f)) in
  let m := wr m off_server_port (le_bytes 2 (server_port f)) in
  let m := wr m off_server_seq_num
    (le_bytes 4 (htonl (u32 (last_recv_ack c + send_buffer_offset x)))) in
  let m := wr m off_server_ack_num
    (le_bytes 4 (htonl (u32 (last_recv_seq c + last_recv_len c + 80)))) in
  wr m off_custom_eth_type (le_bytes 2 (htons eth_type)).

Definition send_key_meta (port : Z) (i : nat) : nicM Z :=
  do c <- get_conn i;
  do x <- get_sess i;
  (if host_threads_num =? 0 then mfault Undefined_value else ret tt);;;
  let idx := u16 (Z.rem (client_port (c_flow c)) host_threads_num) in
  do eth_type <- mres (match key_eth_types !! Z.to_nat idx with
                       | Some t => Ret t | None => Fault Out_of_bounds end);
  do cm <- mres (build_connection_meta c x);
  let m := wr (fill_key_meta c x eth_type (meta_hdr x)) off_conn_meta cm in
  mod_sess i (fun x => x <| meta_hdr := m |>);;;
  transmit (TxRaw port m);;;
  ret 0.

Definition fill_rst_meta (c : tcp_connection) (x : ssl_session) (m : bytes) : bytes :=
  let f := c_flow c in
  let m := wr m off_client_ip (le_bytes 4 (client_ip f)) in
  let m := wr m off_client_port (le_bytes 2 (client_port f)) in
  let m := wr m off_server_seq_num
    (le_bytes 4 (htonl (u32 (last_recv_ack c + send_buffer_offset x)))) in
  let m := wr m off_server_ack_num
    (le_bytes 4 (htonl (u32 (last_recv_seq c + last_recv_len c)))) in
  wr m off_custom_eth_type (le_bytes 2 (htons RST_CONN_META_ETH_TYPE)).

Definition send_rst_conn_meta (port : Z) (i : nat) : nicM Z :=
  do c <- get_conn i;
  do x <- get_sess i;
  do cm <- mres (build_connection_meta c x);
  let m := wr (fill_rst_meta c x (meta_hdr x)) off_conn_meta cm in
  mod_sess i (fun x => x <| meta_hdr := m |>);;;
  transmit (TxRaw port m);;;
  ret 0.
End meta.
