(* ===== verification/NicInit.v ===== *)
(** * Setting up a worker core (tcp.c: [thread_local_init], [msb_value])

    What a worker core ([core_id] other than 0) holds when its main loop
    starts: its connections with their sessions, all in the free queue, an
    empty hash table, three records and three crypto operations per
    connection, and its two rings. The buffers of DPDK, the OpenSSL contexts
    and the curve constants are allocated too; they are parameters of the
    model. *)

From S2P Require Import Prelude TailQ Ring FlowTable Operand ClientHello NicState SslPools TcpOut.

(** [msb_value]: the highest power of two not above [n]. *)
Fixpoint msb_shift (fuel : nat) (n x : Z) : Z :=
  match fuel with
  | O => x
  | S f => let n := Z.shiftr n 1 in if n =? 0 then x else msb_shift f n (Z.shiftl x 1)
  end.
Definition msb_value (n : Z) : Z := if n =? 0 then 0 else msb_shift 31 n 1.

Section init.
Context `{Platform}.

Definition no_ring : sj_ring nat := mk_sj_ring 0 0 0 0 [].
(** [calloc(1, sizeof(thread_context_t))], with its hash table. *)
Definition thread_context0 : nic :=
  mk_nic ∅ ∅ (create_ht NUM_BINS) 0 [] 0 ∅ (TAILQ_INIT POOL tailq0) tailq0 0 0
    ∅ (TAILQ_INIT POOL tailq0) 0 0 false no_ring [] 0 0 no_ring 0 0 0%nat 0 [].

(** One turn of the loop over the connections. *)
Definition init_connection (j : nat) : nicM unit :=
  mmod (fun s => s <| free_session_q ::= (fun q => q ++ [j]) |> <| free_cnt ::= Z.succ |>
    <| conns ::= insert j (clear_tcp_connection tcp_connection0 <| session_id := u16 (Z.of_nat j) |>) |>
    <| sessions ::= insert j ssl_session0 |> <| recv_qs ::= TAILQ_INIT j |>);;;
  clear_ssl_session j.

Definition init_record_ (j : nat) : nicM unit :=
  do s <- mget;
  do q <- mres (TAILQ_INSERT_TAIL POOL j (record_pool s));
  mmod (fun s => s <| records ::= insert j record0 |> <| record_pool := q |>
                   <| free_record_cnt ::= Z.succ |>).
Definition init_op (j : nat) : nicM unit :=
  do s <- mget;
  do q <- mres (TAILQ_INSERT_TAIL POOL j (op_pool s));
  mmod (fun s => s <| ops ::= insert j op0 |> <| op_pool := q |> <| free_op_cnt ::= Z.succ |>).

Fixpoint repeat_from (body : nat -> nicM unit) (n j : nat) : nicM unit :=
  match n with
  | O => ret tt
  | S n' => body j;;; repeat_from body n' (S j)
  end.

Definition thread_local_init (local_max_conn : nat) (local_ring_cnt : Z) : res nic :=
  match (repeat_from init_connection local_max_conn 0;;;
         do submit <- mres (sj_ring_create nat local_ring_cnt);
         mmod (fun s => s <| submit_pka_ring := submit |>);;;
         repeat_from init_record_ (local_max_conn * 3) 0;;;
         repeat_from init_op (local_max_conn * 3) 0;;;
         do waiting <- mres (sj_ring_create nat local_ring_cnt);
         mmod (fun s => s <| waiting_hws_del_ring := waiting |>)) thread_context0 with
  | Ret (_, s) => Ret s
  | Fault f => Fault f
  end.
End init.

(** ** The invariants hold at the start *)

Lemma context0_wf : wf_map ∅ None thread_context0.
Proof.
  split; simpl; try done.
  - apply create_ht_rep.
  - constructor.
  - intros i Hi. by apply not_elem_of_nil in Hi.
  - intros i [c Hc]. by rewrite lookup_empty in Hc.
Qed.
Lemma context0_pools : pools_ok thread_context0.
Proof.
  split; simpl; try done; (split; [intros x [[h E]|[y E]]; by rewrite ?lookup_delete, ?lookup_empty in E; try case_decide|by eexists]).
Qed.

(** A fresh connection joins the free queue. *)
Lemma wf_add_free m s j c x :
  wf_map m None s -> conns s !! j = None ->
  wf_map m None (s <| free_session_q ::= (fun q => q ++ [j]) |> <| free_cnt ::= Z.succ |>
    <| conns ::= insert j c |> <| sessions ::= insert j x |> <| recv_qs ::= TAILQ_INIT j |>).
Proof.
  intros [] Hj. assert (j ∉ free_session_q s) as Hni.
  { intros Hin. destruct (wf_free j Hin) as [c' Hc']. congruence. }
  assert (forall k i, m !! k = Some i -> i <> j) as Hne.
  { intros k i Hm ->. apply (rep_complete _ _ _ wf_table) in Hm as [Hk _].
    unfold key_of in Hk. by rewrite Hj in Hk. }
  split; simpl; try done.
  - eapply table_rep_ext; [|done]. intros k i Hm. unfold key_of.
    rewrite lookup_insert_ne; [done|]. by apply not_eq_sym, (Hne k).
  - rewrite length_app. simpl. lia.
  - by apply NoDup_snoc.
  - intros k i Hm. destruct (wf_live k i Hm) as [Hi Hq]. pose proof (Hne k i Hm). split.
    + unfold idle in *. by rewrite lookup_insert_ne.
    + intros [?| ->%list_elem_of_singleton]%elem_of_app; done.
  - intros i Hi. apply lookup_insert_is_Some'.
    apply elem_of_app in Hi as [?| ->%list_elem_of_singleton]; [right; auto|by left].
  - intros i [<-|Hi]%lookup_insert_is_Some'; [left; set_solver|].
    destruct (wf_cover i Hi) as [?|[?|?]]; [left; set_solver|by right; left|done].
  - rewrite !dom_insert_L. by rewrite wf_dom.
Qed.

Lemma ring_create_run A k : 0 <= k < 32 ->
  exists r, sj_ring_create A (2 ^ k) = Ret r /\ head r = tail r.
Proof.
  intros Hk. assert (0 < 2 ^ k < 2 ^ 32) as H2.
  { split; [apply Z.pow_pos_nonneg; lia|]. apply Z.pow_lt_mono_r; lia. }
  unfold sj_ring_create. rewrite (proj2 (Z.eqb_neq _ _)) by lia.
  rewrite u32_id by (unfold is_u32; lia).
  rewrite (proj2 (land_pred_pow2 (2 ^ k) ltac:(lia))) by (by rewrite Z.log2_pow2 by lia).
  simpl. by eexists.
Qed.

Section start.
Context `{Platform}.

(** The connections made so far are those below [j]. *)
Definition made (j : nat) (s : nic) : Prop :=
  wf_map ∅ None s /\ pools_ok s /\ (forall i, is_Some (conns s !! i) <-> (i < j)%nat) /\
  free_session_q s = seq 0 j /\ records s = ∅ /\ record_pool s = TAILQ_INIT POOL tailq0 /\
  ops s = ∅ /\ op_pool s = TAILQ_INIT POOL tailq0 /\ free_record_cnt s = 0 /\ free_op_cnt s = 0.

Lemma init_connection_run j s : made j s -> exists s', init_connection j s = Ret (tt, s') /\ made (S j) s'.
Proof.
  intros (Hw & Hp & Hd & Hq & Hr & Hrp & Ho & Hop & Hc & Hco).
  unfold init_connection. unfold bind at 1, mmod.
  set (s1 := (s <| free_session_q ::= _ |> <| free_cnt ::= Z.succ |>
    <| conns ::= insert j _ |> <| sessions ::= insert j _ |> <| recv_qs ::= _ |>)).
  assert (wf_map ∅ None s1) as Hw1.
  { apply wf_add_free; [done|]. apply eq_None_not_Some. rewrite Hd. lia. }
  assert (pools_ok s1) as Hp1 by (destruct Hp; by split).
  destruct (clear_ssl_run j s1 ssl_session0
    [pka_operand0 <| actual_len := 0 |>; pka_operand0 <| actual_len := 0 |>]) as (s' & E & (Hcn & _ & _ & Hfq & _) & _ & Er & Erp & Eo & Eop & Ec & Eco);
    [apply lookup_insert_eq| |done|done|simpl; apply lookup_delete_eq|].
  { simpl. unfold clear_result, memset0, pka_operand0. simpl. rewrite length_zeros, Z.leb_refl. simpl.
    by rewrite drop_ge, app_nil_r, Nat2Z.id by (rewrite length_zeros; lia). }
  exists s'. split; [done|].
  split; [exact (wf_clear_ssl (wf_map ∅ None) j _ _ _ Hw1 E)|].
  split; [exact (pools_clear_ssl j _ _ _ Hp1 E)|].
  rewrite Hcn, Hfq, Er, Erp, Eo, Eop, Ec, Eco.
  split; [intros i; simpl; rewrite lookup_insert_is_Some', Hd; lia|].
  split; [cbn -[seq]; by rewrite Hq, seq_S|]. done.
Qed.

(** [n] turns of a loop whose body advances an invariant. *)
Lemma repeat_run (P : nat -> nic -> Prop) body n :
  (forall j s, P j s -> exists s', body j s = Ret (tt, s') /\ P (S j) s') ->
  forall j s, P j s -> exists s', repeat_from body n j s = Ret (tt, s') /\ P (j + n)%nat s'.
Proof.
  intros Hb. induction n as [|n IH]; intros j s Hj; simpl.
  - exists s. by rewrite Nat.add_0_r.
  - destruct (Hb j s Hj) as (s1 & E & H1). erewrite bind_ret by done.
    replace (j + S n)%nat with (S j + n)%nat by lia. by apply IH.
Qed.

(** What holds once the connections are made, while the pools are filled:
    each pool holds its objects once, in order. *)
Definition stocked (n jr jo : nat) (s : nic) : Prop :=
  wf_map ∅ None s /\ pools_ok s /\ free_session_q s = seq 0 n /\
  (forall i, is_Some (records s !! i) <-> (i < jr)%nat) /\
  tq_rep (record_pool s) POOL (seq 0 jr) /\ free_record_cnt s = Z.of_nat jr /\
  (forall i, is_Some (ops s !! i) <-> (i < jo)%nat) /\
  tq_rep (op_pool s) POOL (seq 0 jo) /\ free_op_cnt s = Z.of_nat jo.

(** A fresh object joins its pool. *)
Lemma stock_run {A} (m : gmap nat A) q j a :
  linked_within q POOL (fun x => is_Some (m !! x)) -> tq_rep q POOL (seq 0 j) ->
  (forall i, is_Some (m !! i) <-> (i < j)%nat) ->
  exists q', TAILQ_INSERT_TAIL POOL j q = Ret q' /\ tq_rep q' POOL (seq 0 (S j)) /\
    linked_within q' POOL (fun x => is_Some (<[j:=a]> m !! x)) /\
    Z.of_nat (base.size (<[j:=a]> m)) = Z.of_nat (base.size m) + 1 /\
    (forall i, is_Some (<[j:=a]> m !! i) <-> (i < S j)%nat).
Proof.
  intros Hl Hr Hd. destruct (insert_tail_rep q POOL (seq 0 j) j Hr) as (q' & Eq & Hr'); [rewrite elem_of_seq; lia|].
  destruct (linked_insert q POOL (fun x => is_Some (<[j:=a]> m !! x)) j) as (q2 & Eq2 & Hl2).
  { eapply linked_mono; [|exact Hl]. intros x. apply present_insert. }
  { apply lookup_insert_is_Some'. by left. }
  same_ret. exists q2. split; [done|]. rewrite seq_S. split; [done|]. split; [done|]. split.
  - rewrite map_size_insert_None by (apply eq_None_not_Some; rewrite Hd; lia). lia.
  - intros i. rewrite lookup_insert_is_Some', Hd. lia.
Qed.

Lemma init_record_run n j jo s : stocked n j jo s ->
  exists s', init_record_ j s = Ret (tt, s') /\ stocked n (S j) jo s'.
Proof.
  intros (Hw & [Hl Ht ? ?] & Hq & Hr & Hrp & Hc & Ho & Hop & Hco). unfold init_record_, bind at 1, mget.
  destruct (stock_run (records s) (record_pool s) j record0 Hl Hrp Hr) as (q & Eq & Hrq & Hlq & Hsz & Hd).
  erewrite bind_ret by (unfold mres; by rewrite Eq). eexists. split; [done|]. split; [wf_frame|].
  split; [split; simpl; try done; lia|]. split; [done|]. split; [done|]. split; [done|]. simpl. split; [lia|done].
Qed.
Lemma init_op_run n jr j s : stocked n jr j s ->
  exists s', init_op j s = Ret (tt, s') /\ stocked n jr (S j) s'.
Proof.
  intros (Hw & [? ? Hl Ht] & Hq & Hr & Hrp & Hc & Ho & Hop & Hco). unfold init_op, bind at 1, mget.
  destruct (stock_run (ops s) (op_pool s) j op0 Hl Hop Ho) as (q & Eq & Hrq & Hlq & Hsz & Hd).
  erewrite bind_ret by (unfold mres; by rewrite Eq). eexists. split; [done|]. split; [wf_frame|].
  split; [split; simpl; try done; lia|]. do 4 (split; [done|]). split; [done|]. split; [done|]. simpl. lia.
Qed.

Lemma thread_local_init_run n k : 0 <= k < 32 ->
  exists s, thread_local_init n (2 ^ k) = Ret s /\ wf s /\ pools_ok s /\
    free_cnt s = Z.of_nat n /\ active_cnt s = 0 /\
    free_record_cnt s = Z.of_nat (3 * n) /\ free_op_cnt s = Z.of_nat (3 * n) /\
    tq_rep (record_pool s) POOL (seq 0 (3 * n)) /\ tq_rep (op_pool s) POOL (seq 0 (3 * n)).
Proof.
  intros Hk. destruct (ring_create_run nat k Hk) as (r & Hcr & Hht).
  destruct (repeat_run made init_connection n init_connection_run 0 thread_context0) as (s1 & E1 & H1).
  { split; [apply context0_wf|]. split; [apply context0_pools|]. split; [|done].
    intros i. simpl. rewrite lookup_empty. split; [by intros []|lia]. }
  destruct H1 as (Hw & Hp & _ & Hq & Hr & Hrp & Ho & Hop & Hc & Hco).
  destruct (repeat_run (fun j => stocked n j 0) init_record_ (n * 3)
    (fun j s => init_record_run n j 0 s) 0 (s1 <| submit_pka_ring := r |>)) as (s2 & E2 & H2).
  { split; [wf_frame|]. split; [destruct Hp; by split|]. split; [done|]. simpl. rewrite Hr, Hrp, Ho, Hop.
    assert (forall i, is_Some ((∅ : gmap nat record) !! i) <-> (i < 0)%nat) by (intros i; rewrite lookup_empty; split; [by intros []|lia]).
    assert (forall i, is_Some ((∅ : gmap nat ssl_crypto_op) !! i) <-> (i < 0)%nat) by (intros i; rewrite lookup_empty; split; [by intros []|lia]).
    pose proof (init_rep tailq0 POOL). done. }
  destruct (repeat_run (fun j => stocked n (n * 3) j) init_op (n * 3)
    (fun j s => init_op_run n (n * 3) j s) 0 s2 H2) as (s3 & E3 & H3).
  exists (s3 <| waiting_hws_del_ring := r |>). unfold thread_local_init.
  erewrite bind_ret by done. erewrite bind_ret by (unfold mres; by rewrite Hcr).
  unfold bind at 1, mmod at 1. erewrite bind_ret by done. erewrite bind_ret by done.
  erewrite bind_ret by (unfold mres; by rewrite Hcr). split; [done|].
  destruct H3 as (Hw3 & Hp3 & Hq3 & _ & Hrp3 & Hc3 & _ & Hop3 & Hco3).
  split; [exists ∅; destruct Hw3; by split|]. split; [destruct Hp3; by split|]. simpl.
  rewrite (wf_free_cnt _ _ _ Hw3), (wf_active_cnt _ _ _ Hw3), Hq3, length_seq, Hc3, Hco3.
  rewrite !Nat.add_0_l, (Nat.mul_comm n 3) in *. done.
Qed.
End start.
