(* ===== verification/RecordLayer.v ===== *)
(** * Record protection (ssl.c: [unpack_header], [decrypt_record],
      [encrypt_record], [attach_mac], [verify_mac], [handle_after_aes_crypto],
      [handle_after_aes_gcm_encrypt], [handle_after_aes_gcm_decrypt],
      [handle_after_mac_crypto], [handle_mac]; ssl_crypto.c:
      [execute_aes_crypto], [execute_mac_crypto])

    The records of a session are protected with AES-256-GCM under the
    handshake traffic keys. AES-GCM, SHA-256, SHA-384 and HMAC are OpenSSL's
    and the public-key operations are those of the PKA accelerator: they are
    the fields of the class [Crypto], and [CryptoLaws] states their documented
    behaviour. *)

From S2P Require Import Prelude TailQ Ring FlowTable Hkdf Operand ClientHello NicState KeySchedule SslPools.

(** [t_hmac_ctx] is what the core's HMAC context happens to hold: each use
    begins with [HMAC_Init_ex] under a key. [gcm_encrypt key iv aad plaintext]
    is the ciphertext followed by the 16-byte tag, and [gcm_decrypt] takes the
    ciphertext and the tag. [garbage n] is an uninitialised array. *)
Class Crypto := {
  hops : hmac_ops;
  t_hmac_ctx : hctx hops;
  SHA384 : bytes -> bytes;
  SHA256 : bytes -> bytes;
  HMAC_SHA1 : bytes -> bytes -> bytes;
  gcm_encrypt : bytes -> bytes -> bytes -> bytes -> bytes;
  gcm_decrypt : bytes -> bytes -> bytes -> bytes -> bytes -> option bytes;
  certificate : bytes;
  ecdsa_priv_key : pka_operand;
  garbage : nat -> bytes;
  pka_get_rand_bytes : Z -> bytes;
  pka_accepts : nat -> bool;
  ring_order : bool;
  base_pt : pka_operand;
  base_pt_order : pka_operand;
  pka_mont_ecdh_mult : pka_operand -> pka_operand -> pka_operand;
  pka_ecdsa_sign : pka_operand -> pka_operand -> pka_operand -> pka_operand * pka_operand;
}.

Class CryptoLaws `{Crypto} : Prop := {
  gcm_length key iv aad pt :
    length (gcm_encrypt key iv aad pt) = (length pt + 16)%nat;
  gcm_correct key iv aad pt :
    gcm_decrypt key iv aad (take (length pt) (gcm_encrypt key iv aad pt))
      (drop (length pt) (gcm_encrypt key iv aad pt)) = Some pt;
  garbage_length n : length (garbage n) = n;
}.

Definition GCM_TAG_SIZE : Z := 16.
(** The room from [record->data] and from [record->decrypted] on. *)
Definition DATA_SIZE : Z := MAX_RECORD_SIZE - 8.

(** Opcodes: the function is the low byte, the operation the next one. *)
Definition TLS_OPCODE_AES_GCM_256_ENCRYPT : Z := 0x01000002.
Definition TLS_OPCODE_AES_GCM_256_DECRYPT : Z := 0x01000102.
Definition TLS_OPCODE_HMAC_SHA1_HASH : Z := 0x00000603.
Definition TLS_AES_CBC : Z := 1.
Definition TLS_AES_GCM : Z := 2.
Definition TLS_HMAC_SHA1 : Z := 3.
Definition OP_ENCRYPT : Z := 0.
Definition OP_DECRYPT : Z := 1.
Definition op_function (opcode : Z) : Z := u8 opcode.
Definition op_operation (opcode : Z) : Z := u8 (Z.shiftr opcode 8).

Definition NO_CIPHER : Z := 0.
Definition AES : Z := 6.
Definition AEAD : Z := 3.

(** ** The header of a received record *)

Definition unpack_header (r : nat) : nicM unit :=
  do rc <- get_rec r;
  massert (bool_decide (r_state rc = TO_UNPACK_HEADER));;;
  let data := r_data rc in
  let t := rd8 data 0 in
  if (t =? HANDSHAKE) || (t =? CHANGE_CIPHER_SPEC) || (t =? ALERT) || (t =? APPLICATION_DATA) then
    let len := ntohs (rd16 data 3) in
    mod_rec r (fun rc => rc
      <| ct_length := len |> <| pt_record_type := t |>
      <| pt_version := mk_version (rd8 data 1) (rd8 data 2) |> <| pt_length := len |>
      <| r_state := TO_DECRYPT |>)
  else
    mod_rec r (fun rc => rc
      <| pt_record_type := HANDSHAKE |> <| pt_version := mk_version 0x02 0x00 |>
      <| pt_length := u16 (r_length rc - 2) |> <| r_state := TO_DECRYPT |>).

Section layer.
Context `{Crypto}.

(** [memcpy(nonce, iv, 12)] and the exclusive or of the sequence number into
    its last 8 bytes. *)
Definition make_nonce (iv : bytes) (seq : Z) : bytes :=
  let seq_num := le_bytes 8 (bswap64 seq) in
  rdn 4 iv 0 ++ zip_with Z.lxor (rdn 8 iv 4) seq_num.

(** The nonce array has [fixed_iv_length + record_iv_length] bytes: the copy
    of 12 leaves a shorter one, and a longer one stays uninitialised. *)
Definition nonce_array (sp : security_params) (iv : bytes) (seq : Z) : res bytes :=
  let n := fixed_iv_length sp + record_iv_length sp in
  if n <? 12 then Fault Out_of_bounds
  else if 12 <? n then Fault Undefined_value
  else Ret (make_nonce iv seq).

(** ** After the symmetric operation *)

Definition handle_after_aes_gcm_encrypt (sess r : nat) : nicM Z :=
  do rc <- get_rec r;
  if bool_decide (r_state rc = TO_ENCRYPT) then
    mod_rec r (fun rc => rc <| r_state := WRITE_READY |>);;;
    mod_sess sess (fun x => x <| server_write_IV_seq_num := u64 (r_seq_num rc + 1) |>);;;
    ret 0
  else ret (-1).

Definition handle_after_aes_gcm_decrypt (sess r : nat) : nicM Z :=
  do rc <- get_rec r;
  massert (bool_decide (r_state rc = TO_DECRYPT));;;
  mod_rec r (fun rc => rc <| r_state := TO_VERIFY_MAC |>);;;
  mod_sess sess (fun x => x <| client_write_IV_seq_num := u64 (r_seq_num rc + 1) |>);;;
  ret 0.

(** [handle_after_aes_crypto]; no opcode in use selects a CBC function. *)
Definition handle_after_aes_crypto (sess op : nat) : nicM Z :=
  do o <- get_op op;
  match op_data o with
  | None => ret (-1)
  | Some r =>
      let crypto_type := op_operation (op_opcode o) in
      let function := op_function (op_opcode o) in
      if (OP_DECRYPT <? crypto_type) || (function <? TLS_AES_CBC) || (TLS_AES_GCM <? function) then
        delete_op op;;; ret (-1)
      else
        (if crypto_type =? OP_ENCRYPT
         then mod_sess sess (fun x => x <| send_seq_num_ ::= fun n => u64 (n + 1) |>) else ret tt);;;
        do rv <- (if negb (function =? TLS_AES_GCM) then mfault Undefined_value
                  else if crypto_type =? OP_ENCRYPT then handle_after_aes_gcm_encrypt sess r
                  else handle_after_aes_gcm_decrypt sess r);
        delete_op op;;;
        ret rv
  end.

(** ** AES-256-GCM *)

Definition encrypt_record (sess r : nat) : nicM Z :=
  do op <- new_ssl_crypto_op;
  do x <- get_sess sess;
  do rc <- get_rec r;
  if negb (server_write_IV_seq_num x =? r_seq_num rc) then ret (-1) else
  do nonce <- mres (nonce_array (write_sp x) (server_handshake_iv (tls13 x)) (send_seq_num_ x));
  let ct := u16 (pt_length rc + GCM_TAG_SIZE) in
  let hdr := wr (rdn 5 (decrypted rc) 0) 3 (le_bytes 2 (htons ct)) in
  if DATA_SIZE <? 5 + pt_length rc + GCM_TAG_SIZE then mfault Out_of_bounds else
  mod_op op (fun o => o <| op_opcode := TLS_OPCODE_AES_GCM_256_ENCRYPT |> <| op_data := Some r |>);;;
  let c := gcm_encrypt (rdn 32 (server_handshake_key (tls13 x)) 0) nonce hdr
             (rdn (Z.to_nat (pt_length rc)) (decrypted rc) 5) in
  mod_rec r (fun rc => rc <| ct_length := ct |> <| r_data := hdr ++ c |>
                          <| r_length := ct + RECORD_HEADER_SIZE |>);;;
  if pt_length rc <=? 0 then delete_op op;;; ret (-1) else
  handle_after_aes_crypto sess op.

Definition decrypt_record (sess r : nat) : nicM Z :=
  do x <- get_sess sess;
  do rc <- get_rec r;
  massert (bool_decide (r_state rc = TO_DECRYPT));;;
  mod_rec r (fun rc => rc <| r_seq_num := recv_seq_num_ x |> <| r_is_encrypted := true |>);;;
  do op <- new_ssl_crypto_op;
  let ct := u16 (ct_length rc - GCM_TAG_SIZE) in
  mod_rec r (fun rc => rc <| ct_length := ct |>);;;
  do nonce <- mres (nonce_array (read_sp x) (client_handshake_iv (tls13 x)) (recv_seq_num_ x));
  let aad := rdn 5 (r_data rc) 0 in
  mod_op op (fun o => o <| op_opcode := TLS_OPCODE_AES_GCM_256_DECRYPT |> <| op_data := Some r |>);;;
  if DATA_SIZE <? 5 + ct + GCM_TAG_SIZE then mfault Out_of_bounds else
  let plain := gcm_decrypt (rdn 32 (client_handshake_key (tls13 x)) 0) nonce aad
                 (rdn (Z.to_nat ct) (r_data rc) 5) (rdn 16 (r_data rc) (5 + Z.to_nat ct)) in
  match plain with
  | Some (b :: p) =>
      mod_rec r (fun rc => rc
        <| r_decrypted := wr (aad ++ b :: p) 3 (le_bytes 2 (htons ct)) |>);;;
      handle_after_aes_crypto sess op
  | _ =>
      delete_op op;;;
      delete_record sess r;;;
      ret (-1)
  end.

(** ** HMAC-SHA1 (the TLS 1.2 suites) *)

(** [handle_mac] for a record to send: the MAC is appended. *)
Definition append_mac (r : nat) (mac : bytes) : nicM unit :=
  mod_rec r (fun rc =>
    let ct := u16 (ct_length rc + Z.of_nat (length mac)) in
    rc <| r_decrypted := wr (wr (r_decrypted rc) (Z.to_nat (pt_length rc) + 5) mac) 3
                            (le_bytes 2 (htons ct)) |>
       <| ct_length := ct |> <| r_length := r_length rc + Z.of_nat (length mac) |>).

Definition attach_mac (sess r : nat) : nicM Z :=
  do x <- get_sess sess;
  do op <- new_ssl_crypto_op;
  do rc <- get_rec r;
  if r_is_received rc then mexit else
  mod_rec r (fun rc => rc <| ct_length := pt_length rc |>);;;
  let mac := HMAC_SHA1 (rdn (Z.to_nat (mac_key_size (write_sp x))) (server_write_MAC_secret x) 0)
    (le_bytes 8 (bswap64 (r_seq_num rc)) ++ rdn (Z.to_nat (pt_length rc) + 5) (r_decrypted rc) 0) in
  mod_op op (fun o => o <| op_opcode := TLS_OPCODE_HMAC_SHA1_HASH |> <| op_data := Some r |>);;;
  massert (Z.of_nat (length mac) =? mac_key_size (write_sp x));;;
  massert (bool_decide (r_state rc = TO_APPEND_MAC) || bool_decide (r_state rc = TO_VERIFY_MAC));;;
  append_mac r mac;;;
  delete_op op;;;
  ret 0.

(** [verify_mac]. The padding length is the last byte, used when the byte
    before it agrees. *)
Definition padding_length (d : bytes) (ct : Z) : Z :=
  let end_ := 5 + ct - 1 in
  let pad := rd8 d (Z.to_nat end_) in
  if negb (pad =? rd8 d (Z.to_nat (end_ - 1))) || (ct <? pad) then 0 else pad.

(** [handle_mac] aborts the session on a mismatch; [abort] is [abort_session]. *)
Definition verify_mac (abort : nat -> nicM Z) (sess r : nat) : nicM Z :=
  do x <- get_sess sess;
  do op <- new_ssl_crypto_op;
  do rc <- get_rec r;
  if negb (r_is_received rc) then mexit else
  let k := mac_key_size (read_sp x) in
  let d := decrypted rc in
  if (ct_length rc <? k + 1) || (DATA_SIZE <? 5 + ct_length rc) then mfault Out_of_bounds else
  let pad := padding_length d (ct_length rc) in
  if ct_length rc <? k + pad + 1 then mfault Out_of_bounds else
  let ct := u16 (ct_length rc - (k + pad + 1)) in
  let d' := wr d 3 (le_bytes 2 (htons ct)) in
  let recv_mac := rdn (Z.to_nat k) d (Z.to_nat (5 + ct)) in
  let mac := HMAC_SHA1 (rdn (Z.to_nat k) (client_write_MAC_secret x) 0)
    (le_bytes 8 (bswap64 (r_seq_num rc)) ++ rdn (Z.to_nat (5 + ct)) d' 0) in
  mod_rec r (fun rc => if r_aliased rc then rc <| ct_length := ct |> <| r_data := d' |>
                       else rc <| ct_length := ct |> <| r_decrypted := d' |>);;;
  mod_op op (fun o => o <| op_opcode := TLS_OPCODE_HMAC_SHA1_HASH |> <| op_data := Some r |>);;;
  massert (Z.of_nat (length mac) =? k);;;
  massert (bool_decide (r_state rc = TO_APPEND_MAC) || bool_decide (r_state rc = TO_VERIFY_MAC));;;
  if bool_decide (mac = recv_mac) then delete_op op;;; ret 0
  else
    delete_record sess r;;;
    abort sess;;;
    delete_op op;;;
    ret (-1).
End layer.

(** ** Record protection of RFC 8446

    Section 5.2: the record carries the header and the AEAD ciphertext of the
    inner plaintext, with the header as additional data; section 5.3: the nonce
    is the IV exclusive-or'ed with the 64-bit sequence number. *)
Section protection.
Context `{Crypto}.

Definition xor_nonce (iv : bytes) (seq : Z) : bytes := zip_with Z.lxor iv (zeros 4 ++ be_bytes 8 seq).
Definition record_header (n : nat) : bytes :=
  [APPLICATION_DATA; 3; 3] ++ be_bytes 2 (Z.of_nat n + 16).
Definition TLSCiphertext (key iv : bytes) (seq : Z) (inner : bytes) : bytes :=
  let hdr := record_header (length inner) in
  hdr ++ gcm_encrypt key (xor_nonce iv seq) hdr inner.
End protection.

Lemma length_record_header n : length (record_header n) = 5%nat.
Proof. reflexivity. Qed.

Lemma make_nonce_spec iv seq : (12 <= length iv)%nat -> 0 <= seq < 2 ^ 64 ->
  make_nonce iv seq = xor_nonce (take 12 iv) seq.
Proof.
  intros Hl Hs. unfold make_nonce, xor_nonce, bswap64.
  rewrite le_bytes_be_val by (auto using length_le_bytes, le_bytes_ok).
  rewrite (rdn_slice 4), (rdn_slice 8) by lia. rewrite drop_0.
  change (reverse (le_bytes 8 seq)) with (be_bytes 8 seq).
  do 12 (destruct iv as [|? iv]; [simpl in Hl; lia|]). simpl. by rewrite !Z.lxor_0_r.
Qed.

Lemma nonce_array_spec sp iv seq :
  fixed_iv_length sp = 12 -> record_iv_length sp = 0 -> (12 <= length iv)%nat -> 0 <= seq < 2 ^ 64 ->
  nonce_array sp iv seq = Ret (xor_nonce (take 12 iv) seq).
Proof. intros Hf Hr Hl Hs. unfold nonce_array. rewrite Hf, Hr. simpl. by rewrite make_nonce_spec. Qed.

Section seal.
Context `{Crypto} `{!CryptoLaws}.

(** The next step takes the first operation of the pool. *)
Ltac take_op Hop :=
  match goal with |- context [bind new_ssl_crypto_op _ ?st] =>
    let q := fresh "q" in let E := fresh "Enew" in
    destruct (new_op_run st _ _ Hop) as (q & E & Hq'); erewrite bind_ret by exact E
  end.

Lemma after_encrypt_run s sess r op x rc o l :
  sessions s !! sess = Some x -> records s !! r = Some rc -> ops s !! op = Some o ->
  op_data o = Some r -> op_opcode o = TLS_OPCODE_AES_GCM_256_ENCRYPT ->
  r_state rc = TO_ENCRYPT -> tq_rep (op_pool s) POOL l -> (op ∉ l) ->
  exists s', handle_after_aes_crypto sess op s = Ret (0, s') /\
    records s' !! r = Some (rc <| r_state := WRITE_READY |>) /\
    sessions s' !! sess = Some (x <| send_seq_num_ ::= (fun n => u64 (n + 1)) |>
                                  <| server_write_IV_seq_num := u64 (r_seq_num rc + 1) |>) /\
    tq_rep (op_pool s') POOL (l ++ [op]).
Proof.
  intros Hx Hr Ho Hd Hc Hst Hq Hn. unfold handle_after_aes_crypto. exec_step. rewrite Hd, Hc.
  change (_ || _) with false. change (op_operation _ =? OP_ENCRYPT) with true.
  change (negb _) with false. cbv iota zeta. exec_step.
  unfold handle_after_aes_gcm_encrypt. rewrite bind_assoc. exec_step.
  rewrite bool_decide_true by done. rewrite !bind_assoc. exec_step. rewrite bind_assoc. exec_step.
  unfold bind at 1. unfold ret at 1.
  match goal with |- context [bind (delete_op op) _ ?st] =>
    destruct (delete_op_run st op o l) as (q & E & Hq'); [exact Ho|exact Hq|done|] end.
  erewrite bind_ret by exact E. eexists. split; [reflexivity|]. simpl. rewrite !lookup_insert_eq. done.
Qed.
(** C9: encrypting a record of the server's flight succeeds and leaves in it
    the TLSCiphertext of RFC 8446 for the session's handshake key, IV and
    sequence number: the header with the ciphertext's length, which is also
    the additional data, and the AEAD encryption of the inner plaintext; the
    sequence number advances by one. *)
Theorem encrypt_record_rfc8446 s sess r x rc op rest len2 inner :
  pools_ok s -> tq_rep (op_pool s) POOL (op :: rest) ->
  sessions s !! sess = Some x -> records s !! r = Some rc ->
  tls13_ok (tls13 x) -> fixed_iv_length (write_sp x) = 12 -> record_iv_length (write_sp x) = 0 ->
  0 <= send_seq_num_ x < 2 ^ 64 ->
  server_write_IV_seq_num x = send_seq_num_ x -> r_seq_num rc = send_seq_num_ x ->
  r_state rc = TO_ENCRYPT -> decrypted rc = [APPLICATION_DATA; 3; 3] ++ len2 ++ inner ->
  length len2 = 2%nat -> pt_length rc = Z.of_nat (length inner) ->
  0 < Z.of_nat (length inner) <= DATA_SIZE - 21 ->
  exists s' x' rc', encrypt_record sess r s = Ret (0, s') /\
    sessions s' !! sess = Some x' /\ records s' !! r = Some rc' /\
    r_data rc' = TLSCiphertext (take 32 (server_handshake_key (tls13 x)))
                   (take 12 (server_handshake_iv (tls13 x))) (send_seq_num_ x) inner /\
    r_length rc' = Z.of_nat (length (r_data rc')) /\ r_state rc' = WRITE_READY /\
    send_seq_num_ x' = u64 (send_seq_num_ x + 1) /\ server_write_IV_seq_num x' = send_seq_num_ x' /\
    tq_rep (op_pool s') POOL (rest ++ [op]).
Proof.
  intros Hp Hop Hx Hr Ht Hf Hv Hs Hw Hq Hst Hd H2 Hl Hn. destruct Ht.
  assert (ct_eq : u16 (pt_length rc + GCM_TAG_SIZE) = Z.of_nat (length inner) + 16).
  { rewrite Hl. apply u16_id. unfold DATA_SIZE, MAX_RECORD_SIZE, GCM_TAG_SIZE in *. split; lia. }
  assert (hdr_eq : wr (rdn 5 (decrypted rc) 0) 3 (le_bytes 2 (htons (Z.of_nat (length inner) + 16)))
            = record_header (length inner)).
  { rewrite Hd. do 3 (destruct len2 as [|? len2]; try done). unfold record_header.
    unfold bswap16. rewrite le_bytes_be_val by auto using length_le_bytes, le_bytes_ok. reflexivity. }
  destruct (first_op _ _ _ Hp Hop) as (o & Ho & Hni).
  unfold encrypt_record. take_op Hop. exec_step. exec_step.
  rewrite Hw, Hq, Z.eqb_refl. cbv iota beta delta [negb].
  erewrite bind_ret by (unfold mres; rewrite nonce_array_spec by (done || unfold room in *; lia); reflexivity).
  assert (rdn (Z.to_nat (pt_length rc)) (decrypted rc) 5 = inner) as ->.
  { rewrite Hd, Hl, Nat2Z.id. rewrite app_assoc. rewrite <-(app_nil_r inner) at 2.
    apply rdn_at; [rewrite length_app; simpl; lia|done]. }
  rewrite ct_eq, hdr_eq, (rdn_slice 32), drop_0 by (unfold room in *; lia). rewrite (proj2 (Z.ltb_ge _ _)) by (unfold GCM_TAG_SIZE; lia).
  exec_step. exec_step. rewrite (proj2 (Z.leb_gt _ _)) by lia.
  match goal with |- context [handle_after_aes_crypto sess op ?st] =>
    edestruct (after_encrypt_run st sess r op) as (s' & E & Hr' & Hx' & Ho') end;
    [simpl; find_object|simpl; find_object|simpl; find_object|done|done|done|exact Hq'|done|].
  rewrite E. eexists s', _, _. split; [reflexivity|]. split; [exact Hx'|]. split; [exact Hr'|]. simpl.
  rewrite Hq. split; [done|]. rewrite gcm_length.
  split; [unfold RECORD_HEADER_SIZE; lia|]. done.
Qed.
Lemma after_decrypt_run s sess r op x rc o l :
  sessions s !! sess = Some x -> records s !! r = Some rc -> ops s !! op = Some o ->
  op_data o = Some r -> op_opcode o = TLS_OPCODE_AES_GCM_256_DECRYPT ->
  r_state rc = TO_DECRYPT -> tq_rep (op_pool s) POOL l -> (op ∉ l) ->
  exists s', handle_after_aes_crypto sess op s = Ret (0, s') /\
    records s' !! r = Some (rc <| r_state := TO_VERIFY_MAC |>) /\
    sessions s' !! sess = Some (x <| client_write_IV_seq_num := u64 (r_seq_num rc + 1) |>) /\
    tq_rep (op_pool s') POOL (l ++ [op]).
Proof.
  intros Hx Hr Ho Hd Hc Hst Hq Hn. unfold handle_after_aes_crypto. exec_step. rewrite Hd, Hc.
  change (_ || _) with false. change (op_operation _ =? OP_ENCRYPT) with false.
  change (negb _) with false. cbv iota zeta. unfold bind at 1. unfold ret at 1.
  unfold handle_after_aes_gcm_decrypt. rewrite bind_assoc. exec_step. rewrite bind_assoc.
  unfold massert. rewrite bool_decide_true by done. unfold bind at 1. unfold ret at 1.
  rewrite bind_assoc. exec_step. rewrite bind_assoc. exec_step.
  unfold bind at 1. unfold ret at 1.
  match goal with |- context [bind (delete_op op) _ ?st] =>
    destruct (delete_op_run st op o l) as (q & E & Hq'); [exact Ho|exact Hq|done|] end.
  erewrite bind_ret by exact E. eexists. split; [reflexivity|]. simpl. rewrite !lookup_insert_eq. done.
Qed.

(** What [decrypt_record] passes to AES-GCM, for any record received in full
    with at least a tag. *)
Definition opened (x : ssl_session) (rc : record) : option bytes :=
  let ct := ct_length rc - 16 in
  gcm_decrypt (take 32 (client_handshake_key (tls13 x)))
    (xor_nonce (take 12 (client_handshake_iv (tls13 x))) (recv_seq_num_ x))
    (rdn 5 (r_data rc) 0) (rdn (Z.to_nat ct) (r_data rc) 5) (rdn 16 (r_data rc) (5 + Z.to_nat ct)).

Record decryptable (s : nic) (sess r : nat) (x : ssl_session) (rc : record) (op : nat) (rest : list nat)
    : Prop := mk_decryptable {
  dec_pools : pools_ok s;
  dec_op : tq_rep (op_pool s) POOL (op :: rest);
  dec_sess : sessions s !! sess = Some x;
  dec_rec : records s !! r = Some rc;
  dec_keys : tls13_ok (tls13 x);
  dec_fixed : fixed_iv_length (read_sp x) = 12;
  dec_iv : record_iv_length (read_sp x) = 0;
  dec_seq : 0 <= recv_seq_num_ x < 2 ^ 64;
  dec_state : r_state rc = TO_DECRYPT;
}.

(** Until the cipher is run. *)
Lemma decrypt_prefix s sess r x rc op rest :
  decryptable s sess r x rc op rest -> 16 <= ct_length rc <= DATA_SIZE - 5 ->
  exists s1 rc1 o1, records s1 !! r = Some rc1 /\ ops s1 !! op = Some o1 /\
    rc1 = rc <| r_seq_num := recv_seq_num_ x |> <| r_is_encrypted := true |>
             <| ct_length := ct_length rc - 16 |> /\
    op_data o1 = Some r /\ op_opcode o1 = TLS_OPCODE_AES_GCM_256_DECRYPT /\
    sessions s1 = sessions s /\ tq_rep (op_pool s1) POOL rest /\ record_pool s1 = record_pool s /\
    (op ∉ rest) /\
    decrypt_record sess r s =
      (match opened x rc with
       | Some (b :: p) =>
           mod_rec r (fun rc' => rc'
             <| r_decrypted := wr (rdn 5 (r_data rc) 0 ++ b :: p) 3
                                  (le_bytes 2 (htons (ct_length rc - 16))) |>);;;
           handle_after_aes_crypto sess op
       | _ => delete_op op;;; delete_record sess r;;; ret (-1)
       end) s1.
Proof.
  intros [Hp Hop Hx Hr Ht Hf Hv Hs Hst] Hl. destruct Ht.
  assert (u16 (ct_length rc - GCM_TAG_SIZE) = ct_length rc - 16) as Hct.
  { apply u16_id. unfold DATA_SIZE, MAX_RECORD_SIZE, GCM_TAG_SIZE in *. split; lia. }
  destruct (first_op _ _ _ Hp Hop) as (o & Ho & Hni).
  unfold decrypt_record. exec_step. exec_step. unfold massert. rewrite bool_decide_true by done.
  unfold bind at 1. unfold ret at 1. exec_step. take_op Hop.
  rewrite Hct. exec_step.
  erewrite bind_ret by (unfold mres; rewrite nonce_array_spec by (done || unfold room in *; lia); reflexivity).
  exec_step. rewrite (proj2 (Z.ltb_ge _ _)) by (unfold GCM_TAG_SIZE; lia).
  rewrite (rdn_slice 32), drop_0 by (unfold room in *; lia). fold (opened x rc).
  eexists _, _, _. split; [|split; [|split; [|split; [|split; [|split; [|split; [|split; [|split;
    [|reflexivity]]]]]]]]]; simpl; try done; try apply lookup_insert_eq.
  all: reflexivity.
Qed.

(** Reading a TLSCiphertext back. *)
Lemma TLSCiphertext_parts key iv seq inner d :
  d = TLSCiphertext key iv seq inner ->
  rdn 5 d 0 = record_header (length inner) /\
  gcm_decrypt key (xor_nonce iv seq) (rdn 5 d 0) (rdn (length inner) d 5)
    (rdn 16 d (5 + length inner)) = Some inner.
Proof.
  intros ->. unfold TLSCiphertext. set (h := record_header _). set (c := gcm_encrypt _ _ _ _).
  assert (length c = (length inner + 16)%nat) as Hc by apply gcm_length.
  assert (rdn 5 (h ++ c) 0 = h) as ->. { apply (rdn_at 5 []); reflexivity. }
  split; [done|]. rewrite (rdn_slice (length inner)), (rdn_slice 16) by (rewrite length_app; simpl; lia).
  rewrite (drop_app_length' h) by reflexivity.
  rewrite <-drop_drop, (drop_app_length' h) by reflexivity.
  rewrite (firstn_all2 (drop _ c)) by (rewrite length_drop; lia). apply gcm_correct.
Qed.

(** The tag of a record sealed under the number [seq] verifies under no other. *)
Definition authentic (key iv : bytes) (seq : Z) (inner : bytes) : Prop :=
  forall seq', 0 <= seq' < 2 ^ 64 -> seq' <> seq ->
    let hdr := record_header (length inner) in
    let c := gcm_encrypt key (xor_nonce iv seq) hdr inner in
    gcm_decrypt key (xor_nonce iv seq') hdr (take (length inner) c) (drop (length inner) c) = None.

Lemma TLSCiphertext_rejected key iv seq seq' inner d :
  d = TLSCiphertext key iv seq inner -> authentic key iv seq inner -> 0 <= seq' < 2 ^ 64 -> seq' <> seq ->
  gcm_decrypt key (xor_nonce iv seq') (rdn 5 d 0) (rdn (length inner) d 5) (rdn 16 d (5 + length inner)) = None.
Proof using Type*.
  intros -> Ha Hs Hne. unfold TLSCiphertext. set (h := record_header _). set (c := gcm_encrypt _ _ _ _).
  assert (length c = (length inner + 16)%nat) as Hc by apply gcm_length.
  assert (rdn 5 (h ++ c) 0 = h) as -> by (apply (rdn_at 5 []); reflexivity).
  rewrite (rdn_slice (length inner)), (rdn_slice 16) by (rewrite length_app; simpl; lia).
  rewrite (drop_app_length' h) by reflexivity.
  rewrite <-drop_drop, (drop_app_length' h) by reflexivity.
  rewrite (firstn_all2 (drop _ c)) by (rewrite length_drop; lia). by apply Ha.
Qed.

(** C10: the client numbers the records it protects from 0, as RFC 8446
    prescribes; the session expects number 0. Its record number 0 is decrypted
    to the inner plaintext, behind a header with the plaintext's length, and
    the session still expects number 0 afterwards. So a record with any later
    number, whose tag does not verify under another nonce, is refused with -1
    and released. *)
Theorem decrypt_record_rfc8446 s sess r x rc op rest l seq inner :
  decryptable s sess r x rc op rest -> r_aliased rc = false -> recv_seq_num_ x = 0 -> 0 <= seq < 2 ^ 64 ->
  tq_rep (record_pool s) POOL l -> (r ∉ l) ->
  r_data rc = TLSCiphertext (take 32 (client_handshake_key (tls13 x)))
                (take 12 (client_handshake_iv (tls13 x))) seq inner ->
  authentic (take 32 (client_handshake_key (tls13 x))) (take 12 (client_handshake_iv (tls13 x))) seq inner ->
  ct_length rc = Z.of_nat (length inner) + 16 -> 0 < Z.of_nat (length inner) <= DATA_SIZE - 21 ->
  exists s' x', sessions s' !! sess = Some x' /\ recv_seq_num_ x' = 0 /\ tq_rep (op_pool s') POOL (rest ++ [op]) /\
    if seq =? 0 then
      decrypt_record sess r s = Ret (0, s') /\ client_write_IV_seq_num x' = 1 /\
      exists rc', records s' !! r = Some rc' /\
        decrypted rc' = [APPLICATION_DATA; 3; 3] ++ be_bytes 2 (Z.of_nat (length inner)) ++ inner /\
        ct_length rc' = Z.of_nat (length inner) /\ r_state rc' = TO_VERIFY_MAC
    else
      decrypt_record sess r s = Ret (-1, s') /\ tq_rep (record_pool s') POOL (l ++ [r]).
Proof.
  intros Hdec Ha Hz Hseq Hrp Hrn Hd Hau Hc Hl.
  destruct (decrypt_prefix _ _ _ _ _ _ _ Hdec) as
    (s1 & rc1 & o1 & Hr1 & Ho1 & Erc & Hod & Hoc & Hs1 & Hp1 & Hrp1 & Hni & ->); [lia|].
  pose proof (dec_sess _ _ _ _ _ _ _ Hdec) as Hx. pose proof (dec_state _ _ _ _ _ _ _ Hdec) as Hst.
  unfold opened. rewrite Hc, Z.add_simpl_r, Nat2Z.id, Hz. destruct (Z.eqb_spec seq 0) as [->|Hne].
  - destruct (TLSCiphertext_parts _ _ _ _ _ Hd) as [Hh Ho].
    rewrite Ho, Hh. destruct inner as [|b p]; [simpl in Hl; lia|]. exec_step.
    match goal with |- context [handle_after_aes_crypto sess op ?st] =>
      edestruct (after_decrypt_run st sess r op) as (s' & E & Hr' & Hx' & Ho') end;
      [simpl; rewrite Hs1; exact Hx|simpl; find_object|exact Ho1|done|done|by rewrite Erc|exact Hp1|done|].
    rewrite E. eexists s', _. split; [exact Hx'|]. split; [done|]. split; [done|]. split; [done|].
    split; [simpl; by rewrite Erc; simpl; rewrite Hz|].
    eexists. split; [exact Hr'|]. rewrite Erc. unfold decrypted. simpl. rewrite Ha. simpl. rewrite Hc.
    split; [|split; [simpl; lia|done]].
    assert (Hw : le_bytes 2 (htons (Z.of_nat (S (length p)))) = be_bytes 2 (Z.of_nat (S (length p)))).
    { unfold bswap16. by rewrite le_bytes_be_val by auto using length_le_bytes, le_bytes_ok. }
    simpl in Hw. rewrite Hw. reflexivity.
  - rewrite (TLSCiphertext_rejected _ _ _ 0 _ _ Hd Hau) by (done || lia).
    destruct (delete_op_run _ _ _ _ Ho1 Hp1 Hni) as (qo & Eo & Hqo). erewrite bind_ret by exact Eo.
    destruct (insert_tail_rep _ _ _ r Hrp Hrn) as (q1 & Eq1 & Hq1).
    match goal with |- context [bind (delete_record sess r) _ ?st] =>
      destruct (delete_record_run st sess r rc1 Hr1 x) with (q := q1) as (s2 & E2 & Ep2 & _ & Eo2 & Hx2) end;
      [simpl; by rewrite Hs1|simpl; by rewrite Hrp1|].
    erewrite bind_ret by exact E2. eexists s2, _. split; [exact Hx2|]. split; [exact Hz|].
    split; [by rewrite Eo2|]. split; [reflexivity|]. by rewrite Ep2.
Qed.

(** C39: a protected record shorter than the authentication tag is not
    rejected: the 16-bit length wraps and the decryption reads and writes
    about 64 KB past the buffers. *)
Theorem short_record_overruns s sess r x rc op rest :
  decryptable s sess r x rc op rest -> 0 <= ct_length rc < 16 ->
  decrypt_record sess r s = Fault Out_of_bounds.
Proof.
  intros [Hp Hop Hx Hr Ht Hf Hv Hs Hst] Hl. destruct Ht.
  assert (u16 (ct_length rc - GCM_TAG_SIZE) = 65536 + ct_length rc - 16) as Hct.
  { unfold u16, GCM_TAG_SIZE. symmetry. apply (Z.mod_unique _ _ (-1)); lia. }
  destruct (first_op _ _ _ Hp Hop) as (o & Ho & Hni).
  unfold decrypt_record. exec_step. exec_step. unfold massert. rewrite bool_decide_true by done.
  unfold bind at 1. unfold ret at 1. exec_step. take_op Hop.
  rewrite Hct. exec_step.
  erewrite bind_ret by (unfold mres; rewrite nonce_array_spec by (done || unfold room in *; lia); reflexivity).
  exec_step. by rewrite (proj2 (Z.ltb_lt _ _)) by (unfold DATA_SIZE, MAX_RECORD_SIZE, GCM_TAG_SIZE; lia).
Qed.
End seal.

(** ** A toy instance

    The laws can hold: an "encryption" that appends the end of the nonce and a
    checksum as its tag, and constant functions elsewhere. It serves to
    evaluate examples. *)
Definition toy_tag (key iv aad pt : bytes) : bytes :=
  take 16 (drop 4 iv ++ replicate 16 (u8 (foldr Z.add 3 (key ++ iv ++ aad ++ pt)))).
Definition sample_crypto : Crypto :=
  {| hops := toy48_ops;
     t_hmac_ctx := ([], []);
     SHA384 := toy_sha;
     SHA256 m := take 32 (toy_sha m);
     HMAC_SHA1 k m := replicate 20 (u8 (foldr Z.add 5 (k ++ m)));
     gcm_encrypt key iv aad pt := pt ++ toy_tag key iv aad pt;
     gcm_decrypt key iv aad ct tag := if bool_decide (tag = toy_tag key iv aad ct) then Some ct else None;
     certificate := replicate 300 0x33;
     ecdsa_priv_key := mk_operand (replicate 32 9) 32 32 0 false;
     garbage n := replicate n 0xaa;
     pka_get_rand_bytes n := replicate (Z.to_nat n) 0x5a;
     pka_accepts n := (n <? 1000)%nat;
     ring_order := false;
     base_pt := mk_operand (9 :: zeros 31) 32 32 0 false;
     base_pt_order := mk_operand (replicate 32 0x10) 32 32 0 false;
     pka_mont_ecdh_mult p k := mk_operand (replicate 32 0x21) 32 32 0 false;
     pka_ecdsa_sign d h k :=
       (mk_operand (replicate 32 0x81) 32 32 0 false, mk_operand (replicate 32 0x42) 32 32 0 false) |}.

Lemma sample_crypto_laws : @CryptoLaws sample_crypto.
Proof.
  split; simpl; intros.
  - rewrite length_app; unfold toy_tag; rewrite length_take, length_app, length_replicate; lia.
  - by rewrite take_app_length, drop_app_length, bool_decide_true.
  - apply length_replicate.
Qed.

Lemma toy_authentic key seq inner : 0 <= seq < 2 ^ 64 -> @authentic sample_crypto key (zeros 12) seq inner.
Proof.
  intros Hs seq' Hs' Hne. cbv zeta. simpl. rewrite take_app_length, drop_app_length, bool_decide_false; [done|].
  assert (forall q, xor_nonce (zeros 12) q = zeros 4 ++ be_bytes 8 q) as Hx.
  { intros q. unfold xor_nonce.
    generalize (be_bytes 8 q) (length_be_bytes 8 q). intros b Hb.
    do 9 (destruct b as [|? b]; try done). }
  unfold toy_tag. rewrite !Hx. change (drop 4 (zeros 4 ++ ?b)) with b. intros E.
  apply (f_equal (take 8)) in E. rewrite !take_take in E. change (8 `min` 16)%nat with 8%nat in E.
  rewrite !take_app_length' in E by (by rewrite length_be_bytes).
  apply Hne. apply (f_equal be_val) in E. rewrite !be_val_be_bytes in E.
  change (256 ^ Z.of_nat 8) with (2 ^ 64) in E. rewrite !Z.mod_small in E by lia. done.
Qed.

(** A core with one session, one record in use and one crypto operation. *)
Definition gcm_sp : security_params :=
  security_params0 <| fixed_iv_length := 12 |> <| bulk_cipher_algorithm := AES |> <| cipher_type := AEAD |>.
Definition toy_session : ssl_session :=
  (@ssl_session0 sample_platform) <| write_sp := gcm_sp |> <| read_sp := gcm_sp |>.
Definition one_op : tailq := mk_tailq {[POOL := 0%nat]} {[POOL := Next 0]} ∅ {[0%nat := Head POOL]}.
Lemma one_op_rep : tq_rep one_op POOL [0%nat].
Proof. split; [apply NoDup_singleton|by repeat split|done]. Qed.
Definition toy_core (rc : record) : nic :=
  mk_nic ∅ {[0%nat := toy_session]} (create_ht NUM_BINS) 0 [] 0 {[0%nat := rc]} (TAILQ_INIT POOL tailq0) (TAILQ_INIT 0 tailq0) 0 1
    {[0%nat := op0]} one_op 1 0 false (mk_sj_ring 0 0 0 0 []) [] 0 0 (mk_sj_ring 0 0 0 0 []) 0 0 0%nat 0 [].
Lemma toy_core_pools rc : pools_ok (toy_core rc).
Proof.
  split; simpl; rewrite ?map_size_singleton; try done; (split; [|by eexists]); intros x [[h E]|[y E]]; simpl in E; try done.
  apply lookup_singleton_Some in E as [_ <-]. split; by eexists.
Qed.
Definition sealing_record : record :=
  record0 <| r_state := TO_ENCRYPT |> <| pt_length := 4 |> <| r_decrypted := [23; 3; 3; 0; 4; 20; 1; 2; 22] |>.
Definition opening_record (d : bytes) : record :=
  record0 <| r_state := TO_DECRYPT |> <| ct_length := Z.of_nat (length d) - 5 |> <| r_data := d |>.
Definition toy_ciphertext : bytes :=
  @TLSCiphertext sample_crypto (zeros 32) (zeros 12) 0 [20; 1; 2; 22].
Lemma toy_decryptable rc : r_state rc = TO_DECRYPT ->
  decryptable (toy_core rc) 0 0 toy_session rc 0 [].
Proof. intros Hs. split; try done; [apply toy_core_pools|apply one_op_rep|apply tls13_ctx0_ok]. Qed.

Lemma encrypt_record_rfc8446_witness :
  exists s' x' rc', @encrypt_record sample_crypto 0 0 (toy_core sealing_record) = Ret (0, s') /\
    sessions s' !! 0%nat = Some x' /\ records s' !! 0%nat = Some rc' /\
    r_data rc' = toy_ciphertext /\
    r_length rc' = Z.of_nat (length (r_data rc')) /\ r_state rc' = WRITE_READY /\
    send_seq_num_ x' = 1 /\ server_write_IV_seq_num x' = send_seq_num_ x' /\ tq_rep (op_pool s') POOL ([] ++ [0%nat]).
Proof.
  apply (@encrypt_record_rfc8446 sample_crypto sample_crypto_laws (toy_core sealing_record) 0 0 toy_session
    sealing_record 0 [] [0; 4] [20; 1; 2; 22]); try reflexivity.
  - apply toy_core_pools.
  - apply one_op_rep.
  - apply tls13_ctx0_ok.
  - by vm_compute.
  - by vm_compute.
Defined.

Lemma decrypt_record_rfc8446_witness :
  exists s' x', sessions s' !! 0%nat = Some x' /\ recv_seq_num_ x' = 0 /\ tq_rep (op_pool s') POOL ([] ++ [0%nat]) /\
    @decrypt_record sample_crypto 0 0 (toy_core (opening_record toy_ciphertext)) = Ret (0, s') /\
    client_write_IV_seq_num x' = 1 /\
    exists rc', records s' !! 0%nat = Some rc' /\ decrypted rc' = [23; 3; 3; 0; 4; 20; 1; 2; 22] /\
      ct_length rc' = 4 /\ r_state rc' = TO_VERIFY_MAC.
Proof.
  apply (@decrypt_record_rfc8446 sample_crypto sample_crypto_laws _ 0 0 toy_session
    (opening_record toy_ciphertext) 0 [] [] 0 [20; 1; 2; 22]).
  - apply toy_decryptable. reflexivity.
  - reflexivity.
  - reflexivity.
  - lia.
  - apply init_rep.
  - apply not_elem_of_nil.
  - vm_compute. reflexivity.
  - change (take 12 _) with (zeros 12). apply toy_authentic. lia.
  - reflexivity.
  - by vm_compute.
Defined.

Lemma short_record_overruns_witness :
  @decrypt_record sample_crypto 0 0 (toy_core (opening_record [23; 3; 3; 0; 1; 0])) = Fault Out_of_bounds.
Proof.
  apply (@short_record_overruns sample_crypto _ 0 0 toy_session (opening_record [23; 3; 3; 0; 1; 0]) 0 []).
  - apply toy_decryptable. reflexivity.
  - by vm_compute.
Defined.
