(* ===== verification/Session.v ===== *)
(** * The TLS server of a session (ssl.c)

    The handshake as the worker core runs it: TCP payload is cut into records
    ([process_new_record]), a record is decrypted, unpacked and handled
    ([process_read_record], [handle_read_record]), the server's messages are
    packed, stored in the transcript, encrypted and collected in the send
    buffer ([send_record]), and the public-key operations go to the PKA core
    through a ring ([submit_pka_request], [handle_submitted_pka],
    [handle_completed_pka], [get_processed_crypto]). The flight is sent when
    the host has acknowledged the connection ([send_remain_server_records]). *)

From Stdlib Require Import String.
From S2P Require Import Prelude TailQ Ring FlowTable Hkdf Operand ClientHello.
From S2P Require Import TlsPack NicState KeySchedule SslPools TcpOut MetaOut RecordLayer.

Definition TLS_OPCODE_ECDHE_KEY_GENERATION : Z := 0x00000704.
Definition TLS_OPCODE_ECDHE_SHARED_SECRET_CALC : Z := 0x00000804.
Definition TLS_OPCODE_ECDSA_SIGNATURE : Z := 0x00000905.
Definition X25519_KEY_LEN : Z := 32.

(** The message types for which [unpack_handshake] leaves its [switch] without
    a [return]. *)
Definition SERVER_KEY_EXCHANGE : Z := 12.
Definition CERTIFICATE_REQUEST : Z := 13.
Definition SERVER_HELLO_DONE : Z := 14.
Definition CLIENT_KEY_EXCHANGE : Z := 16.
Definition no_return_types : list Z :=
  [HELLO_REQUEST; CERTIFICATE; SERVER_HELLO; SERVER_KEY_EXCHANGE; CERTIFICATE_REQUEST;
   SERVER_HELLO_DONE; CERTIFICATE_VERIFY; CLIENT_KEY_EXCHANGE; FINISHED].

Section session.
Context `{Platform} `{Crypto}.

(** ** Requests to the PKA core *)

Definition submit_pka_request (op : nat) : nicM Z :=
  do s <- mget;
  do (rv, r) <- mres (sj_ring_enqueue (submit_pka_ring s) op);
  mmod (fun s => s <| submit_pka_ring := r |>);;;
  if rv <? 0 then delete_op op;;; ret (-1) else ret 0.

(** The common end of the three requests. *)
Definition await_pka (sess op : nat) : nicM Z :=
  do rv <- submit_pka_request op;
  if rv <? 0 then ret (-1) else
  mod_sess sess (fun x => x <| waiting_crypto := true |>);;;
  mod_op op (fun o => o <| op_pka_flag := true |>);;;
  mod_sess sess (fun x => x <| pending_pka_op := Some op |>);;;
  ret 0.

Definition generate_ecdhe_key_pair (sess r : nat) : nicM Z :=
  do op <- new_ssl_crypto_op;
  mod_op op (fun o => o <| op_sess := Some sess |> <| op_data := Some r |>
                        <| op_opcode := TLS_OPCODE_ECDHE_KEY_GENERATION |>);;;
  await_pka sess op.

(** A pointer into the fragment of a record: reading [n] bytes through it. *)
Definition read_ptr (rc : record) (p : option Z) (n : nat) : res bytes :=
  match p with
  | None => Fault Null_deref
  | Some off => ldn n (fragment rc) off
  end.

Definition calculate_shared_secret (sess r : nat) : nicM Z :=
  do rc <- get_rec r;
  do op <- new_ssl_crypto_op;
  mod_op op (fun o => o <| op_sess := Some sess |> <| op_data := None |>
                        <| op_opcode := TLS_OPCODE_ECDHE_SHARED_SECRET_CALC |>);;;
  do key <- mres (read_ptr rc (client_pub_key_ptr (extensions (f_client_hello rc))) 32);
  do x <- get_sess sess;
  do operand <- mres (string_to_operand key (shared_secret_operand x) X25519_KEY_LEN true);
  mod_sess sess (fun x => x <| shared_secret_operand := operand |>);;;
  await_pka sess op.

(** The content signed in CertificateVerify. *)
Definition signed_content (msgs : bytes) : bytes :=
  replicate 64 0x20 ++ str "TLS 1.3, server CertificateVerify" ++ [0x00] ++ SHA384 msgs.

Definition signature_certificate (sess : nat) : nicM Z :=
  do x <- get_sess sess;
  let transcript_hash := SHA256 (signed_content (handshake_msgs x)) in
  do op <- new_ssl_crypto_op;
  mod_op op (fun o => o <| op_sess := Some sess |> <| op_data := None |>
                        <| op_opcode := TLS_OPCODE_ECDSA_SIGNATURE |>);;;
  do h <- mres (string_to_operand transcript_hash (ecdsa_transcript_hash x) 32 false);
  do k <- mres (string_to_operand transcript_hash (ecdsa_k x) 32 false);
  mod_sess sess (fun x => x <| ecdsa_transcript_hash := h <| big_endian := false |> |>
                            <| ecdsa_k := k |>);;;
  await_pka sess op.

(** ** Sending records *)

Definition SEND_BUFFER_SIZE : Z := MAX_RECORD_SIZE.
Definition SERVER_RECORDS_SIZE : Z := 1024.

Definition send_pending_records (sess : nat) : nicM Z :=
  do x <- get_sess sess;
  do _ <- send_tcp_packet sess (send_buffer x) (send_buffer_offset x) TCP_FLAG_ACK;
  if SERVER_RECORDS_SIZE <? send_buffer_offset x then mfault Out_of_bounds else
  mod_sess sess (fun x => x
    <| server_records := rdn (Z.to_nat (send_buffer_offset x)) (send_buffer x) 0 |>
    <| send_buffer := [] |> <| send_buffer_offset := 0 |>);;;
  ret 0.

(** [send_record] with the packing functions of TlsPack.v. A message type they
    do not know is answered by deleting the record and aborting through its
    cleared [sess] pointer. *)
Definition send_record (sess r : nat) (record_type mt : Z) (bl : handshake_body * Z)
    (send_type : bool) : nicM Z :=
  do x <- get_sess sess;
  do rc <- get_rec r;
  massert (bool_decide (r_state rc = TO_PACK_HEADER));;;
  match build record_type mt (major (version x), minor (version x)) bl (cert_signature_len (tls13 x)) with
  | None => delete_record sess r;;; mfault Null_deref
  | Some (Fault f) => mfault f
  | Some (Ret pk) =>
      if DATA_SIZE <? Z.of_nat (length (pk_decrypted pk)) then mfault Out_of_bounds else
      mod_rec r (fun rc => rc
        <| pt_record_type := record_type |> <| pt_version := version x |>
        <| pt_length := pk_length pk |> <| r_length := pk_record_length pk |>
        <| r_decrypted := pk_decrypted pk |> <| f_msg_type := mt |> <| r_state := TO_APPEND_MAC |>);;;
      store_handshake sess r;;;
      do rv <- (if negb (bulk_cipher_algorithm (write_sp x) =? NO_CIPHER) then
                  do m <- (if negb (cipher_type (pending_sp x) =? AEAD) then attach_mac sess r else ret 0);
                  if m <? 0 then ret (-1) else
                  mod_rec r (fun rc => rc <| r_state := TO_ENCRYPT |>);;;
                  encrypt_record sess r
                else
                  mod_rec r (fun rc => rc <| r_data := r_decrypted rc |> <| r_aliased := true |>
                                          <| r_state := WRITE_READY |>);;;
                  ret 0);
      if rv <? 0 then ret (-1) else
      do rc <- get_rec r;
      do x <- get_sess sess;
      if SEND_BUFFER_SIZE <? send_buffer_offset x + r_length rc then mfault Out_of_bounds else
      mod_sess sess (fun x => x
        <| send_buffer := take (Z.to_nat (send_buffer_offset x)) (send_buffer x)
                            ++ rdn (Z.to_nat (r_length rc)) (r_data rc) 0 |>
        <| send_buffer_offset := send_buffer_offset x + r_length rc |>);;;
      (if send_type then send_pending_records sess else ret 0);;;
      delete_record sess r;;;
      ret (r_length rc)
  end.

(** The messages exit when they cannot be sent. *)
Definition send_or_exit (m : nicM Z) : nicM Z := do rv <- m; if rv <? 0 then mexit else ret rv.

Definition send_server_hello (sess : nat) : nicM Z :=
  do r <- new_send_record sess;
  do x <- get_sess sess;
  do key <- mres (server_pub_key (ecdhe_pub_key x) (garbage 32));
  send_or_exit (send_record sess r HANDSHAKE SERVER_HELLO
    (fill_server_hello (major (version x), minor (version x)) (server_random (pending_sp x)) (id_ x)
       (cipher (pending_sp x)) key) false).

Definition send_encrypted_extensions (sess : nat) : nicM Z :=
  do r <- new_send_record sess;
  send_or_exit (send_record sess r APPLICATION_DATA ENCRYPTED_EXTENSIONS
    fill_encrypted_extensions false).

Definition send_certificate (sess : nat) : nicM Z :=
  do r <- new_send_record sess;
  send_or_exit (send_record sess r APPLICATION_DATA CERTIFICATE (fill_certificate certificate) false).

Definition send_certificate_verify (sess : nat) : nicM Z :=
  do r <- new_send_record sess;
  do x <- get_sess sess;
  send_or_exit (send_record sess r APPLICATION_DATA CERTIFICATE_VERIFY
    (fill_certificate_verify (signature_algorithm (write_sp x)) (cert_signature (tls13 x))
       (cert_signature_len (tls13 x))) false).

Definition send_server_finished (sess : nat) : nicM Z :=
  do r <- new_send_record sess;
  do x <- get_sess sess;
  do (vd, _) <- mres (finished_mac hops SHA384 (server_secret (tls13 x)) (handshake_msgs x) (zeros 48)
                         t_hmac_ctx);
  send_or_exit (send_record sess r APPLICATION_DATA FINISHED (fill_server_finished vd) false).

(** Running a function of the key schedule on the session: true when it
    returned normally. *)
Definition run_kd (sess : nat) (k : kd hops unit) : nicM bool :=
  do x <- get_sess sess;
  let '(r, (t, _)) := k (tls13 x, t_hmac_ctx) in
  mod_sess sess (fun x => x <| tls13 := t |>);;;
  ret (bool_decide (is_Some r)).

(** The arrays of the functions of the key schedule. *)
Definition LOCAL_SIZE : nat := 256.

Definition send_remain_server_records (sess : nat) : nicM unit :=
  do x <- get_sess sess;
  if (handshake_state x =? SERVER_HELLO) && handshake_key_calculated (tls13 x) then
    send_encrypted_extensions sess;;;
    mod_sess sess (fun x => x <| handshake_state := ENCRYPTED_EXTENSIONS |>);;;
    send_certificate sess;;;
    mod_sess sess (fun x => x <| handshake_state := CERTIFICATE |>);;;
    signature_certificate sess;;;
    ret tt
  else if (handshake_state x =? CERTIFICATE) && cert_signatured (tls13 x) then
    send_certificate_verify sess;;;
    mod_sess sess (fun x => x <| handshake_state := CERTIFICATE_VERIFY |>);;;
    send_server_finished sess;;;
    do x <- get_sess sess;
    run_kd sess (handle_app_keys_calculation hops SHA384 (cipher (pending_sp x)) (garbage LOCAL_SIZE)
                   (handshake_msgs x));;;
    do x <- get_sess sess;
    do (t, _) <- mres (handle_verify_data_calculation hops SHA384 (handshake_msgs x) (tls13 x) t_hmac_ctx);
    mod_sess sess (fun x => x <| tls13 := t |>);;;
    do c <- get_conn sess;
    send_key_meta (portid c + 1) sess;;;
    ret tt
  else
    do c <- get_conn sess;
    if (handshake_state x =? CERTIFICATE_VERIFY) && recv_mig_fin c then
      send_pending_records sess;;;
      mod_sess sess (fun x => x <| handshake_state := FINISHED |>)
    else ret tt.

(** ** Unpacking a received record *)

(** Enough turns for every extension block that does not wrap around: each
    turn advances by 4 bytes or more in at most 65536. *)
Definition EXT_FUEL : nat := Z.to_nat 16384.

Definition unpack_handshake (r : nat) : nicM Z :=
  do rc <- get_rec r;
  let pf := fragment rc in
  let mt := rd8 pf 0 in
  mod_rec r (fun rc => rc <| f_msg_type := mt |> <| f_length := rdn 3 pf 1 |>);;;
  if mt =? CLIENT_HELLO then
    if (major (pt_version rc) =? 0x03) && (minor (pt_version rc) =? 0x01) then
      do (pch, has_ext) <- match unpack_client_hello EXT_FUEL pf (pt_length rc) with
                           | Some o => mres o
                           | None => mfault Prelude.Out_of_fuel
                           end;
      mod_rec r (fun rc => rc <| f_client_hello := pch |>);;;
      if has_ext : bool then
        do sess <- mderef (r_sess rc);
        mod_sess sess (fun x => x <| id_ := ch_session_id pch |>);;;
        generate_ecdhe_key_pair sess r
      else mfault Undefined_value
    else mfault Undefined_value
  else if bool_decide (mt ∈ no_return_types) then mfault Undefined_value
  else ret (-1).

Definition unpack_alert (r : nat) : nicM Z :=
  mod_rec r (fun rc => rc <| f_level := rd8 (decrypted rc) 5 |>
                          <| f_description := rd8 (decrypted rc) 6 |>);;;
  ret 0.

(** [pf[end - 1]], the content type of a TLS 1.3 inner plaintext. *)
Definition inner_type (rc : record) : Z := rd8 (decrypted rc) (Z.to_nat (5 + pt_length rc - 1)).

Definition unpack_application_data (r : nat) : nicM Z :=
  do rc <- get_rec r;
  mod_rec r (fun rc => rc <| f_length := rdn 3 (fragment rc) 1 |>);;;
  if inner_type rc =? HANDSHAKE then
    mod_rec r (fun rc => rc <| f_verify_data := rdn 48 (fragment rc) 4 |>);;;
    ret 0
  else ret (-1).

Definition unpack_record (r : nat) : nicM Z :=
  do rc <- get_rec r;
  massert (bool_decide (r_state rc = TO_UNPACK_CONTENT));;;
  if major (pt_version rc) =? 0x03 then
    mod_rec r (fun rc => if r_aliased rc then rc else rc <| pt_length := ct_length rc |>);;;
    let t := pt_record_type rc in
    do rv <- (if t =? HANDSHAKE then unpack_handshake r
              else if t =? CHANGE_CIPHER_SPEC then ret 0
              else if t =? ALERT then unpack_alert r
              else if t =? APPLICATION_DATA then unpack_application_data r
              else mfault Assert_failed);
    mod_rec r (fun rc => rc <| r_state := READ_READY |>);;;
    ret rv
  else ret (-1).

(** ** Handling a received record *)

(** [remove_hws] (tcp.c). *)
Definition remove_hws (i : nat) : nicM unit :=
  do c <- get_conn i;
  if hws_applied c && hws_ready_to_del c then
    mod_conn i (fun c => c <| hws_deleted := true |>);;;
    remove_session i
  else ret tt.

(** A [select_*] function on the [len] bytes behind a pointer: its loop stops
    at the first match and leaves the record only when there is none. *)
Definition select_in (sel : list (Z * Z) -> Z * Z) (rc : record) (p : option Z) (len : Z)
    : res (Z * Z) :=
  let n := Z.to_nat (len / 2) in
  if (n =? 0)%nat then Ret (sel []) else
  match p with
  | None => Fault Null_deref
  | Some off =>
      let avail := Z.to_nat ((FRAG_SIZE - off) / 2) in
      let v := sel (pairs (n `min` avail) (fragment rc) (Z.to_nat off)) in
      if bool_decide (v = sel []) && (avail <? n)%nat then Fault Out_of_bounds else Ret v
  end.

(** The parameters of TLS_AES_256_GCM_SHA384. *)
Definition PRF_SHA384 : Z := 2.
Definition gcm_params (random server_random_ : bytes) (sp : security_params) : security_params :=
  sp <| prf_algorithm := PRF_SHA384 |> <| bulk_cipher_algorithm := AES |> <| cipher_type := AEAD |>
     <| enc_key_size := 32 |> <| fixed_iv_length := 12 |> <| compression_algorithm := 0 |>
     <| client_random := random |> <| server_random := server_random_ |>.

Definition handle_client_hello (sess r : nat) : nicM unit :=
  do rc <- get_rec r;
  let ch := f_client_hello rc in
  let x := extensions ch in
  mod_sess sess (fun s => s <| s_state := STATE_HANDSHAKE |> <| handshake_state := CLIENT_HELLO |>);;;
  do cipher_ <- mres (select_in select_cipher rc (cipher_suites ch) (cipher_suite_length ch));
  do curve_ <- mres (select_in select_supported_group rc (curves_list x) (curves_list_length x));
  do sig_ <- mres (select_in select_signature_algorithm rc (signature_algorithm_list x)
                     (signature_algorithm_list_length x));
  do key <- mres (read_ptr rc (client_pub_key_ptr x) 32);
  mod_sess sess (fun s => s <| pending_sp ::= fun sp =>
    sp <| cipher := cipher_ |> <| curve := curve_ |> <| signature_algorithm := sig_ |>
       <| client_pub_key := key |> |>);;;
  do t <- mget;
  (if bool_decide (cipher_ = TLS_AES_256_GCM_SHA384) then
     mod_sess sess (fun s => s <| pending_sp ::=
       gcm_params (ch_random ch) (le_bytes 4 (u32 (now t)) ++ init_random (rand_seed s) 28) |>)
   else ret tt);;;
  mod_sess sess (fun s => s <| version := mk_version (ch_version ch).1 (ch_version ch).2 |>);;;
  send_server_hello sess;;;
  mod_sess sess (fun s => s <| handshake_state := SERVER_HELLO |>);;;
  calculate_shared_secret sess r;;;
  mod_sess sess (fun s => s <| write_sp := pending_sp s |> <| send_seq_num_ := 0 |>).

(** [handle_handshake]: the [default] case aborts through the [sess] pointer of
    the record it has just cleared. *)
Definition handle_handshake (sess r : nat) : nicM Z :=
  store_handshake sess r;;;
  do rc <- get_rec r;
  do x <- get_sess sess;
  if f_msg_type rc =? CLIENT_HELLO then
    (if CLIENT_HELLO <=? handshake_state x then ret tt else handle_client_hello sess r);;;
    delete_record sess r;;;
    ret 0
  else
    delete_record sess r;;;
    mfault Null_deref.

Definition handle_change_cipher_spec (sess r : nat) : nicM Z :=
  do x <- get_sess sess;
  (if negb (handshake_state x =? FINISHED) && (CLIENT_CIPHER_SPEC <=? handshake_state x) then ret tt
   else mod_sess sess (fun x => x
     <| handshake_state := CLIENT_CIPHER_SPEC |> <| recv_seq_num_ := 0 |>
     <| client_write_IV_seq_num := 0 |> <| read_sp := pending_sp x |>));;;
  delete_record sess r;;;
  ret 0.

Definition handle_alert (sess r : nat) : nicM Z :=
  do rc <- get_rec r;
  delete_record sess r;;;
  (if (f_level rc =? 2) || (f_description rc =? 0) then abort_session sess else ret 0);;;
  ret 0.

Definition handle_application_data (sess r : nat) : nicM Z :=
  do rc <- get_rec r;
  let mt := inner_type rc in
  if mt =? APPLICATION_DATA then delete_record sess r;;; ret 0
  else if mt =? HANDSHAKE then
    do x <- get_sess sess;
    if FINISHED <=? handshake_state x then delete_record sess r;;; ret 0 else
    mod_sess sess (fun x => x <| handshake_state := FINISHED |> <| s_state := STATE_ACTIVE |>);;;
    mod_conn sess (fun c => c <| onload := true |>);;;
    if bool_decide (rdn 48 (calculated_vd (tls13 x)) 0 = f_verify_data rc) then
      send_tcp_packet sess [] 0 TCP_FLAG_ACK;;;
      delete_record sess r;;;
      ret 0
    else
      remove_hws sess;;;
      abort_session sess;;;
      ret (-1)
  else delete_record sess r;;; ret (-1).

Definition handle_read_record (sess r : nat) : nicM Z :=
  do rc <- get_rec r;
  massert (bool_decide (r_state rc = READ_READY));;;
  let t := pt_record_type rc in
  if t =? HANDSHAKE then handle_handshake sess r
  else if t =? CHANGE_CIPHER_SPEC then handle_change_cipher_spec sess r
  else if t =? ALERT then handle_alert sess r
  else if t =? APPLICATION_DATA then handle_application_data sess r
  else ret (-1).

(** The retransmitted ClientHello of [process_read_record]. *)
Definition retransmitted_ch (sess r : nat) : nicM Z :=
  do x <- get_sess sess;
  do c <- get_conn sess;
  (if (handshake_state x =? CERTIFICATE_VERIFY) && cert_signatured (tls13 x) then
     send_key_meta (portid c + 1) sess;;;
     mod_sess sess (fun x => x <| num_of_retransmitted_meta_pkt ::= Z.succ |>)
   else ret tt);;;
  (if (handshake_state x =? FINISHED) && cert_signatured (tls13 x) then
     send_tcp_packet sess (server_records x) (Z.of_nat (length (server_records x))) TCP_FLAG_ACK;;;
     ret tt
   else ret tt);;;
  mod_sess sess (fun x => x <| num_of_retransmitted_ch ::= Z.succ |>);;;
  delete_record sess r;;;
  ret 0.

Definition process_read_record (sess r : nat) : nicM Z :=
  do x <- get_sess sess;
  do rc <- get_rec r;
  if (CLIENT_HELLO <=? handshake_state x) && (rd8 (r_data rc) 0 =? HANDSHAKE) then
    retransmitted_ch sess r
  else
  unpack_header r;;;
  do failed <- (if negb (bulk_cipher_algorithm (read_sp x) =? NO_CIPHER) then
                  do d <- (if bool_decide (s_state x = STATE_ACTIVE) then ret 0 else decrypt_record sess r);
                  if d <? 0 then delete_record sess r;;; ret true else
                  do v <- (if negb (cipher_type (read_sp x) =? AEAD) then verify_mac abort_session sess r
                           else ret 0);
                  if v <? 0 then delete_record sess r;;; ret true else ret false
                else mod_rec r (fun rc => rc <| r_aliased := true |>);;; ret false);
  if failed : bool then ret (-1) else
  mod_rec r (fun rc => rc <| r_state := TO_UNPACK_CONTENT |>);;;
  do u <- unpack_record r;
  if u <? 0 then ret (-1) else
  do rc <- get_rec r;
  if (pt_record_type rc =? HANDSHAKE) && (f_msg_type rc =? CLIENT_HELLO) then ret 0
  else handle_read_record sess r.

(** ** Cutting the TCP stream into records *)

Definition push_read_record (sess r : nat) : nicM unit :=
  do s <- mget;
  do q <- mres (TAILQ_INSERT_TAIL sess r (recv_qs s));
  mmod (fun s => s <| recv_qs := q |>);;;
  mod_sess sess (fun x => x <| recv_q_cnt ::= Z.succ |>).

(** The record that receives the next bytes: the current one, or a new one
    whose length is read from the header in the packet; [None] when fewer
    bytes than a header are left. *)
Definition open_record (sess : nat) (pkt : bytes) (processed pkt_len : Z) (crr : option nat)
    : nicM (option nat) :=
  match crr with
  | Some r => ret (Some r)
  | None =>
      if pkt_len - processed <? RECORD_HEADER_SIZE then ret None else
      do r <- new_recv_record sess;
      mod_sess sess (fun x => x <| current_read_record := Some r |>);;;
      (if Z.of_nat (length pkt) <? processed + 5 then mfault Out_of_bounds else ret tt);;;
      let record_len := ntohs (rd16 pkt (Z.to_nat processed + 3)) in
      massert (record_len <? MAX_RECORD_SIZE);;;
      mod_rec r (fun rc => rc <| r_length := record_len + RECORD_HEADER_SIZE |>);;;
      ret (Some r)
  end.

(** [while (processed_len < pkt_len)]; [pkt] is the memory from [pkt_buf] on. *)
Fixpoint new_record_loop (fuel : nat) (sess : nat) (pkt : bytes) (processed pkt_len : Z)
    (crr : option nat) : nicM Z :=
  let finish := match crr with Some _ => ret (-1) | None => ret processed end in
  if pkt_len <=? processed then finish else
  match fuel with
  | O => mfault Prelude.Out_of_fuel
  | S fuel' =>
      do o <- open_record sess pkt processed pkt_len crr;
      match o with
      | None => finish
      | Some r =>
          do rc <- get_rec r;
          let copy_len := Z.min (r_length rc - r_current_len rc) (pkt_len - processed) in
          if (DATA_SIZE <? r_current_len rc + copy_len) ||
             (Z.of_nat (length pkt) <? processed + copy_len)
          then mfault Out_of_bounds else
          mod_rec r (fun rc => rc
            <| r_data := take (Z.to_nat (r_current_len rc)) (r_data rc) ++
                         rdn (Z.to_nat copy_len) pkt (Z.to_nat processed) |>
            <| r_current_len := r_current_len rc + copy_len |>);;;
          let processed := processed + copy_len in
          if r_current_len rc + copy_len =? r_length rc then
            do x <- get_sess sess;
            (if waiting_crypto x then push_read_record sess r
             else process_read_record sess r;;; ret tt);;;
            mod_sess sess (fun x => x <| current_read_record := None |>);;;
            new_record_loop fuel' sess pkt processed pkt_len None
          else new_record_loop fuel' sess pkt processed pkt_len (Some r)
      end
  end.

Definition process_new_record (sess : nat) (pkt : bytes) (pkt_len : Z) : nicM Z :=
  do x <- get_sess sess;
  new_record_loop (Z.to_nat pkt_len) sess pkt 0 pkt_len (current_read_record x).

Definition process_ssl_packet (sess : nat) (payload : bytes) (payload_len : Z) : nicM Z :=
  if payload_len =? 0 then ret (-1) else process_new_record sess payload payload_len.

(** [while (sess->recv_q_cnt > 0 && !sess->waiting_crypto)]. *)
Fixpoint session_read_loop (fuel : nat) (sess : nat) (processed : Z) : nicM Z :=
  do x <- get_sess sess;
  if (recv_q_cnt x <=? 0) || waiting_crypto x then ret processed else
  match fuel with
  | O => mfault Prelude.Out_of_fuel
  | S fuel' =>
      do s <- mget;
      do target <- mderef (TAILQ_FIRST sess (recv_qs s));
      do q <- mres (TAILQ_REMOVE sess target (recv_qs s));
      mmod (fun s => s <| recv_qs := q |>);;;
      mod_sess sess (fun x => x <| recv_q_cnt ::= Z.pred |>);;;
      process_read_record sess target;;;
      session_read_loop fuel' sess (processed + 1)
  end.
Definition process_session_read (sess : nat) : nicM Z :=
  do x <- get_sess sess;
  massert (0 <=? recv_q_cnt x);;;
  session_read_loop (Z.to_nat (recv_q_cnt x)) sess 0.

(** ** Results of the PKA core *)

(** [handle_after_ecdhe_key_gen]. *)
Definition handle_after_ecdhe_key_gen (sess : nat) : nicM Z :=
  do x <- get_sess sess;
  do r0 <- mderef (pka_results x !! 0%nat);
  do pub <- mres (copy_operand r0 (ecdhe_pub_key x));
  mod_sess sess (fun x => x <| ecdhe_pub_key := pub |>);;;
  ret 0.

Definition after_shared_secret (sess : nat) : nicM Z :=
  mod_sess sess (fun x => x <| pending_pka_op := None |>);;;
  do x <- get_sess sess;
  do r0 <- mderef (pka_results x !! 0%nat);
  do k <- mres (handle_after_ecdhe_shared_secret_calc hops SHA384 (cipher (pending_sp x))
                  (garbage LOCAL_SIZE) (garbage 32) (handshake_msgs x) r0);
  do ok <- run_kd sess k;
  ret (if ok : bool then 0 else -1).

Definition after_signature (sess : nat) : nicM Z :=
  mod_sess sess (fun x => x <| pending_pka_op_1 := None |>);;;
  do x <- get_sess sess;
  do r0 <- mderef (pka_results x !! 0%nat);
  do r1 <- mderef (pka_results x !! 1%nat);
  do (sg, len) <- mres (handle_after_ecdsa_signature r0 r1 (garbage 127) (garbage 127));
  mod_sess sess (fun x => x <| tls13 ::= fun t =>
    t <| cert_signature := wr (cert_signature t) 0 sg |> <| cert_signature_len := len |>
      <| cert_signatured := true |> |>);;;
  ret 0.

(** [get_processed_crypto] in two parts: what it does with the answer, which
    may submit the session's next request, and the stores after it. [None]:
    it returns before those. *)
Definition use_answer (sess : nat) : nicM (option nat) :=
  do x <- get_sess sess;
  if negb (completed_crypto x) then ret None else
  do op <- mderef (pka_op x);
  do o <- get_op op;
  let hs := handshake_state x in
  let clear_pending := mod_sess sess (fun x => x <| pending_pka_op := None |>) in
  do (rv, need_read_record) <-
    (if hs =? HELLO_REQUEST then
       clear_pending;;; do rv <- handle_after_ecdhe_key_gen sess; ret (rv, true)
     else if hs =? SERVER_HELLO then
       clear_pending;;; do rv <- after_shared_secret sess; ret (rv, false)
     else if hs =? CERTIFICATE then
       clear_pending;;; do rv <- after_signature sess; ret (rv, false)
     else mexit);
  if rv <? 0 then ret None else
  do rv <- (if need_read_record : bool then
              do r <- (match op_data o with Some r => ret r | None => mfault Assert_failed end);
              handle_read_record sess r
            else ret 0);
  if rv <? 0 then ret None else ret (Some op).
Definition reset_crypto (sess op : nat) : nicM unit :=
  mod_sess sess (fun x => x <| waiting_crypto := false |> <| completed_crypto := false |>);;;
  delete_op op.
Definition get_processed_crypto (sess : nat) : nicM unit :=
  do o <- use_answer sess;
  match o with
  | Some op => reset_crypto sess op
  | None => ret tt
  end.

(** ** The PKA core

    Core 0 serves the rings of the workers; these are its steps for one
    worker, whose state they change. *)

Definition MAX_OUTSTANDING_PKA_REQ : Z := 64.

(** The three [execute_*] functions: the operands in use and the results the
    accelerator will return; they assert that the library takes the command,
    which may depend on how many it holds ([pka_accepts]). *)
Definition execute_pka (op : nat) (o : ssl_crypto_op) : nicM unit :=
  do sess <- mderef (op_sess o);
  let accept results :=
    do s <- mget;
    massert (pka_accepts (length (engine s)));;;
    mmod (fun s => s <| engine ::= fun l => l ++ [(op, results)] |>) in
  if op_opcode o =? TLS_OPCODE_ECDHE_KEY_GENERATION then
    do x <- get_sess sess;
    do priv <- mres (rand_non_zero_integer_w_pka_hwrng_and_clamping ring_order pka_get_rand_bytes
                       (ecdhe_priv_key x) base_pt_order);
    mod_sess sess (fun x => x <| ecdhe_priv_key := priv |>);;;
    accept [pka_mont_ecdh_mult base_pt priv]
  else if op_opcode o =? TLS_OPCODE_ECDHE_SHARED_SECRET_CALC then
    do x <- get_sess sess;
    accept [pka_mont_ecdh_mult (shared_secret_operand x) (ecdhe_priv_key x)]
  else
    do x <- get_sess sess;
    let '(r, s) := pka_ecdsa_sign ecdsa_priv_key (ecdsa_transcript_hash x) (ecdsa_k x) in
    accept [r; s].

Definition pka_opcodes : list Z :=
  [TLS_OPCODE_ECDHE_KEY_GENERATION; TLS_OPCODE_ECDHE_SHARED_SECRET_CALC; TLS_OPCODE_ECDSA_SIGNATURE].

(** One turn of the loop of [handle_submitted_pka]: false when the ring is
    empty. *)
Definition submitted_step : nicM bool :=
  do s <- mget;
  do (rv, ring') <- mres (match sj_ring_dequeue (submit_pka_ring s) with
                          | Ret (rv, o, ring') => Ret ((rv, o), ring')
                          | Fault f => Fault f end);
  let '(rv, slot) := rv in
  mmod (fun s => s <| submit_pka_ring := ring' |>);;;
  if rv <? 0 then ret false else
  do op <- mderef slot;
  do o <- get_op op;
  if negb (bool_decide (op_opcode o ∈ pka_opcodes)) then mexit else
  execute_pka op o;;;
  mod_op op (fun o => o <| op_pka_flag := true |>);;;
  do sess <- mderef (op_sess o);
  mod_sess sess (fun x => x <| pending_pka_op := Some op |>);;;
  mmod (fun s => s <| cur_crypto_cnt ::= fun n => u32 (n + 1) |>);;;
  ret true.

(** [while (cur_crypto_cnt < MAX_OUTSTANDING_PKA_REQ)]: each turn adds one, so
    64 turns are enough. *)
Fixpoint submitted_loop (fuel : nat) : nicM Z :=
  do s <- mget;
  if negb (cur_crypto_cnt s <? MAX_OUTSTANDING_PKA_REQ) then ret 0 else
  match fuel with
  | O => mfault Prelude.Out_of_fuel
  | S fuel' =>
      do more <- submitted_step;
      if more : bool then do n <- submitted_loop fuel'; ret (n + 1) else ret 0
  end.
Definition handle_submitted_pka : nicM Z := submitted_loop 64.

(** Copying the results into the session's buffers. *)
Fixpoint copy_results (dst src : list pka_operand) : res (list pka_operand) :=
  match src with
  | [] => Ret dst
  | o :: src' =>
      match dst with
      | [] => Fault Out_of_bounds
      | d :: dst' =>
          res_bind (memcpy (buf_ptr d) (buf_ptr o) (buf_len o)) (fun b =>
          res_bind (copy_results dst' src') (fun rest =>
          Ret (d <| buf_ptr := b |> <| buf_len := buf_len o |> <| actual_len := actual_len o |> :: rest)))
      end
  end.

(** What the accelerator returns to one call of [pka_get_result]: one of the
    commands in flight, in no particular order, and whether it succeeded. *)
Record pka_answer := mk_answer { pick : nat; pka_status : Z }.

(** One result of [handle_completed_pka]; [None] when nothing is in flight. A
    result whose operation was flagged off ("rotten") is dropped and not
    counted. *)
Definition completed_step (a : pka_answer) : nicM (option Z) :=
  do s <- mget;
  let k := (pick a mod length (engine s))%nat in
  match engine s !! k with
  | None => ret None
  | Some (op, results) =>
      mmod (fun s => s <| engine ::= delete k |>);;;
      if negb (pka_status a =? 0) then mexit else
      do o <- get_op op;
      do sess <- mderef (op_sess o);
      mod_sess sess (fun x => x <| pka_op := Some op |>);;;
      if negb (op_pka_flag o) then ret (Some 0) else
      do x <- get_sess sess;
      (if (handshake_state x =? HELLO_REQUEST) && bool_decide (op_data o = None) then mexit else ret tt);;;
      do res <- mres (copy_results (pka_results x) results);
      mod_sess sess (fun x => x <| pka_results := res |>);;;
      mmod (fun s => s <| cur_crypto_cnt ::= (fun n => u32 (n - 1)) |>
                       <| completed_crypto_cnt ::= (fun n => u32 (n + 1)) |>);;;
      mod_sess sess (fun x => x <| completed_crypto := true |>);;;
      ret (Some 1)
  end.

(** [while (cur_crypto_cnt > 0)]: [answers] are the results the accelerator
    has finished; after them [pka_get_result] fails and the loop ends. *)
Fixpoint completed_loop (answers : list pka_answer) : nicM Z :=
  do s <- mget;
  if cur_crypto_cnt s <=? 0 then ret 0 else
  match answers with
  | [] => ret 0
  | a :: answers' =>
      do more <- completed_step a;
      match more with
      | Some k => do n <- completed_loop answers'; ret (n + k)
      | None => ret 0
      end
  end.
Definition handle_completed_pka (answers : list pka_answer) : nicM Z := completed_loop answers.

(** What core 0 does in each turn of [main_loop] (tcp.c). *)
Definition pka_round (answers : list pka_answer) : nicM (Z * Z) :=
  do n <- handle_submitted_pka;
  do m <- handle_completed_pka answers;
  ret (n, m).
End session.
