(* ===== verification/SessionInv.v ===== *)
(** * The invariant of a worker core, through the TLS layer

    [inv] joins the well-formedness of the connection tables ([wf]) and of the
    pools ([pools_ok], which a double release does not break). Every function of RecordLayer.v and Session.v keeps it
    in all runs that return; the proofs follow the code with the tactic
    [pres]. *)

From S2P Require Import Prelude TailQ Ring FlowTable Hkdf Operand ClientHello TlsPack.
From S2P Require Import NicState KeySchedule SslPools TcpOut MetaOut RecordLayer Session.

Lemma pres_and {S A} (P Q : S -> Prop) (m : M S A) :
  preserves P m -> preserves Q m -> preserves (fun s => P s /\ Q s) m.
Proof. intros HP HQ s a s' [] E. split; [by eapply HP|by eapply HQ]. Qed.

#[export] Instance wf_is_framed : Framed wf.
Proof. intros s s' Hs [m Hw]. exists m. by eapply framed. Qed.

(** What keeps the tables for every map keeps [wf]. *)
Lemma wf_all {A} (p : nicM A) : (forall m, preserves (wf_map m None) p) -> preserves wf p.
Proof. intros Hp s a s' [m Hm] E. exists m. by eapply Hp. Qed.

Definition inv (s : nic) : Prop := wf s /\ pools_ok s.
Lemma inv_intro {A} (p : nicM A) : preserves wf p -> preserves pools_ok p -> preserves inv p.
Proof. apply pres_and. Qed.

Section tables.
Context `{Platform}.

Lemma wf_remove i : preserves wf (remove_session i).
Proof. intros s [] s' [m Hm] E. destruct (remove_inv _ _ _ _ Hm E) as (k & _ & Hw). by eexists. Qed.
Lemma wf_send_tcp' i payload n flags : preserves wf (send_tcp_packet i payload n flags).
Proof. apply wf_all. intros m. auto with pres. Qed.
Lemma wf_conn i f :
  (forall c, c_flow (f c) = c_flow c /\ (c_state (f c) = TCP_SESSION_IDLE -> c_state c = TCP_SESSION_IDLE)) ->
  preserves wf (mod_conn i f).
Proof. intros Hf. apply wf_all. intros m. by apply wf_mod_conn. Qed.
End tables.
#[export] Hint Resolve wf_remove wf_send_tcp' : pres.
#[export] Hint Extern 1 (preserves wf (mod_conn _ _)) => (apply wf_conn; done) : pres.
(** A call whose two halves are in the database. *)
#[export] Hint Extern 3 (preserves inv _) =>
  (apply inv_intro; solve [auto with pres nocore]) : pres.

Section layer.
Context `{Platform} `{Crypto}.

Lemma inv_abort i : preserves inv (abort_session i).
Proof. unfold abort_session. pres. Qed.
Lemma inv_key_meta port i : preserves inv (send_key_meta port i).
Proof. unfold send_key_meta. pres. Qed.
Lemma inv_rst_meta port i : preserves inv (send_rst_conn_meta port i).
Proof. unfold send_rst_conn_meta. pres. Qed.
#[local] Hint Resolve inv_abort inv_key_meta : pres.

Lemma inv_unpack_header r : preserves inv (unpack_header r).
Proof. unfold unpack_header. pres. Qed.
Lemma inv_gcm_encrypt i r : preserves inv (handle_after_aes_gcm_encrypt i r).
Proof. unfold handle_after_aes_gcm_encrypt. pres. Qed.
Lemma inv_gcm_decrypt i r : preserves inv (handle_after_aes_gcm_decrypt i r).
Proof. unfold handle_after_aes_gcm_decrypt. pres. Qed.
#[local] Hint Resolve inv_gcm_encrypt inv_gcm_decrypt : pres.
Lemma inv_after_aes i op : preserves inv (handle_after_aes_crypto i op).
Proof. unfold handle_after_aes_crypto. pres. Qed.
#[local] Hint Resolve inv_after_aes : pres.
Lemma inv_encrypt i r : preserves inv (encrypt_record i r).
Proof. unfold encrypt_record. pres. Qed.
Lemma inv_decrypt i r : preserves inv (decrypt_record i r).
Proof. unfold decrypt_record. pres. Qed.
Lemma inv_attach i r : preserves inv (attach_mac i r).
Proof. unfold attach_mac, append_mac. pres. Qed.
Lemma inv_verify i r : preserves inv (verify_mac abort_session i r).
Proof. unfold verify_mac. pres. Qed.
#[local] Hint Resolve inv_unpack_header inv_encrypt inv_decrypt inv_attach inv_verify : pres.

(** *** Session.v *)

Lemma inv_submit op : preserves inv (submit_pka_request op).
Proof. unfold submit_pka_request. pres. Qed.
#[local] Hint Resolve inv_submit : pres.
Lemma inv_await i op : preserves inv (await_pka i op).
Proof. unfold await_pka. pres. Qed.
#[local] Hint Resolve inv_await : pres.
Lemma inv_keygen i r : preserves inv (generate_ecdhe_key_pair i r).
Proof. unfold generate_ecdhe_key_pair. pres. Qed.
Lemma inv_secret i r : preserves inv (calculate_shared_secret i r).
Proof. unfold calculate_shared_secret. pres. Qed.
Lemma inv_sign i : preserves inv (signature_certificate i).
Proof. unfold signature_certificate. pres. Qed.
Lemma inv_pending i : preserves inv (send_pending_records i).
Proof. unfold send_pending_records. pres. Qed.
#[local] Hint Resolve inv_keygen inv_secret inv_sign inv_pending : pres.
Lemma inv_send_record i r t mt bl st : preserves inv (send_record i r t mt bl st).
Proof. unfold send_record. pres. Qed.
#[local] Hint Resolve inv_send_record : pres.
Lemma inv_or_exit m : preserves inv m -> preserves inv (send_or_exit m).
Proof. intros Hm. unfold send_or_exit. pres. Qed.
#[local] Hint Resolve inv_or_exit : pres.
Lemma inv_server_hello i : preserves inv (send_server_hello i).
Proof. unfold send_server_hello. pres. Qed.
Lemma inv_ee i : preserves inv (send_encrypted_extensions i).
Proof. unfold send_encrypted_extensions. pres. Qed.
Lemma inv_cert i : preserves inv (send_certificate i).
Proof. unfold send_certificate. pres. Qed.
Lemma inv_cv i : preserves inv (send_certificate_verify i).
Proof. unfold send_certificate_verify. pres. Qed.
Lemma inv_fin i : preserves inv (send_server_finished i).
Proof. unfold send_server_finished. pres. Qed.
Lemma inv_run_kd i k : preserves inv (run_kd i k).
Proof. unfold run_kd. pres. Qed.
#[local] Hint Resolve inv_server_hello inv_ee inv_cert inv_cv inv_fin inv_run_kd : pres.
Lemma inv_remain i : preserves inv (send_remain_server_records i).
Proof. unfold send_remain_server_records. pres. Qed.

Lemma inv_unpack_handshake r : preserves inv (unpack_handshake r).
Proof. unfold unpack_handshake. pres. Qed.
Lemma inv_unpack_alert r : preserves inv (unpack_alert r).
Proof. unfold unpack_alert. pres. Qed.
Lemma inv_unpack_app r : preserves inv (unpack_application_data r).
Proof. unfold unpack_application_data. pres. Qed.
#[local] Hint Resolve inv_unpack_handshake inv_unpack_alert inv_unpack_app : pres.
Lemma inv_unpack_record r : preserves inv (unpack_record r).
Proof. unfold unpack_record. pres. Qed.
Lemma inv_remove_hws i : preserves inv (remove_hws i).
Proof. unfold remove_hws. pres. Qed.
#[local] Hint Resolve inv_unpack_record inv_remove_hws : pres.
Lemma inv_client_hello i r : preserves inv (handle_client_hello i r).
Proof. unfold handle_client_hello. pres. Qed.
#[local] Hint Resolve inv_client_hello : pres.
Lemma inv_handshake i r : preserves inv (handle_handshake i r).
Proof. unfold handle_handshake. pres. Qed.
Lemma inv_ccs i r : preserves inv (handle_change_cipher_spec i r).
Proof. unfold handle_change_cipher_spec. pres. Qed.
Lemma inv_alert i r : preserves inv (handle_alert i r).
Proof. unfold handle_alert. pres. Qed.
Lemma inv_app i r : preserves inv (handle_application_data i r).
Proof. unfold handle_application_data. pres. Qed.
#[local] Hint Resolve inv_handshake inv_ccs inv_alert inv_app : pres.
Lemma inv_read_record i r : preserves inv (handle_read_record i r).
Proof. unfold handle_read_record. pres. Qed.
Lemma inv_retransmitted i r : preserves inv (retransmitted_ch i r).
Proof. unfold retransmitted_ch. pres. Qed.
#[local] Hint Resolve inv_read_record inv_retransmitted : pres.
Lemma inv_process_read i r : preserves inv (process_read_record i r).
Proof. unfold process_read_record. pres. Qed.
#[local] Hint Resolve inv_process_read : pres.
Lemma inv_push i r : preserves inv (push_read_record i r).
Proof. unfold push_read_record. pres. Qed.
Lemma inv_open i pkt a b crr : preserves inv (open_record i pkt a b crr).
Proof. unfold open_record. pres. Qed.
#[local] Hint Resolve inv_push inv_open : pres.
Lemma inv_record_loop fuel i pkt a b crr : preserves inv (new_record_loop fuel i pkt a b crr).
Proof. revert a crr. induction fuel as [|fuel IH]; intros a crr; simpl; pres. Qed.
#[local] Hint Resolve inv_record_loop : pres.
Lemma inv_ssl_packet i payload n : preserves inv (process_ssl_packet i payload n).
Proof. unfold process_ssl_packet, process_new_record. pres. Qed.
Lemma inv_session_loop fuel i n : preserves inv (session_read_loop fuel i n).
Proof. revert n. induction fuel as [|fuel IH]; intros n; simpl; pres. Qed.
#[local] Hint Resolve inv_session_loop : pres.
Lemma inv_session_read i : preserves inv (process_session_read i).
Proof. unfold process_session_read. pres. Qed.

Lemma inv_after_keygen i : preserves inv (handle_after_ecdhe_key_gen i).
Proof. unfold handle_after_ecdhe_key_gen. pres. Qed.
Lemma inv_after_secret i : preserves inv (after_shared_secret i).
Proof. unfold after_shared_secret. pres. Qed.
Lemma inv_after_signature i : preserves inv (after_signature i).
Proof. unfold after_signature. pres. Qed.
#[local] Hint Resolve inv_after_keygen inv_after_secret inv_after_signature : pres.
Lemma inv_use_answer i : preserves inv (use_answer i).
Proof. unfold use_answer. pres. Qed.
Lemma inv_reset i op : preserves inv (reset_crypto i op).
Proof. unfold reset_crypto. pres. Qed.
#[local] Hint Resolve inv_use_answer inv_reset : pres.
Lemma inv_processed i : preserves inv (get_processed_crypto i).
Proof. unfold get_processed_crypto. pres. Qed.
Lemma inv_execute op o : preserves inv (execute_pka op o).
Proof. unfold execute_pka. pres. Qed.
#[local] Hint Resolve inv_execute : pres.
Lemma inv_submitted_step : preserves inv submitted_step.
Proof. unfold submitted_step. pres. Qed.
#[local] Hint Resolve inv_submitted_step : pres.
Lemma inv_submitted fuel : preserves inv (submitted_loop fuel).
Proof. induction fuel as [|fuel IH]; simpl; pres. Qed.
Lemma inv_completed_step a : preserves inv (completed_step a).
Proof. unfold completed_step. pres. Qed.
#[local] Hint Resolve inv_completed_step : pres.
Lemma inv_completed l : preserves inv (completed_loop l).
Proof. induction l as [|a l IH]; simpl; pres. Qed.
End layer.
#[export] Hint Resolve inv_abort inv_key_meta inv_rst_meta inv_remain inv_remove_hws inv_ssl_packet
  inv_session_read inv_use_answer inv_reset inv_processed inv_submitted inv_submitted_step inv_completed inv_completed_step : pres.
