(* ===== verification/SessionProps.v ===== *)
(** * Properties of a TLS session (ssl.c)

    What happens to a record that fails authentication, which is released twice
    and then handed out twice, and the reassembly of records from TCP
    segments. *)

From S2P Require Import Prelude TailQ Ring FlowTable Hkdf Operand ClientHello TlsPack NicState.
From S2P Require Import KeySchedule SslPools TcpOut MetaOut RecordLayer Session SessionInv.

Section props.
Context `{Platform} `{Crypto}.

(** ** Records that fail authentication *)

(** Releasing a record in use puts it at the end of the pool; releasing it
    again makes it its own successor ([release_twice]). *)
Definition looped (q : tailq) (r : nat) : Prop := tqe_next q !! r = Some r /\ tqe_prev q !! r = Some (Next r).

(** The header of a protected record. *)
Lemma unpack_protected_run s r rc :
  records s !! r = Some rc -> r_state rc = TO_UNPACK_HEADER ->
  rd8 (r_data rc) 0 = APPLICATION_DATA ->
  unpack_header r s = Ret (tt, s <| records ::= insert r (rc
    <| ct_length := ntohs (rd16 (r_data rc) 3) |> <| pt_record_type := APPLICATION_DATA |>
    <| pt_version := mk_version (rd8 (r_data rc) 1) (rd8 (r_data rc) 2) |>
    <| pt_length := ntohs (rd16 (r_data rc) 3) |> <| r_state := TO_DECRYPT |>) |>).
Proof.
  intros Hr Hs Ht. unfold unpack_header. exec_step. unfold massert. rewrite bool_decide_true by done.
  unfold bind at 1. unfold ret at 1. rewrite Ht. change (_ || _) with true. cbv iota zeta.
  by rewrite (mod_rec_run _ _ _ _ Hr).
Qed.

(** AES-GCM rejects the record as it lies in the buffer. *)
Definition fails_authentication (x : ssl_session) (rc : record) : Prop :=
  opened x (rc <| ct_length := ntohs (rd16 (r_data rc) 3) |>) = None.

(** A protected record that fails authentication is released twice, by
    [decrypt_record] and again by [process_read_record]: one forged record
    during the handshake closes the pool of records into a loop. *)
Theorem bad_record_freed_twice s sess r x rc op rest l :
  pools_ok s -> tq_rep (op_pool s) POOL (op :: rest) -> tq_rep (record_pool s) POOL l -> (r ∉ l) ->
  sessions s !! sess = Some x -> records s !! r = Some rc ->
  tls13_ok (tls13 x) -> fixed_iv_length (read_sp x) = 12 -> record_iv_length (read_sp x) = 0 ->
  0 <= recv_seq_num_ x < 2 ^ 64 ->
  bulk_cipher_algorithm (read_sp x) <> NO_CIPHER -> s_state x <> STATE_ACTIVE ->
  r_state rc = TO_UNPACK_HEADER -> rd8 (r_data rc) 0 = APPLICATION_DATA ->
  16 <= ntohs (rd16 (r_data rc) 3) <= DATA_SIZE - 5 ->
  fails_authentication x rc ->
  exists s', process_read_record sess r s = Ret (-1, s') /\ looped (record_pool s') r.
Proof.
  intros Hp Hop Hrp Hrn Hx Hr Ht Hf Hv Hq Hb Hst Hrs Hd Hl Hopen. unfold fails_authentication in Hopen. unfold process_read_record.
  exec_step. exec_step. rewrite Hd. change (APPLICATION_DATA =? HANDSHAKE) with false.
  rewrite andb_false_r. erewrite bind_ret by (by apply unpack_protected_run).
  rewrite (proj2 (Z.eqb_neq _ _) Hb). cbv iota beta delta [negb]. rewrite bool_decide_false by done.
  set (rc' := rc <| ct_length := _ |> <| pt_record_type := _ |> <| pt_version := _ |>
                 <| pt_length := _ |> <| r_state := _ |>).
  set (s' := s <| records ::= insert r rc' |>).
  assert (decryptable s' sess r x rc' op rest) as Hdec.
  { split; try done; [|apply lookup_insert_eq]. eapply pools_rec; [exact Hp|].
    exact (mod_rec_run r (fun _ => rc') s rc Hr). }
  destruct (decrypt_prefix _ _ _ _ _ _ _ Hdec Hl) as
    (s1 & rc1 & o1 & Hr1 & Ho1 & _ & _ & _ & Hs1 & Hp1 & Hrp1 & Hni & Hrun).
  change (opened x rc') with (opened x (rc <| ct_length := ntohs (rd16 (r_data rc) 3) |>)) in Hrun.
  rewrite Hopen in Hrun. destruct (delete_op_run _ _ _ _ Ho1 Hp1 Hni) as (qo & Eo & _).
  erewrite bind_ret in Hrun by exact Eo.
  destruct (insert_tail_rep _ _ _ r Hrp Hrn) as (q1 & Eq1 & Hq1).
  destruct (release_twice _ _ _ _ Hq1) as (q2 & Eq2 & Hn2 & Hpv2 & _).
  match type of Hrun with context [bind (delete_record sess r) _ ?st] =>
    destruct (delete_record_run st sess r rc1 Hr1 x) with (q := q1) as (s2 & E2 & Ep2 & [rc2 Hr2] & _ & Hx2) end;
    [simpl; by rewrite Hs1|simpl; by rewrite Hrp1|].
  erewrite bind_ret in Hrun by exact E2. rewrite !bind_assoc. erewrite bind_ret by exact Hrun.
  change (-1 <? 0) with true. cbv iota. rewrite !bind_assoc.
  destruct (delete_record_run s2 sess r rc2 Hr2 _ Hx2) with (q := q2) as (s3 & E3 & Ep3 & _); [by rewrite Ep2|].
  erewrite bind_ret by exact E3. exists s3. split; [reflexivity|]. rewrite Ep3. by split.
Qed.

(** When such a record has come to the head of the pool, every session that
    asks for a record is given that one, and the pool stays as it is. *)
Theorem looped_record_shared s sess r x :
  TAILQ_FIRST POOL (record_pool s) = Some r -> looped (record_pool s) r ->
  sessions s !! sess = Some x -> is_Some (records s !! r) ->
  exists s', new_recv_record sess s = Ret (r, s') /\ record_pool s' = record_pool s.
Proof.
  intros Hf [Hn Hpv] Hx [rc Hr]. unfold new_recv_record, take_record. exec_step. unfold bind at 1, mget. simpl.
  rewrite Hf. erewrite bind_ret by (unfold mres; rewrite remove_loop by done; reflexivity).
  erewrite bind_ret by reflexivity. exec_step. exec_step. exec_step. eexists. split; reflexivity.
Qed.

(** ** Reassembly *)

(** Between two payloads: the session's current record, if any, is known, not
    complete, and holds the bytes received so far. *)
Definition partial (s : nic) (r : nat) : Prop :=
  exists rc, records s !! r = Some rc /\ 0 <= r_current_len rc < r_length rc /\
    Z.of_nat (length (r_data rc)) = r_current_len rc.
Definition stream_at (s : nic) (sess : nat) (crr : option nat) : Prop :=
  exists x, sessions s !! sess = Some x /\ current_read_record x = crr /\
    forall r, crr = Some r -> partial s r.

(** Copying bytes into the open record and going on. *)
Definition receive (k : Z -> option nat -> nicM Z) (sess r : nat) (pkt : bytes) (processed pkt_len : Z)
    : nicM Z :=
  do rc <- get_rec r;
  let copy_len := Z.min (r_length rc - r_current_len rc) (pkt_len - processed) in
  if (DATA_SIZE <? r_current_len rc + copy_len) || (Z.of_nat (length pkt) <? processed + copy_len)
  then mfault Out_of_bounds else
  mod_rec r (fun rc => rc
    <| r_data := take (Z.to_nat (r_current_len rc)) (r_data rc) ++
                 rdn (Z.to_nat copy_len) pkt (Z.to_nat processed) |>
    <| r_current_len := r_current_len rc + copy_len |>);;;
  if r_current_len rc + copy_len =? r_length rc then
    do x <- get_sess sess;
    (if waiting_crypto x then push_read_record sess r else process_read_record sess r;;; ret tt);;;
    mod_sess sess (fun x => x <| current_read_record := None |>);;;
    k (processed + copy_len) None
  else k (processed + copy_len) (Some r).
Definition finish (processed : Z) (crr : option nat) : nicM Z :=
  match crr with Some _ => ret (-1) | None => ret processed end.

Lemma new_record_loop_S fuel sess pkt processed pkt_len crr :
  new_record_loop (S fuel) sess pkt processed pkt_len crr =
  if pkt_len <=? processed then finish processed crr else
  do o <- open_record sess pkt processed pkt_len crr;
  match o with
  | None => finish processed crr
  | Some r => receive (fun p c => new_record_loop fuel sess pkt p pkt_len c) sess r pkt processed pkt_len
  end.
Proof. reflexivity. Qed.

(** The bytes [chunk] arrive for the open record [r]. *)
Definition absorb (k : option nat -> nicM Z) (sess r : nat) (chunk : bytes) : nicM Z :=
  do rc <- get_rec r;
  let n := Z.of_nat (length chunk) in
  mod_rec r (fun rc => rc
    <| r_data := take (Z.to_nat (r_current_len rc)) (r_data rc) ++ chunk |>
    <| r_current_len := r_current_len rc + n |>);;;
  if r_current_len rc + n =? r_length rc then
    do x <- get_sess sess;
    (if waiting_crypto x then push_read_record sess r else process_read_record sess r;;; ret tt);;;
    mod_sess sess (fun x => x <| current_read_record := None |>);;;
    k None
  else k (Some r).

Lemma receive_absorb k sess r pkt p s rc :
  records s !! r = Some rc -> r_current_len rc < r_length rc -> 0 <= p < Z.of_nat (length pkt) ->
  let n := Z.min (r_length rc - r_current_len rc) (Z.of_nat (length pkt) - p) in
  receive k sess r pkt p (Z.of_nat (length pkt)) s =
    if DATA_SIZE <? r_current_len rc + n then Fault Out_of_bounds
    else absorb (k (p + n)) sess r (rdn (Z.to_nat n) pkt (Z.to_nat p)) s.
Proof.
  intros Hr Hl Hp n. unfold receive, absorb. exec_step. fold n.
  rewrite (proj2 (Z.ltb_ge (Z.of_nat (length pkt)) (p + n))) by lia. rewrite orb_false_r.
  destruct (DATA_SIZE <? _); [done|]. erewrite (bind_ret (get_rec r)) by (by apply get_rec_run).
  rewrite length_rdn, Z2Nat.id by lia. done.
Qed.

(** The relation between two continuations carries over. *)
Lemma absorb_rel (G : res (Z * nic) -> res (Z * nic)) k k' sess r chunk s :
  (forall f, G (Fault f) = Fault f) -> stream_at s sess (Some r) ->
  (forall rc, records s !! r = Some rc -> 0 < Z.of_nat (length chunk) <= r_length rc - r_current_len rc) ->
  (forall c s', stream_at s' sess c -> k' c s' = G (k c s')) ->
  absorb k' sess r chunk s = G (absorb k sess r chunk s).
Proof.
  intros HG (x & Hx & Hc & Hp) Hn Hk. destruct (Hp r eq_refl) as (rc & Hr & Hl & Hd).
  specialize (Hn rc Hr). unfold absorb. exec_step. exec_step. symmetry. exec_step. exec_step. symmetry.
  destruct (_ =? _) eqn:E.
  - exec_step. symmetry. exec_step. symmetry. apply (bind_rel G); [done|]. intros [] s1 _.
    apply (bind_rel G); [done|]. intros [] s2 E2. unfold mod_sess in E2.
    apply bind_inv in E2 as (x1 & s3 & E3 & [= <-]). unfold get_sess in E3.
    destruct (sessions s1 !! sess); simplify_eq.
    apply Hk. eexists. simpl. rewrite lookup_insert_eq. by split_and!.
  - apply Hk. exists x. split_and!; [done|done|]. intros r' [= <-]. eexists. simpl.
    rewrite lookup_insert_eq. split; [reflexivity|]. simpl. apply Z.eqb_neq in E.
    rewrite length_app, length_take. lia.
Qed.

(** Bytes that arrive in two pieces. *)
Lemma absorb_app k sess r c1 c2 s rc :
  records s !! r = Some rc -> 0 <= r_current_len rc -> Z.of_nat (length (r_data rc)) = r_current_len rc ->
  Z.of_nat (length c1) < r_length rc - r_current_len rc ->
  absorb k sess r (c1 ++ c2) s = absorb (fun _ => absorb k sess r c2) sess r c1 s.
Proof.
  intros Hr Hge Hd Hl. unfold absorb at 1 2. exec_step. exec_step. symmetry. exec_step. exec_step. symmetry.
  rewrite (proj2 (Z.eqb_neq (_ + Z.of_nat (length c1)) _)) by lia.
  unfold absorb. symmetry. exec_step. exec_step. symmetry. simpl.
  rewrite length_app, Nat2Z.inj_add, Z.add_assoc.
  match goal with |- context [take ?n (take ?m ?d ++ c1)] =>
    replace (take n (take m d ++ c1)) with (take m d ++ c1) by
      (symmetry; apply firstn_all2; rewrite length_app, length_take; lia) end.
  rewrite <-app_assoc.
  match goal with |- _ ?s1 = _ ?s2 => replace s2 with s1; [done|] end.
  unfold set. simpl. by rewrite insert_insert_eq.
Qed.

Lemma loop_done fuel sess pkt p len crr s :
  len <= p -> new_record_loop fuel sess pkt p len crr s = finish p crr s.
Proof. intros Hl. destruct fuel; simpl; by rewrite (proj2 (Z.leb_le _ _) Hl). Qed.

Lemma take_record_inv sess seq b s r s' x :
  sessions s !! sess = Some x -> take_record sess seq b s = Ret (r, s') ->
  exists rc x', records s' !! r = Some rc /\ r_data rc = [] /\ r_current_len rc = 0 /\
    sessions s' !! sess = Some x'.
Proof.
  intros Hx E. unfold take_record in E. erewrite bind_ret in E by (by apply mod_sess_run).
  apply (take_inv record_pool (fun q s => s <| record_pool := q |> <| free_record_cnt ::= Z.pred |>
    <| using_record_cnt ::= Z.succ |>)) in E as (r0 & q & _ & _ & E).
  erewrite bind_ret in E by (apply get_sess_run; simpl; apply lookup_insert_eq).
  destruct (records s !! r0) as [rc0|] eqn:Hr.
  2: { erewrite bind_fault in E; [done|]. unfold mod_rec, bind, get_rec. simpl. by rewrite Hr. }
  erewrite bind_ret in E by (apply mod_rec_run; simpl; exact Hr).
  erewrite bind_ret in E by (apply mod_sess_run; simpl; apply lookup_insert_eq).
  injection E as <- <-. eexists _, _. simpl. rewrite !lookup_insert_eq. by split_and!.
Qed.

(** Opening a record: it starts empty, with the length of its header. *)
Lemma open_spec sess pkt p len s o s' :
  stream_at s sess None -> open_record sess pkt p len None s = Ret (o, s') ->
  match o with
  | None => len - p < RECORD_HEADER_SIZE /\ s' = s
  | Some r => RECORD_HEADER_SIZE <= len - p /\ stream_at s' sess (Some r)
  end.
Proof.
  intros (x & Hx & Hc & _) E. unfold open_record in E. destruct (Z.ltb_spec (len - p) RECORD_HEADER_SIZE).
  { injection E as <- <-. by split. }
  apply bind_inv in E as (r & s1 & E1 & E). unfold new_recv_record in E1.
  destruct (take_record_inv _ _ _ _ _ _ _ Hx E1) as (rc & x' & Hr & Hd & Hl & Hx').
  erewrite bind_ret in E by (by apply mod_sess_run).
  destruct (Z.of_nat (length pkt) <? p + 5); [done|]. unfold bind at 1, ret at 1 in E.
  unfold massert in E. destruct (_ <? MAX_RECORD_SIZE); [|done]. unfold bind at 1, ret at 1 in E.
  erewrite bind_ret in E by (by apply mod_rec_run).
  injection E as <- <-. split; [lia|]. eexists. simpl. rewrite !lookup_insert_eq.
  split; [reflexivity|]. split; [done|]. intros r' [= <-]. eexists. simpl. rewrite !lookup_insert_eq.
  split; [reflexivity|]. simpl. rewrite Hd, Hl. split; [|done]. unfold RECORD_HEADER_SIZE.
  pose proof (bswap16_range (rd16 pkt (Z.to_nat p + 3))) as [? _]. lia.
Qed.

(** Moving the start of the payload. *)
Definition shift (n : Z) (r : res (Z * nic)) : res (Z * nic) :=
  match r with Ret (w, s) => Ret (if w =? -1 then -1 else n + w, s) | Fault f => Fault f end.
Lemma shift_finish n p crr s : 0 <= p -> shift n (finish p crr s) = finish (n + p) crr s.
Proof. intros Hp. destruct crr; simpl; [done|]. by rewrite (proj2 (Z.eqb_neq _ _)) by lia. Qed.

Lemma open_shift sess a b p crr :
  0 <= p -> open_record sess (a ++ b) (Z.of_nat (length a) + p) (Z.of_nat (length (a ++ b))) crr =
            open_record sess b p (Z.of_nat (length b)) crr.
Proof.
  intros Hp. unfold open_record. destruct crr; [done|]. rewrite length_app.
  replace (Z.of_nat (length a + length b) - (Z.of_nat (length a) + p)) with (Z.of_nat (length b) - p) by lia.
  replace (Z.of_nat (length a + length b) <? Z.of_nat (length a) + p + 5)
    with (Z.of_nat (length b) <? p + 5) by (apply eq_true_iff_eq; rewrite !Z.ltb_lt; lia).
  unfold rd16. replace (Z.to_nat (Z.of_nat (length a) + p) + 3)%nat
    with (length a + (Z.to_nat p + 3))%nat by lia. by rewrite rdn_app_r.
Qed.

Lemma open_prefix sess a b p : 0 <= p -> RECORD_HEADER_SIZE <= Z.of_nat (length a) - p ->
  open_record sess (a ++ b) p (Z.of_nat (length (a ++ b))) None =
  open_record sess a p (Z.of_nat (length a)) None.
Proof.
  unfold RECORD_HEADER_SIZE. intros Hp Hl. unfold open_record, RECORD_HEADER_SIZE. rewrite length_app.
  rewrite !(proj2 (Z.ltb_ge (_ - p) 5)), (proj2 (Z.ltb_ge (Z.of_nat (length a + length b)) _)),
    (proj2 (Z.ltb_ge (Z.of_nat (length a)) _)) by lia.
  unfold rd16. rewrite !rdn_slice by (rewrite ?length_app; lia).
  rewrite drop_app_le, take_app_le by (rewrite ?length_drop; lia). done.
Qed.

Lemma open_at sess pkt p len crr s r s' :
  stream_at s sess crr -> open_record sess pkt p len crr s = Ret (Some r, s') ->
  stream_at s' sess (Some r).
Proof.
  intros Hs E. destruct crr as [r0|]; [by injection E as <- <-|].
  by destruct (open_spec _ _ _ _ _ _ _ Hs E).
Qed.

Lemma loop_shift f2 : forall f1 sess a b p crr s, stream_at s sess crr -> 0 <= p ->
  Z.of_nat (length b) - p <= Z.of_nat f1 -> Z.of_nat (length b) - p <= Z.of_nat f2 ->
  new_record_loop f1 sess (a ++ b) (Z.of_nat (length a) + p) (Z.of_nat (length (a ++ b))) crr s =
  shift (Z.of_nat (length a)) (new_record_loop f2 sess b p (Z.of_nat (length b)) crr s).
Proof.
  induction f2 as [|f2 IH]; intros f1 sess a b p crr s Hs Hp H1 H2;
    (destruct (Z.le_gt_cases (Z.of_nat (length b)) p);
     [rewrite !loop_done by (rewrite ?length_app; lia); by rewrite shift_finish|]); [lia|].
  destruct f1 as [|f1]; [lia|]. rewrite !new_record_loop_S, open_shift by done.
  rewrite !(proj2 (Z.leb_gt _ _)) by (rewrite ?length_app; lia).
  apply (bind_rel (shift _)); [done|]. intros [r|] s' E; [|by rewrite shift_finish].
  apply open_at in E as Hs'; [|done]. destruct Hs' as (x & Hx & Hc & Hpa).
  destruct (Hpa r eq_refl) as (rc & Hr & Hl & Hd).
  rewrite !(receive_absorb _ _ _ _ _ _ rc) by (rewrite ?length_app; done || lia). rewrite length_app.
  replace (Z.of_nat (length a + length b) - (Z.of_nat (length a) + p)) with (Z.of_nat (length b) - p) by lia.
  set (n := Z.min _ _). destruct (DATA_SIZE <? _); [done|].
  replace (Z.to_nat (Z.of_nat (length a) + p)) with (length a + Z.to_nat p)%nat by lia. rewrite rdn_app_r.
  apply absorb_rel; [done|by exists x| |].
  - intros rc0 Hrc0. rewrite Hr in Hrc0. injection Hrc0 as <-. rewrite length_rdn. lia.
  - intros c s2 Hs2. rewrite <-Z.add_assoc, <-length_app. apply IH; [done|lia..].
Qed.

(** The last bytes of a record, and bytes before the last. *)
Lemma absorb_full k sess r chunk s rc v s1 :
  records s !! r = Some rc -> r_current_len rc + Z.of_nat (length chunk) = r_length rc ->
  absorb k sess r chunk s = Ret (v, s1) ->
  exists s2, stream_at s2 sess None /\ k None s2 = Ret (v, s1) /\
    forall k', absorb k' sess r chunk s = k' None s2.
Proof.
  intros Hr Hl E. unfold absorb in E |- *. erewrite bind_ret in E by (by apply get_rec_run).
  erewrite bind_ret in E by (by apply mod_rec_run). rewrite (proj2 (Z.eqb_eq _ _) Hl) in E.
  apply bind_inv in E as (x & s2 & Ex & E). apply bind_inv in E as ([] & s3 & E3 & E).
  apply bind_inv in E as ([] & s4 & E4 & E). exists s4. split; [|split; [done|]].
  - unfold mod_sess in E4. apply bind_inv in E4 as (x1 & s5 & E5 & [= <-]). unfold get_sess in E5.
    destruct (sessions s3 !! sess); simplify_eq. eexists. simpl. rewrite lookup_insert_eq. by split_and!.
  - intros k'. exec_step. exec_step. rewrite (proj2 (Z.eqb_eq _ _) Hl).
    erewrite bind_ret by exact Ex. erewrite bind_ret by exact E3. by erewrite bind_ret by exact E4.
Qed.
Lemma absorb_part k sess r chunk s rc :
  records s !! r = Some rc -> stream_at s sess (Some r) ->
  0 < Z.of_nat (length chunk) < r_length rc - r_current_len rc ->
  exists s2 rc2, absorb k sess r chunk s = k (Some r) s2 /\ stream_at s2 sess (Some r) /\
    records s2 !! r = Some rc2 /\ r_length rc2 = r_length rc /\
    r_current_len rc2 = r_current_len rc + Z.of_nat (length chunk) /\
    forall k', absorb k' sess r chunk s = k' (Some r) s2.
Proof.
  intros Hr (x & Hx & Hc & Hp) Hl. destruct (Hp r eq_refl) as (rc0 & Hr0 & Hl0 & Hd0).
  rewrite Hr in Hr0. injection Hr0 as <-.
  assert (forall k', absorb k' sess r chunk s = k' (Some r) (s <| records ::= insert r (rc
    <| r_data := take (Z.to_nat (r_current_len rc)) (r_data rc) ++ chunk |>
    <| r_current_len := r_current_len rc + Z.of_nat (length chunk) |>) |>)) as E.
  { intros k'. unfold absorb. exec_step. exec_step. by rewrite (proj2 (Z.eqb_neq _ _)) by lia. }
  eexists _, _. split; [apply E|]. simpl. rewrite lookup_insert_eq. split; [|by split_and!].
  exists x. split_and!; [done|done|]. intros r' [= <-]. eexists. simpl. rewrite lookup_insert_eq.
  split; [reflexivity|]. simpl. rewrite length_app, length_take. lia.
Qed.

(** The cut falls inside the body of a record. *)
Lemma split_inside sess r a b p s1 s2 rc f g :
  records s1 !! r = Some rc -> stream_at s1 sess (Some r) -> 0 <= p < Z.of_nat (length a) ->
  Z.of_nat (length a) - p < r_length rc - r_current_len rc -> (0 < length b)%nat ->
  Z.of_nat (length b) <= Z.of_nat f -> Z.of_nat (length b) <= Z.of_nat g ->
  stream_at s2 sess (Some r) ->
  (forall k, absorb k sess r (rdn (Z.to_nat (Z.of_nat (length a) - p)) a (Z.to_nat p)) s1 = k (Some r) s2) ->
  receive (fun p' c => new_record_loop f sess (a ++ b) p' (Z.of_nat (length (a ++ b))) c) sess r
    (a ++ b) p (Z.of_nat (length (a ++ b))) s1 =
  shift (Z.of_nat (length a)) (new_record_loop g sess b 0 (Z.of_nat (length b)) (Some r) s2).
Proof.
  intros Hr Hs Hp Hl Hb Hf Hg Hs2 Hab. destruct Hs as (x & Hx & Hc & Hpa).
  destruct (Hpa r eq_refl) as (rc0 & Hr0 & Hl0 & Hd0). rewrite Hr in Hr0. injection Hr0 as <-.
  destruct (absorb_part (fun _ => ret 0) sess r (rdn (Z.to_nat (Z.of_nat (length a) - p)) a (Z.to_nat p)) s1 rc)
    as (s2' & rc2 & E2 & _ & Hr2 & Hlen & Hcur & _); [done|by exists x|rewrite length_rdn; lia|].
  rewrite Hab in E2. injection E2 as <-. rewrite length_rdn in Hcur.
  destruct g as [|g]; [lia|]. rewrite new_record_loop_S, (proj2 (Z.leb_gt _ _)) by lia.
  erewrite (bind_ret (open_record _ _ _ _ _)) by reflexivity.
  rewrite (receive_absorb _ _ _ _ _ _ rc), (receive_absorb _ _ _ _ _ _ rc2) by (rewrite ?length_app; done || lia).
  rewrite length_app, Hlen, Hcur. set (n := Z.min _ (Z.of_nat (length a + length b) - p)).
  set (n' := Z.min _ (Z.of_nat (length b) - 0)).
  assert (n = Z.of_nat (length a) - p + n') as Hn by lia.
  replace (r_current_len rc + Z.of_nat (Z.to_nat (Z.of_nat (length a) - p)) + n')
    with (r_current_len rc + n) by lia.
  destruct (DATA_SIZE <? _); [done|].
  assert (rdn (Z.to_nat n) (a ++ b) (Z.to_nat p) =
    rdn (Z.to_nat (Z.of_nat (length a) - p)) a (Z.to_nat p) ++ rdn (Z.to_nat n') b 0) as ->.
  { rewrite !rdn_slice by (rewrite ?length_app; lia). rewrite drop_app_le by lia.
    rewrite (firstn_all2 (drop _ a)) by (rewrite length_drop; lia). rewrite drop_0.
    rewrite take_app_ge by (rewrite length_drop; lia). do 2 f_equal. rewrite length_drop. lia. }
  rewrite (absorb_app _ _ _ _ _ _ rc) by (rewrite ?length_rdn; done || lia). rewrite Hab.
  apply absorb_rel; [done|done| |].
  - intros rc3 Hr3. rewrite Hr2 in Hr3. injection Hr3 as <-. rewrite length_rdn. lia.
  - intros c s3 Hs3. rewrite <-length_app. replace (p + n) with (Z.of_nat (length a) + (0 + n')) by lia.
    apply loop_shift; [done|lia..].
Qed.

Lemma loop_split sess a b : (0 < length b)%nat -> forall f f' g p crr s v s1,
  stream_at s sess crr -> 0 <= p <= Z.of_nat (length a) ->
  Z.of_nat (length a) - p <= Z.of_nat f -> Z.of_nat (length (a ++ b)) - p <= Z.of_nat f' ->
  Z.of_nat (length b) <= Z.of_nat g ->
  new_record_loop f sess a p (Z.of_nat (length a)) crr s = Ret (v, s1) ->
  v = -1 \/ v = Z.of_nat (length a) ->
  exists crr1, stream_at s1 sess crr1 /\
    new_record_loop f' sess (a ++ b) p (Z.of_nat (length (a ++ b))) crr s =
    shift (Z.of_nat (length a)) (new_record_loop g sess b 0 (Z.of_nat (length b)) crr1 s1).
Proof.
  intros Hb. induction f as [|f IH]; intros f' g p crr s v s1 Hs Hp Hf Hf' Hg E Hv;
    rewrite length_app in Hf';
    (destruct (Z.le_gt_cases (Z.of_nat (length a)) p);
     [assert (p = Z.of_nat (length a) + 0) as -> by lia; rewrite loop_done in E by lia; exists crr;
      assert (s1 = s) as -> by (by destruct crr; injection E);
      split; [done|apply loop_shift; [done|lia..]]|]); [lia|].
  destruct f' as [|f']; [lia|]. rewrite new_record_loop_S in E |- *.
  rewrite (proj2 (Z.leb_gt _ _)) in E by lia.
  rewrite (proj2 (Z.leb_gt _ _)) by (rewrite length_app; lia).
  apply bind_inv in E as (o & s2 & Eo & E).
  destruct o as [r|].
  2: { exfalso. destruct crr; [done|]. destruct (open_spec _ _ _ _ _ _ _ Hs Eo).
       injection E as <- <-. lia. }
  apply open_at in Eo as Hs2; [|done].
  assert (open_record sess (a ++ b) p (Z.of_nat (length (a ++ b))) crr s = Ret (Some r, s2)) as Eo'.
  { destruct crr; [done|]. destruct (open_spec _ _ _ _ _ _ _ Hs Eo). by rewrite open_prefix by lia. }
  erewrite bind_ret by exact Eo'. destruct Hs2 as (x & Hx & Hc & Hpa).
  destruct (Hpa r eq_refl) as (rc & Hr & Hl & Hd). rewrite (receive_absorb _ _ _ _ _ _ rc) in E by (done || lia).
  destruct (DATA_SIZE <? _) eqn:Eb in E; [done|].
  destruct (Z.le_gt_cases (r_length rc - r_current_len rc) (Z.of_nat (length a) - p)).
  - rewrite Z.min_l in E, Eb by lia.
    apply (absorb_full _ _ _ _ _ rc) in E as (s3 & Hs3 & E3 & Hk); [|done|rewrite length_rdn; lia].
    destruct (IH f' g (p + (r_length rc - r_current_len rc)) None s3 v s1) as (crr1 & Hs1 & Hsplit);
      [done|lia|lia|rewrite length_app; lia|done|done|done|].
    exists crr1. split; [done|]. rewrite (receive_absorb _ _ _ _ _ _ rc) by (rewrite ?length_app; done || lia).
    rewrite Z.min_l, Eb by (rewrite length_app; lia). rewrite <-Hsplit.
    rewrite rdn_slice, drop_app_le, take_app_le by (rewrite ?length_app, ?length_drop; lia).
    rewrite <-rdn_slice by lia. apply Hk.
  - rewrite Z.min_r in E by lia.
    destruct (absorb_part (fun _ => ret 0) sess r
      (rdn (Z.to_nat (Z.of_nat (length a) - p)) a (Z.to_nat p)) s2 rc) as
      (s3 & rc3 & _ & Hs3 & _ & _ & _ & Hk); [done|by exists x|rewrite length_rdn; lia|].
    rewrite Hk in E. rewrite loop_done in E by lia. injection E as <- <-. exists (Some r).
    split; [done|]. eapply split_inside; [done|by exists x|lia..|done|done].
Qed.

Lemma loop_fuel f f' sess pkt p crr s : stream_at s sess crr -> 0 <= p ->
  Z.of_nat (length pkt) - p <= Z.of_nat f -> Z.of_nat (length pkt) - p <= Z.of_nat f' ->
  new_record_loop f sess pkt p (Z.of_nat (length pkt)) crr s =
  new_record_loop f' sess pkt p (Z.of_nat (length pkt)) crr s.
Proof.
  intros Hs Hp H1 H2. pose proof (loop_shift f' f sess [] pkt p crr s Hs Hp H1 H2) as E.
  cbn [length app] in E. change (Z.of_nat 0 + p) with p in E. rewrite E. destruct (new_record_loop f' _ _ _ _ _ _) as [[w s']|]; [|done]. simpl.
  destruct (Z.eqb_spec w (-1)) as [->|]; [done|]. done.
Qed.

(** C2: how TCP cuts the stream does not matter, as long as no record header
    is cut: when [process_new_record] has consumed a payload [a], or stopped
    inside a record, going on with a payload [b] gives the state that the
    payload [a ++ b] gives at once, whatever the records in it do, faults
    included. *)
Theorem record_stream_split s sess crr a b v s1 :
  stream_at s sess crr -> b <> [] ->
  process_new_record sess a (Z.of_nat (length a)) s = Ret (v, s1) ->
  v = -1 \/ v = Z.of_nat (length a) ->
  process_new_record sess (a ++ b) (Z.of_nat (length (a ++ b))) s =
  shift (Z.of_nat (length a)) (process_new_record sess b (Z.of_nat (length b)) s1).
Proof.
  intros Hs Hb E Hv. destruct Hs as (x & Hx & Hc & Hp). unfold process_new_record in E |- *.
  erewrite bind_ret in E by (by apply get_sess_run). erewrite (bind_ret _ _ s) by (by apply get_sess_run).
  rewrite Hc in *. destruct (loop_split sess a b ltac:(destruct b; [done|simpl; lia]) (Z.to_nat (Z.of_nat (length a)))
    (Z.to_nat (Z.of_nat (length (a ++ b)))) (Z.to_nat (Z.of_nat (length b))) 0 crr s v s1)
    as (crr1 & (x1 & Hx1 & Hc1 & _) & Hsplit); [by exists x|lia..|done|done|].
  erewrite (bind_ret _ _ s1) by (by apply get_sess_run). by rewrite Hc1.
Qed.

(** Bytes of a cut header are dropped: nothing is stored, and the payload
    counts as processed. *)
Lemma cut_header_dropped s sess pkt :
  stream_at s sess None -> 0 < Z.of_nat (length pkt) < RECORD_HEADER_SIZE ->
  process_new_record sess pkt (Z.of_nat (length pkt)) s = Ret (0, s).
Proof.
  intros (x & Hx & Hc & _) Hl. unfold process_new_record. exec_step. rewrite Hc, Nat2Z.id.
  destruct pkt as [|b0 pkt]; [simpl in Hl; lia|]. cbn [length]. rewrite new_record_loop_S.
  rewrite (proj2 (Z.leb_gt _ _)) by lia. unfold open_record.
  rewrite (proj2 (Z.ltb_lt _ _)) by (cbn [length] in Hl; lia). done.
Qed.
End props.

(** ** Concrete runs *)

(** A core with a free record and a session that has not started. *)
Definition fresh_core : nic :=
  (toy_core record0) <| sessions := {[0%nat := @ssl_session0 sample_platform]} |>
    <| record_pool := one_op |> <| free_record_cnt := 1 |> <| using_record_cnt := 0 |>.
(** A ChangeCipherSpec record, cut behind its header. *)
Definition ccs_head : bytes := [20; 3; 3; 0; 1].
Definition after_head : nic :=
  match @process_new_record sample_platform sample_crypto 0 ccs_head 5 fresh_core with
  | Ret (_, s) => s
  | Fault _ => fresh_core
  end.

Lemma record_stream_split_witness :
  @process_new_record sample_platform sample_crypto 0 (ccs_head ++ [1]) 6 fresh_core =
  shift 5 (@process_new_record sample_platform sample_crypto 0 [1] 1 after_head).
Proof.
  apply (@record_stream_split sample_platform sample_crypto fresh_core 0 None ccs_head [1] (-1)).
  - eexists. split; [reflexivity|]. by split.
  - discriminate.
  - vm_compute. reflexivity.
  - left. reflexivity.
Defined.

(** The whole record moves the handshake state, in one piece or in two. *)
Example ccs_processed :
  match @process_new_record sample_platform sample_crypto 0 (ccs_head ++ [1]) 6 fresh_core with
  | Ret (n, s) => (n, handshake_state <$> sessions s !! 0%nat, TAILQ_FIRST POOL (record_pool s))
  | Fault _ => (0, None, None)
  end = (6, Some CLIENT_CIPHER_SPEC, Some 0%nat).
Proof. vm_compute. reflexivity. Qed.

(** A forged record: the tag is wrong. *)
Definition forged : record :=
  record0 <| r_state := TO_UNPACK_HEADER |> <| r_data := [23; 3; 3; 0; 17; 20] ++ zeros 16 |>.
Definition after_forged : nic :=
  match @process_read_record sample_platform sample_crypto 0 0 (toy_core forged) with
  | Ret (_, s) => s
  | Fault _ => toy_core forged
  end.
Lemma bad_record_freed_twice_witness :
  exists s', @process_read_record sample_platform sample_crypto 0 0 (toy_core forged) = Ret (-1, s') /\
    looped (record_pool s') 0.
Proof.
  apply (@bad_record_freed_twice sample_platform sample_crypto (toy_core forged) 0 0 toy_session forged 0 [] []);
    try reflexivity; try discriminate; try (by vm_compute).
  - apply toy_core_pools.
  - apply one_op_rep.
  - apply init_rep.
  - apply not_elem_of_nil.
  - apply tls13_ctx0_ok.
Defined.
(** The pool that held only this record now gives it to everyone. *)
Lemma looped_record_shared_witness :
  exists s', new_recv_record 0 after_forged = Ret (0%nat, s') /\ record_pool s' = record_pool after_forged.
Proof.
  apply (looped_record_shared after_forged 0 0 (default (@ssl_session0 sample_platform) (sessions after_forged !! 0%nat))).
  - vm_compute. reflexivity.
  - vm_compute. by split.
  - vm_compute. reflexivity.
  - vm_compute. by eexists.
Defined.
