(* ===== verification/TcpIn.v ===== *)
(** * Received packets and the main loop (tcp.c)

    A worker core polls its ports. A packet from the network (an even port) or
    from the host (an odd port) is classified and handed to its handler; then
    every live connection is visited once. This file holds the handlers and
    the loop body, the step relation of a worker core, which lets the PKA core
    act between the tasks of the loop body, and the properties of the TCP
    layer: the tables stay well formed in every reachable state, and what a
    SYN does. *)

From S2P Require Import Prelude TailQ Ring FlowTable Hkdf Operand ClientHello TlsPack NicState.
From S2P Require Import KeySchedule SslPools TcpOut MetaOut RecordLayer Session SessionInv NicInit.

(** [enum recv_packet_type], [enum tcp_syn_check], [enum tcp_sequence_check]. *)
Inductive recv_packet_type : Type :=
| SSL_HANDSHAKE
| TCP_SYN
| TCP_ACK
| HOST_MIG_FIN
| HOST_CLOSE
| TCP_FIN
| TCP_RST
| TCP_SYNACK.
Inductive tcp_syn_check : Type := TCP_SYN_RETRANS | TCP_SYN_NEW.
Inductive tcp_sequence_check : Type := TCP_SEQ_OK | TCP_SEQ_UNDER | TCP_SEQ_OVER.
#[export] Instance recv_packet_type_eq : EqDecision recv_packet_type.
Proof. solve_decision. Defined.
#[export] Instance tcp_sequence_check_eq : EqDecision tcp_sequence_check.
Proof. solve_decision. Defined.

(** ** Reading a packet *)

(** The casts of a packet buffer to its headers. *)
Definition parse (b : bytes) : packet :=
  mk_packet
    (mk_ether_hdr (rdn 6 b 0) (rdn 6 b 6) (rd16 b 12))
    (mk_ipv4_hdr (rd8 b 14) (rd8 b 15) (rd16 b 16) (rd16 b 18) (rd16 b 20) (rd8 b 22) (rd8 b 23)
       (rd32 b 26) (rd32 b 30))
    (mk_tcp_hdr (rd16 b 34) (rd16 b 36) (rd32 b 38) (rd32 b 42) (rd8 b 46) (rd8 b 47) (rd16 b 48))
    (drop 54 b).

(** The flow of a packet from the client, as the handlers look it up. *)
Definition flow_of (p : packet) : flow :=
  mk_flow (ip_src (iph p)) (ip_dst (iph p)) (src_port (tcph p)) (dst_port (tcph p)).

Definition has_flag (p : packet) (f : Z) : bool := negb (Z.land (tcp_flags (tcph p)) f =? 0).

Definition validate_packet_type (port : Z) (p : packet) (payload_len : Z) : option recv_packet_type :=
  if ether_type (ethh p) =? htons RTE_ETHER_TYPE_IPV4 then
    if type_of_service (iph p) =? 0 then
      if next_proto_id (iph p) =? IPPROTO_TCP then
        if Z.rem port 2 =? 0 then
          if negb (dst_port (tcph p) =? htons SSL_PORT) then None
          else if (0 <? payload_len) && (payload_len <? MAX_HANDSHAKE_LENGTH) then Some SSL_HANDSHAKE
          else if has_flag p TCP_FLAG_SYN && negb (has_flag p TCP_FLAG_ACK) then Some TCP_SYN
          else if has_flag p TCP_FLAG_FIN then Some TCP_FIN
          else if has_flag p TCP_FLAG_RST then Some TCP_RST
          else if has_flag p TCP_FLAG_SYN && has_flag p TCP_FLAG_ACK then Some TCP_SYNACK
          else if negb (has_flag p TCP_FLAG_SYN) && has_flag p TCP_FLAG_ACK then Some TCP_ACK
          else None
        else None
      else None
    else if Z.rem port 2 =? 1 then
      if type_of_service (iph p) =? IP_TOS_HOST_MIG_FIN then Some HOST_MIG_FIN
      else if type_of_service (iph p) =? IP_TOS_HOST_CLOSE then Some HOST_CLOSE
      else None
    else None
  else None.

Definition validate_syn_packet (c : tcp_connection) (seq_no : Z) : tcp_syn_check :=
  if u32 (seq_no + 1) =? last_recv_seq c then TCP_SYN_RETRANS else TCP_SYN_NEW.

Definition validate_sequence (c : tcp_connection) (seq_no ack_no payload_len : Z)
    : option tcp_sequence_check :=
  if (seq_no =? last_recv_seq c) && (ack_no =? last_recv_ack c) && (payload_len =? last_recv_len c)
  then Some TCP_SEQ_OK
  else if (last_sent_ack c =? seq_no) || (u32 (last_recv_seq c + last_recv_len c) =? seq_no)
  then Some TCP_SEQ_OK
  else if SEQ_LT seq_no (last_recv_seq c) || SEQ_LT ack_no (last_recv_ack c)
  then Some TCP_SEQ_UNDER
  else if SEQ_GT seq_no (last_sent_ack c) && SEQ_GT seq_no (u32 (last_recv_seq c + last_recv_len c))
  then Some TCP_SEQ_OVER
  else None.

Section handlers.
Context `{Platform} `{Crypto}.

(** ** Handlers of packets from the network *)

(** [clock_gettime(CLOCK_MONOTONIC, &conn->last_interaction)]. *)
Definition touch (i : nat) : nicM unit :=
  do s <- mget; mod_conn i (fun c => c <| last_interaction := now s |>).

Definition process_normal_seq_case (i : nat) (seq_no ack_no : Z) (payload : bytes) (payload_len : Z)
    : nicM unit :=
  mod_conn i (fun c => c <| last_recv_ack := ack_no |> <| last_recv_seq := seq_no |>
    <| last_recv_len := payload_len |> <| c_state := TCP_SESSION_RECEIVED |>);;;
  touch i;;;
  do rv <- process_ssl_packet i payload payload_len;
  if rv <? 0 then send_tcp_packet i [] 0 TCP_FLAG_ACK;;; ret tt else ret tt.

Definition process_over_seq_case (i : nat) : nicM unit :=
  send_tcp_packet i [] 0 TCP_FLAG_ACK;;; ret tt.

(** A packet of an onloaded connection is kept until its flow rule is in
    place: the copy into the 1024-byte buffer. *)
Definition keep_app_data (i : nat) (pktbuf : bytes) (data_off_ payload_len : Z) : nicM unit :=
  let tcp_hdr_len := Z.shiftl (Z.shiftr data_off_ 4) 2 in
  let len := u16 (ETHERNET_HEADER_LEN + IP_HEADER_LEN + tcp_hdr_len + payload_len) in
  if (Z.of_nat MAX_APP_DATA_SIZE <? len) || (Z.of_nat (length pktbuf) <? len)
  then mfault Out_of_bounds else
  mod_conn i (fun c => c <| pending_app_data ::= fun d => wr d 0 (take (Z.to_nat len) pktbuf) |>
                         <| pending_app_data_len := len |>).

(** [payload] is the memory from the payload on. *)
Definition process_handshake_packet (pktbuf : bytes) (p : packet) (payload : bytes)
    (payload_len seq_no ack_no : Z) : nicM unit :=
  do result <- search_tcp_connection (flow_of p);
  match result with
  | None => ret tt
  | Some i =>
      do c <- get_conn i;
      if onload c then keep_app_data i pktbuf (data_off (tcph p)) payload_len else
      match validate_sequence c seq_no ack_no payload_len with
      | Some TCP_SEQ_OK => process_normal_seq_case i seq_no ack_no payload payload_len
      | Some TCP_SEQ_UNDER => ret tt
      | Some TCP_SEQ_OVER => process_over_seq_case i
      | None => ret tt
      end
  end.

Definition save_new_syn (i : nat) (p : packet) (payload_len : Z) : nicM unit :=
  let option_len := Z.shiftr (data_off (tcph p)) 4 * 4 - TCP_HEADER_LEN in
  if (option_len <? 0) || (40 <? option_len) then mfault Out_of_bounds else
  mod_conn i (fun c => c <| c_pending_syn := mk_pending_syn (ethh p) (iph p) (tcph p)
    (wr (ps_options (c_pending_syn c)) 0 (rdn (Z.to_nat option_len) (tcp_data p) 0))
    option_len payload_len |>).

Definition insert_from (port : Z) (p : packet) (seq_no payload_len : Z) : nicM nat :=
  insert_tcp_connection port (src_addr (ethh p)) (flow_of p) (dst_addr (ethh p)) seq_no
    (ntohs (rx_win (tcph p))) payload_len.

Definition process_syn_packet (port : Z) (p : packet) (payload_len seq_no : Z) : nicM unit :=
  do result <- search_tcp_connection (flow_of p);
  match result with
  | Some i =>
      do c <- get_conn i;
      match validate_syn_packet c seq_no with
      | TCP_SYN_RETRANS => send_synack_packet port p (cookie c);;; ret tt
      | TCP_SYN_NEW =>
          save_new_syn i p payload_len;;;
          remove_session i;;;
          do c <- get_conn i;
          send_synack_packet port p (cookie c);;;
          insert_from port p seq_no payload_len;;;
          ret tt
      end
  | None =>
      do i <- insert_from port p seq_no payload_len;
      do c <- get_conn i;
      send_synack_packet port p (cookie c);;;
      ret tt
  end.

Definition process_ack_packet (pktbuf : bytes) (p : packet) (payload_len ack_no : Z) : nicM unit :=
  do result <- search_tcp_connection (flow_of p);
  match result with
  | None => ret tt
  | Some i =>
      do c <- get_conn i;
      if (ack_no =? u32 (cookie c + 1)) && (payload_len =? 0) then touch i
      else if onload c then keep_app_data i pktbuf (data_off (tcph p)) payload_len
      else ret tt
  end.

(** The copy of a received packet to the other side. *)
Definition forward (port : Z) (pktbuf : bytes) (len : Z) : nicM unit :=
  transmit (TxRaw port (take (Z.to_nat len) pktbuf)).

Definition process_fin_packet (port : Z) (pktbuf : bytes) (len : Z) (p : packet) : nicM unit :=
  let seq_no := ntohl (sent_seq (tcph p)) in
  let ack_no := ntohl (recv_ack (tcph p)) in
  let payload_len := u16 (ntohs (total_length (iph p)) - IP_HEADER_LEN
                          - Z.shiftr (Z.land (data_off (tcph p)) 0xf0) 2) in
  do target <- search_tcp_connection (flow_of p);
  match target with
  | Some i =>
      do c <- get_conn i;
      if onload c then forward (port + 1) pktbuf len else ret tt
  | None =>
      send_raw_reset port (dst_addr (ethh p)) (src_addr (ethh p)) (ip_dst (iph p)) (ip_src (iph p))
        (dst_port (tcph p)) (src_port (tcph p)) ack_no (u32 (seq_no + payload_len));;;
      ret tt
  end.

Definition process_rst_packet (port : Z) (pktbuf : bytes) (len : Z) (p : packet) : nicM unit :=
  do target <- search_tcp_connection (flow_of p);
  match target with
  | Some i => do c <- get_conn i; if onload c then forward (port + 1) pktbuf len else ret tt
  | None => ret tt
  end.

(** ** Handlers of packets from the host *)

(** The sequence numbers of the packet are those last sent to the host. *)
Definition meta_matches (p : packet) (x : ssl_session) : bool :=
  (sent_seq (tcph p) =? rd32 (meta_hdr x) off_server_seq_num) &&
  (recv_ack (tcph p) =? rd32 (meta_hdr x) off_server_ack_num).

Definition process_host_mig_fin (pktbuf : bytes) (p : packet) : nicM unit :=
  do target <- search_tcp_connection (flow_of p);
  match target with
  | None => ret tt
  | Some i =>
      do x <- get_sess i;
      if meta_matches p x then mod_conn i (fun c => c <| recv_mig_fin := true |>)
      else
        do c <- get_conn i;
        let f := c_flow c in
        send_raw_reset (portid c + 1) (client_mac c) (server_mac c) (client_ip f) (server_ip f)
          (client_port f) (server_port f) (rd32 pktbuf 48) 0;;;
        send_rst_conn_meta (portid c + 1) i;;;
        mod_conn i (fun c => c <| need_to_send_rst_meta := true |>)
  end.

Definition process_host_close (p : packet) : nicM unit :=
  do target <- search_tcp_connection (flow_of p);
  match target with
  | None => ret tt
  | Some i =>
      do x <- get_sess i;
      if meta_matches p x then mod_conn i (fun c => c <| hws_ready_to_del := true |>) else ret tt
  end.

Definition process_host_packet (port : Z) (pktbuf : bytes) (len : Z) (p : packet)
    (pkt_type : recv_packet_type) : nicM unit :=
  if Z.rem port 2 =? 0 then ret tt else
  match pkt_type with
  | HOST_MIG_FIN => process_host_mig_fin pktbuf p
  | HOST_CLOSE => process_host_close p
  | _ => forward (port - 1) pktbuf len
  end.

(** [process_packet]: [pktbuf] is the memory of the packet buffer, [len] the
    length of the packet in it. *)
Definition process_packet (port : Z) (pktbuf : bytes) (len : Z) : nicM unit :=
  let p := parse pktbuf in
  let ip_len := ntohs (total_length (iph p)) in
  let seq_no := ntohl (sent_seq (tcph p)) in
  let ack_no := ntohl (recv_ack (tcph p)) in
  let tcp_len := Z.shiftr (Z.land (data_off (tcph p)) 0xf0) 2 in
  let payload := drop (Z.to_nat (34 + tcp_len)) pktbuf in
  let payload_len := u16 (ip_len - (IP_HEADER_LEN + tcp_len)) in
  match validate_packet_type port p payload_len with
  | Some SSL_HANDSHAKE => process_handshake_packet pktbuf p payload payload_len seq_no ack_no
  | Some TCP_SYN => process_syn_packet port p payload_len seq_no
  | Some TCP_ACK => process_ack_packet pktbuf p payload_len ack_no
  | Some HOST_MIG_FIN => process_host_packet port pktbuf len p HOST_MIG_FIN
  | Some HOST_CLOSE => process_host_packet port pktbuf len p HOST_CLOSE
  | Some TCP_FIN => process_fin_packet port pktbuf len p
  | Some TCP_RST => process_rst_packet port pktbuf len p
  | Some TCP_SYNACK => ret tt
  | None => ret tt
  end.

(** ** The visit of the live connections *)

(** No flow rule is inserted in this build, so [ret] stays 0. *)
Definition apply_hws (i : nat) : nicM unit :=
  do x <- get_sess i;
  do c <- get_conn i;
  if bool_decide (s_state x = STATE_ACTIVE) && recv_mig_fin c && negb (hws_inserted c) then
    mod_conn i (fun c => c <| hws_inserted := true |> <| hws_applied := true |>)
  else ret tt.

Definition forward_app_data (i : nat) : nicM unit :=
  do c <- get_conn i;
  if hws_applied c && (0 <? pending_app_data_len c) then
    forward (portid c + 1) (pending_app_data c) (pending_app_data_len c);;;
    mod_conn i (fun c => c <| pending_app_data_len := 0 |>)
  else ret tt.

Definition visit_connection (i : nat) : nicM unit :=
  process_session_read i;;;
  get_processed_crypto i;;;
  apply_hws i;;;
  remove_hws i;;;
  forward_app_data i;;;
  send_remain_server_records i.

Fixpoint visit_list (l : list nat) : nicM unit :=
  match l with
  | [] => ret tt
  | i :: l' => visit_connection i;;; visit_list l'
  end.

(** The bins in order; an element that a visit removes still leads to its
    successor. *)
Fixpoint visit_bins (n b : nat) : nicM unit :=
  match n with
  | O => ret tt
  | S n' =>
      do s <- mget;
      (match ht_table (active_session_table s) !! b with
       | Some l => visit_list l
       | None => mfault Out_of_bounds
       end);;;
      visit_bins n' (S b)
  end.

(** [handle_waiting_hws_del_conns]: at most [size] turns. *)
Fixpoint waiting_loop (n : nat) (port : Z) : nicM unit :=
  match n with
  | O => ret tt
  | S n' =>
      do s <- mget;
      match sj_ring_dequeue (waiting_hws_del_ring s) with
      | Fault f => mfault f
      | Ret (rv, slot, ring') =>
          if rv <? 0 then waiting_loop n' port else
          mmod (fun s => s <| waiting_hws_del_ring := ring' |>);;;
          do i <- mderef slot;
          do c <- get_conn i;
          (if hws_deleted c then
             let ps := c_pending_syn c in
             let p := mk_packet (ps_ethh ps) (ps_iph ps) (ps_tcph ps) [] in
             remove_session i;;;
             do j <- insert_from port p (ntohl (sent_seq (ps_tcph ps))) (ps_payload_len ps);
             do c' <- get_conn j;
             send_synack_packet_for_saved_new_syn port ps (cookie c');;;
             ret tt
           else
             do s <- mget;
             do (_, ring'') <- mres (sj_ring_enqueue (waiting_hws_del_ring s) i);
             mmod (fun s => s <| waiting_hws_del_ring := ring'' |>));;;
          waiting_loop n' port
      end
  end.
Definition handle_waiting_hws_del_conns (port : Z) : nicM unit :=
  do s <- mget; waiting_loop (Z.to_nat (size (waiting_hws_del_ring s))) port.

Fixpoint process_packets (port : Z) (pkts : list (bytes * Z)) : nicM unit :=
  match pkts with
  | [] => ret tt
  | (b, len) :: pkts' => process_packet port b len;;; process_packets port pkts'
  end.

(** The body of the main loop of a worker for one port. *)
Definition worker_port (port : Z) (pkts : list (bytes * Z)) : nicM unit :=
  process_packets port pkts;;;
  visit_bins (Z.to_nat NUM_BINS) 0;;;
  handle_waiting_hws_del_conns port.

(** [process_session_health_check], in nanoseconds; no caller in this build. *)
Definition HEALTH_CHECK : Z := 10000.
Definition process_session_health_check (i : nat) : nicM Z :=
  do c <- get_conn i;
  if onload c then ret 0 else
  do s <- mget;
  if HEALTH_CHECK * 1000000 <? now s - last_interaction c then
    send_tcp_packet i [] 0 TCP_FLAG_ACK;;;
    mod_conn i (fun c => c <| last_interaction := now s |>);;;
    ret (-1)
  else ret 0.
End handlers.

(** ** The step relation of a worker core

    The PKA core runs beside the worker. What the worker still has to do in the
    current turn of its loop is a list of tasks, and the PKA core may act
    between any two of them: a task is one packet, or one of the calls that a
    live connection is visited with; [get_processed_crypto] is two, since the
    request it may submit can be answered before its last stores. Within a
    task the worker is not interrupted. *)
Section steps.
Context `{Platform} `{Crypto}.

Inductive task : Type :=
| Packet (port : Z) (pktbuf : bytes) (len : Z)
| Bins (n b : nat)
| Read (i : nat)
| Answer (i : nat)
| Reset (i op : nat)
| Apply (i : nat)
| Remove (i : nat)
| Forward (i : nat)
| Remain (i : nat)
| Waiting (port : Z).

Definition visit_tasks (i : nat) : list task := [Read i; Answer i; Apply i; Remove i; Forward i; Remain i].

(** A task returns the ones that come before the rest. *)
Definition run_task (t : task) : nicM (list task) :=
  match t with
  | Packet port b len => process_packet port b len;;; ret []
  | Bins 0 b => ret []
  | Bins (S n) b =>
      do s <- mget;
      match ht_table (active_session_table s) !! b with
      | Some l => ret (mjoin (visit_tasks <$> l) ++ [Bins n (S b)])
      | None => mfault Out_of_bounds
      end
  | Read i => process_session_read i;;; ret []
  | Answer i => do o <- use_answer i; ret (match o with Some op => [Reset i op] | None => [] end)
  | Reset i op => reset_crypto i op;;; ret []
  | Apply i => apply_hws i;;; ret []
  | Remove i => remove_hws i;;; ret []
  | Forward i => forward_app_data i;;; ret []
  | Remain i => send_remain_server_records i;;; ret []
  | Waiting port => handle_waiting_hws_del_conns port;;; ret []
  end.
Definition worker_tasks (port : Z) (pkts : list (bytes * Z)) : list task :=
  ((fun '(b, len) => Packet port b len) <$> pkts) ++ [Bins (Z.to_nat NUM_BINS) 0; Waiting port].

(** One task of the worker. *)
Inductive task_step : nic * list task -> nic * list task -> Prop :=
| step_task t ts s ts' s' : run_task t s = Ret (ts', s') -> task_step (s, t :: ts) (s', ts' ++ ts).

(** A step of the machine: the worker starts the turn of its loop for a port
    with the packets received there, or does its next task; the PKA core takes
    one request or one result; the cookie time is updated; time passes. *)
Inductive step : nic * list task -> nic * list task -> Prop :=
| step_turn port pkts s : step (s, []) (s, worker_tasks port pkts)
| step_worker c c' : task_step c c' -> step c c'
| step_submitted b s s' ts : cur_crypto_cnt s < MAX_OUTSTANDING_PKA_REQ ->
    submitted_step s = Ret (b, s') -> step (s, ts) (s', ts)
| step_completed a n s s' ts : 0 < cur_crypto_cnt s ->
    completed_step a s = Ret (n, s') -> step (s, ts) (s', ts)
| step_cookie s s' ts : update_cookie s = Ret (tt, s') -> step (s, ts) (s', ts)
| step_clock t s ts : step (s, ts) (s <| now := t |>, ts).

(** The tasks done without interruption are the loop body [worker_port]. *)
Lemma task_run t ts s s' : run_task t s = Ret ([], s') -> task_step (s, t :: ts) (s', ts).
Proof. intros E. exact (step_task t ts s [] s' E). Qed.
Lemma call_run {A} (m : nicM A) (t : task) ts s a s' :
  m s = Ret (a, s') -> run_task t = (m;;; ret []) -> rtc task_step (s, t :: ts) (s', ts).
Proof. intros E Ht. apply rtc_once, task_run. rewrite Ht. by erewrite bind_ret by exact E. Qed.

Lemma visit_run i ts s s' : visit_connection i s = Ret (tt, s') ->
  rtc task_step (s, visit_tasks i ++ ts) (s', ts).
Proof.
  intros (? & s1 & E1 & E)%bind_inv. apply bind_inv in E as (? & s2 & E2 & E).
  apply bind_inv in E as (? & s3 & E3 & E). apply bind_inv in E as (? & s4 & E4 & E).
  apply bind_inv in E as (? & s5 & E5 & E6). simpl.
  etrans; [by eapply call_run|]. transitivity (s2, [Apply i; Remove i; Forward i; Remain i] ++ ts).
  - apply bind_inv in E2 as (o & t & E & E2). eapply rtc_l.
    + apply step_task. cbn [run_task]. erewrite bind_ret by exact E. reflexivity.
    + destruct o as [op|]; [by eapply call_run|]. injection E2 as _ <-. apply rtc_refl.
  - do 4 (etrans; [by eapply call_run|]). apply rtc_refl.
Qed.
Lemma visit_list_run l ts : forall s s', visit_list l s = Ret (tt, s') ->
  rtc task_step (s, mjoin (visit_tasks <$> l) ++ ts) (s', ts).
Proof.
  induction l as [|i l IH]; intros s s' E; [injection E as <-; apply rtc_refl|].
  apply bind_inv in E as ([] & s1 & E1 & E). rewrite fmap_cons. cbn [mjoin list_join]. rewrite <-app_assoc.
  etrans; [by apply visit_run|]. by apply IH.
Qed.
Lemma visit_bins_run n : forall b ts s s', visit_bins n b s = Ret (tt, s') ->
  rtc task_step (s, Bins n b :: ts) (s', ts).
Proof.
  induction n as [|n IH]; intros b ts s s' E; cbn [visit_bins] in E.
  - injection E as <-. by apply rtc_once, task_run.
  - apply bind_inv in E as (? & ? & [= <- <-] & E). apply bind_inv in E as ([] & s1 & E1 & E).
    destruct (ht_table (active_session_table s) !! b) as [l|] eqn:El; [|done]. eapply rtc_l.
    + apply step_task. cbn [run_task]. unfold bind, mget. by rewrite El.
    + rewrite <-app_assoc. etrans; [by apply visit_list_run|]. by apply IH.
Qed.
Lemma packets_run port pkts ts : forall s s', process_packets port pkts s = Ret (tt, s') ->
  rtc task_step (s, ((fun '(b, len) => Packet port b len) <$> pkts) ++ ts) (s', ts).
Proof.
  induction pkts as [|[b len] pkts IH]; intros s s' E; [injection E as <-; apply rtc_refl|].
  apply bind_inv in E as (? & s1 & E1 & E). etrans; [by eapply call_run|]. by apply IH.
Qed.
Lemma worker_port_run port pkts s s' : worker_port port pkts s = Ret (tt, s') ->
  rtc step (s, []) (s', []).
Proof.
  intros ([] & s1 & E1 & E)%bind_inv. apply bind_inv in E as ([] & s2 & E2 & E3).
  eapply rtc_l; [apply (step_turn port pkts)|]. eapply (rtc_subrel task_step step); [apply step_worker|].
  etrans; [by apply packets_run|]. etrans; [by apply visit_bins_run|].
  by eapply call_run.
Qed.

(** *** Every handler keeps the invariant *)

Lemma search_run m f s : wf_map m None s -> search_tcp_connection f s = Ret (m !! f, s).
Proof.
  intros []. unfold search_tcp_connection. unfold bind, mget, mres.
  rewrite (ht_search_spec (key_of (conns s)) (idle (conns s)) _ m f); [done|done|].
  intros k x Hm. by apply (wf_live k x).
Qed.

Lemma inv_touch i : preserves inv (touch i).
Proof. unfold touch. pres. Qed.
#[local] Hint Resolve inv_touch : pres.
Lemma inv_normal i a b pl n : preserves inv (process_normal_seq_case i a b pl n).
Proof. unfold process_normal_seq_case. pres. Qed.
Lemma inv_over i : preserves inv (process_over_seq_case i).
Proof. unfold process_over_seq_case. pres. Qed.
Lemma inv_keep i b d n : preserves inv (keep_app_data i b d n).
Proof. unfold keep_app_data. pres. Qed.
#[local] Hint Resolve inv_normal inv_over inv_keep : pres.
Lemma inv_handshake_packet b p pl n a k : preserves inv (process_handshake_packet b p pl n a k).
Proof. unfold process_handshake_packet. pres. Qed.
Lemma inv_ack b p n k : preserves inv (process_ack_packet b p n k).
Proof. unfold process_ack_packet. pres. Qed.
Lemma inv_fin_packet port b len p : preserves inv (process_fin_packet port b len p).
Proof. unfold process_fin_packet, forward. pres. Qed.
Lemma inv_rst port b len p : preserves inv (process_rst_packet port b len p).
Proof. unfold process_rst_packet, forward. pres. Qed.
Lemma inv_host port b len p t : preserves inv (process_host_packet port b len p t).
Proof. unfold process_host_packet, process_host_mig_fin, process_host_close, forward. pres. Qed.

(** A new SYN replaces the connection of its flow by another one. *)
Lemma wf_new_syn m i port p n seq s s' u :
  wf_map m None s -> m !! flow_of p = Some i ->
  (save_new_syn i p n;;; remove_session i;;; do c <- get_conn i;
   send_synack_packet port p (cookie c);;; insert_from port p seq n;;; ret tt) s = Ret (u, s') -> wf s'.
Proof.
  intros Hw Hm (? & s1 & E1 & E)%bind_inv.
  assert (preserves (wf_map m None) (save_new_syn i p n)) as Hsave by (unfold save_new_syn; pres).
  apply Hsave in E1; [|done].
  apply bind_inv in E as ([] & s2 & E2 & E). destruct (remove_inv _ _ _ _ E1 E2) as (k & Hk & Hw2).
  assert (k = flow_of p) as -> by exact (rep_inj _ _ m k (flow_of p) i (wf_table _ _ _ E1) Hk Hm).
  apply bind_inv in E as (c & s3 & E3 & E).
  apply (wf_get_conn (wf_map (delete (flow_of p) m) None)) in E3; [|done].
  apply bind_inv in E as (z & s4 & E4 & E).
  apply (wf_synack (wf_map (delete (flow_of p) m) None)) in E4; [|done].
  apply bind_inv in E as (j & s5 & E5 & [= _ <-]).
  destruct (insert_inv _ _ _ _ _ _ _ _ _ _ _ E4 (lookup_delete_eq _ _) E5) as [Hw5 _].
  by eexists.
Qed.

Lemma wf_syn port p n seq : preserves wf (process_syn_packet port p n seq).
Proof.
  intros s u s' [m Hw] E. unfold process_syn_packet in E.
  erewrite bind_ret in E by (by apply search_run).
  destruct (m !! flow_of p) as [i|] eqn:Hm.
  - apply bind_inv in E as (c & s1 & E1 & E). apply (wf_get_conn (wf_map m None)) in E1; [|done].
    destruct (validate_syn_packet c seq).
    + apply bind_inv in E as (z & s2 & E2 & [= _ <-]).
      apply (wf_synack (wf_map m None)) in E2; [|done]. by eexists.
    + by eapply wf_new_syn.
  - apply bind_inv in E as (i & s1 & E1 & E).
    destruct (insert_inv _ _ _ _ _ _ _ _ _ _ _ Hw Hm E1) as [Hw1 _].
    apply bind_inv in E as (c & s2 & E2 & E).
    apply (wf_get_conn (wf_map (<[flow_of p := i]> m) None)) in E2; [|done].
    apply bind_inv in E as (z & s3 & E3 & [= _ <-]).
    apply (wf_synack (wf_map (<[flow_of p := i]> m) None)) in E3; [|done]. by eexists.
Qed.
Lemma pools_syn port p n seq : preserves pools_ok (process_syn_packet port p n seq).
Proof. unfold process_syn_packet, save_new_syn, insert_from. pres. Qed.
#[local] Hint Resolve wf_syn pools_syn inv_handshake_packet inv_ack inv_fin_packet inv_rst inv_host : pres.

Lemma inv_packet port b len : preserves inv (process_packet port b len).
Proof. unfold process_packet. pres. Qed.
Lemma inv_packets port pkts : preserves inv (process_packets port pkts).
Proof. induction pkts as [|[b len] pkts IH]; simpl; [pres|]. apply pres_bind; [apply inv_packet|done]. Qed.

Lemma inv_apply i : preserves inv (apply_hws i).
Proof. unfold apply_hws. pres. Qed.
Lemma inv_forward i : preserves inv (forward_app_data i).
Proof. unfold forward_app_data, forward. pres. Qed.
#[local] Hint Resolve inv_apply inv_forward : pres.
Lemma inv_visit l : preserves inv (visit_list l).
Proof. induction l; simpl; unfold visit_connection; pres. Qed.
#[local] Hint Resolve inv_visit : pres.
Lemma inv_visit_bins n b : preserves inv (visit_bins n b).
Proof. revert b. induction n as [|n IH]; intros b; simpl; pres. Qed.

(** The ring of waiting connections is empty. *)
Lemma waiting_idle n port s : wf s -> waiting_loop n port s = Ret (tt, s).
Proof.
  intros [m Hw]. induction n as [|n IH]; [done|]. simpl. unfold bind at 1, mget.
  unfold sj_ring_dequeue. by rewrite (wf_ring _ _ _ Hw), Z.eqb_refl.
Qed.
Lemma inv_waiting port : preserves inv (handle_waiting_hws_del_conns port).
Proof.
  intros s u s' Hi E. unfold handle_waiting_hws_del_conns, bind, mget in E.
  rewrite waiting_idle in E by apply Hi. by injection E as _ <-.
Qed.
#[local] Hint Resolve inv_packets inv_visit_bins inv_waiting : pres.
Lemma inv_worker port pkts : preserves inv (worker_port port pkts).
Proof. unfold worker_port. pres. Qed.
Lemma inv_task t : preserves inv (run_task t).
Proof.
  destruct t as [port b len|[|n] b|i|i|i op|i|i|i|i|port]; simpl; pres. apply inv_packet.
Qed.
Lemma inv_cookie : preserves inv update_cookie.
Proof.
  apply pres_mod. intros x [[m Hw] Hp]. split.
  - exists m. eapply framed; [|done]. repeat case_match; by repeat split.
  - destruct Hp. repeat case_match; by split.
Qed.

Lemma step_inv c c' : step c c' -> inv c.1 -> inv c'.1.
Proof.
  intros [port pkts s|? ? [t ts s ts' s' E]|b s s' ts _ E|a n s s' ts _ E|s s' ts E|t s ts] Hi; simpl in *.
  - done.
  - by eapply inv_task.
  - by eapply inv_submitted_step.
  - by eapply inv_completed_step.
  - by eapply inv_cookie.
  - destruct Hi as [[m Hw] Hp]. split; [exists m; wf_frame|]. destruct Hp. by split.
Qed.

(** *** Packets without TLS data unlink only what is linked *)

Lemma tq_insert_avoids h x q : TAILQ_INSERT_TAIL h x q <> Fault Bad_link.
Proof. unfold TAILQ_INSERT_TAIL. simpl. by case_match. Qed.
Lemma tq_remove_avoids h x q : TAILQ_REMOVE h x q <> Fault Bad_link.
Proof. unfold TAILQ_REMOVE. simpl. by case_match. Qed.
Lemma clear_results_avoids l : clear_results l <> Fault Bad_link.
Proof.
  induction l as [|o l IH]; [done|]. cbn [clear_results]. unfold clear_result, memset0. case_match; [|done].
  simpl. by destruct (clear_results l).
Qed.
Lemma get_conn_avoids i : avoids Bad_link (get_conn i).
Proof. intros s. unfold get_conn. by case_match. Qed.
Lemma get_sess_avoids i : avoids Bad_link (get_sess i).
Proof. intros s. unfold get_sess. by case_match. Qed.
Lemma get_rec_avoids i : avoids Bad_link (get_rec i).
Proof. intros s. unfold get_rec. by case_match. Qed.
Lemma get_op_avoids i : avoids Bad_link (get_op i).
Proof. intros s. unfold get_op. by case_match. Qed.
#[local] Hint Resolve tq_insert_avoids tq_remove_avoids clear_results_avoids get_conn_avoids get_sess_avoids
  get_rec_avoids get_op_avoids : avoid.
Lemma mod_conn_avoids i f : avoids Bad_link (mod_conn i f).
Proof. unfold mod_conn. avoid. Qed.
Lemma mod_sess_avoids i f : avoids Bad_link (mod_sess i f).
Proof. unfold mod_sess. avoid. Qed.
Lemma mod_rec_avoids i f : avoids Bad_link (mod_rec i f).
Proof. unfold mod_rec. avoid. Qed.
Lemma mod_op_avoids i f : avoids Bad_link (mod_op i f).
Proof. unfold mod_op. avoid. Qed.
#[local] Hint Resolve mod_conn_avoids mod_sess_avoids mod_rec_avoids mod_op_avoids : avoid.
Lemma release_record_avoids r : avoids Bad_link (release_record r).
Proof. unfold release_record, release. avoid. Qed.
Lemma delete_op_avoids op : avoids Bad_link (delete_op op).
Proof. unfold delete_op, release. avoid. Qed.
#[local] Hint Resolve release_record_avoids delete_op_avoids : avoid.
Lemma delete_record_avoids i r : avoids Bad_link (delete_record i r).
Proof. unfold delete_record. avoid. Qed.
#[local] Hint Resolve delete_record_avoids : avoid.
Lemma remove_pending_avoids i : avoids Bad_link (remove_pending_pka_op i).
Proof. unfold remove_pending_pka_op. avoid. Qed.
Lemma drain_avoids fuel i c : avoids Bad_link (drain_recv_q fuel i c).
Proof. revert c. induction fuel as [|fuel IH]; intros [c|]; simpl; avoid. Qed.
#[local] Hint Resolve remove_pending_avoids drain_avoids : avoid.
Lemma clear_ssl_avoids i : avoids Bad_link (clear_ssl_session i).
Proof. unfold clear_ssl_session. avoid. Qed.
#[local] Hint Resolve clear_ssl_avoids : avoid.

(** The session of a live connection can be removed. *)
Lemma remove_live_avoids m k i s : wf_map m None s -> m !! k = Some i -> remove_session i s <> Fault Bad_link.
Proof.
  intros Hw Hm. pose proof (wf_table _ _ _ Hw) as Ht. unfold remove_session.
  rewrite (bind_ret mget _ s s s) by done. unfold massert. case_match; [|done]. rewrite (bind_ret (ret tt) _ s tt s) by done.
  destruct (ht_remove_spec (key_of (conns s)) (active_session_table s) m i k Ht) as (ht & E & _);
    [by apply (rep_complete _ _ _ Ht)|done|]. erewrite bind_ret by (unfold mres; rewrite E; reflexivity).
  apply avoids_at. avoid.
Qed.
Lemma search_avoids f : avoids Bad_link (search_tcp_connection f).
Proof.
  unfold search_tcp_connection. avoid. unfold ht_search. case_match; [|done].
  match goal with |- ht_walk _ _ _ ?l <> _ => clear; induction l as [|x l IH] end; [done|]. simpl. by repeat case_match.
Qed.
Lemma insert_from_avoids port p a n : avoids Bad_link (insert_from port p a n).
Proof.
  unfold insert_from, insert_tcp_connection, pop_free_connection. avoid.
  unfold ht_insert. by repeat case_match.
Qed.
Lemma synack_avoids port p k : avoids Bad_link (send_synack_packet port p k).
Proof. unfold send_synack_packet. avoid. Qed.
Lemma keep_avoids i b d n : avoids Bad_link (keep_app_data i b d n).
Proof. unfold keep_app_data. avoid. Qed.
Lemma raw_reset_avoids port a b c d e f g h : avoids Bad_link (send_raw_reset port a b c d e f g h).
Proof. unfold send_raw_reset. avoid. Qed.
Lemma rst_meta_avoids port i : avoids Bad_link (send_rst_conn_meta port i).
Proof. unfold send_rst_conn_meta. avoid. unfold build_connection_meta, put_key.
  repeat (case_match; cbn [res_bind]; [done|]). done. Qed.
#[local] Hint Resolve search_avoids insert_from_avoids synack_avoids keep_avoids raw_reset_avoids rst_meta_avoids : avoid.

Lemma syn_avoids port p n seq s : wf s -> process_syn_packet port p n seq s <> Fault Bad_link.
Proof.
  intros [m Hw]. unfold process_syn_packet. erewrite bind_ret by (by apply search_run).
  destruct (m !! flow_of p) as [i|] eqn:Hm.
  2: { apply avoids_at. avoid. }
  unfold bind at 1. destruct (get_conn i s) as [[c s1]|f] eqn:E1.
  2: { intros [= ->]. by apply (get_conn_avoids i s). }
  apply (wf_get_conn (wf_map m None)) in E1; [|done]. case_match.
  { apply avoids_at. avoid. }
  assert (preserves (wf_map m None) (save_new_syn i p n)) as Hsave by (unfold save_new_syn; pres).
  assert (avoids Bad_link (save_new_syn i p n)) as Hs by (unfold save_new_syn; avoid).
  unfold bind at 1. destruct (save_new_syn i p n s1) as [[? s2]|f] eqn:E2.
  2: { intros [= ->]. by apply (Hs s1). }
  apply Hsave in E2; [|done]. unfold bind at 1. destruct (remove_session i s2) as [[? s3]|f] eqn:E3.
  2: { intros [= ->]. by apply (remove_live_avoids m _ i s2 E2 Hm). }
  apply avoids_at. avoid.
Qed.
Lemma plain_packet_avoids port b len s t :
  wf s ->
  validate_packet_type port (parse b) (u16 (ntohs (total_length (iph (parse b))) -
    (IP_HEADER_LEN + Z.shiftr (Z.land (data_off (tcph (parse b))) 0xf0) 2))) = Some t ->
  t <> SSL_HANDSHAKE -> process_packet port b len s <> Fault Bad_link.
Proof.
  intros Hw Hv Ht. unfold process_packet. rewrite Hv. destruct t; try done; try by apply syn_avoids.
  all: apply avoids_at; unfold process_ack_packet, process_host_packet, process_host_mig_fin, process_host_close,
    process_fin_packet, process_rst_packet, forward, touch; avoid.
Qed.

(** *** Consequences of the invariant *)

(** The free and the live connections are all connections, once each. *)
Lemma conns_perm m s : wf_map m None s ->
  elements (dom (conns s)) ≡ₚ free_session_q s ++ (map_to_list m).*2.
Proof.
  intros []. eapply partition_perm; [exact wf_table|done| | |].
  - intros i Hi. apply elem_of_dom. by apply wf_free.
  - intros k i Hk. destruct (wf_live k i Hk) as [Hid Hni]. split; [|done]. apply elem_of_dom.
    unfold idle in Hid. by case_match.
  - intros i [?|[?|?]]%elem_of_dom%wf_cover; [by left|by right|done].
Qed.

Lemma conns_count m s : wf_map m None s -> active_cnt s + free_cnt s = Z.of_nat (base.size (conns s)).
Proof.
  intros Hw. pose proof (Permutation_length (conns_perm m s Hw)) as Hl.
  rewrite length_app, length_fmap, length_map_to_list in Hl. destruct Hw. rewrite wf_active_cnt, wf_free_cnt.
  rewrite <-(size_dom (conns s)). change (base.size (dom (conns s))) with (length (elements (dom (conns s)))). lia.
Qed.


(** ** What a SYN does *)

Section syn.
Context (port : Z) (pktbuf : bytes) (len : Z).
Let p := parse pktbuf.
Let seq_no := ntohl (sent_seq (tcph p)).
Let payload_len :=
  u16 (ntohs (total_length (iph p)) - (IP_HEADER_LEN + Z.shiftr (Z.land (data_off (tcph p)) 0xf0) 2)).

(** C29: a SYN for an unknown flow takes the first free connection: afterwards
    the flow, and no other, is newly bound, to that connection; it expects the
    client's next sequence number, and the one packet sent is a SYN-ACK to the
    client whose sequence number is the connection's cookie and which
    acknowledges the SYN and repeats its options. *)
Theorem syn_opens_connection m s i q c :
  wf_map m None s ->
  validate_packet_type port p payload_len = Some TCP_SYN ->
  m !! flow_of p = None ->
  free_session_q s = i :: q -> conns s !! i = Some c -> c_state c = TCP_SESSION_IDLE ->
  option_len_of (data_off (tcph p)) <= 40 ->
  exists s' c' r, process_packet port pktbuf len s = Ret (tt, s') /\
    wf_map (<[flow_of p := i]> m) None s' /\ conns s' !! i = Some c' /\
    c_flow c' = flow_of p /\ c_state c' = TCP_SESSION_RECEIVED /\
    last_recv_seq c' = u32 (seq_no + 1) /\ last_recv_ack c' = u32 (cookie c' + 1) /\
    cookie c' = get_cookie (t_major s) (ip_src (iph p)) (src_port (tcph p)) (ip_dst (iph p)) (dst_port (tcph p)) /\
    tx s' = tx s ++ [TxTcp port (synack p
      (rdn (Z.to_nat (option_len_of (data_off (tcph p)))) (tcp_data p) 0)
      (option_len_of (data_off (tcph p))) (cookie c') r)].
Proof.
  intros Hw Hv Hm Hq Hc Hi Ho. unfold process_packet. fold p. fold payload_len. rewrite Hv.
  unfold process_syn_packet. erewrite bind_ret by (by apply search_run). rewrite Hm.
  destruct (insert_run m s port (src_addr (ethh p)) (flow_of p) (dst_addr (ethh p)) seq_no
    (ntohs (rx_win (tcph p))) payload_len i q c) as (s1 & E1 & Hr1 & Htx1); [done..|].
  destruct (insert_inv _ _ _ _ _ _ _ _ _ _ _ Hw Hm E1) as (Hw1 & _ & c0 & Hc0 & Hc1).
  rewrite Hc in Hc0. injection Hc0 as <-.
  unfold insert_from. fold seq_no. erewrite bind_ret by exact E1.
  erewrite bind_ret by (apply get_conn_run; rewrite Hc1; apply lookup_insert_eq).
  set (c' := fill_connection _ _ _ _ _ _ _ _ c).
  unfold send_synack_packet. unfold bind, next_rand. rewrite (proj2 (Z.ltb_ge _ _)) by lia. simpl.
  eexists _, c', _. split; [reflexivity|]. split; [wf_frame|]. simpl. rewrite Hc1, Htx1.
  split; [apply lookup_insert_eq|]. done.
Qed.

(** When no connection is free, a SYN for an unknown flow ends the whole
    process with [exit(EXIT_FAILURE)]: connections that stay open past the
    table's size stop the SmartNIC for everyone. *)
Theorem syn_without_free_connection_exits m s :
  wf_map m None s ->
  validate_packet_type port p payload_len = Some TCP_SYN ->
  m !! flow_of p = None -> free_session_q s = [] ->
  process_packet port pktbuf len s = Fault Exit_failure.
Proof.
  intros Hw Hv Hm Hq. unfold process_packet. fold p. fold payload_len. rewrite Hv.
  unfold process_syn_packet. erewrite bind_ret by (by apply search_run). rewrite Hm.
  apply bind_fault, bind_fault. unfold pop_free_connection. step. by rewrite Hq.
Qed.

(** On a connection that was handed to the host, any data packet whose
    headers and payload exceed 1024 bytes is copied past the end of the
    1024-byte [pending_app_data] buffer. *)
Theorem onloaded_packet_overflows m s i c :
  wf_map m None s ->
  validate_packet_type port p payload_len = Some SSL_HANDSHAKE ->
  m !! flow_of p = Some i -> conns s !! i = Some c -> onload c = true ->
  1024 < u16 (34 + Z.shiftl (Z.shiftr (data_off (tcph p)) 4) 2 + payload_len) ->
  process_packet port pktbuf len s = Fault Out_of_bounds.
Proof.
  intros Hw Hv Hm Hc Ho Hl. unfold process_packet. fold p. fold payload_len. rewrite Hv.
  unfold process_handshake_packet. erewrite bind_ret by (by apply search_run). rewrite Hm.
  erewrite bind_ret by (by apply get_conn_run). rewrite Ho. unfold keep_app_data.
  replace (ETHERNET_HEADER_LEN + IP_HEADER_LEN) with 34 by reflexivity.
  by rewrite (proj2 (Z.ltb_lt (Z.of_nat MAX_APP_DATA_SIZE) _)) by (unfold MAX_APP_DATA_SIZE; lia).
Qed.
End syn.
End steps.

(** ** A run

    A core with two connections receives a SYN from 10.0.0.1:80 to 10.0.0.2:443. *)
Definition run_state (r : res (unit * nic)) (d : nic) : nic :=
  match r with Ret (_, s) => s | Fault _ => d end.
Definition start : nic :=
  match @thread_local_init sample_platform 2 (2 ^ 4) with Ret s => s | Fault _ => thread_context0 end.

Definition tcp_bytes (sport flags : Z) (seq ack : Z) (payload : bytes) : bytes :=
  [1;1;1;1;1;1; 2;2;2;2;2;2; 0x08;0x00] ++
  [0x45; 0] ++ be_bytes 2 (40 + Z.of_nat (length payload)) ++ [0;0; 0;0; 64; 6; 0;0; 10;0;0;1; 10;0;0;2] ++
  be_bytes 2 sport ++ [1;0xbb] ++ be_bytes 4 seq ++ be_bytes 4 ack ++ [0x50; flags; 1;0; 0;0; 0;0] ++ payload.
Definition syn_bytes : bytes := tcp_bytes 80 TCP_FLAG_SYN 1000 0 [].
Definition client_flow : flow := mk_flow 0x0100000a 0x0200000a 0x5000 0xbb01.

Definition after_syn : nic :=
  run_state (@worker_port sample_platform sample_crypto 0 [(syn_bytes, 54)] start) start.

Lemma run_ret {A} (m : res (A * nic)) (f : A) d :
  match m with Ret (_, _) => true | Fault _ => false end = true -> (forall a : A, a = f) ->
  m = Ret (f, match m with Ret (_, s) => s | Fault _ => d end).
Proof. destruct m as [[a s]|]; [|done]. intros _ Hf. by rewrite (Hf a). Qed.
Lemma Ret_inj {A} (x y : A) : Ret x = Ret y -> x = y.
Proof. by injection 1. Qed.
Lemma start_init : @thread_local_init sample_platform 2 (2 ^ 4) = Ret start.
Proof.
  destruct (@thread_local_init_run sample_platform 2 4) as (s & E & _); [lia|].
  unfold start. by rewrite E.
Qed.
Lemma after_syn_reached : rtc (@step sample_platform sample_crypto) (start, []) (after_syn, []).
Proof.
  apply (worker_port_run 0 [(syn_bytes, 54)]). apply run_ret; [vm_compute; reflexivity|by intros []].
Qed.
Lemma start_wf : wf_map ∅ None start.
Proof.
  destruct (@thread_local_init_run sample_platform 2 4) as (s & E & [m Hw] & _ & _ & Ha & _); [lia|].
  rewrite start_init in E. apply Ret_inj in E as <-. replace ∅ with m; [done|].
  apply map_size_empty_iff. destruct Hw. lia.
Qed.


(** With a second connection open, a packet with two fatal alerts removes the
    session of its connection twice. *)
Definition two_open : nic :=
  run_state (@worker_port sample_platform sample_crypto 0
    [(syn_bytes, 54); (tcp_bytes 81 TCP_FLAG_SYN 1000 0 [], 54)] start) start.
Definition alert_record : bytes := [21; 3; 3; 0; 2; 2; 40].
Example two_alerts_remove_twice :
  @process_packet sample_platform sample_crypto 0
    (tcp_bytes 80 TCP_FLAG_ACK 1001 1 (alert_record ++ alert_record)) 68 two_open = Fault Bad_link.
Proof. vm_compute. reflexivity. Qed.

Lemma syn_opens_connection_witness :
  exists s' c' r, @process_packet sample_platform sample_crypto 0 syn_bytes 54 start = Ret (tt, s') /\
    wf_map (<[client_flow := 0%nat]> ∅) None s' /\ conns s' !! 0%nat = Some c' /\
    c_flow c' = client_flow /\ c_state c' = TCP_SESSION_RECEIVED /\
    last_recv_seq c' = 1001 /\ last_recv_ack c' = u32 (cookie c' + 1) /\
    cookie c' = @get_cookie sample_platform 0 0x0100000a 0x5000 0x0200000a 0xbb01 /\
    tx s' = [] ++ [TxTcp 0 (synack (parse syn_bytes) [] 0 (cookie c') r)].
Proof.
  apply (@syn_opens_connection sample_platform sample_crypto 0 syn_bytes 54 ∅ start 0 [1%nat]
    (default tcp_connection0 (conns start !! 0%nat))).
  - exact start_wf.
  - vm_compute. reflexivity.
  - reflexivity.
  - vm_compute. reflexivity.
  - vm_compute. reflexivity.
  - vm_compute. reflexivity.
  - vm_compute. discriminate.
Defined.

(** A core with one connection, taken by the SYN; a second client's SYN; and
    the first client's connection after it was handed to the host. *)
Definition start1 : nic :=
  match @thread_local_init sample_platform 1 (2 ^ 4) with Ret s => s | Fault _ => thread_context0 end.
Definition full : nic :=
  run_state (@worker_port sample_platform sample_crypto 0 [(syn_bytes, 54)] start1) start1.
Definition syn_bytes' : bytes := tcp_bytes 81 TCP_FLAG_SYN 1000 0 [].
Definition conn_of_full : tcp_connection := default tcp_connection0 (conns full !! 0%nat).
Definition onloaded : nic := full <| conns ::= insert 0%nat (conn_of_full <| onload := true |>) |>.
Definition data_bytes : bytes := tcp_bytes 80 TCP_FLAG_ACK 1001 1 (replicate 1000 0x17).

Lemma full_wf : wf full.
Proof.
  destruct (@thread_local_init_run sample_platform 1 4) as (s & E & Hw & Hp & _); [lia|].
  assert (start1 = s) as Hs by (unfold start1; by rewrite E).
  eapply (@inv_worker sample_platform sample_crypto 0 [(syn_bytes, 54)] start1 tt).
  - rewrite Hs. by split.
  - apply run_ret; [vm_compute; reflexivity|by intros []].
Qed.
Definition searched (f : flow) (s : nic) : option nat :=
  match search_tcp_connection f s with Ret (r, _) => r | Fault _ => None end.
Lemma lookup_searched m s f : wf_map m None s -> m !! f = searched f s.
Proof. intros Hw. unfold searched. by rewrite (search_run m). Qed.
Lemma full_conn : conns full !! 0%nat = Some conn_of_full.
Proof.
  unfold conn_of_full. assert (bool_decide (is_Some (conns full !! 0%nat)) = true) as E by (by vm_compute).
  apply bool_decide_eq_true in E as [c ->]. done.
Qed.
Lemma wf_onload m s i c : wf_map m None s -> conns s !! i = Some c ->
  wf_map m None (s <| conns ::= insert i (c <| onload := true |>) |>).
Proof. intros Hw Hc. eapply wf_put_conn; [done|done|by right]. Qed.
Lemma onloaded_wf : wf onloaded.
Proof. destruct full_wf as [m Hw]. exists m. exact (wf_onload m full 0 _ Hw full_conn). Qed.

Lemma syn_without_free_connection_exits_witness :
  @process_packet sample_platform sample_crypto 0 syn_bytes' 54 full = Fault Exit_failure.
Proof.
  destruct full_wf as [m Hw].
  apply (@syn_without_free_connection_exits sample_platform sample_crypto 0 syn_bytes' 54 m full Hw).
  - vm_compute. reflexivity.
  - rewrite (lookup_searched _ _ _ Hw). vm_compute. reflexivity.
  - vm_compute. reflexivity.
Defined.

Lemma onloaded_packet_overflows_witness :
  @process_packet sample_platform sample_crypto 0 data_bytes 1054 onloaded = Fault Out_of_bounds.
Proof.
  destruct onloaded_wf as [m Hw].
  apply (@onloaded_packet_overflows sample_platform sample_crypto 0 data_bytes 1054 m onloaded 0%nat
    (conn_of_full <| onload := true |>) Hw).
  - vm_compute. reflexivity.
  - rewrite (lookup_searched _ _ _ Hw). vm_compute. reflexivity.
  - apply lookup_insert_eq.
  - reflexivity.
  - vm_compute. reflexivity.
Defined.
