(* ===== verification/PkaLive.v ===== *)
(** * Progress of the requests to the PKA core (ssl.c, tcp.c)

    Core 0 serves the workers by turns of [handle_submitted_pka] and
    [handle_completed_pka] ([pka_round] of Session.v). This file shows that
    every request a worker has put in its ring is answered, in whatever order
    and however slowly the accelerator works, how the worker can lose the
    answer, what a failed command does, and what an aborted session does to the
    counter both loops depend on. *)

From S2P Require Import Prelude TailQ Ring Operand NicState SslPools TcpOut RecordLayer Session TcpIn.

(** A result whose bytes fit a buffer of [n] bytes. *)
Record fits (n : nat) (r : pka_operand) : Prop := mk_fits {
  fits_nonneg : 0 <= buf_len r;
  fits_src : buf_len r <= Z.of_nat (length (buf_ptr r));
  fits_dst : buf_len r <= Z.of_nat n;
}.

Section live.
Context `{Platform} `{Crypto}.

(** What the accelerator is known to do: it takes a command while fewer than
    64 are in flight, gives 32 random bytes on demand, and its results lie
    within the buffers of [n] bytes the program gives it. *)
Record accelerator_ok (n : nat) : Prop := mk_accelerator_ok {
  acc_accepts k : (k < 64)%nat -> pka_accepts k = true;
  acc_order : operand_byte_len base_pt_order = Ret 32;
  acc_rand_len : length (pka_get_rand_bytes 32) = 32%nat;
  acc_rand_ok : bytes_ok (pka_get_rand_bytes 32);
  acc_ecdh p k : fits n (pka_mont_ecdh_mult p k);
  acc_sign d h k : fits n (pka_ecdsa_sign d h k).1 /\ fits n (pka_ecdsa_sign d h k).2;
}.

(** A session whose buffers hold the scalar and the results. *)
Record sess_ready (n : nat) (x : ssl_session) : Prop := mk_sess_ready {
  sr_priv : bytes_ok (buf_ptr (ecdhe_priv_key x));
  sr_priv_len : (32 <= length (buf_ptr (ecdhe_priv_key x)))%nat;
  sr_results : exists r0 r1, pka_results x = [r0; r1] /\
    length (buf_ptr r0) = n /\ length (buf_ptr r1) = n;
}.

(** A request as the worker leaves it: an opcode of the three, of a session
    whose buffers are ready. *)
Record request_ok (n : nat) (s : nic) (op : nat) : Prop := mk_request_ok {
  ro_op : exists o sess x, ops s !! op = Some o /\ op_opcode o ∈ pka_opcodes /\
    op_sess o = Some sess /\ sessions s !! sess = Some x /\
    sess_ready n x /\ (handshake_state x = HELLO_REQUEST -> op_data o <> None);
}.

Definition flagged (s : nic) (op : nat) : Prop :=
  exists o, ops s !! op = Some o /\ op_pka_flag o = true.

(** The session of request [op] has its answer. *)
Definition answered (s : nic) (op : nat) : Prop :=
  exists o sess x, ops s !! op = Some o /\ op_sess o = Some sess /\
    sessions s !! sess = Some x /\ completed_crypto x = true.

(** The worker's ring holds the requests [q], the accelerator has accepted
    those of [e], and the counter counts them. *)
Record pka_state (n : nat) (q : list nat) (e : list nat) (s : nic) : Prop := mk_pka_state {
  ps_ring : ring_rep (submit_pka_ring s) q;
  ps_engine : (engine s).*1 = e;
  ps_results : Forall (fun r => (length r.2 <= 2)%nat /\ Forall (fits n) r.2) (engine s);
  ps_cnt : cur_crypto_cnt s = Z.of_nat (length e);
  ps_most : Z.of_nat (length e) <= MAX_OUTSTANDING_PKA_REQ;
  ps_requests : Forall (request_ok n s) (e ++ q);
  ps_flags : Forall (flagged s) e;
  ps_pool : is_Some (tqh_last (op_pool s) !! POOL);
}.

(** ** What the turns keep *)

(** The change of a session that keeps its requests servable and, when [c],
    its answers. *)
Record keeps (c : bool) (n : nat) (x x' : ssl_session) : Prop := mk_keeps {
  kp_state : handshake_state x' = handshake_state x;
  kp_ready : sess_ready n x -> sess_ready n x';
  kp_completed : c = true -> completed_crypto x = true -> completed_crypto x' = true;
}.

(** The operations of [D] may be released. *)
Record evolves (c : bool) (D : list nat) (n : nat) (s s' : nic) : Prop := mk_evolves {
  ev_ring : size (submit_pka_ring s') = size (submit_pka_ring s);
  ev_ops op o : op ∉ D -> ops s !! op = Some o -> exists o', ops s' !! op = Some o' /\
    op_opcode o' = op_opcode o /\ op_sess o' = op_sess o /\ op_data o' = op_data o /\
    (op_pka_flag o = true -> op_pka_flag o' = true);
  ev_dom op : is_Some (ops s !! op) -> is_Some (ops s' !! op);
  ev_sessions i x : sessions s !! i = Some x -> exists x', sessions s' !! i = Some x' /\ keeps c n x x';
}.

Lemma keeps_refl c n x : keeps c n x x.
Proof. by split. Qed.
Lemma evolves_refl c D n s : evolves c D n s s.
Proof. split; [done|by eauto 10|done|]. intros i x ?. exists x. split; [done|apply keeps_refl]. Qed.
Lemma evolves_trans c D n s1 s2 s3 : evolves c D n s1 s2 -> evolves c D n s2 s3 -> evolves c D n s1 s3.
Proof.
  intros [Hz Ho Hd Hs] [Hz' Ho' Hd' Hs']. split; [congruence| |by auto|].
  - intros op o HD E. destruct (Ho _ _ HD E) as (o1 & E1 & ? & ? & ? & ?).
    destruct (Ho' _ _ HD E1) as (o2 & E2 & ? & ? & ? & ?). exists o2. split; [done|]. intuition congruence.
  - intros i x E. destruct (Hs _ _ E) as (x1 & E1 & []). destruct (Hs' _ _ E1) as (x2 & E2 & []).
    exists x2. split; [done|]. split; [congruence|auto|auto].
Qed.
Lemma evolves_weaken D n s s' : evolves true [] n s s' -> evolves false D n s s'.
Proof.
  intros [Hz Ho Hd Hs]. split; [done| |done|].
  - intros op o _. apply Ho, not_elem_of_nil.
  - intros i x E. destruct (Hs i x E) as (x' & E' & []). by exists x'.
Qed.

(** A session is changed, or an operation is flagged. *)
Lemma evolves_sess c D n s s' i x x' :
  sessions s !! i = Some x -> keeps c n x x' ->
  ops s' = ops s -> sessions s' = <[i := x']> (sessions s) ->
  submit_pka_ring s' = submit_pka_ring s -> evolves c D n s s'.
Proof.
  intros E Hk Eo Es Er. split; rewrite ?Eo, ?Es, ?Er; [done|by eauto 10|done|].
  intros j y Ej. destruct (decide (j = i)) as [->|Hne].
  - simplify_eq. exists x'. by rewrite lookup_insert_eq.
  - exists y. rewrite lookup_insert_ne by done. split; [done|apply keeps_refl].
Qed.
Lemma evolves_op c D n s s' op o :
  ops s !! op = Some o -> ops s' = <[op := o <| op_pka_flag := true |>]> (ops s) ->
  sessions s' = sessions s -> submit_pka_ring s' = submit_pka_ring s -> evolves c D n s s'.
Proof.
  intros E Eo Es Er. split; rewrite ?Eo, ?Es, ?Er; [done| | |].
  - intros j y _ Ej. destruct (decide (j = op)) as [->|Hne].
    + simplify_eq. eexists. rewrite lookup_insert_eq. by split.
    + exists y. rewrite lookup_insert_ne by done. by eauto 10.
  - intros j Hj. by apply present_insert.
  - intros i x ?. exists x. split; [done|apply keeps_refl].
Qed.

Lemma evolves_eq c D n s s' : ops s' = ops s -> sessions s' = sessions s ->
  size (submit_pka_ring s') = size (submit_pka_ring s) -> evolves c D n s s'.
Proof.
  intros Eo Es Er. split; rewrite ?Eo, ?Es; [done|by eauto 10|done|].
  intros i x ?. exists x. split; [done|apply keeps_refl].
Qed.

Lemma request_evolves c D n s s' op : evolves c D n s s' -> op ∉ D -> request_ok n s op -> request_ok n s' op.
Proof.
  intros [_ Ho _ Hs] HD [(o & i & x & Eo & Hc & Ei & Ex & Hr & Hd)].
  destruct (Ho _ _ HD Eo) as (o' & Eo' & Ec & Es & Ed & Ef). destruct (Hs _ _ Ex) as (x' & Ex' & [Eh Hr' _]).
  constructor. exists o', i, x'. rewrite Ec, Es, Ed, Eh. by eauto 10.
Qed.
Lemma answered_evolves n s s' op : evolves true [] n s s' -> answered s op -> answered s' op.
Proof.
  intros [_ Ho _ Hs] (o & i & x & Eo & Ei & Ex & Hc).
  destruct (Ho _ _ (not_elem_of_nil _) Eo) as (o' & Eo' & _ & Es & _).
  destruct (Hs _ _ Ex) as (x' & Ex' & [_ _ Hc']). exists o', i, x'. rewrite Es. by eauto.
Qed.
(** None of the operations [l] is released. *)
Definition apart (D l : list nat) : Prop := forall op, op ∈ l -> op ∉ D.
Lemma requests_evolve c D n s s' l : evolves c D n s s' -> apart D l ->
  Forall (request_ok n s) l -> Forall (request_ok n s') l.
Proof.
  intros He HD Hl. rewrite Forall_forall in *. intros op Hop. eapply request_evolves; [exact He|by apply HD|by apply Hl].
Qed.
Lemma flags_evolve c D n s s' l : evolves c D n s s' -> apart D l -> Forall (flagged s) l -> Forall (flagged s') l.
Proof.
  intros [_ Ho _ _] HD Hl. rewrite Forall_forall in *. intros op Hop. destruct (Hl op Hop) as (o & E & Hf).
  destruct (Ho _ _ (HD op Hop) E) as (o' & E' & _ & _ & _ & Hf'). exists o'. auto.
Qed.
Lemma apart_nil l : apart [] l.
Proof. intros op _. apply not_elem_of_nil. Qed.
#[local] Hint Resolve apart_nil : core.

(** ** One request executed *)

Context (n : nat) (Hacc : accelerator_ok n).

Lemma execute_run s op o i x :
  op_opcode o ∈ pka_opcodes -> op_sess o = Some i -> sessions s !! i = Some x -> sess_ready n x ->
  (length (engine s) < 64)%nat ->
  exists s' rs, execute_pka op o s = Ret (tt, s') /\ evolves true [] n s s' /\
    engine s' = engine s ++ [(op, rs)] /\ submit_pka_ring s' = submit_pka_ring s /\
    cur_crypto_cnt s' = cur_crypto_cnt s /\ op_pool s' = op_pool s /\ (length rs <= 2)%nat /\ Forall (fits n) rs.
Proof using Hacc.
  intros Hc Ei Ex Hr Hen. unfold execute_pka. rewrite Ei. cbn [mderef].
  erewrite bind_ret by reflexivity. cbv zeta beta.
  assert (forall s1 rs, engine s1 = engine s ->
    (do s0 <- mget; massert (pka_accepts (length (engine s0)));;; mmod (fun s0 => s0 <| engine ::= fun l => l ++ [(op, rs)] |>)) s1
    = Ret (tt, s1 <| engine ::= fun l => l ++ [(op, rs)] |>)) as Hacp.
  { intros s1 rs E. unfold bind, mget, massert. by rewrite E, (acc_accepts n Hacc). }
  case_match eqn:E1; [|case_match eqn:E2].
  - exec_step. destruct Hacc as [_ Eo Hl Hb Hm _]. destruct Hr as [Hpb Hpl Hres].
    set (b := take (Z.to_nat 32) (pka_get_rand_bytes 32) ++ drop (Z.to_nat 32) (buf_ptr (ecdhe_priv_key x))).
    destruct (clamp_spec b) as (b' & Ec & Hl' & Hok' & _).
    { apply Forall_app. split; [by apply Forall_take|by apply Forall_drop]. }
    { subst b. rewrite length_app, length_take, length_drop. change (Z.to_nat 32) with 32%nat. lia. }
    set (k := mk_operand b' (buf_len (ecdhe_priv_key x)) 32 (is_encrypted (ecdhe_priv_key x)) ring_order).
    assert (rand_non_zero_integer_w_pka_hwrng_and_clamping ring_order pka_get_rand_bytes
              (ecdhe_priv_key x) base_pt_order = Ret k) as Ek.
    { unfold rand_non_zero_integer_w_pka_hwrng_and_clamping. rewrite Eo. cbn [res_bind].
      unfold memcpy.
      replace ((32 <=? Z.of_nat (length (buf_ptr (ecdhe_priv_key x)))) &&
               (32 <=? Z.of_nat (length (pka_get_rand_bytes 32)))) with true by lia.
      cbn [res_bind]. fold b. by rewrite Ec. }
    erewrite bind_ret by (unfold mres; rewrite Ek; reflexivity). exec_step.
    eexists _, _. split; [by apply Hacp|]. split.
    { eapply (evolves_sess true [] n s _ i x); [done| |reflexivity|reflexivity|reflexivity]. split; [done|intros _|done].
      split; [done| |done]. simpl. rewrite Hl'. subst b. rewrite length_app, length_take, length_drop.
      change (Z.to_nat 32) with 32%nat. lia. }
    repeat split; [simpl; lia|]. constructor; [|done]. apply Hm.
  - exec_step. eexists _, _. split; [by apply Hacp|]. split; [by apply evolves_eq|].
    repeat split; [simpl; lia|]. constructor; [|done]. apply Hacc.
  - exec_step. destruct (acc_sign n Hacc (ecdsa_priv_key) (ecdsa_transcript_hash x) (ecdsa_k x)) as [Hr1 Hr2].
    destruct (pka_ecdsa_sign _ _ _) as [r s1]. eexists _, _. split; [by apply Hacp|].
    split; [by apply evolves_eq|]. repeat split; [simpl; lia|]. by constructor; [|constructor].
Qed.

Lemma request_ok_sess s op : request_ok n s op -> exists o i x,
  ops s !! op = Some o /\ op_opcode o ∈ pka_opcodes /\ op_sess o = Some i /\
  sessions s !! i = Some x /\ sess_ready n x /\ (handshake_state x = HELLO_REQUEST -> op_data o <> None).
Proof. by intros []. Qed.

(** ** The two loops *)

(** The oldest request is taken from the ring. *)
Lemma submitted_step_run op q e s :
  pka_state n (op :: q) e s -> Z.of_nat (length e) < MAX_OUTSTANDING_PKA_REQ ->
  exists s', submitted_step s = Ret (true, s') /\ evolves true [] n s s' /\ pka_state n q (e ++ [op]) s'.
Proof using Hacc.
  intros [Hr He Hrs Hcnt Hmost Hreq Hfl Hpool] Hlt. unfold MAX_OUTSTANDING_PKA_REQ in *.
  unfold submitted_step, bind at 1, mget. destruct (Seq.dequeue_spec _ _ Hr) as (r' & -> & Hr' & Hz).
  cbn [mres]. erewrite bind_ret by reflexivity. cbv beta iota. erewrite bind_ret by reflexivity.
  change (SJ_SUCCESS <? 0) with false. cbv iota. erewrite bind_ret by reflexivity.
  set (s1 := s <| submit_pka_ring := r' |>).
  assert (request_ok n s op) as Hop by (rewrite Forall_app, Forall_cons in Hreq; tauto).
  destruct (request_ok_sess _ _ Hop) as (o & i & x & Eo & Hc & Ei & Ex & Hsr & Hdt).
  erewrite bind_ret by (apply get_op_run; exact Eo). rewrite bool_decide_eq_true_2 by done. cbn [negb].
  assert (length (engine s) = length e) as Hle by (by rewrite <-He, length_fmap).
  destruct (execute_run s1 op o i x Hc Ei Ex Hsr ltac:(simpl; lia))
    as (s2 & rs & E2 & Hev & Een & Ering & Ecc & Epool & Hrl & Hrf).
  erewrite bind_ret by exact E2.
  destruct (ev_ops _ _ _ _ _ Hev op o (not_elem_of_nil _) Eo) as (o2 & Eo2 & _ & Ei2 & _).
  destruct (ev_sessions _ _ _ _ _ Hev i x Ex) as (x2 & Ex2 & Hk2).
  erewrite bind_ret by (apply mod_op_run; exact Eo2). rewrite Ei. cbn [mderef].
  erewrite bind_ret by reflexivity. exec_step. erewrite bind_ret by reflexivity. eexists. split; [reflexivity|].
  match goal with |- evolves _ _ _ s ?st /\ _ => set (s3 := st) end.
  assert (evolves true [] n s s3) as Hev3.
  { apply (evolves_trans _ _ _ _ s1); [by apply evolves_eq|]. apply (evolves_trans _ _ _ _ s2); [done|].
    eapply evolves_trans; [eapply (evolves_op true [] n s2 (s2 <| ops ::= insert op (o2 <| op_pka_flag := true |>) |>)); [exact Eo2|done..]|].
    eapply (evolves_sess true [] n _ s3 i x2); [exact Ex2| |reflexivity..].
    split; [done|by intros []|done]. }
  split; [done|]. split.
  - simpl. by rewrite Ering.
  - simpl. rewrite Een, fmap_app. simpl. by rewrite He.
  - simpl. rewrite Een, Forall_app. split; [done|]. by constructor.
  - simpl. rewrite Ecc. simpl. rewrite Hcnt, length_app. simpl. rewrite u32_id by (unfold is_u32; lia). lia.
  - rewrite length_app. unfold MAX_OUTSTANDING_PKA_REQ. simpl. lia.
  - rewrite <-app_assoc. by eapply requests_evolve.
  - apply Forall_app. split; [by eapply flags_evolve|]. constructor; [|done].
    eexists. simpl. by rewrite lookup_insert_eq.
  - simpl. by rewrite Epool.
Qed.

(** [handle_submitted_pka] takes the oldest requests until the ring is empty or
    64 are outstanding. *)
Lemma submitted_run fuel : forall q e s,
  pka_state n q e s -> (64 - length e <= fuel)%nat ->
  let k := Nat.min (length q) (64 - length e) in
  exists s', submitted_loop fuel s = Ret (Z.of_nat k, s') /\ evolves true [] n s s' /\
    pka_state n (drop k q) (e ++ take k q) s'.
Proof using Hacc.
  induction fuel as [|fuel IH]; intros q e s Hs Hf k; pose proof Hs as [Hr He Hrs Hcnt Hmost Hreq Hfl Hpool];
    unfold MAX_OUTSTANDING_PKA_REQ in Hmost.
  - assert (k = 0%nat) as Hk by lia. rewrite Hk, take_0, app_nil_r. exists s. cbn [submitted_loop]. unfold bind, mget.
    rewrite (proj2 (Z.ltb_ge _ _)) by (unfold MAX_OUTSTANDING_PKA_REQ; lia).
    split; [done|]. split; [apply evolves_refl|done].
  - cbn [submitted_loop]. unfold bind at 1, mget.
    destruct (Z.ltb_spec (cur_crypto_cnt s) MAX_OUTSTANDING_PKA_REQ) as [Hlt|Hge]; unfold MAX_OUTSTANDING_PKA_REQ in *; cbn [negb].
    2: { assert (k = 0%nat) as Hk by lia. rewrite Hk, take_0, app_nil_r. exists s.
         split; [done|]. split; [apply evolves_refl|done]. }
    destruct q as [|op q].
    + assert (submitted_step s = Ret (false, s <| submit_pka_ring := submit_pka_ring s |>)) as E.
      { unfold submitted_step, bind, mget. by rewrite (Seq.dequeue_spec _ _ Hr). }
      erewrite bind_ret by exact E. eexists. split; [reflexivity|].
      assert (evolves true [] n s (s <| submit_pka_ring := submit_pka_ring s |>)) as Hev by (by apply evolves_eq).
      split; [done|]. simpl. rewrite app_nil_r in Hreq |- *.
      split; simpl; rewrite ?app_nil_r; first [done|by eapply requests_evolve|by eapply flags_evolve].
    + destruct (submitted_step_run op q e s Hs) as (s1 & E1 & Hev1 & Hs1); [unfold MAX_OUTSTANDING_PKA_REQ; lia|].
      erewrite bind_ret by exact E1. cbv iota.
      destruct (IH q (e ++ [op]) s1 Hs1) as (s2 & E2 & Hev2 & Hs2); [rewrite length_app; simpl; lia|].
      erewrite bind_ret by exact E2. exists s2. rewrite length_app in *. cbn [length] in *.
      assert (k = S (Nat.min (length q) (64 - (length e + 1)))) as -> by lia.
      split; [by rewrite Nat2Z.inj_succ|]. split; [by eapply evolves_trans|].
      simpl. by rewrite <-app_assoc in Hs2.
Qed.

Lemma copy_results_run r0 r1 rs :
  length (buf_ptr r0) = n -> length (buf_ptr r1) = n -> (length rs <= 2)%nat -> Forall (fits n) rs ->
  exists a b, copy_results [r0; r1] rs = Ret [a; b] /\ length (buf_ptr a) = n /\ length (buf_ptr b) = n.
Proof.
  assert (forall d r, length (buf_ptr d) = n -> fits n r -> exists b,
            memcpy (buf_ptr d) (buf_ptr r) (buf_len r) = Ret b /\ length b = n) as Hcp.
  { intros d r Hd [Hn Hs Hd']. unfold memcpy. rewrite Hd, (proj2 (Z.leb_le _ _)) by done.
    rewrite (proj2 (Z.leb_le _ _)) by done. eexists. split; [done|].
    rewrite length_app, length_take, length_drop. lia. }
  intros H0' H1' Hl Hf. destruct rs as [|a [|b [|]]]; [| | |simpl in Hl; lia].
  - by exists r0, r1.
  - apply Forall_cons in Hf as [Ha _]. destruct (Hcp r0 a H0' Ha) as (ba & Ea & Hla).
    simpl. rewrite Ea. by eexists _, _.
  - apply Forall_cons in Hf as [Ha Hf]. apply Forall_cons in Hf as [Hb _].
    destruct (Hcp r0 a H0' Ha) as (ba & Ea & Hla). destruct (Hcp r1 b H1' Hb) as (bb & Eb & Hlb).
    simpl. rewrite Ea. cbn [res_bind]. rewrite Eb. by eexists _, _.
Qed.

(** The accelerator finishes one of the requests it holds; its result reaches
    the session it was asked for. *)
Lemma completed_step_run a q e s :
  pka_state n q e s -> e <> [] -> pka_status a = 0 ->
  exists op e' s', completed_step a s = Ret (Some 1, s') /\ e ≡ₚ op :: e' /\ evolves true [] n s s' /\
    pka_state n q e' s' /\ answered s' op.
Proof.
  intros [Hr He Hrs Hcnt Hmost Hreq Hfl Hpool] Hne Hst. unfold MAX_OUTSTANDING_PKA_REQ in Hmost.
  assert (length (engine s) = length e) as Hle by (by rewrite <-He, length_fmap).
  assert (0 < length e)%nat as Hpos by (destruct e; simpl; [done|lia]).
  unfold completed_step, bind at 1, mget. set (k := (pick a mod length (engine s))%nat).
  assert (k < length (engine s))%nat as Hk by (apply Nat.mod_upper_bound; lia).
  destruct (lookup_lt_is_Some_2 _ _ Hk) as [[op rs] Ek]. cbv zeta. rewrite Ek.
  assert (e !! k = Some op) as Ee by (by rewrite <-He, list_lookup_fmap, Ek).
  assert (e ≡ₚ op :: delete k e) as Hperm by (by apply delete_Permutation).
  assert (Forall (request_ok n s) (op :: delete k e ++ q) /\ Forall (flagged s) (op :: delete k e)) as [Hreq' Hfl']
    by (rewrite <-Hperm; rewrite app_comm_cons, <-Hperm; done).
  apply Forall_cons in Hreq' as [Hop Hreq']. apply Forall_cons in Hfl' as [(o' & Eo' & Hf') Hfl'].
  pose proof (Forall_lookup_1 _ _ _ _ Hrs Ek) as [Hl Hf]. simpl in Hl, Hf.
  destruct (request_ok_sess _ _ Hop) as (o & i & x & Eo & Hc & Ei & Ex & Hsr & Hdt).
  rewrite Eo' in Eo. injection Eo as ->. rename Eo' into Eo.
  erewrite bind_ret by reflexivity. rewrite Hst. cbn [Z.eqb negb].
  exec_step. rewrite Ei. erewrite bind_ret by reflexivity.
  exec_step. rewrite Hf'. cbn [negb]. exec_step.
  assert ((handshake_state x =? HELLO_REQUEST) && bool_decide (op_data o = None) = false) as Hb.
  { destruct (Z.eqb_spec (handshake_state x) HELLO_REQUEST); [|done].
    by rewrite bool_decide_eq_false_2 by auto. }
  match goal with |- context [if ?b then mexit else _] => change b with
    ((handshake_state x =? HELLO_REQUEST) && bool_decide (op_data o = None)) end.
  rewrite Hb. erewrite bind_ret by reflexivity.
  pose proof Hsr as [Hp Hpl (r0 & r1 & Ers & Hl0 & Hl1)].
  destruct (copy_results_run r0 r1 rs Hl0 Hl1 Hl Hf) as (ra & rb & Ecp & Hla & Hlb).
  erewrite bind_ret by (simpl; rewrite Ers; unfold mres; rewrite Ecp; reflexivity).
  exec_step. erewrite bind_ret by reflexivity. exec_step.
  exists op, (delete k e). eexists. split; [reflexivity|]. split; [done|].
  match goal with |- evolves _ _ n s ?st /\ _ => set (s' := st) end.
  assert (evolves true [] n s s') as Hev.
  { eapply (evolves_sess true [] n s s' i x); [done| |done| |done]; cycle 1.
    - simpl. rewrite !insert_insert_eq. reflexivity.
    - split; [done| |done]. intros _. split; [done|done|]. by exists ra, rb. }
  assert (length (delete k e) = pred (length e)) as Hdl.
  { rewrite (length_delete _ _ (mk_is_Some _ _ Ee)). lia. }
  split; [done|]. split.
  - split; simpl; try done.
    + by rewrite list_fmap_delete, He.
    + by apply Forall_delete.
    + rewrite Hcnt, Hdl. rewrite u32_id by (unfold is_u32; lia). lia.
    + unfold MAX_OUTSTANDING_PKA_REQ. lia.
    + by eapply requests_evolve.
  - eexists o, i, _. split; [done|]. split; [done|]. simpl. by rewrite lookup_insert_eq.
Qed.

Definition succeeds (a : pka_answer) : Prop := pka_status a = 0.

(** [handle_completed_pka] delivers as many results as there are, up to what
    is in flight. *)
Lemma completed_run answers : forall q e s,
  pka_state n q e s -> Forall succeeds answers ->
  exists served e' s', completed_loop answers s = Ret (Z.of_nat (length served), s') /\ evolves true [] n s s' /\
    e ≡ₚ served ++ e' /\ length served = Nat.min (length answers) (length e) /\
    pka_state n q e' s' /\ Forall (answered s') served.
Proof.
  induction answers as [|a answers IH]; intros q e s Hs Hok; pose proof (ps_cnt _ _ _ _ Hs) as Hcnt;
    cbn [completed_loop]; unfold bind at 1, mget.
  - exists [], e, s. split; [by case_match|]. split; [apply evolves_refl|]. by split.
  - destruct e as [|op e].
    + exists [], [], s. rewrite Hcnt. split; [done|]. split; [apply evolves_refl|]. by split.
    + apply Forall_cons in Hok as [Ha Hok]. rewrite Hcnt, (proj2 (Z.leb_gt _ _)) by (simpl; lia).
      destruct (completed_step_run a _ _ _ Hs ltac:(done) Ha) as (o & e1 & s1 & E1 & Hp1 & Hev1 & Hs1 & Ha1).
      erewrite bind_ret by exact E1. destruct (IH q e1 s1 Hs1 Hok) as (sv & e2 & s2 & E2 & Hev2 & Hp2 & Hl2 & Hs2 & Ha2).
      erewrite bind_ret by exact E2. exists (o :: sv), e2, s2.
      split; [unfold ret; do 2 f_equal; simpl; lia|]. split; [by eapply evolves_trans|].
      split; [by rewrite Hp1, Hp2|]. split; [|split; [done|]].
      * apply Permutation_length in Hp1. simpl in *. lia.
      * constructor; [|done]. by eapply answered_evolves.
Qed.

(** One turn of core 0. *)
Lemma round_run answers q e s :
  pka_state n q e s -> Forall succeeds answers ->
  let k := Nat.min (length q) (64 - length e) in
  exists served e' s', pka_round answers s = Ret ((Z.of_nat k, Z.of_nat (length served)), s') /\ evolves true [] n s s' /\
    e ++ take k q ≡ₚ served ++ e' /\ length served = Nat.min (length answers) (length e + k) /\
    pka_state n (drop k q) e' s' /\ Forall (answered s') served.
Proof using Hacc.
  intros Hs Hok k. destruct (submitted_run 64 q e s Hs ltac:(lia)) as (s1 & E1 & Hev1 & Hs1).
  destruct (completed_run answers _ _ _ Hs1 Hok) as (sv & e' & s2 & E2 & Hev2 & Hp & Hl & Hs2 & Ha).
  exists sv, e', s2. split; [|split; [by eapply evolves_trans|split; [done|split; [|done]]]].
  - unfold pka_round, handle_submitted_pka, handle_completed_pka.
    erewrite bind_ret by exact E1. by erewrite bind_ret by exact E2.
  - rewrite Hl, length_app, length_take. lia.
Qed.

(** ** The core and the worker interleaved *)

(** A turn of core 0 with the results the accelerator has finished; a further
    request of the worker, the end of the three routines that make one
    ([await_pka]); or the last stores of [get_processed_crypto], which clear
    the completion flag of a session and release the operation it has used. *)
Inductive pka_event : Type :=
| Turn (answers : list pka_answer)
| Request (op : nat)
| Collect (sess op : nat).

Definition run_event (e : pka_event) : nicM unit :=
  match e with
  | Turn answers => pka_round answers;;; ret tt
  | Request op =>
      do o <- get_op op;
      do sess <- mderef (op_sess o);
      await_pka sess op;;; ret tt
  | Collect sess op => reset_crypto sess op
  end.
Fixpoint run_events (l : list pka_event) : nicM unit :=
  match l with
  | [] => ret tt
  | e :: l' => run_event e;;; run_events l'
  end.

Fixpoint requests (l : list pka_event) : list nat :=
  match l with
  | [] => []
  | Request op :: l' => op :: requests l'
  | _ :: l' => requests l'
  end.
Fixpoint collects (l : list pka_event) : list (nat * nat) :=
  match l with
  | [] => []
  | Collect sess op :: l' => (sess, op) :: collects l'
  | _ :: l' => collects l'
  end.
Fixpoint answers_of (l : list pka_event) : list pka_answer :=
  match l with
  | [] => []
  | Turn a :: l' => a ++ answers_of l'
  | _ :: l' => answers_of l'
  end.
(** The turns that find a finished result. *)
Fixpoint productive (l : list pka_event) : nat :=
  match l with
  | Turn (_ :: _) :: l' => S (productive l')
  | _ :: l' => productive l'
  | [] => 0
  end.

(** At some point of the run the session of [op] has its answer. *)
Definition answered_during (l : list pka_event) (s : nic) (op : nat) : Prop :=
  exists l1 l2 s1, l = l1 ++ l2 /\ run_events l1 s = Ret (tt, s1) /\ answered s1 op.

Lemma answered_cons ev l s s1 op :
  run_event ev s = Ret (tt, s1) -> answered_during l s1 op -> answered_during (ev :: l) s op.
Proof.
  intros E (l1 & l2 & s2 & -> & E2 & Ha). exists (ev :: l1), l2, s2. split; [done|]. split; [|done].
  cbn [run_events]. by erewrite bind_ret by exact E.
Qed.

Lemma request_run s q e op :
  pka_state n q e s -> request_ok n s op -> Z.of_nat (length q) < size (submit_pka_ring s) - 1 ->
  exists s', run_event (Request op) s = Ret (tt, s') /\ evolves true [] n s s' /\ pka_state n (q ++ [op]) e s'.
Proof.
  intros [Hr He Hrs Hcnt Hmost Hreq Hfl Hpool] Hop Hroom.
  destruct (request_ok_sess _ _ Hop) as (o & i & x & Eo & Hc & Ei & Ex & Hsr & Hdt).
  cbn [run_event]. exec_step. rewrite Ei. erewrite bind_ret by reflexivity.
  pose proof (Seq.enqueue_spec _ _ op Hr) as Hq. rewrite decide_True in Hq by done.
  destruct Hq as (r' & Eq & Hr' & Hz).
  assert (submit_pka_request op s = Ret (0, s <| submit_pka_ring := r' |>)) as Esub.
  { unfold submit_pka_request, bind, mget, mres. by rewrite Eq. }
  unfold await_pka. erewrite (bind_ret (bind _ _)); cycle 1.
  { erewrite bind_ret by exact Esub. cbn [Z.ltb Z.compare]. exec_step. exec_step. exec_step. reflexivity. }
  eexists. split; [reflexivity|].
  match goal with |- evolves _ _ n s ?st /\ _ => set (s' := st) end.
  assert (evolves true [] n s s') as Hev.
  { eapply (evolves_trans _ _ _ _ (s <| submit_pka_ring := r' |>)); [by apply evolves_eq|].
    eapply (evolves_trans _ _ _ _ (s <| submit_pka_ring := r' |> <| ops ::= insert op (o <| op_pka_flag := true |>) |>));
      [by eapply evolves_op|].
    eapply (evolves_sess true [] n _ s' i x); [done| |done| |done]; cycle 1.
    - simpl. rewrite insert_insert_eq. reflexivity.
    - split; [done|by intros []|done]. }
  split; [done|]. split; simpl; try done.
  - rewrite app_assoc. apply Forall_app. split; [by eapply requests_evolve|].
    constructor; [|done]. eapply request_evolves; [done|apply not_elem_of_nil|done].
  - by eapply flags_evolve.
Qed.

(** What is collected exists. *)
Definition collect_ok (s : nic) (c : nat * nat) : Prop := is_Some (sessions s !! c.1) /\ is_Some (ops s !! c.2).
Lemma collects_evolve c D s s' l : evolves c D n s s' -> Forall (collect_ok s) l -> Forall (collect_ok s') l.
Proof.
  intros [_ _ Hd Hs] Hl. eapply Forall_impl; [exact Hl|]. intros [i op] [[x Hx] Ho]. split; [|by apply Hd].
  destruct (Hs i x Hx) as (x' & Hx' & _). by exists x'.
Qed.
Lemma collect_run D s q e i op :
  pka_state n q e s -> collect_ok s (i, op) -> op ∈ D -> apart D (e ++ q) ->
  exists s', run_event (Collect i op) s = Ret (tt, s') /\ evolves false D n s s' /\ pka_state n q e s'.
Proof.
  intros [Hr He Hrs Hcnt Hmost Hreq Hfl [c Hpool]] [[x Hx] [o Ho]] HD Hap. simpl in *.
  unfold reset_crypto, delete_op. exec_step. exec_step. unfold bind, mget, mres, mput. rewrite release_insert. simpl.
  unfold TAILQ_INSERT_TAIL. simpl. rewrite Hpool. eexists. split; [reflexivity|].
  match goal with |- evolves _ _ n s ?st /\ _ => set (s' := st) end.
  assert (evolves false D n s s') as Hev.
  { split; [done| | |].
    - intros j y Hj Ej. exists y. simpl. rewrite lookup_insert_ne by (intros ->; done). by eauto 10.
    - intros j Hj. simpl. by apply present_insert.
    - intros j y Ej. simpl. destruct (decide (i = j)) as [->|Hne].
      + rewrite lookup_insert_eq. eexists. split; [done|]. simplify_eq. split; [done|by intros []|done].
      + rewrite lookup_insert_ne by done. exists y. split; [done|apply keeps_refl]. }
  split; [done|]. split; simpl; try done.
  - by eapply requests_evolve.
  - eapply flags_evolve; [done| |done]. intros j Hj. apply Hap, elem_of_app. by left.
  - apply lookup_insert_is_Some'. by left.
Qed.

(** Until nothing is pending any more, every productive turn serves one. *)
Lemma events_run D l : forall s q e,
  pka_state n q e s -> Forall (request_ok n s) (requests l) -> Forall succeeds (answers_of l) ->
  Forall (collect_ok s) (collects l) -> (forall c, c ∈ collects l -> c.2 ∈ D) -> apart D (e ++ q ++ requests l) ->
  Z.of_nat (length q + length (requests l)) < size (submit_pka_ring s) ->
  exists s' q' e' served, run_events l s = Ret (tt, s') /\ pka_state n q' e' s' /\
    e ++ q ++ requests l ≡ₚ served ++ e' ++ q' /\ (forall op, op ∈ served -> answered_during l s op) /\
    ((forall op, op ∈ e ++ q -> op ∈ served) \/ (productive l <= length served)%nat).
Proof using Hacc.
  induction l as [|ev l IH]; intros s q e Hs Hreq Hok Hcol HD Hap Hroom.
  - exists s, q, e, []. simpl. rewrite app_nil_r. split; [done|]. split; [done|]. split; [done|].
    split; [by intros op ?%elem_of_nil|right; lia].
  - cbn [run_events]. destruct ev as [answers|op|i op]; cbn [requests collects answers_of] in *.
    + apply Forall_app in Hok as [Hoka Hok].
      destruct (round_run answers q e s Hs Hoka) as (sv & e1 & s1 & E1 & Hev1 & Hp1 & Hl1 & Hs1 & Ha1).
      set (k := Nat.min (length q) (64 - length e)) in *.
      assert (e ++ q ≡ₚ sv ++ e1 ++ drop k q) as Hp1'.
      { rewrite <-(take_drop k q) at 1. by rewrite app_assoc, Hp1, <-app_assoc. }
      assert (run_event (Turn answers) s = Ret (tt, s1)) as E1' by (cbn [run_event]; by erewrite bind_ret by exact E1).
      destruct (IH s1 (drop k q) e1 Hs1) as (s2 & q' & e' & sv' & E2 & Hs2 & Hp2 & Ha2 & Hn); try done.
      { by eapply requests_evolve. }
      { by eapply collects_evolve. }
      { intros op Hop. apply Hap. rewrite app_assoc in Hop |- *. rewrite Hp1'. set_solver. }
      { rewrite (ev_ring _ _ _ _ _ Hev1), length_drop. lia. }
      erewrite bind_ret by exact E1'. exists s2, q', e', (sv ++ sv'). split; [done|]. split; [done|].
      split; [by rewrite app_assoc, Hp1', <-!app_assoc, Hp2|]. split.
      * intros op [Hop|Hop]%elem_of_app; [|by eapply answered_cons; [exact E1'|auto]].
        exists [Turn answers], l, s1. split; [done|]. split; [cbn [run_events]; by erewrite bind_ret by exact E1'|].
        rewrite Forall_forall in Ha1. by apply Ha1.
      * pose proof (ps_most _ _ _ _ Hs) as Hmost. unfold MAX_OUTSTANDING_PKA_REQ in Hmost. rewrite length_app.
        destruct Hn as [Hn|Hn].
        { left. intros op. rewrite Hp1'. set_solver. }
        destruct answers as [|a answers]; cbn [productive length] in *; [right; lia|].
        destruct (decide (length e + k = 0)%nat) as [Hz|]; [|right; lia].
        left. intros op. destruct e; [|simpl in Hz; lia]. destruct q; [set_solver|simpl in *; lia].
    + apply Forall_cons in Hreq as [Hop Hreq]. cbn [length] in Hroom.
      destruct (request_run s q e op Hs Hop ltac:(lia)) as (s1 & E1 & Hev1 & Hs1).
      destruct (IH s1 (q ++ [op]) e Hs1) as (s2 & q' & e' & sv & E2 & Hs2 & Hp2 & Ha2 & Hn); try done.
      { by eapply requests_evolve. }
      { by eapply collects_evolve. }
      { intros j Hj. apply Hap. set_solver. }
      { rewrite (ev_ring _ _ _ _ _ Hev1), length_app. simpl. lia. }
      erewrite bind_ret by exact E1. exists s2, q', e', sv. split; [done|]. split; [done|].
      split; [by rewrite <-Hp2, <-!app_assoc|]. split; [intros j Hj; by eapply answered_cons; [exact E1|auto]|].
      destruct Hn as [Hn|Hn]; [left; set_solver|by right].
    + apply Forall_cons in Hcol as [Hc Hcol].
      destruct (collect_run D s q e i op Hs Hc) as (s1 & E1 & Hev1 & Hs1).
      { apply (HD (i, op)). left. }
      { intros j Hj. apply Hap. set_solver. }
      destruct (IH s1 q e Hs1) as (s2 & q' & e' & sv & E2 & Hs2 & Hp2 & Ha2 & Hn); try done.
      { eapply requests_evolve; [exact Hev1| |done]. intros j Hj. apply Hap. set_solver. }
      { by eapply collects_evolve. }
      { intros c Hc'. apply HD. by right. }
      { by rewrite (ev_ring _ _ _ _ _ Hev1). }
      erewrite bind_ret by exact E1. exists s2, q', e', sv. split; [done|]. split; [done|]. split; [done|].
      split; [intros j Hj; by eapply answered_cons; [exact E1|auto]|done].
Qed.
End live.

(** ** What a session's clean-up does to the counter *)

(** A property of the state that depends only on the sessions, on what the
    accelerator holds and on the counter, and that the changes [K] of a session
    keep. *)
Class Framed (P : nic -> Prop) (K : ssl_session -> ssl_session -> Prop) : Prop := {
  framed_frame s s' : engine s' = engine s -> cur_crypto_cnt s' = cur_crypto_cnt s ->
    sessions s' = sessions s -> P s -> P s';
  framed_sess s i x x' : sessions s !! i = Some x -> K x x' -> P s -> P (s <| sessions ::= insert i x' |>);
}.

Section framed.
Context `{Platform} `{Crypto} (P : nic -> Prop) (K : ssl_session -> ssl_session -> Prop) {HP : Framed P K}.

Lemma fr_reads {A} (f : nic -> option A) e :
  preserves P (fun s => match f s with Some a => Ret (a, s) | None => Fault e end).
Proof. intros s a s' Hp E. case_match; [|done]. by injection E as _ <-. Qed.
Lemma fr_get_sess i : preserves P (get_sess i).
Proof. apply (fr_reads (fun s => sessions s !! i)). Qed.
Lemma fr_get_op i : preserves P (get_op i).
Proof. apply (fr_reads (fun s => ops s !! i)). Qed.
Lemma fr_get_rec i : preserves P (get_rec i).
Proof. apply (fr_reads (fun s => records s !! i)). Qed.
Lemma fr_get_conn i : preserves P (get_conn i).
Proof. apply (fr_reads (fun s => conns s !! i)). Qed.
Lemma fr_mmod f : (forall s, engine (f s) = engine s /\ cur_crypto_cnt (f s) = cur_crypto_cnt s /\
  sessions (f s) = sessions s) -> preserves P (mmod f).
Proof using HP. intros Hf. apply pres_mod. intros s. destruct (Hf s) as (?&?&?). by apply (framed_frame (K := K)). Qed.
Lemma fr_mod_op i f : preserves P (mod_op i f).
Proof using HP. apply pres_bind; [apply fr_get_op|]. intros o. by apply fr_mmod. Qed.
Lemma fr_mod_rec i f : preserves P (mod_rec i f).
Proof using HP. apply pres_bind; [apply fr_get_rec|]. intros o. by apply fr_mmod. Qed.
Lemma fr_mod_conn i f : preserves P (mod_conn i f).
Proof using HP. apply pres_bind; [apply fr_get_conn|]. intros o. by apply fr_mmod. Qed.
Lemma fr_mod_sess i f : (forall x, K x (f x)) -> preserves P (mod_sess i f).
Proof using HP.
  intros Hf s a s' Hp (x & s1 & E1 & E)%bind_inv. unfold get_sess in E1. case_match eqn:Ex; [|done].
  injection E1 as <- <-. injection E as _ <-. by eapply (framed_sess (K := K)).
Qed.
Lemma fr_store (f : nic -> tailq) x (g : tailq -> nic -> nic) :
  (forall q s, engine (g q s) = engine s /\ cur_crypto_cnt (g q s) = cur_crypto_cnt s /\
     sessions (g q s) = sessions s) ->
  preserves P (do s <- mget; do q <- mres (release POOL x (f s)); mput (g q s)).
Proof using HP.
  intros Hg s [] s' Hp (q & _ & ->)%release_inv. destruct (Hg q s) as (?&?&?). by eapply (framed_frame (K := K)).
Qed.
Lemma fr_release r : preserves P (release_record r).
Proof using HP. apply pres_bind; [apply fr_mod_rec|]. intros _. apply (fr_store record_pool r). done. Qed.
Lemma fr_delete_op o : preserves P (delete_op o).
Proof using HP. apply pres_bind; [apply fr_mod_op|]. intros _. apply (fr_store op_pool o). done. Qed.
Lemma fr_rand : preserves P next_rand.
Proof using HP. intros s ? s' Hp E. injection E as _ <-. by apply (framed_frame (K := K) s). Qed.

(** The loops that touch a session only in its record list. *)
Lemma fr_delete_record i r : (forall x n, K x (x <| num_current_records := n |>)) -> preserves P (delete_record i r).
Proof using HP.
  intros Hk. apply pres_bind; [apply fr_release|]. intros _. apply fr_mod_sess. intros x. apply (Hk x).
Qed.
Lemma fr_drain fuel i c : preserves P (drain_recv_q fuel i c).
Proof using HP.
  revert c. induction fuel as [|fuel IH]; intros [c|]; cbn [drain_recv_q]; try apply pres_ret; [apply pres_fault|].
  apply pres_bind; [apply pres_get|]. intros t. apply pres_bind; [apply pres_res|]. intros q.
  apply pres_bind; [by apply fr_mmod|]. intros _. apply pres_bind; [apply fr_release|]. done.
Qed.
End framed.

Section stall.
Context `{Platform} `{Crypto}.

(** Session [i] waits for [op] and nothing is outstanding. *)
Definition waiting (i op : nat) (s : nic) : Prop :=
  engine s = [] /\ cur_crypto_cnt s = 0 /\
  exists x, sessions s !! i = Some x /\ pending_pka_op x = Some op /\ pending_pka_op_1 x = None.
Definition same_pending (x x' : ssl_session) : Prop :=
  pending_pka_op x' = pending_pka_op x /\ pending_pka_op_1 x' = pending_pka_op_1 x.

(** Nothing is outstanding but the counter is [c]. *)
Definition miscounted (c : Z) (s : nic) : Prop := engine s = [] /\ cur_crypto_cnt s = c.

(** No session has got an answer since; those of [C] may have been cleared. *)
Definition unanswered (c : Z) (C : list nat) (F : nat -> option bool) (s : nic) : Prop :=
  miscounted c s /\ forall i, i ∉ C -> completed_crypto <$> sessions s !! i = F i.
Definition same_completed (x x' : ssl_session) : Prop := completed_crypto x' = completed_crypto x.

#[local] Instance waiting_framed i op : Framed (waiting i op) same_pending.
Proof.
  split.
  - intros s s' E1 E2 E3. unfold waiting. by rewrite E1, E2, E3.
  - intros s j x x' Ex [K1 K2] (E1 & E2 & y & Ey & Hp). repeat split; [done|done|]. simpl.
    destruct (decide (i = j)) as [->|]; [|rewrite lookup_insert_ne by done; by eauto].
    rewrite lookup_insert_eq. exists x'. simplify_eq. by rewrite K1, K2.
Qed.
#[local] Instance miscounted_framed c : Framed (miscounted c) (fun _ _ => True).
Proof. split; [|done]. intros s s' E1 E2 E3. unfold miscounted. by rewrite E1, E2. Qed.
#[local] Instance unanswered_framed c C F : Framed (unanswered c C F) same_completed.
Proof.
  split.
  - intros s s' E1 E2 E3 [[E4 E5] Hf]. unfold unanswered, miscounted. by rewrite E1, E2, E3.
  - intros s i x x' Ex Hk [E Hf]. split; [done|]. intros j Hj. simpl. rewrite <-Hf by done.
    destruct (decide (i = j)) as [->|]; [|by rewrite lookup_insert_ne].
    rewrite lookup_insert_eq, Ex. simpl. by rewrite Hk.
Qed.

Lemma remove_pending_waiting i op s s' :
  waiting i op s -> remove_pending_pka_op i s = Ret (tt, s') -> miscounted (2 ^ 32 - 1) s'.
Proof.
  intros Hw E. pose proof Hw as (E1 & E2 & x & Ex & Hp & Hp1).
  unfold remove_pending_pka_op in E. rewrite (bind_ret _ _ _ _ _ (get_sess_run _ _ _ Ex)), Hp in E.
  apply bind_inv in E as ([] & s1 & E & E').
  assert (miscounted (2 ^ 32 - 1) s1 /\ exists x1, sessions s1 !! i = Some x1 /\ pending_pka_op_1 x1 = None) as (Hm & x1 & Ex1 & Hp').
  { clear E'. apply bind_inv in E as ([] & t1 & F1 & E).
    apply (fr_mod_op (waiting i op) same_pending) in F1; [|done].
    apply bind_inv in E as (o & t2 & F2 & E). apply (fr_get_op (waiting i op)) in F2; [|done].
    apply bind_inv in E as ([] & t3 & F3 & E).
    assert (waiting i op t3) as W3.
    { revert F3. destruct (op_data o) as [r|]; intros F3.
      - by eapply (fr_delete_record (waiting i op) same_pending) in F3.
      - by injection F3 as <-. }
    apply bind_inv in E as ([] & t4 & F4 & E).
    apply (fr_delete_op (waiting i op) same_pending) in F4 as (G1 & G2 & y & Gy & Gp & Gp1); [|done].
    rewrite (bind_ret _ _ _ _ _ (mod_sess_run _ _ _ _ Gy)) in E. injection E as <-. simpl.
    split; [by split; simpl; [|rewrite G2]|]. rewrite lookup_insert_eq. by eauto. }
  rewrite (bind_ret _ _ _ _ _ (get_sess_run _ _ _ Ex1)), Hp' in E'. by injection E' as <-.
Qed.

Lemma clear_session_waiting i op s s' :
  waiting i op s -> clear_ssl_session i s = Ret (tt, s') -> miscounted (2 ^ 32 - 1) s'.
Proof.
  intros Hw E. unfold clear_ssl_session in E.
  assert (forall f, (forall x, same_pending x (f x)) -> preserves (waiting i op) (mod_sess i f)) as Hm
    by (intros f; apply (fr_mod_sess _ same_pending)).
  apply bind_inv in E as ([] & s1 & E1 & E). apply Hm in E1; [|done..].
  apply bind_inv in E as (r & s2 & E2 & E). apply (fr_rand (waiting i op) same_pending) in E2; [|done].
  apply bind_inv in E as ([] & s3 & E3 & E). apply Hm in E3; [|done..].
  apply bind_inv in E as (x & s4 & E4 & E). apply (fr_get_sess (waiting i op)) in E4; [|done].
  apply bind_inv in E as (l & s5 & E5 & E). apply (pres_res (waiting i op)) in E5; [|done].
  apply bind_inv in E as ([] & s6 & E6 & E). apply Hm in E6; [|done..].
  apply bind_inv in E as ([] & s7 & E7 & E). apply (remove_pending_waiting _ _ _ _ E6) in E7.
  revert s7 s' E7 E. set (c := 2 ^ 32 - 1). intros s7 s' E7 E.
  eapply (_ : preserves (miscounted c) _); [exact E7|exact E]. Unshelve.
  apply pres_bind; [apply pres_get|]. intros y.
  apply pres_bind; [by apply (fr_drain _ (fun _ _ => True))|]. intros _. by apply (fr_mod_sess _ (fun _ _ => True)).
Qed.

Lemma remove_session_waiting i op s s' :
  waiting i op s -> remove_session i s = Ret (tt, s') -> miscounted (2 ^ 32 - 1) s'.
Proof.
  intros Hw E. unfold remove_session in E.
  apply bind_inv in E as (? & s1 & [= <- <-] & E).
  apply bind_inv in E as ([] & s2 & E2 & E). apply (pres_assert (waiting i op)) in E2; [|done].
  apply bind_inv in E as (ht & s3 & E3 & E). apply (pres_res (waiting i op)) in E3; [|done].
  apply bind_inv in E as ([] & s4 & E4 & E).
  apply (fr_mmod (waiting i op) same_pending) in E4; [|done|done].
  apply bind_inv in E as ([] & s5 & E5 & E). apply (clear_session_waiting _ _ _ _ E4) in E5.
  revert s5 s' E5 E. set (c := 2 ^ 32 - 1). intros s5 s' E5 E.
  eapply (_ : preserves (miscounted c) _); [exact E5|exact E]. Unshelve.
  apply pres_bind; [by apply (fr_mod_conn _ (fun _ _ => True))|]. intros _.
  by apply (fr_mmod _ (fun _ _ => True)).
Qed.

(** With the counter past the limit a turn of core 0 does nothing. *)
Lemma stalled_turn answers c s :
  MAX_OUTSTANDING_PKA_REQ <= c -> miscounted c s -> pka_round answers s = Ret ((0, 0), s).
Proof.
  intros Hc [Ee Ec]. assert (handle_submitted_pka s = Ret (0, s)) as E1.
  { unfold handle_submitted_pka. cbn [submitted_loop]. unfold bind, mget.
    by rewrite Ec, (proj2 (Z.ltb_ge _ _)). }
  assert (handle_completed_pka answers s = Ret (0, s)) as E2.
  { unfold handle_completed_pka. destruct answers; cbn [completed_loop]; unfold bind at 1, mget;
      rewrite Ec, (proj2 (Z.leb_gt _ _)) by (unfold MAX_OUTSTANDING_PKA_REQ in Hc; lia); [done|].
    unfold completed_step, bind, mget. by rewrite Ee, lookup_nil. }
  unfold pka_round. erewrite bind_ret by exact E1. by erewrite bind_ret by exact E2.
Qed.

(** The reset of a session of [C]. *)
Lemma unanswered_reset c C F i op : i ∈ C -> preserves (unanswered c C F) (reset_crypto i op).
Proof.
  intros Hi. apply pres_bind; [|intros _; apply (fr_delete_op _ same_completed)].
  intros s a s' [Hm Hf] (x & s1 & E1 & E)%bind_inv. unfold get_sess in E1. case_match eqn:Ex; [|done].
  injection E1 as <- <-. injection E as _ <-. split; [done|]. intros j Hj. simpl.
  rewrite lookup_insert_ne by (intros ->; done). by apply Hf.
Qed.
Lemma stalled_event c C F ev : MAX_OUTSTANDING_PKA_REQ <= c -> (forall p, p ∈ collects [ev] -> p.1 ∈ C) ->
  preserves (unanswered c C F) (run_event ev).
Proof.
  intros Hc HC. destruct ev as [answers|op|i op]; cbn [run_event].
  - intros s u s' [Hm HF] E. erewrite bind_ret in E by (by eapply stalled_turn). by injection E as _ <-.
  - apply pres_bind; [apply fr_get_op|]. intros o. apply pres_bind; [apply pres_deref|]. intros i.
    apply pres_bind; [|intros _; apply pres_ret]. unfold await_pka.
    apply pres_bind.
    + unfold submit_pka_request. apply pres_bind; [apply pres_get|]. intros t.
      apply pres_bind; [apply pres_res|]. intros [rv r]. apply pres_bind; [by apply (fr_mmod _ same_completed)|].
      intros _. apply pres_if; [|apply pres_ret].
      apply pres_bind; [apply (fr_delete_op _ same_completed)|intros _; apply pres_ret].
    + intros rv. apply pres_if; [apply pres_ret|].
      repeat (apply pres_bind; [first [by apply (fr_mod_sess _ same_completed)|apply (fr_mod_op _ same_completed)]|]; intros _).
      apply pres_ret.
  - apply unanswered_reset. apply (HC (i, op)). left.
Qed.
Lemma stalled_events c C F l : MAX_OUTSTANDING_PKA_REQ <= c -> (forall p, p ∈ collects l -> p.1 ∈ C) ->
  preserves (unanswered c C F) (run_events l).
Proof.
  intros Hc. induction l as [|ev l IH]; intros HC; [apply pres_ret|]. cbn [run_events].
  apply pres_bind; [apply stalled_event; [done|]|intros _; apply IH]; intros p Hp; apply HC; destruct ev; simpl in *; set_solver.
Qed.

(** ** The theorems *)


(** A result that the accelerator reports as failed ends the program. *)
Theorem failed_result_exits a s :
  engine s <> [] -> pka_status a <> 0 -> completed_step a s = Fault Exit_failure.
Proof.
  intros He Hst. unfold completed_step, bind at 1, mget. cbv zeta.
  assert (0 < length (engine s))%nat by (destruct (engine s); simpl; [done|lia]).
  destruct (lookup_lt_is_Some_2 (engine s) (pick a mod length (engine s))%nat) as [[op rs] E].
  { apply Nat.mod_upper_bound. lia. }
  rewrite E. erewrite bind_ret by reflexivity. by rewrite (proj2 (Z.eqb_neq _ _) Hst).
Qed.

(** The worker's last stores for one operation can come after core 0 has
    answered the request that the same call submitted. The completion flag is
    then cleared, core 0 has nothing more to do, and the worker finds no
    answer: the handshake hangs. *)
Theorem late_reset_loses_answer n s op op' o i x a :
  accelerator_ok n -> pka_state n [op'] [] s -> ops s !! op' = Some o -> op_sess o = Some i ->
  sessions s !! i = Some x -> is_Some (ops s !! op) -> pka_status a = 0 ->
  exists s1 s2, pka_round [a] s = Ret ((1, 1), s1) /\ answered s1 op' /\
    reset_crypto i op s1 = Ret (tt, s2) /\ use_answer i s2 = Ret (None, s2) /\
    forall answers, pka_round answers s2 = Ret ((0, 0), s2 <| submit_pka_ring := submit_pka_ring s2 |>).
Proof.
  intros Hacc Hs Ho Hi Hx Hop Ha.
  destruct (round_run n Hacc [a] [op'] [] s Hs) as (sv & e' & s1 & E1 & Hev & Hp & Hl & Hs1 & Han); [by constructor|].
  simpl in *. apply Permutation_length in Hp as Hpl. rewrite length_app in Hpl. simpl in Hpl.
  destruct e' as [|]; [|simpl in Hpl; lia]. destruct sv as [|o1 [|]]; [done| |done].
  apply Permutation_singleton_l in Hp. injection Hp as ->. apply Forall_cons in Han as [Han _].
  destruct (ev_sessions _ _ _ _ _ Hev i x Hx) as (x1 & Hx1 & _).
  destruct (ev_dom _ _ _ _ _ Hev op Hop) as [o2 Ho2].
  destruct (collect_run n [op] s1 [] [] i op Hs1) as (s2 & E2 & Hev2 & Hs2);
    [split; by eexists|set_solver|intros j; by intros ?%elem_of_nil|].
  exists s1, s2. split; [exact E1|]. split; [done|]. split; [exact E2|]. split.
  - cbn [run_event] in E2. unfold reset_crypto in E2. rewrite (bind_ret _ _ _ _ _ (mod_sess_run _ _ _ _ Hx1)) in E2.
    apply bind_inv in E2 as ([] & s3 & E3 & E4).
    assert (sessions s2 !! i = Some (x1 <| waiting_crypto := false |> <| completed_crypto := false |>)) as Hx2.
    { apply release_inv in E4 as (q & _ & ->). apply bind_inv in E3 as (? & ? & Eg & Ep). unfold get_op in Eg.
      case_match; [|done]. injection Eg as <- <-. injection Ep as <-. apply lookup_insert_eq. }
    unfold use_answer. by erewrite bind_ret by (apply get_sess_run; exact Hx2).
  - intros answers. destruct Hs2 as [Hr He _ Hcnt _ _ _ _]. unfold pka_round.
    assert (handle_submitted_pka s2 = Ret (0, s2 <| submit_pka_ring := submit_pka_ring s2 |>)) as ES.
    { unfold handle_submitted_pka. cbn [submitted_loop]. unfold bind at 1, mget. rewrite Hcnt. cbn [length].
      change (Z.of_nat 0 <? MAX_OUTSTANDING_PKA_REQ) with true. cbn [negb].
      assert (submitted_step s2 = Ret (false, s2 <| submit_pka_ring := submit_pka_ring s2 |>)) as E.
      { unfold submitted_step, bind, mget. by rewrite (Seq.dequeue_spec _ _ Hr). }
      by erewrite bind_ret by exact E. }
    erewrite bind_ret by exact ES. unfold handle_completed_pka.
    destruct answers; cbn [completed_loop]; unfold bind, mget; simpl; by rewrite Hcnt.
Qed.

(** C8: removing a session whose request has not been picked up yet ends the
    service of its worker: the counter goes from 0 to [2^32 - 1], and from then
    on, whatever the worker requests and however often core 0 takes its turn,
    nothing is taken from the ring and no session gets an answer. *)
Theorem aborted_request_stalls i op x s s1 l s2 :
  sessions s !! i = Some x -> pending_pka_op x = Some op -> pending_pka_op_1 x = None ->
  engine s = [] -> cur_crypto_cnt s = 0 ->
  remove_session i s = Ret (tt, s1) -> run_events l s1 = Ret (tt, s2) ->
  cur_crypto_cnt s2 = 2 ^ 32 - 1 /\ engine s2 = [] /\
  (forall j, j ∉ (collects l).*1 -> completed_crypto <$> sessions s2 !! j = completed_crypto <$> sessions s1 !! j) /\
  (forall answers, pka_round answers s2 = Ret ((0, 0), s2)).
Proof.
  intros Ex Hp Hp1 Ee Ec E1 E2.
  assert (miscounted (2 ^ 32 - 1) s1) as Hm by (eapply remove_session_waiting; [|exact E1]; do 2 (split; [done|]); by exists x).
  assert (MAX_OUTSTANDING_PKA_REQ <= 2 ^ 32 - 1) as Hc by (unfold MAX_OUTSTANDING_PKA_REQ; lia).
  apply (stalled_events (2 ^ 32 - 1) (collects l).*1 (fun j => completed_crypto <$> sessions s1 !! j) l Hc) in E2 as [Hm2 HF];
    [|intros p Hp'; by apply list_elem_of_fmap_2|done].
  split; [apply Hm2|]. split; [apply Hm2|]. split; [done|]. intros answers. by eapply stalled_turn.
Qed.

(** With other requests outstanding the counter stays below the limit, and then
    the deleted operation that is still in the ring ends the program: its
    opcode is 0. *)
Theorem stale_request_exits s op q answers :
  ring_rep (submit_pka_ring s) (op :: q) -> ops s !! op = Some op0 ->
  cur_crypto_cnt s < MAX_OUTSTANDING_PKA_REQ -> pka_round answers s = Fault Exit_failure.
Proof.
  intros Hr Eo Hc. destruct (Seq.dequeue_spec _ _ Hr) as (r' & E & _).
  unfold pka_round. apply bind_fault. unfold handle_submitted_pka. cbn [submitted_loop].
  unfold bind at 1, mget. rewrite (proj2 (Z.ltb_lt _ _)) by done. cbn [negb].
  apply bind_fault. unfold submitted_step, bind at 1, mget. rewrite E.
  erewrite bind_ret by reflexivity. cbv beta iota. erewrite bind_ret by reflexivity.
  change (SJ_SUCCESS <? 0) with false. cbv iota. erewrite bind_ret by reflexivity.
  erewrite bind_ret by (apply get_op_run; exact Eo).
  by assert (bool_decide (op_opcode op0 ∈ pka_opcodes) = false) as -> by reflexivity.
Qed.
End stall.

(** *** Examples

    The client of [full] has sent its hello: its session has asked for a key
    pair, and core 0 has not yet taken its turn. *)
Definition requested : nic :=
  run_state ((do r <- new_recv_record 0; generate_ecdhe_key_pair 0 r;;; ret tt) full) full.

Lemma sample_accelerator_ok : @accelerator_ok sample_crypto 48.
Proof.
  assert (forall b, fits 48 (mk_operand (replicate 32 b) 32 32 0 false)) as Hf by (intros b; split; simpl; lia).
  split; [intros k Hk; apply Nat.ltb_lt; lia|reflexivity|reflexivity| |intros p k; apply Hf|intros d h k; split; apply Hf].
  apply Forall_replicate. unfold is_u8. lia.
Qed.

Definition requested_op : ssl_crypto_op := default op0 (ops requested !! 0%nat).
Definition requested_session : ssl_session :=
  default (@ssl_session0 sample_platform) (sessions requested !! 0%nat).

Lemma requested_ok : request_ok 48 requested 0.
Proof.
  constructor. exists requested_op, 0%nat, requested_session. split; [vm_compute; reflexivity|].
  split; [vm_compute; left|]. split; [vm_compute; reflexivity|]. split; [vm_compute; reflexivity|].
  split; [|vm_compute; discriminate]. split; [vm_compute; repeat (constructor; [by split|]); constructor|vm_compute; lia|].
  exists (@pka_operand0 sample_platform), (@pka_operand0 sample_platform).
  split; [vm_compute; reflexivity|]. split; vm_compute; reflexivity.
Qed.

Lemma requested_state : pka_state 48 [0%nat] [] requested.
Proof.
  split; [|reflexivity|constructor|reflexivity|vm_compute; discriminate| |constructor|vm_compute; by eexists].
  - split; [|vm_compute; reflexivity]. split; vm_compute; try done; by exists 4.
  - simpl. repeat constructor; apply requested_ok.
Qed.

(** Core 0 takes the request, then the accelerator finishes it, and the worker
    releases an operation it has used before. *)
Definition sample_events : list pka_event := [Turn []; Collect 0 1; Turn [mk_answer 5 0]].
Lemma late_reset_loses_answer_witness :
  exists s1 s2, @pka_round sample_crypto [mk_answer 0 0] requested = Ret ((1, 1), s1) /\ answered s1 0 /\
    reset_crypto 0 1 s1 = Ret (tt, s2) /\ @use_answer sample_platform sample_crypto 0 s2 = Ret (None, s2) /\
    forall answers, @pka_round sample_crypto answers s2 = Ret ((0, 0), s2 <| submit_pka_ring := submit_pka_ring s2 |>).
Proof.
  apply (@late_reset_loses_answer sample_platform sample_crypto 48 requested 1 0 requested_op 0 requested_session (mk_answer 0 0)
    sample_accelerator_ok requested_state); try (vm_compute; reflexivity). vm_compute. by eexists.
Defined.
Lemma failed_result_exits_witness :
  completed_step (mk_answer 0 3) (requested <| engine := [(0%nat, [])] |>) = Fault Exit_failure.
Proof. by apply failed_result_exits. Defined.

(** The client resets the connection before core 0 takes its turn. *)
Definition reset_early : nic := run_state (@remove_session sample_platform 0 requested) requested.

Lemma aborted_request_stalls_witness :
  @remove_session sample_platform 0 requested = Ret (tt, reset_early) /\
  @run_events sample_crypto [Turn [mk_answer 3 0]; Turn []] reset_early = Ret (tt, reset_early) /\
  cur_crypto_cnt reset_early = 2 ^ 32 - 1.
Proof.
  assert (@remove_session sample_platform 0 requested = Ret (tt, reset_early)) as E1 by (vm_compute; reflexivity).
  assert (@run_events sample_crypto [Turn [mk_answer 3 0]; Turn []] reset_early = Ret (tt, reset_early)) as E2
    by (vm_compute; reflexivity).
  split; [exact E1|]. split; [exact E2|].
  assert (sessions requested !! 0%nat = Some requested_session) as Ex by (vm_compute; reflexivity).
  assert (pending_pka_op requested_session = Some 0%nat) as Ep by (vm_compute; reflexivity).
  assert (pending_pka_op_1 requested_session = None) as Ep1 by (vm_compute; reflexivity).
  assert (engine requested = []) as Ee by (vm_compute; reflexivity).
  assert (cur_crypto_cnt requested = 0) as Ec by (vm_compute; reflexivity).
  exact (proj1 (@aborted_request_stalls sample_platform sample_crypto 0 0 requested_session requested reset_early
                  [Turn [mk_answer 3 0]; Turn []] reset_early Ex Ep Ep1 Ee Ec E1 E2)).
Defined.
