(* ===== verification/HostFilter.v ===== *)
(** * The host's packet filter (host: helpers.c: [bpf_filter_for_meta])

    Every thread of the host listens on a raw socket with a classic BPF
    program attached, so that it receives the key meta frames of its own
    EtherType. The program is data of the source; its meaning is that of the
    kernel's classic BPF machine, of which the instructions used are modelled:
    an accumulator, an index register, scratch memory, loads that reject the
    packet when they leave it, forward jumps. *)

From S2P Require Import Prelude MetaOut.

Inductive bpf_insn : Type :=
| LD_H_ABS (k : Z)
| LD_B_ABS (k : Z)
| LD_H_IND (k : Z)
| LD_B_IND (k : Z)
| ALU_AND_K (k : Z)
| ALU_MUL_K (k : Z)
| ST (k : Z)
| JEQ_K (k : Z) (jt jf : nat)
| JSET_K (k : Z) (jt jf : nat)
| RET_K (k : Z).

(** Half words are loaded in network order. *)
Definition ld_half (pkt : bytes) (off : Z) : option Z :=
  if (0 <=? off) && (off + 2 <=? Z.of_nat (length pkt)) then Some (be_val (rdn 2 pkt (Z.to_nat off))) else None.
Definition ld_byte (pkt : bytes) (off : Z) : option Z :=
  if (0 <=? off) && (off + 1 <=? Z.of_nat (length pkt)) then Some (rd8 pkt (Z.to_nat off)) else None.

(** The value returned: how many bytes of the packet to keep, 0 rejects it.
    Jumps go forward, so the program is consumed. *)
Fixpoint bpf_run (fuel : nat) (prog : list bpf_insn) (pkt : bytes) (a x : Z) (mem : gmap Z Z) : option Z :=
  match fuel with
  | O => None
  | S f =>
      match prog with
      | [] => None
      | i :: rest =>
          let load o := match o with Some v => bpf_run f rest pkt v x mem | None => Some 0 end in
          match i with
          | LD_H_ABS k => load (ld_half pkt k)
          | LD_B_ABS k => load (ld_byte pkt k)
          | LD_H_IND k => load (ld_half pkt (x + k))
          | LD_B_IND k => load (ld_byte pkt (x + k))
          | ALU_AND_K k => bpf_run f rest pkt (Z.land a k) x mem
          | ALU_MUL_K k => bpf_run f rest pkt (u32 (a * k)) x mem
          | ST k => bpf_run f rest pkt a x (<[k := a]> mem)
          | JEQ_K k jt jf => bpf_run f (drop (if a =? k then jt else jf) rest) pkt a x mem
          | JSET_K k jt jf => bpf_run f (drop (if Z.land a k =? 0 then jf else jt) rest) pkt a x mem
          | RET_K k => Some k
          end
      end
  end.

Definition IP_HDR_OFFSET : Z := 14.
Definition HTTPS_PORT_N : Z := 0xBB01.
Definition ETH_P_IP : Z := 0x0800.
Definition IPPROTO_TCP_ : Z := 6.
Definition TH_SYN : Z := 0x02.
(** [offsetof(struct iphdr, protocol)]. *)
Definition off_protocol : Z := 9.

(** [bpf_code], with the thread's EtherType patched in. *)
Definition bpf_code (eth_type : Z) : list bpf_insn :=
  [ LD_H_ABS 12;
    JEQ_K eth_type 11 0;
    JEQ_K ETH_P_IP 0 11;
    LD_B_ABS IP_HDR_OFFSET;
    ALU_AND_K 0x0f;
    ALU_MUL_K 4;
    ST 0;
    LD_B_ABS (IP_HDR_OFFSET + off_protocol);
    JEQ_K IPPROTO_TCP_ 0 5;
    LD_H_IND (IP_HDR_OFFSET + 2);
    JEQ_K HTTPS_PORT_N 0 3;
    LD_B_IND (IP_HDR_OFFSET + 13);
    JSET_K TH_SYN 0 1;
    RET_K 0x0000FFFF;
    RET_K 0 ].

(** The filter of a thread; [core_id] indexes [key_eth_types]. *)
Definition bpf_filter_for_meta (core_id : nat) : option (list bpf_insn) :=
  bpf_code <$> key_eth_types !! core_id.

(** What the thread's socket does with a frame. *)
Definition delivered (core_id : nat) (pkt : bytes) : bool :=
  match bpf_filter_for_meta core_id with
  | Some prog => match bpf_run (length prog) prog pkt 0 0 ∅ with Some v => 0 <? v | None => false end
  | None => false
  end.

Definition frame_type (pkt : bytes) : Z := be_val (rdn 2 pkt 12).

(** ** What the filter delivers *)

(** The second way in, as the program has it: offset 16 holds the total length
    of the IP packet and offset 27 a byte of the source address, since the
    index register is never loaded. *)
Definition second_way (pkt : bytes) : bool :=
  (frame_type pkt =? ETH_P_IP) && (rd8 pkt 23 =? IPPROTO_TCP_) &&
  (be_val (rdn 2 pkt 16) =? HTTPS_PORT_N) && negb (Z.land (rd8 pkt 27) TH_SYN =? 0).

(** One instruction at a time. *)
Lemma bpf_ldh f k rest pkt a x mem : 0 <= k -> k + 2 <= Z.of_nat (length pkt) ->
  bpf_run (S f) (LD_H_ABS k :: rest) pkt a x mem = bpf_run f rest pkt (be_val (rdn 2 pkt (Z.to_nat k))) x mem.
Proof. intros. simpl. unfold ld_half. by rewrite !(proj2 (Z.leb_le _ _)) by lia. Qed.
Lemma bpf_ldb f k rest pkt a x mem : 0 <= k -> k + 1 <= Z.of_nat (length pkt) ->
  bpf_run (S f) (LD_B_ABS k :: rest) pkt a x mem = bpf_run f rest pkt (rd8 pkt (Z.to_nat k)) x mem.
Proof. intros. simpl. unfold ld_byte. by rewrite !(proj2 (Z.leb_le _ _)) by lia. Qed.
Lemma bpf_ldh_ind f k rest pkt a mem : 0 <= k -> k + 2 <= Z.of_nat (length pkt) ->
  bpf_run (S f) (LD_H_IND k :: rest) pkt a 0 mem = bpf_run f rest pkt (be_val (rdn 2 pkt (Z.to_nat k))) 0 mem.
Proof. intros. simpl. unfold ld_half. by rewrite !(proj2 (Z.leb_le _ _)) by lia. Qed.
Lemma bpf_ldb_ind f k rest pkt a mem : 0 <= k -> k + 1 <= Z.of_nat (length pkt) ->
  bpf_run (S f) (LD_B_IND k :: rest) pkt a 0 mem = bpf_run f rest pkt (rd8 pkt (Z.to_nat k)) 0 mem.
Proof. intros. simpl. unfold ld_byte. by rewrite !(proj2 (Z.leb_le _ _)) by lia. Qed.
Lemma bpf_jeq f k jt jf rest pkt a x mem :
  bpf_run (S f) (JEQ_K k jt jf :: rest) pkt a x mem =
  if a =? k then bpf_run f (drop jt rest) pkt a x mem else bpf_run f (drop jf rest) pkt a x mem.
Proof. simpl. by destruct (a =? k). Qed.
Lemma bpf_jset f k jt jf rest pkt a x mem :
  bpf_run (S f) (JSET_K k jt jf :: rest) pkt a x mem =
  if Z.land a k =? 0 then bpf_run f (drop jf rest) pkt a x mem else bpf_run f (drop jt rest) pkt a x mem.
Proof. simpl. by destruct (Z.land a k =? 0). Qed.
Lemma bpf_and f k rest pkt a x mem :
  bpf_run (S f) (ALU_AND_K k :: rest) pkt a x mem = bpf_run f rest pkt (Z.land a k) x mem.
Proof. done. Qed.
Lemma bpf_mul f k rest pkt a x mem :
  bpf_run (S f) (ALU_MUL_K k :: rest) pkt a x mem = bpf_run f rest pkt (u32 (a * k)) x mem.
Proof. done. Qed.
Lemma bpf_st f k rest pkt a x mem :
  bpf_run (S f) (ST k :: rest) pkt a x mem = bpf_run f rest pkt a x (<[k := a]> mem).
Proof. done. Qed.
Lemma bpf_ret f k rest pkt a x mem : bpf_run (S f) (RET_K k :: rest) pkt a x mem = Some k.
Proof. done. Qed.

Lemma filter_spec core_id t pkt :
  key_eth_types !! core_id = Some t -> 28 <= Z.of_nat (length pkt) ->
  delivered core_id pkt = (frame_type pkt =? t) || second_way pkt.
Proof.
  intros Ht Hl. unfold delivered, bpf_filter_for_meta. rewrite Ht. cbn [fmap option_fmap option_map].
  unfold second_way. change (length (bpf_code t)) with 15%nat. unfold bpf_code.
  rewrite bpf_ldh, bpf_jeq by lia. change (be_val (rdn 2 pkt (Z.to_nat 12))) with (frame_type pkt).
  destruct (frame_type pkt =? t); [cbn [drop]; by rewrite bpf_ret|]. cbn [drop]. rewrite bpf_jeq.
  destruct (frame_type pkt =? ETH_P_IP); cbn [drop]; [|by rewrite bpf_ret].
  unfold IP_HDR_OFFSET, off_protocol.
  rewrite bpf_ldb, bpf_and, bpf_mul, bpf_st, bpf_ldb, bpf_jeq by lia.
  change (Z.to_nat (14 + 9)) with 23%nat.
  destruct (rd8 pkt 23 =? IPPROTO_TCP_); cbn [drop]; [|by rewrite bpf_ret].
  rewrite bpf_ldh_ind, bpf_jeq by lia. change (Z.to_nat (14 + 2)) with 16%nat.
  destruct (be_val (rdn 2 pkt 16) =? HTTPS_PORT_N); cbn [drop]; [|by rewrite bpf_ret].
  rewrite bpf_ldb_ind, bpf_jset by lia. change (Z.to_nat (14 + 13)) with 27%nat.
  destruct (Z.land (rd8 pkt 27) TH_SYN =? 0); cbn [drop]; by rewrite bpf_ret.
Qed.

(** A thread receives exactly the frames of its own EtherType and what the
    second branch of the program lets through. *)
Theorem filter_delivers core_id t pkt :
  key_eth_types !! core_id = Some t -> 28 <= Z.of_nat (length pkt) ->
  delivered core_id pkt = true <-> frame_type pkt = t \/ second_way pkt = true.
Proof. intros Ht Hl. rewrite (filter_spec _ t) by done. by rewrite orb_true_iff, Z.eqb_eq. Qed.

(** The two other kinds of frame the host has handlers for never reach
    them: the filter rejects every RST meta frame, and every IPv4 packet whose
    total length is not 0xBB01 (the program compares the length, not the TCP
    destination port), so no SYN for port 443 of a size Ethernet can carry. *)
Theorem rst_and_syn_rejected core_id t pkt :
  key_eth_types !! core_id = Some t -> 28 <= Z.of_nat (length pkt) ->
  frame_type pkt = RST_CONN_META_ETH_TYPE \/
    frame_type pkt = ETH_P_IP /\ be_val (rdn 2 pkt 16) <> HTTPS_PORT_N ->
  delivered core_id pkt = false.
Proof.
  intros Ht Hl Hf. rewrite (filter_spec _ t) by done. unfold second_way.
  assert (t <> RST_CONN_META_ETH_TYPE /\ t <> ETH_P_IP) as [Hr Hi].
  { apply list_elem_of_lookup_2 in Ht.
    assert (Forall (fun t => t <> RST_CONN_META_ETH_TYPE /\ t <> ETH_P_IP) key_eth_types) as Hall
      by (repeat (constructor; [split; discriminate|]); constructor).
    rewrite Forall_forall in Hall. by apply Hall. }
  destruct Hf as [->|[-> Hn]]; rewrite (proj2 (Z.eqb_neq _ _)) by congruence; [done|].
  rewrite (proj2 (Z.eqb_neq _ HTTPS_PORT_N) Hn). by rewrite andb_false_r.
Qed.

(** The third thread: a key frame of its type, an RST meta frame, a SYN for
    port 443. *)
Definition key_frame : bytes := zeros 12 ++ [0x08; 0x03] ++ zeros 812.
Definition rst_frame : bytes := zeros 12 ++ [0x08; 0xff] ++ zeros 812.
Lemma filter_delivers_witness :
  delivered 2 key_frame = true <-> frame_type key_frame = 0x0803 \/ second_way key_frame = true.
Proof. apply (filter_delivers 2 0x0803 key_frame); vm_compute; [reflexivity|discriminate]. Defined.
Lemma rst_and_syn_rejected_witness : delivered 2 rst_frame = false.
Proof.
  apply (rst_and_syn_rejected 2 0x0803 rst_frame); [reflexivity|vm_compute; discriminate|].
  left. reflexivity.
Defined.
Example key_frame_delivered : delivered 2 key_frame = true /\ delivered 3 key_frame = false.
Proof. split; vm_compute; reflexivity. Qed.
