(* ===== verification/HostConn.v ===== *)
(** * The host's connections (host: mempool.c, meta_pkt.c, set_sock.c,
      multiplex_io.c, common.h)

    A thread of the host holds a pool of connection objects, the table of its
    migrated connections, a raw socket for meta frames and an epoll instance.
    A key meta frame makes it rebuild the client's TCP connection with the
    kernel's repair mode and hand the keys to kernel TLS; it then tells the
    SmartNIC, and tells it again when the connection is closed.

    System calls are events of a trace; what they return is given by the class
    [Sys], indexed by the number of calls made so far: a negative value is the
    error [-errno]; a receiving call that succeeds returns the length of its
    data. Allocation does not fail. The counters of the EVALUATION
    build are left out. *)

From S2P Require Import Prelude FlowTable MetaOut.

(** ** Data (common.h, linux/tls.h) *)

(** [struct tls12_crypto_info_aes_gcm_256]. *)
Record crypto_info_gcm := mk_crypto_info {
  ci_version : Z;
  ci_cipher_type : Z;
  ci_iv : bytes;
  ci_key : bytes;
  ci_salt : bytes;
  ci_rec_seq : bytes;
}.
Definition crypto_info0 : crypto_info_gcm := mk_crypto_info 0 0 (zeros 8) (zeros 32) (zeros 4) (zeros 8).
Definition TLS_CIPHER_AES_GCM_256 : Z := 52.

Inductive sock_state_t : Type :=
| DEFAULT
| INIT
| CONNECTED
| READY_TO_RECV
| TLS_HS_RECVED
| HTTP_REQ_RECVED
| HTTP_RESP_SENT
| CLOSE_META_PKT_SENT
| WAIT_TCP_FIN
| CLOSED
| ERRORED.
#[export] Instance sock_state_eq : EqDecision sock_state_t.
Proof. solve_decision. Defined.

Inductive meta_type_t : Type :=
| META_TYPE_UNKNOWN
| META_TYPE_KEY
| META_TYPE_RST_CONN
| META_TYPE_WEIRD_SYN.

(** [meta_info_t], without the pointer to the receive buffer, which is only
    followed while the frame is in it. *)
Record meta_info := mk_meta_info {
  mi_client : client;
  seq_num : Z;
  ack_num : Z;
}.

Definition RECV_META_BUF_SIZE : nat := 1460.
Definition SND_META_PKT_SIZE : nat := 64.
Definition HTTP_HEADER_LEN : nat := 1460.
Definition SERVER_IP : Z := 0x0A000002.
Definition SSL_PORT_ : Z := 443.
Definition WEIRD_SYN : Z := 0x0800.
(** [sizeof(ssl_meta_t)]. *)
Definition SSL_META_SIZE : nat := 788.

Record conn_state := mk_conn_state {
  sock_fd : Z;
  sock_state : sock_state_t;
  recv_bytes : Z;
  mi : meta_info;
  crypto_info_rx : crypto_info_gcm;
  crypto_info_tx : crypto_info_gcm;
  keep_alive : bool;
  scode : Z;
  sccs_sf_buf : bytes;
  record_len : Z;
  hdr_sent : bool;
  hdr_len : Z;
  hdr_offset : Z;
  hdr_remain : Z;
  hdr_buf : bytes;
  file_idx : Z;
  file_size : Z;
  req_buf : bytes;
  req_len : Z;
  resp_fd : Z;
  resp_offset : Z;
  resp_remain : Z;
}.
(** A cleared object with the two fields set to -1. *)
Definition conn_state0 : conn_state :=
  mk_conn_state 0 DEFAULT 0 (mk_meta_info (mk_client 0 0) 0 0) crypto_info0 crypto_info0 false 0
    (zeros RECV_META_BUF_SIZE) 0 false 0 0 0 (zeros HTTP_HEADER_LEN) (-1) 0 (zeros HTTP_HEADER_LEN) 0
    (-1) 0 0.

(** ** System calls *)

Inductive sockopt : Type :=
| TCP_REPAIR (v : Z)
| SO_REUSEADDR
| SO_REUSEPORT
| SO_LINGER
| TCP_REPAIR_QUEUE (receive : bool)
| TCP_QUEUE_SEQ (v : Z)
| TCP_REPAIR_OPTIONS
| TCP_ULP_TLS
| TCP_CORK (v : Z)
| TLS_RX (i : crypto_info_gcm)
| TLS_TX (i : crypto_info_gcm)
| TLS_TX_ZEROCOPY_RO.
Inductive epoll_op : Type :=
| EPOLL_ADD (ev_in ev_out : bool)
| EPOLL_MOD (ev_in ev_out : bool)
| EPOLL_DEL.

Inductive call : Type :=
| Socket
| Setsockopt (fd : Z) (o : sockopt)
| Fcntl (fd : Z)
| Bind (fd : Z)
| Connect (fd : Z) (to : client)
| Epoll_ctl (fd : Z) (o : epoll_op)
| Recvfrom
| Sendto (frame : bytes)
| Close (fd : Z)
| Recvmsg (fd : Z)
| Send (fd : Z) (data : bytes)
| Sendfile (fd in_fd offset count : Z)
| Sendmsg_alert (fd : Z) (alert : bytes).

(** What the kernel answers: return values, the data of the receiving calls
    the record types in their control messages, and the date. *)
Class Sys := {
  sysret : nat -> Z;
  sysdata : nat -> bytes;
  sysctrl : nat -> list Z;
  strftime : nat -> bytes;
}.

(** ** A thread *)

(** [thread_ctx_t] with the objects it reaches; [h_pool] is the stack of free
    objects, top first; [meta_buf] is the thread's receive buffer; [interest]
    holds the connections registered with epoll and the events asked for. *)
Record host := mk_host {
  h_conns : gmap nat conn_state;
  h_pool : list nat;
  ht_conn : hashtable;
  meta_buf : bytes;
  interest : gmap nat (bool * bool);
  sys_idx : nat;
  trace : list call;
}.
Abbreviation hostM := (M host).

(** The key of a connection in the table. *)
Definition client_of (cs : gmap nat conn_state) (i : nat) : option client :=
  (fun c => mi_client (mi c)) <$> cs !! i.

Definition get_c (i : nat) : hostM conn_state := fun s =>
  match h_conns s !! i with Some c => Ret (c, s) | None => Fault Null_deref end.
Definition mod_c (i : nat) (f : conn_state -> conn_state) : hostM unit :=
  do c <- get_c i; mmod (fun s => s <| h_conns ::= insert i (f c) |>).

Section host.
Context `{Sys}.

Definition syscall (c : call) : hostM Z := fun s =>
  Ret (sysret (sys_idx s), s <| sys_idx ::= S |> <| trace ::= fun l => l ++ [c] |>).

(** ** The pool (mempool.c) *)

Definition MAX_CONN : Z := 65536.

(** One turn pushes the object it has allocated: the stack fills upwards. *)
Fixpoint conn_pool_init (n : nat) (cs : gmap nat conn_state) (pool : list nat)
    : gmap nat conn_state * list nat :=
  match n with
  | O => (cs, pool)
  | S n' => let i := length pool in conn_pool_init n' (<[i := conn_state0]> cs) (i :: pool)
  end.

Definition conn_state_alloc : hostM (option nat) :=
  do s <- mget;
  match h_pool s with
  | [] => ret None
  | c :: rest =>
      mmod (fun s => s <| h_pool := rest |>);;;
      mod_c c (fun _ => conn_state0);;;
      ret (Some c)
  end.

Definition conn_state_free (i : nat) : hostM unit :=
  do c <- get_c i;
  (if 0 <=? resp_fd c then
     syscall (Close (resp_fd c));;; mod_c i (fun c => c <| resp_fd := -1 |>)
   else ret tt);;;
  do s <- mget;
  if MAX_CONN <=? Z.of_nat (length (h_pool s)) then mfault Out_of_bounds
  else mmod (fun s => s <| h_pool ::= cons i |>).

(** ** Frames to the SmartNIC (meta_pkt.c) *)

(** The common bytes of the two frames. *)
Definition arm_frame (tos : Z) (m : meta_info) : bytes :=
  let b := zeros SND_META_PKT_SIZE in
  let b := wr b 12 [0x08; 0x00] in
  let b := wr b 14 [0x45; tos; 0x00; 0x28] in
  let b := wr b 22 [64; 6] in
  let b := wr b 26 (le_bytes 4 (htonl (cl_ip (mi_client m)))) in
  let b := wr b 30 (le_bytes 4 (htonl SERVER_IP)) in
  let b := wr b 34 (le_bytes 2 (htons (cl_port (mi_client m)))) in
  let b := wr b 36 (le_bytes 2 (htons SSL_PORT_)) in
  let b := wr b 38 (le_bytes 4 (htonl (seq_num m))) in
  wr b 42 (le_bytes 4 (htonl (ack_num m))).

Definition mig_fin_frame (c : conn_state) : bytes :=
  wr (arm_frame 0xfd (mi c)) 48 (le_bytes 4 (u32 (ack_num (mi c) + recv_bytes c))).

Definition send_mig_fin_to_arm (i : nat) : hostM Z :=
  do c <- get_c i;
  do sent <- syscall (Sendto (mig_fin_frame c));
  if sent <? 0 then ret (-1) else ret 0.

Definition send_close_to_arm (m : meta_info) : hostM Z :=
  do sent <- syscall (Sendto (arm_frame 0xfc m));
  if sent <? 0 then ret (-1) else ret 0.

(** ** Sockets (set_sock.c, multiplex_io.c) *)

(** A call whose failure makes the function return -1. *)
Definition try (c : call) (k : hostM Z) : hostM Z :=
  do r <- syscall c; if r <? 0 then ret (-1) else k.
(** The functions around [epoll_ctl], with their exit on failure; the event
    carries the connection. *)
Definition epoll (i : nat) (o : epoll_op) : hostM unit :=
  do c <- get_c i;
  do r <- syscall (Epoll_ctl (sock_fd c) o);
  if r <? 0 then mexit else
  mmod (fun s => s <| interest ::= match o with
                                    | EPOLL_ADD a b | EPOLL_MOD a b => insert i (a, b)
                                    | EPOLL_DEL => delete i
                                    end |>).
(** [close(conn->sock_fd)], which also ends its registration. *)
Definition close_sock (i : nat) : hostM unit :=
  do c <- get_c i;
  syscall (Close (sock_fd c));;;
  mmod (fun s => s <| interest ::= delete i |>).

Definition set_nonblock (fd : Z) : hostM Z :=
  syscall (Fcntl fd);;; syscall (Fcntl fd).

Definition set_mig_sock (m : meta_info) : hostM Z :=
  do sock <- syscall Socket;
  if sock <? 0 then ret (-1) else
  try (Setsockopt sock (TCP_REPAIR 1)) (
  try (Setsockopt sock SO_REUSEADDR) (
  try (Setsockopt sock SO_REUSEPORT) (
  try (Setsockopt sock SO_LINGER) (
  try (Setsockopt sock (TCP_REPAIR_QUEUE false)) (
  try (Setsockopt sock (TCP_QUEUE_SEQ (seq_num m))) (
  try (Setsockopt sock (TCP_REPAIR_QUEUE true)) (
  try (Setsockopt sock (TCP_QUEUE_SEQ (ack_num m))) (
  ret sock)))))))).

Definition mig_tcp_conn (i : nat) : hostM Z :=
  do c <- get_c i;
  epoll i (EPOLL_ADD false true);;;
  try (Bind (sock_fd c)) (
  try (Connect (sock_fd c) (mi_client (mi c))) (
  try (Setsockopt (sock_fd c) TCP_REPAIR_OPTIONS) (
  try (Setsockopt (sock_fd c) (TCP_REPAIR 0)) (
  ret 0)))).

(** The failures of TLS_RX, TLS_TX and of the zero-copy option are reported
    and passed over (the last is compiled for kernels from 5.19 on). *)
Definition mig_tls_conn (i : nat) : hostM Z :=
  do c <- get_c i;
  try (Setsockopt (sock_fd c) TCP_ULP_TLS) (
  syscall (Setsockopt (sock_fd c) (TCP_CORK 1));;;
  syscall (Setsockopt (sock_fd c) (TLS_RX (crypto_info_rx c)));;;
  syscall (Setsockopt (sock_fd c) (TLS_TX (crypto_info_tx c)));;;
  syscall (Setsockopt (sock_fd c) TLS_TX_ZEROCOPY_RO);;;
  ret 0).

Definition no_idle (_ : nat) : bool := false.
Definition find_conn (k : client) : hostM (option nat) :=
  do s <- mget; mres (ht_search (client_of (h_conns s)) no_idle (ht_conn s) k).
Definition table_insert (i : nat) : hostM unit :=
  do s <- mget;
  do t <- mres (ht_insert (client_of (h_conns s)) (ht_conn s) i);
  mmod (fun s => s <| ht_conn := t |>).
Definition table_remove (i : nat) : hostM unit :=
  do s <- mget;
  do t <- mres (ht_remove (client_of (h_conns s)) (ht_conn s) i);
  mmod (fun s => s <| ht_conn := t |>).

Definition close_tcp_conn (i : nat) : hostM unit :=
  do c <- get_c i;
  send_close_to_arm (mi c);;;
  epoll i EPOLL_DEL;;;
  close_sock i;;;
  do found <- find_conn (mi_client (mi c));
  (match found with Some _ => table_remove i | None => ret tt end);;;
  conn_state_free i.

(** ** Received meta frames (meta_pkt.c) *)

Definition validate_meta_type (buf : bytes) : meta_type_t :=
  let eth_type := ntohs (rd16 buf 12) in
  if bool_decide (eth_type ∈ key_eth_types) then META_TYPE_KEY
  else if eth_type =? RST_CONN_META_ETH_TYPE then META_TYPE_RST_CONN
  else if eth_type =? WEIRD_SYN then META_TYPE_WEIRD_SYN
  else META_TYPE_UNKNOWN.

(** One direction of the kernel's TLS parameters: [key] and [iv] are the
    offsets of the fields of [ssl_meta_t]. *)
Definition direction (tls13 : bool) (buf : bytes) (key iv : nat) : crypto_info_gcm :=
  mk_crypto_info
    (Z.lor (Z.shiftl (rd8 buf (off_conn_meta + cm_version)) 8) (rd8 buf (off_conn_meta + cm_version + 1)))
    TLS_CIPHER_AES_GCM_256
    (if tls13 then rdn 8 buf (off_conn_meta + iv + 4) else zeros 8)
    (rdn 32 buf (off_conn_meta + key))
    (rdn 4 buf (off_conn_meta + iv))
    (if tls13 then zeros 8 else wr (zeros 8) 7 [0x01]).

Definition handle_meta_data (tls13 : bool) (buf : bytes) (c : conn_state) : conn_state :=
  c <| mi := mk_meta_info (mk_client (ntohl (rd32 buf 26)) (ntohs (rd16 buf 34)))
               (ntohl (rd32 buf 4)) (ntohl (rd32 buf 8)) |>
    <| crypto_info_rx := direction tls13 buf cm_client_key cm_client_IV |>
    <| crypto_info_tx := direction tls13 buf cm_server_key cm_server_IV |>.

(** The length of the records is read from the frame and not checked. *)
Definition handle_sccs_sf_records (buf : bytes) (c : conn_state) : res conn_state :=
  let off := (16 + SSL_META_SIZE)%nat in
  let len := s32 (rd32 buf off) in
  if (len <? 0) || (Z.of_nat RECV_META_BUF_SIZE <? Z.of_nat off + len) then Fault Out_of_bounds
  else Ret (c <| record_len := len |>
              <| sccs_sf_buf := wr (sccs_sf_buf c) 0 (rdn (Z.to_nat len) buf off) |>).

Context (tls13 : bool).

(** From the allocation on, [handle_key_packet] and [handle_rst_conn_packet]
    are the same. The start time is stored before the pointer is tested. *)
Definition migrate (buf : bytes) (len : Z) : hostM Z :=
  do o <- conn_state_alloc;
  do i <- mderef o;
  mod_c i (handle_meta_data tls13 buf);;;
  do c <- get_c i;
  do c <- mres (handle_sccs_sf_records buf c);
  mod_c i (fun _ => c <| sccs_sf_buf := wr (sccs_sf_buf c) 0 (rdn (Z.to_nat len) buf 0) |>);;;
  table_insert i;;;
  do fd <- set_mig_sock (mi c);
  mod_c i (fun c => c <| sock_fd := fd |>);;;
  do nb <- set_nonblock fd;
  if nb <? 0 then close_sock i;;; ret (-1) else
  do mig <- mig_tcp_conn i;
  if mig <? 0 then
    table_remove i;;;
    close_sock i;;;
    conn_state_free i;;;
    ret (-1)
  else
    mod_c i (fun c => c <| sock_state := INIT |>);;;
    ret 0.

Definition handle_key_packet (buf : bytes) (len : Z) : hostM Z :=
  do existing <- find_conn (mk_client (ntohl (rd32 buf 26)) (ntohs (rd16 buf 34)));
  match existing with
  | Some i => send_mig_fin_to_arm i;;; ret (-1)
  | None => migrate buf len
  end.

Definition handle_rst_conn_packet (buf : bytes) (len : Z) : hostM Z :=
  do existing <- find_conn (mk_client (ntohl (rd32 buf 0)) (ntohs (rd16 buf 14)));
  match existing with
  | Some i =>
      table_remove i;;;
      close_sock i;;;
      conn_state_free i;;;
      migrate buf len
  | None => ret (-1)
  end.

(** [handle_unterminated_conn]: the packet is an IPv4/TCP packet; the answer
    closes the connection it names. *)
Definition handle_unterminated_conn (buf : bytes) (len : Z) : hostM Z :=
  let tcph := (14 + Z.to_nat (Z.land (rd8 buf 14) 0x0f * 4))%nat in
  send_close_to_arm (mk_meta_info (mk_client (ntohl (rd32 buf 26)) (ntohs (rd16 buf tcph)))
    (ntohl (rd32 buf (tcph + 4))) (ntohl (rd32 buf (tcph + 8))));;;
  ret 0.

(** [handle_meta_packet]: the frame overwrites the front of the buffer. *)
Definition handle_meta_packet : hostM Z :=
  do s <- mget;
  let data := take RECV_META_BUF_SIZE (sysdata (sys_idx s)) in
  do len <- syscall Recvfrom;
  if len <? 0 then ret (-1) else
  mmod (fun s => s <| meta_buf ::= fun b => wr b 0 data |>);;;
  do s <- mget;
  let n := Z.of_nat (length data) in
  match validate_meta_type (meta_buf s) with
  | META_TYPE_UNKNOWN => ret (-1)
  | META_TYPE_KEY => handle_key_packet (meta_buf s) n
  | META_TYPE_RST_CONN => handle_rst_conn_packet (meta_buf s) n
  | META_TYPE_WEIRD_SYN => handle_unterminated_conn (meta_buf s) n
  end.
End host.
