(* ===== verification/FlowRules.v ===== *)
(** * Hardware flow rules (dpdk_io.c)

    With flow rules the device forwards packets between the network port 0 and
    the host port 1 without the SmartNIC program: one rule, installed at
    start-up, for what the host sends, and one per migrated connection for what
    its client sends. A rule is a list of items, each with a specification and
    a mask over the fields of a header; the program's job is to fill them in,
    and to declare the masks beforehand as a template. The meaning is that of
    rte_flow: a field matches when it agrees with the specification on the bits
    of the mask, and a zero mask matches everything. *)

From S2P Require Import Prelude FlowTable NicState MetaOut TcpIn HostConn.

(** ** Items *)

Inductive flow_item : Type :=
| ITEM_REPRESENTED_PORT (spec mask : Z)
| ITEM_ETH (spec mask : ether_hdr)
| ITEM_IPV4 (spec mask : ipv4_hdr)
| ITEM_TCP (spec mask : tcp_hdr)
| ITEM_END.
Inductive flow_action : Type :=
| ACTION_JUMP (group : Z)
| ACTION_REPRESENTED_PORT (port : Z)
| ACTION_END.

Definition RTE_TCP_SYN_FLAG : Z := 0x02.
Definition ones6 : bytes := replicate 6 0xff.

(** The objects that [thread_local_init] allocates for a connection's rules are
    zero; only the fields below are ever written. *)
Definition fill_pattern_hws_recv (c : tcp_connection) : list flow_item :=
  [ ITEM_ETH (mk_ether_hdr (server_mac c) (client_mac c) (htons 0x0800)) (mk_ether_hdr ones6 ones6 0xFFFF);
    ITEM_IPV4 (ipv4_hdr0 <| ip_src := client_ip (c_flow c) |> <| ip_dst := server_ip (c_flow c) |>)
              (ipv4_hdr0 <| ip_src := 0xFFFFFFFF |> <| ip_dst := 0xFFFFFFFF |>);
    ITEM_TCP (tcp_hdr0 <| src_port := client_port (c_flow c) |> <| dst_port := server_port (c_flow c) |>
                       <| tcp_flags := 0 |>)
             (tcp_hdr0 <| src_port := 0xFFFF |> <| dst_port := 0xFFFF |> <| tcp_flags := RTE_TCP_SYN_FLAG |>);
    ITEM_END ].
Definition fill_action_hws_recv (c : tcp_connection) : list flow_action :=
  [ ACTION_REPRESENTED_PORT (portid c + 1); ACTION_END ].

Definition fill_pattern_jump_recv (c : tcp_connection) : list flow_item :=
  [ ITEM_ETH (ether_hdr0 <| ether_type := htons 0x0800 |>) (ether_hdr0 <| ether_type := 0xFFFF |>);
    ITEM_IPV4 (ipv4_hdr0 <| ip_src := client_ip (c_flow c) |> <| ip_dst := server_ip (c_flow c) |>)
              (ipv4_hdr0 <| ip_src := 0xFFFFFFFF |> <| ip_dst := 0xFFFFFFFF |>);
    ITEM_TCP (tcp_hdr0 <| src_port := client_port (c_flow c) |> <| dst_port := server_port (c_flow c) |>)
             (tcp_hdr0 <| src_port := 0xFFFF |> <| dst_port := 0xFFFF |>);
    ITEM_END ].
Definition fill_action_jump_recv : list flow_action := [ ACTION_JUMP 1; ACTION_END ].

Definition fill_pattern_hws_send : list flow_item :=
  [ ITEM_REPRESENTED_PORT 1 0xFFFF;
    ITEM_ETH (ether_hdr0 <| ether_type := htons 0x0800 |>) (ether_hdr0 <| ether_type := 0xFFFF |>);
    ITEM_IPV4 (ipv4_hdr0 <| type_of_service := 0x00 |>) (ipv4_hdr0 <| type_of_service := 0xFF |>);
    ITEM_END ].
Definition fill_action_hws_send : list flow_action := [ ACTION_REPRESENTED_PORT 0; ACTION_END ].

(** Templates: the items with their masks, and the kinds of the actions. *)
Definition create_pattern_template_hws_recv : list flow_item :=
  [ ITEM_ETH ether_hdr0 (mk_ether_hdr ones6 ones6 0xFFFF);
    ITEM_IPV4 ipv4_hdr0 (ipv4_hdr0 <| ip_src := 0xFFFFFFFF |> <| ip_dst := 0xFFFFFFFF |>);
    ITEM_TCP tcp_hdr0
      (tcp_hdr0 <| src_port := 0xFFFF |> <| dst_port := 0xFFFF |> <| tcp_flags := RTE_TCP_SYN_FLAG |>);
    ITEM_END ].
Definition create_pattern_template_jump_recv : list flow_item :=
  [ ITEM_ETH ether_hdr0 (ether_hdr0 <| ether_type := 0xFFFF |>);
    ITEM_IPV4 ipv4_hdr0 (ipv4_hdr0 <| ip_src := 0xFFFFFFFF |> <| ip_dst := 0xFFFFFFFF |>);
    ITEM_TCP tcp_hdr0 (tcp_hdr0 <| src_port := 0xFFFF |> <| dst_port := 0xFFFF |>);
    ITEM_END ].

(** What a rule must share with the template of its table. *)
Definition without_spec (i : flow_item) : flow_item :=
  match i with
  | ITEM_REPRESENTED_PORT _ m => ITEM_REPRESENTED_PORT 0 m
  | ITEM_ETH _ m => ITEM_ETH ether_hdr0 m
  | ITEM_IPV4 _ m => ITEM_IPV4 ipv4_hdr0 m
  | ITEM_TCP _ m => ITEM_TCP tcp_hdr0 m
  | ITEM_END => ITEM_END
  end.

(** ** Matching *)

Definition agree (x spec mask : Z) : bool := Z.land x mask =? Z.land spec mask.
Definition agree_bytes (x spec mask : bytes) : bool :=
  bool_decide (zip_with Z.land x mask = zip_with Z.land spec mask).

Definition item_matches (port : Z) (p : packet) (i : flow_item) : bool :=
  match i with
  | ITEM_REPRESENTED_PORT s m => agree port s m
  | ITEM_ETH s m =>
      agree_bytes (dst_addr (ethh p)) (dst_addr s) (dst_addr m) &&
      agree_bytes (src_addr (ethh p)) (src_addr s) (src_addr m) &&
      agree (ether_type (ethh p)) (ether_type s) (ether_type m)
  | ITEM_IPV4 s m =>
      agree (version_ihl (iph p)) (version_ihl s) (version_ihl m) &&
      agree (type_of_service (iph p)) (type_of_service s) (type_of_service m) &&
      agree (total_length (iph p)) (total_length s) (total_length m) &&
      agree (packet_id (iph p)) (packet_id s) (packet_id m) &&
      agree (fragment_offset (iph p)) (fragment_offset s) (fragment_offset m) &&
      agree (time_to_live (iph p)) (time_to_live s) (time_to_live m) &&
      agree (next_proto_id (iph p)) (next_proto_id s) (next_proto_id m) &&
      agree (ip_src (iph p)) (ip_src s) (ip_src m) && agree (ip_dst (iph p)) (ip_dst s) (ip_dst m)
  | ITEM_TCP s m =>
      agree (src_port (tcph p)) (src_port s) (src_port m) &&
      agree (dst_port (tcph p)) (dst_port s) (dst_port m) &&
      agree (sent_seq (tcph p)) (sent_seq s) (sent_seq m) &&
      agree (recv_ack (tcph p)) (recv_ack s) (recv_ack m) &&
      agree (data_off (tcph p)) (data_off s) (data_off m) &&
      agree (tcp_flags (tcph p)) (tcp_flags s) (tcp_flags m) &&
      agree (rx_win (tcph p)) (rx_win s) (rx_win m)
  | ITEM_END => true
  end.
Definition pattern_matches (port : Z) (p : packet) (l : list flow_item) : bool :=
  forallb (item_matches port p) l.

(** A packet as it lies in memory: the fields have their width. *)
Record packet_ok (p : packet) : Prop := mk_packet_ok {
  ok_dst : bytes_ok (dst_addr (ethh p)) /\ length (dst_addr (ethh p)) = 6%nat;
  ok_src : bytes_ok (src_addr (ethh p)) /\ length (src_addr (ethh p)) = 6%nat;
  ok_type : is_u16 (ether_type (ethh p));
  ok_tos : is_u8 (type_of_service (iph p));
  ok_ips : is_u32 (ip_src (iph p)) /\ is_u32 (ip_dst (iph p));
  ok_ports : is_u16 (src_port (tcph p)) /\ is_u16 (dst_port (tcph p));
}.
Record conn_ok (c : tcp_connection) : Prop := mk_conn_ok {
  cok_client_mac : bytes_ok (client_mac c) /\ length (client_mac c) = 6%nat;
  cok_server_mac : bytes_ok (server_mac c) /\ length (server_mac c) = 6%nat;
  cok_ips : is_u32 (client_ip (c_flow c)) /\ is_u32 (server_ip (c_flow c));
  cok_ports : is_u16 (client_port (c_flow c)) /\ is_u16 (server_port (c_flow c));
}.

Lemma agree_all n x spec : 0 <= n -> 0 <= x < 2 ^ n -> 0 <= spec < 2 ^ n ->
  agree x spec (Z.ones n) = (x =? spec).
Proof. intros Hn Hx Hs. unfold agree. rewrite !Z.land_ones, !Z.mod_small by done. done. Qed.
Lemma agree_none x spec : agree x spec 0 = true.
Proof. unfold agree. by rewrite !Z.land_0_r. Qed.
Lemma land_ones8 l n : bytes_ok l -> length l = n -> zip_with Z.land l (replicate n 0xff) = l.
Proof.
  intros Hl <-. induction Hl as [|b l Hb Hl IH]; [done|]. simpl. rewrite IH. f_equal.
  change 255 with (Z.ones 8). rewrite Z.land_ones, Z.mod_small by (done || lia). done.
Qed.
Lemma agree_mac x spec : bytes_ok x /\ length x = 6%nat -> bytes_ok spec /\ length spec = 6%nat ->
  agree_bytes x spec ones6 = bool_decide (x = spec).
Proof. intros [] []. unfold agree_bytes, ones6. by rewrite !land_ones8. Qed.
Lemma agree_mac_none x : length x = 6%nat -> agree_bytes x (zeros 6) (zeros 6) = true.
Proof.
  intros Hl. do 7 (destruct x as [|? x]; try done). unfold agree_bytes. apply bool_decide_eq_true. simpl.
  by rewrite !Z.land_0_r.
Qed.

(** The rule of a migrated connection takes exactly the packets of its
    client without the SYN flag: those whose Ethernet and IP addresses and
    ports are the connection's; a SYN, with which the client would start anew,
    still reaches the SmartNIC program. The rule has the items and masks that
    the template of its table declares. *)
Theorem hws_recv_rule_exact port p c :
  packet_ok p -> conn_ok c ->
  (pattern_matches port p (fill_pattern_hws_recv c) = true <->
   ether_type (ethh p) = htons 0x0800 /\ src_addr (ethh p) = client_mac c /\ dst_addr (ethh p) = server_mac c /\
   flow_of p = c_flow c /\ has_flag p TCP_FLAG_SYN = false) /\
  without_spec <$> fill_pattern_hws_recv c = create_pattern_template_hws_recv.
Proof.
  intros [] []. split; [|done]. unfold pattern_matches, fill_pattern_hws_recv. cbn [forallb item_matches].
  cbn [dst_addr src_addr ether_type ip_src ip_dst]. simpl. rewrite !agree_none, !agree_mac by done.
  change 0xFFFF with (Z.ones 16). change 0xFFFFFFFF with (Z.ones 32).
  rewrite !agree_all by (done || apply ok_type0 || apply ok_ips0 || apply ok_ports0 || apply cok_ips0 || apply cok_ports0 || (vm_compute; split; [discriminate|reflexivity])).
  unfold has_flag, flow_of, agree. change TCP_FLAG_SYN with RTE_TCP_SYN_FLAG. rewrite Z.land_0_l, negb_false_iff.
  rewrite !andb_true_iff, !bool_decide_eq_true, !Z.eqb_eq. destruct (c_flow c) as [ci si cp sp]. simpl.
  split; [intros; destruct_and!; subst; done|]. intros (? & ? & ? & [= ? ? ? ?] & ?). done.
Qed.

(** The rule for the host's packets takes none that the SmartNIC program
    handles: of the packets from the host it forwards exactly the IPv4 packets
    with type of service 0, and the program ignores those; its two control
    frames carry other types of service and are left to it. *)
Theorem hws_send_rule_spares_control_frames port p :
  packet_ok p -> is_u16 port ->
  (pattern_matches port p fill_pattern_hws_send = true <->
   port = 1 /\ ether_type (ethh p) = htons 0x0800 /\ type_of_service (iph p) = 0) /\
  (forall k len, validate_packet_type 1 p len = Some k -> pattern_matches port p fill_pattern_hws_send = false).
Proof.
  intros [] Hp. assert (pattern_matches port p fill_pattern_hws_send =
    (port =? 1) && ((ether_type (ethh p) =? htons 0x0800) && (type_of_service (iph p) =? 0))) as E.
  { unfold pattern_matches, fill_pattern_hws_send. simpl. rewrite !agree_none, !agree_mac_none by (apply ok_dst0 || apply ok_src0).
    change 0xFFFF with (Z.ones 16). change 0xFF with (Z.ones 8).
    rewrite !agree_all by (done || apply ok_type0 || apply ok_tos0 || (vm_compute; split; [discriminate|reflexivity])).
    simpl. by rewrite !andb_true_r. }
  rewrite E. split.
  - rewrite !andb_true_iff, !Z.eqb_eq. tauto.
  - intros k len. unfold validate_packet_type. change (htons RTE_ETHER_TYPE_IPV4) with (htons 0x0800).
    destruct (ether_type (ethh p) =? htons 0x0800); [|intros _; by rewrite andb_false_r].
    destruct (type_of_service (iph p) =? 0); [|intros _; by rewrite !andb_false_r].
    destruct (next_proto_id (iph p) =? IPPROTO_TCP); [|done]. done.
Qed.

(** A client's data packet and its connection; the host's acknowledgement. *)
Definition sample_conn : tcp_connection :=
  tcp_connection0 <| client_mac := rdn 6 data_bytes 6 |> <| server_mac := rdn 6 data_bytes 0 |> <| c_flow := client_flow |>.
Lemma hws_recv_rule_exact_witness :
  (pattern_matches 0 (parse data_bytes) (fill_pattern_hws_recv sample_conn) = true <->
   ether_type (ethh (parse data_bytes)) = htons 0x0800 /\
   src_addr (ethh (parse data_bytes)) = client_mac sample_conn /\
   dst_addr (ethh (parse data_bytes)) = server_mac sample_conn /\
   flow_of (parse data_bytes) = c_flow sample_conn /\ has_flag (parse data_bytes) TCP_FLAG_SYN = false) /\
  without_spec <$> fill_pattern_hws_recv sample_conn = create_pattern_template_hws_recv.
Proof.
  apply (hws_recv_rule_exact 0 (parse data_bytes) sample_conn);
    split; repeat split; apply (bool_decide_eq_true_1 _); vm_compute; reflexivity.
Defined.
Example data_taken : pattern_matches 0 (parse data_bytes) (fill_pattern_hws_recv sample_conn) = true.
Proof. vm_compute. reflexivity. Qed.

Definition ack_frame : bytes := mig_fin_frame conn_state0.
Lemma hws_send_rule_spares_control_frames_witness :
  (pattern_matches 1 (parse ack_frame) fill_pattern_hws_send = true <->
   1 = 1 /\ ether_type (ethh (parse ack_frame)) = htons 0x0800 /\ type_of_service (iph (parse ack_frame)) = 0) /\
  (forall k len, validate_packet_type 1 (parse ack_frame) len = Some k ->
     pattern_matches 1 (parse ack_frame) fill_pattern_hws_send = false).
Proof.
  apply (hws_send_rule_spares_control_frames 1 (parse ack_frame));
    [split; repeat split; apply (bool_decide_eq_true_1 _); vm_compute; reflexivity|split; lia].
Defined.
Example ack_left : validate_packet_type 1 (parse ack_frame) 0 = Some HOST_MIG_FIN.
Proof. vm_compute. reflexivity. Qed.
