(* ===== verification/Migration.v ===== *)
(** * Handing a connection to the host

    The SmartNIC sends a key meta frame ([send_key_meta]), one host thread
    receives it and rebuilds the connection ([handle_meta_data]), and answers
    with a frame ([send_mig_fin_to_arm]) that lets the SmartNIC send the rest
    of its flight ([process_host_mig_fin]). The theorems of this file connect
    the models of the two programs: what one writes, the other reads. *)

From S2P Require Import Prelude FlowTable Hkdf ClientHello NicState KeySchedule SslPools TcpOut MetaOut.
From S2P Require Import RecordLayer Session TcpIn HostFilter HostConn.

(** Reading a buffer that was written field by field. *)
Create HintDb offsets.
#[local] Hint Unfold off_server_seq_num off_server_ack_num off_custom_eth_type off_client_ip off_server_ip
  off_client_port off_server_port off_conn_meta cm_session_id cm_version cm_bulk_cipher cm_cipher_type
  cm_mac_algorithm cm_mac_key_size cm_client_MAC cm_server_MAC cm_enc_key_size cm_client_key
  cm_server_key cm_fixed_iv_length cm_client_IV cm_server_IV CONN_META_SIZE META_HDR_SIZE
  SND_META_PKT_SIZE RECV_META_BUF_SIZE SSL_META_SIZE : offsets.
Lemma length_wr_eq N l off src :
  length l = N -> (off + length src <= N)%nat -> length (wr l off src) = N.
Proof. intros <- Hl. by apply length_wr. Qed.
Ltac slen :=
  rewrite ?length_le_bytes, ?length_rdn; autounfold with offsets in *; simpl length; lia.
Ltac wr_len :=
  first [ eassumption | apply length_zeros | eapply length_wr_eq; [wr_len|slen] ].
Lemma rdn_same N n l off src :
  length l = N -> (off <= N)%nat -> length src = n -> rdn n (wr l off src) off = src.
Proof. intros <-. apply rdn_wr_same. Qed.
Lemma rdn_ne N n l off src i : length l = N -> (off + length src <= N)%nat ->
  (i + n <= off \/ off + length src <= i)%nat -> rdn n (wr l off src) i = rdn n l i.
Proof. intros <-. apply rdn_wr_ne. Qed.
Lemma rdn_in N n l off src i : length l = N -> (off <= N)%nat -> (off <= i)%nat ->
  (i + n <= off + length src)%nat -> rdn n (wr l off src) i = rdn n src (i - off).
Proof. intros <-. apply rdn_wr_in. Qed.
Lemma rd8_ne N l off src i : length l = N -> (off + length src <= N)%nat ->
  (i < off \/ off + length src <= i)%nat -> rd8 (wr l off src) i = rd8 l i.
Proof. intros <-. apply rd8_wr_ne. Qed.
Lemma rd8_in N l off src i : length l = N -> (off <= N)%nat -> (off <= i < off + length src)%nat ->
  rd8 (wr l off src) i = rd8 src (i - off).
Proof. intros <-. apply rd8_wr_in. Qed.
Ltac rd_step :=
  match goal with
  | |- context [rdn ?n (wr ?l ?o ?s) ?i] =>
      first [ erewrite (rdn_same _ n l o s) by (wr_len || slen)
            | erewrite (rdn_ne _ n l o s i) by (wr_len || slen)
            | erewrite (rdn_in _ n l o s i) by (wr_len || slen) ]
  | |- context [rd8 (wr ?l ?o ?s) ?i] =>
      first [ erewrite (rd8_ne _ l o s i) by (wr_len || slen)
            | erewrite (rd8_in _ l o s i) by (wr_len || slen) ]
  end.
Ltac rd_all := autounfold with offsets; unfold rd16, rd32; repeat rd_step.

(** What a session must hold when its keys are handed over: the parameters of
    TLS_AES_256_GCM_SHA384 and key arrays of their C size. *)
Record migratable (c : tcp_connection) (x : ssl_session) : Prop := mk_migratable {
  mg_keys : tls13_ok (tls13 x);
  mg_hdr : length (meta_hdr x) = META_HDR_SIZE;
  mg_key_size : enc_key_size (write_sp x) = 32;
  mg_iv_size : fixed_iv_length (write_sp x) = 12;
  mg_mac_size : 0 <= mac_key_size (write_sp x) <= 128;
  mg_major : major (version x) = 3;
  mg_ip : is_u32 (client_ip (c_flow c));
  mg_port : is_u16 (client_port (c_flow c));
}.

Lemma meta_keys c x : migratable c x ->
  exists cm, build_connection_meta c x = Ret cm /\ length cm = CONN_META_SIZE /\
    rd8 cm cm_version = 3 /\ rd8 cm (cm_version + 1) = 4 /\
    rdn 32 cm cm_client_key = take 32 (client_application_key (tls13 x)) /\
    rdn 32 cm cm_server_key = take 32 (server_application_key (tls13 x)) /\
    rdn 12 cm cm_client_IV = take 12 (client_application_iv (tls13 x)) /\
    rdn 12 cm cm_server_IV = take 12 (server_application_iv (tls13 x)).
Proof.
  intros [Hk _ Hks His Hms Hmj _ _]. destruct Hk. unfold build_connection_meta, put_key.
  rewrite Hks, His, Hmj. unfold MAX_KEY_SIZE. rewrite (proj2 (Z.ltb_ge _ _)) by lia. cbn [res_bind].
  change (Z.of_nat 128 <? 32) with false. change (Z.of_nat 128 <? 12) with false. cbn [res_bind].
  assert (length (rdn (Z.to_nat (mac_key_size (write_sp x))) (client_write_MAC_secret x) 0) <= 128)%nat
    by (rewrite length_rdn; lia).
  assert (length (rdn (Z.to_nat (mac_key_size (write_sp x))) (server_write_MAC_secret x) 0) <= 128)%nat
    by (rewrite length_rdn; lia).
  change (Z.to_nat 32) with 32%nat. change (Z.to_nat 12) with 12%nat. unfold room in *.
  eexists. split; [reflexivity|]. split; [wr_len|]. rd_all.
  rewrite !rdn_slice, !drop_0 by lia. done.
Qed.

Section handover.
Context `{Platform} `{Crypto}.

Lemma idx_range c : 0 < host_threads_num <= 16 -> is_u16 (client_port (c_flow c)) ->
  0 <= client_port (c_flow c) mod host_threads_num < 16 /\
  u16 (Z.rem (client_port (c_flow c)) host_threads_num) = client_port (c_flow c) mod host_threads_num.
Proof.
  intros Hn [Hp _]. assert (0 < host_threads_num) as Hpos by lia.
  pose proof (Z.mod_pos_bound (client_port (c_flow c)) host_threads_num Hpos).
  split; [lia|]. rewrite Z.rem_mod_nonneg by lia. apply u16_id. split; lia.
Qed.

(** The EtherType of the thread that serves a connection. *)
Definition thread_of (c : tcp_connection) : nat :=
  Z.to_nat (client_port (c_flow c) mod host_threads_num).
Lemma thread_type c : 0 < host_threads_num <= 16 -> is_u16 (client_port (c_flow c)) ->
  exists t, key_eth_types !! thread_of c = Some t.
Proof.
  intros Hn Hp. apply lookup_lt_is_Some_2. destruct (idx_range c Hn Hp). unfold thread_of. simpl. lia.
Qed.

(** The frame that [send_key_meta] sends. *)
Definition key_meta (c : tcp_connection) (x : ssl_session) (t : Z) (cm : bytes) : bytes :=
  wr (fill_key_meta c x t (meta_hdr x)) off_conn_meta cm.
Definition told (s : nic) (i : nat) (x : ssl_session) (port : Z) (m : bytes) : nic :=
  s <| sessions ::= insert i (x <| meta_hdr := m |>) |> <| tx ::= fun l => l ++ [TxRaw port m] |>.

Lemma send_key_meta_run s i c x port t cm :
  conns s !! i = Some c -> sessions s !! i = Some x -> 0 < host_threads_num <= 16 ->
  is_u16 (client_port (c_flow c)) -> key_eth_types !! thread_of c = Some t ->
  build_connection_meta c x = Ret cm ->
  send_key_meta port i s = Ret (0, told s i x port (key_meta c x t cm)).
Proof.
  intros Hc Hx Hn Hp Ht Hcm. destruct (idx_range c Hn Hp) as [_ Hi]. unfold send_key_meta.
  exec_step. exec_step. rewrite (proj2 (Z.eqb_neq _ _)) by lia. unfold bind at 1. unfold ret at 1.
  rewrite Hi. unfold thread_of in Ht. rewrite Ht, Hcm. unfold bind at 1, mres at 1.
  unfold bind at 1, mres at 1. exec_step. reflexivity.
Qed.

(** Its fields. *)
Lemma length_key_meta c x t cm : length (meta_hdr x) = META_HDR_SIZE -> length cm = CONN_META_SIZE ->
  length (key_meta c x t cm) = META_HDR_SIZE.
Proof. intros Hm Hc. unfold key_meta, fill_key_meta. wr_len. Qed.
Lemma key_meta_header c x t cm : length (meta_hdr x) = META_HDR_SIZE -> length cm = CONN_META_SIZE ->
  let m := key_meta c x t cm in
  rdn 4 m 26 = le_bytes 4 (client_ip (c_flow c)) /\ rdn 2 m 34 = le_bytes 2 (client_port (c_flow c)) /\
  rdn 4 m 4 = le_bytes 4 (htonl (u32 (last_recv_ack c + send_buffer_offset x))) /\
  rdn 4 m 8 = le_bytes 4 (htonl (u32 (last_recv_seq c + last_recv_len c + 80))) /\
  rdn 2 m 12 = le_bytes 2 (htons t).
Proof. intros Hm Hc m. unfold m, key_meta, fill_key_meta. rd_all. done. Qed.

Lemma le2 z : is_u16 z -> le_val (le_bytes 2 z) = z.
Proof. intros Hz. rewrite le_val_le_bytes. apply Z.mod_small, Hz. Qed.
Lemma le4 z : is_u32 z -> le_val (le_bytes 4 z) = z.
Proof. intros Hz. rewrite le_val_le_bytes. apply Z.mod_small, Hz. Qed.
Lemma types_u16 i t : key_eth_types !! i = Some t -> is_u16 t /\ t <> ETH_P_IP.
Proof.
  intros Ht%list_elem_of_lookup_2. revert t Ht. apply Forall_forall.
  repeat (constructor; [split; [split|]; done|]). constructor.
Qed.

(** Exactly one thread gets the frame. *)
Lemma key_meta_delivered c x t cm core :
  length (meta_hdr x) = META_HDR_SIZE -> length cm = CONN_META_SIZE ->
  key_eth_types !! thread_of c = Some t -> (core < 16)%nat ->
  delivered core (key_meta c x t cm) = true <-> core = thread_of c.
Proof.
  intros Hm Hcm Ht Hcore. destruct (types_u16 _ _ Ht) as [H16 Hip].
  destruct (lookup_lt_is_Some_2 key_eth_types core) as [t' Ht']; [simpl; lia|].
  rewrite (filter_spec core t') by (rewrite ?length_key_meta; done).
  destruct (key_meta_header c x t cm Hm Hcm) as (_ & _ & _ & _ & Hty).
  assert (frame_type (key_meta c x t cm) = t) as Hft.
  { unfold frame_type. rewrite Hty. change (be_val (le_bytes 2 (htons t))) with (ntohs (htons t)).
    by apply bswap16_involutive. }
  unfold second_way. rewrite Hft, (proj2 (Z.eqb_neq t ETH_P_IP)) by done. cbn [andb]. rewrite orb_false_r, Z.eqb_eq.
  split; [|intros ->; congruence]. intros ->.
  assert (NoDup key_eth_types) as Hnd by (by apply (bool_decide_unpack _); vm_compute).
  by apply (NoDup_lookup _ _ _ _ Hnd Ht').
Qed.

(** Reading it in the host's buffer. *)
Lemma buffered n b m off : length b = RECV_META_BUF_SIZE -> length m = META_HDR_SIZE -> (off + n <= 826)%nat ->
  rdn n (wr b 0 m) off = rdn n m off.
Proof. intros Hb Hm Hn. erewrite rdn_in; [by rewrite Nat.sub_0_r|exact Hb|lia|lia|rewrite Hm; unfold META_HDR_SIZE; lia]. Qed.
Lemma in_meta n c x t cm off : length (meta_hdr x) = META_HDR_SIZE -> length cm = CONN_META_SIZE ->
  (off + n <= 788)%nat -> rdn n (key_meta c x t cm) (38 + off) = rdn n cm off.
Proof.
  intros Hm Hcm Hn. unfold key_meta. erewrite rdn_in; [|unfold fill_key_meta; wr_len|slen|slen|rewrite Hcm; slen].
  f_equal. unfold off_conn_meta. lia.
Qed.
Lemma rd8_rdn l off : rd8 l off = le_val (rdn 1 l off).
Proof. simpl. lia. Qed.

(** What the host makes of a key frame. *)
Definition host_view (c : tcp_connection) (x : ssl_session) (h : conn_state) : Prop :=
  mi h = mk_meta_info (mk_client (ntohl (client_ip (c_flow c))) (ntohs (client_port (c_flow c))))
           (u32 (last_recv_ack c + send_buffer_offset x))
           (u32 (last_recv_seq c + last_recv_len c + 80)) /\
  ci_key (crypto_info_rx h) = take 32 (client_application_key (tls13 x)) /\
  ci_salt (crypto_info_rx h) ++ ci_iv (crypto_info_rx h) = take 12 (client_application_iv (tls13 x)) /\
  ci_key (crypto_info_tx h) = take 32 (server_application_key (tls13 x)) /\
  ci_salt (crypto_info_tx h) ++ ci_iv (crypto_info_tx h) = take 12 (server_application_iv (tls13 x)) /\
  ci_version (crypto_info_rx h) = 0x0304 /\ ci_version (crypto_info_tx h) = 0x0304 /\
  ci_rec_seq (crypto_info_rx h) = zeros 8 /\ ci_rec_seq (crypto_info_tx h) = zeros 8.

Lemma key_meta_read c x t cm b h0 :
  migratable c x -> build_connection_meta c x = Ret cm -> length b = RECV_META_BUF_SIZE ->
  host_view c x (handle_meta_data true (wr b 0 (key_meta c x t cm)) h0).
Proof.
  intros Hmig Hcm Hb. destruct (meta_keys c x Hmig) as
    (cm' & E & Hlen & Hv3 & Hv4 & Hck & Hsk & Hci & Hsi).
  rewrite Hcm in E. injection E as <-. destruct Hmig as [_ Hm _ _ _ _ Hip Hport].
  pose proof (length_key_meta c x t cm Hm Hlen) as Hml.
  destruct (key_meta_header c x t cm Hm Hlen) as (R1 & R2 & R3 & R4 & _).
  assert (forall n off, (off + n <= 788)%nat -> rdn n (wr b 0 (key_meta c x t cm)) (38 + off) = rdn n cm off) as Hin.
  { intros n off Hn. rewrite buffered by (done || lia). by apply in_meta. }
  rewrite rd8_rdn in Hv3, Hv4. unfold host_view, handle_meta_data, direction.
  cbn [mi crypto_info_rx crypto_info_tx ci_key ci_salt ci_iv ci_version ci_rec_seq].
  unfold off_conn_meta, rd16, rd32. rewrite <-!Nat.add_assoc, !rd8_rdn.
  rewrite !buffered with (off := 26%nat), !buffered with (off := 34%nat), !buffered with (off := 4%nat),
    !buffered with (off := 8%nat) by (done || lia).
  rewrite R1, R2, R3, R4, (le4 (client_ip _)), (le2 (client_port _)), !le4, !bswap32_involutive
    by (done || apply bswap32_range || apply u32_range).
  rewrite !Hin by (vm_compute; lia). rewrite Hv3, Hv4, Hck, Hsk.
  rewrite <-Hci, <-Hsi, !(rdn_split 4 8). done.
Qed.

(** C4: the key meta frame of a connection is delivered to exactly one host
    thread, the one its client port selects, is recognised there, and gives
    the host the client's address, the server's next sequence numbers (the
    acknowledgement 80 bytes ahead, past the client's ChangeCipherSpec and
    Finished records) and, for each direction, the application key and IV of
    the session, with record sequence number 0. *)
Theorem key_meta_reaches_host s i c x port b h0 :
  conns s !! i = Some c -> sessions s !! i = Some x -> migratable c x ->
  0 < host_threads_num <= 16 -> length b = RECV_META_BUF_SIZE ->
  exists m s', send_key_meta port i s = Ret (0, s') /\ tx s' = tx s ++ [TxRaw port m] /\
    (forall core, (core < 16)%nat -> delivered core m = true <-> core = thread_of c) /\
    validate_meta_type (wr b 0 m) = META_TYPE_KEY /\
    host_view c x (handle_meta_data true (wr b 0 m) h0).
Proof.
  intros Hc Hx Hmig Hn Hb. destruct (meta_keys c x Hmig) as (cm & Hcm & Hlen & _).
  destruct (thread_type c Hn (mg_port _ _ Hmig)) as [t Ht]. pose proof (mg_hdr _ _ Hmig) as Hm.
  exists (key_meta c x t cm), (told s i x port (key_meta c x t cm)).
  split; [by apply send_key_meta_run; [..|apply Hmig| |]|]. split; [done|].
  split; [intros core Hcore; by apply key_meta_delivered|]. split; [|by apply key_meta_read].
  unfold validate_meta_type, rd16. rewrite buffered by (try apply length_key_meta; done || lia).
  destruct (key_meta_header c x t cm Hm Hlen) as (_ & _ & _ & _ & ->).
  rewrite le2, bswap16_involutive by (apply bswap16_range || by eapply types_u16).
  rewrite bool_decide_true; [done|]. by eapply list_elem_of_lookup_2.
Qed.

(** The host's answer as the SmartNIC reads it. *)
Lemma mig_fin_parsed h :
  is_u32 (cl_ip (mi_client (mi h))) -> is_u16 (cl_port (mi_client (mi h))) ->
  let p := parse (mig_fin_frame h) in
  validate_packet_type 1 p (u16 (ntohs (total_length (iph p)) -
    (IP_HEADER_LEN + Z.shiftr (Z.land (data_off (tcph p)) 0xf0) 2))) = Some HOST_MIG_FIN /\
  flow_of p = mk_flow (htonl (cl_ip (mi_client (mi h)))) (htonl SERVER_IP)
                (htons (cl_port (mi_client (mi h)))) (htons SSL_PORT_) /\
  sent_seq (tcph p) = htonl (seq_num (mi h)) /\ recv_ack (tcph p) = htonl (ack_num (mi h)).
Proof.
  intros Hip Hpo p.
  assert (rd16 (mig_fin_frame h) 12 = 8 /\ rd8 (mig_fin_frame h) 15 = 0xfd) as [E1 E2].
  { unfold mig_fin_frame, arm_frame. rd_all. done. }
  assert (rdn 4 (mig_fin_frame h) 26 = le_bytes 4 (htonl (cl_ip (mi_client (mi h)))) /\
          rdn 4 (mig_fin_frame h) 30 = le_bytes 4 (htonl SERVER_IP) /\
          rdn 2 (mig_fin_frame h) 34 = le_bytes 2 (htons (cl_port (mi_client (mi h)))) /\
          rdn 2 (mig_fin_frame h) 36 = le_bytes 2 (htons SSL_PORT_) /\
          rdn 4 (mig_fin_frame h) 38 = le_bytes 4 (htonl (seq_num (mi h))) /\
          rdn 4 (mig_fin_frame h) 42 = le_bytes 4 (htonl (ack_num (mi h)))) as (R1 & R2 & R3 & R4 & R5 & R6).
  { unfold mig_fin_frame, arm_frame. rd_all. done. }
  unfold p, parse, flow_of, validate_packet_type. cbn [ethh ether_type iph type_of_service tcph sent_seq recv_ack ip_src ip_dst src_port dst_port].
  rewrite E1, E2. unfold rd32, rd16. rewrite R1, R2, R3, R4, R5, R6, !le4, !le2
    by (apply bswap32_range || apply bswap16_range). done.
Qed.

(** C3: the host's acknowledgement of a migration is accepted: after
    [send_key_meta], the frame that the host builds for the connection it
    made of the meta frame is classified as HOST_MIG_FIN, finds the
    connection and passes the check of the sequence numbers, so that
    [recv_mig_fin] is set and nothing else changes. *)
Theorem mig_fin_accepted mm s i c x port b h0 :
  wf_map mm None s -> mm !! c_flow c = Some i ->
  conns s !! i = Some c -> sessions s !! i = Some x -> migratable c x ->
  0 < host_threads_num <= 16 -> length b = RECV_META_BUF_SIZE ->
  server_ip (c_flow c) = htonl SERVER_IP -> server_port (c_flow c) = htons SSL_PORT_ ->
  exists m s', send_key_meta port i s = Ret (0, s') /\ tx s' = tx s ++ [TxRaw port m] /\
    forall h, mi h = mi (handle_meta_data true (wr b 0 m) h0) ->
      process_packet 1 (mig_fin_frame h) 64 s' =
      Ret (tt, s' <| conns ::= insert i (c <| recv_mig_fin := true |>) |>).
Proof.
  intros Hw Hmm Hc Hx Hmig Hn Hb Hsi Hsp. destruct (meta_keys c x Hmig) as (cm & Hcm & Hlen & _).
  destruct (thread_type c Hn (mg_port _ _ Hmig)) as [t Ht]. pose proof (mg_hdr _ _ Hmig) as Hm.
  set (m := key_meta c x t cm). exists m, (told s i x port m).
  split; [by apply send_key_meta_run; [..|apply Hmig| |]|]. split; [done|]. intros h Hh.
  destruct (key_meta_read c x t cm b h0 Hmig Hcm Hb) as (Hmi & _). fold m in Hmi. rewrite Hmi in Hh.
  destruct (mig_fin_parsed h) as (Hv & Hf & Hs & Ha); [rewrite Hh; apply bswap32_range|rewrite Hh; apply bswap16_range|].
  rewrite Hh in Hf, Hs, Ha. cbn [mi_client cl_ip cl_port seq_num ack_num] in Hf, Hs, Ha.
  rewrite bswap32_involutive in Hf by apply Hmig. rewrite bswap16_involutive in Hf by apply Hmig.
  rewrite <-Hsi, <-Hsp in Hf.
  assert (wf_map mm None (told s i x port m)) as Hw'.
  { eapply framed; [|exact Hw]. repeat split. simpl. rewrite dom_insert_L.
    assert (i ∈ dom (sessions s)) by (by apply elem_of_dom_2 in Hx). set_solver. }
  unfold process_packet. rewrite Hv. unfold process_host_packet, process_host_mig_fin.
  change (Z.rem 1 2 =? 0) with false. cbv iota.
  erewrite bind_ret by (by apply search_run). rewrite Hf.
  assert (mk_flow (client_ip (c_flow c)) (server_ip (c_flow c)) (client_port (c_flow c)) (server_port (c_flow c))
    = c_flow c) as -> by (by destruct (c_flow c)). rewrite Hmm.
  erewrite bind_ret by (apply get_sess_run; simpl; apply lookup_insert_eq).
  destruct (key_meta_header c x t cm Hm Hlen) as (_ & _ & R3 & R4 & _). fold m in R3, R4.
  unfold meta_matches, rd32, off_server_seq_num, off_server_ack_num. cbn [meta_hdr].
  change (meta_hdr (x <| meta_hdr := m |>)) with m. rewrite Hs, Ha, R3, R4, !le4, !Z.eqb_refl by apply bswap32_range.
  cbn [andb]. by apply mod_conn_run.
Qed.
End handover.

(** ** A connection ready to be handed over *)

#[local] Opaque full.
Definition ready_session : ssl_session :=
  (@ssl_session0 sample_platform) <| version := mk_version 3 3 |>
    <| write_sp := security_params0 <| enc_key_size := 32 |> <| fixed_iv_length := 12 |> |>
    <| tls13 ::= fun t => t <| client_application_key := replicate 128 0x11 |>
                            <| server_application_iv := replicate 128 0x22 |> |>.
Definition ready : nic := full <| sessions := {[0%nat := ready_session]} |>.
Lemma full_flow : c_flow conn_of_full = client_flow.
Proof. vm_compute. reflexivity. Qed.
Lemma ready_migratable : migratable conn_of_full ready_session.
Proof.
  split; try reflexivity; try (rewrite full_flow; split; [discriminate|reflexivity]).
  - split; vm_compute; lia.
  - split; discriminate.
Qed.
Lemma full_sessions : dom (sessions full) = {[0%nat]}.
Proof.
  destruct full_wf as [m Hw]. rewrite (wf_dom _ _ _ Hw). apply (bool_decide_unpack _). vm_compute. done.
Qed.
Lemma wf_sessions m s ss : dom ss = dom (sessions s) -> wf_map m None s ->
  wf_map m None (s <| sessions := ss |>).
Proof. intros Hd Hw. eapply framed; [|exact Hw]. by repeat split. Qed.
Lemma ready_wf : wf ready.
Proof.
  destruct full_wf as [m Hw]. exists m. refine (wf_sessions m full _ _ Hw).
  rewrite full_sessions. apply dom_singleton_L.
Qed.

Lemma conns_sessions (s : nic) ss : conns (s <| sessions := ss |>) = conns s.
Proof. reflexivity. Qed.
Lemma sessions_sessions (s : nic) ss : sessions (s <| sessions := ss |>) = ss.
Proof. reflexivity. Qed.
Lemma ready_conn : conns ready !! 0%nat = Some conn_of_full.
Proof. unfold ready. rewrite conns_sessions. exact full_conn. Qed.
Lemma ready_sess : sessions ready !! 0%nat = Some ready_session.
Proof. unfold ready. rewrite sessions_sessions. apply lookup_singleton_eq. Qed.

Lemma key_meta_reaches_host_witness :
  exists m s', @send_key_meta sample_platform 1 0 ready = Ret (0, s') /\ tx s' = tx ready ++ [TxRaw 1 m] /\
    (forall core, (core < 16)%nat -> delivered core m = true <-> core = @thread_of sample_platform conn_of_full) /\
    validate_meta_type (wr (zeros RECV_META_BUF_SIZE) 0 m) = META_TYPE_KEY /\
    host_view conn_of_full ready_session (handle_meta_data true (wr (zeros RECV_META_BUF_SIZE) 0 m) conn_state0).
Proof.
  apply (@key_meta_reaches_host sample_platform ready 0 conn_of_full ready_session 1).
  - exact ready_conn.
  - exact ready_sess.
  - exact ready_migratable.
  - split; [reflexivity|discriminate].
  - apply length_zeros.
Defined.

Lemma mig_fin_accepted_witness :
  exists m s', @send_key_meta sample_platform 1 0 ready = Ret (0, s') /\ tx s' = tx ready ++ [TxRaw 1 m] /\
    forall h, mi h = mi (handle_meta_data true (wr (zeros RECV_META_BUF_SIZE) 0 m) conn_state0) ->
      @process_packet sample_platform sample_crypto 1 (mig_fin_frame h) 64 s' =
      Ret (tt, s' <| conns ::= insert 0%nat (conn_of_full <| recv_mig_fin := true |>) |>).
Proof.
  destruct ready_wf as [mm Hw].
  apply (@mig_fin_accepted sample_platform sample_crypto mm ready 0 conn_of_full ready_session 1).
  - exact Hw.
  - rewrite (lookup_searched _ _ _ Hw). vm_compute. reflexivity.
  - exact ready_conn.
  - exact ready_sess.
  - exact ready_migratable.
  - split; [reflexivity|discriminate].
  - apply length_zeros.
  - vm_compute. reflexivity.
  - vm_compute. reflexivity.
Defined.
