(* ===== verification/HostHttp.v ===== *)
(** * The host's HTTP service (host: helpers.c, main.c)

    A request is collected in the connection's buffer until the blank line
    that ends its header, its URL is looked up in the list of cached files,
    and the response is sent in pieces as the socket accepts them: a header,
    the file with [sendfile], and for connections that are not kept alive a
    close_notify alert. *)

From Stdlib Require Import String.
From stdpp Require Import pretty.
From S2P Require Import Prelude FlowTable MetaOut KeySchedule HostConn.

(** [struct file_cache]: what is read of it after loading. *)
Record file_cache := mk_file_cache {
  fullname : bytes;
  fsize : Z;
  ffd : Z;
}.

Inductive req_handler_result : Type :=
| RECV_ERR
| RECV_CONTINUE
| RECV_OK
| RECV_TLS
| RECV_CLOSE_NOTIFY
| RECV_FIN.
#[export] Instance req_handler_result_eq : EqDecision req_handler_result.
Proof. solve_decision. Defined.

Definition URL_LEN : nat := 256.
Definition NAME_LIMIT : nat := 256.
Definition EAGAIN : Z := 11.
Definition EINTR : Z := 4.
Definition LF : Z := 10.
Definition CR : Z := 13.
Definition SP : Z := 32.
Definition HT : Z := 9.

(** ** Strings (helpers.c) *)

(** [strchr(l, c)] for [c] other than the terminator. *)
Fixpoint strchr (l : bytes) (c : Z) : res (option nat) :=
  match l with
  | [] => Fault Out_of_bounds
  | b :: l' =>
      if b =? c then Ret (Some 0%nat)
      else if b =? 0 then Ret None
      else res_bind (strchr l' c) (fun o => Ret (S <$> o))
  end.

(** The loop of [find_http_header]; [temp] is the distance from [data]. Each
    turn moves on, so the length of the buffer bounds the turns. *)
Fixpoint header_loop (fuel : nat) (data : bytes) (temp : nat) : res Z :=
  match fuel with
  | O => Fault Out_of_fuel
  | S f =>
      res_bind (strchr (drop temp data) LF) (fun o =>
      match o with
      | None => Ret 0
      | Some k =>
          let temp := (temp + k + 1)%nat in
          res_bind (ld data (Z.of_nat temp)) (fun a =>
          if a =? LF then Ret (Z.of_nat temp)
          else if a =? CR then
            res_bind (ld data (Z.of_nat temp + 1)) (fun b =>
            if b =? LF then Ret (Z.of_nat temp + 1) else header_loop f data temp)
          else header_loop f data temp)
      end)
  end.
Definition find_http_header (data : bytes) (len : Z) : res Z :=
  res_bind (st data len 0) (fun data => header_loop (S (length data)) data 0).

(** The text before the terminator. *)
Fixpoint c_string (l : bytes) : bytes :=
  match l with
  | [] => []
  | b :: l' => if b =? 0 then [] else b :: c_string l'
  end.
Fixpoint skip_blanks (l : bytes) : bytes :=
  match l with
  | b :: l' => if (b =? SP) || (b =? HT) then skip_blanks l' else l
  | [] => []
  end.
Fixpoint copy_url (n : nat) (l : bytes) : bytes :=
  match n, l with
  | S n', b :: l' => if (b =? 0) || (b =? SP) then [] else b :: copy_url n' l'
  | _, _ => []
  end.
(** [http_get_url] takes what follows the first three characters, whatever
    they are: the test for "GET" only clears the first byte of the result,
    which is then overwritten. *)
Definition http_get_url (data : bytes) : bytes := copy_url (URL_LEN - 1) (skip_blanks (drop 3 data)).

(** [strstr(l, w)]. *)
Fixpoint strstr (w l : bytes) : bool :=
  bool_decide (w `prefix_of` l) ||
  match l with
  | [] => false
  | _ :: l' => strstr w l'
  end.

Definition scode_2_str (scode : Z) : option bytes :=
  if scode =? 200 then Some (str "OK") else if scode =? 404 then Some (str "Not Found") else None.

Definition reset_conn_for_next_req (c : conn_state) : conn_state :=
  c <| req_len := 0 |> <| hdr_sent := false |> <| hdr_len := 0 |> <| hdr_offset := 0 |>
    <| hdr_remain := 0 |> <| scode := 0 |> <| file_idx := -1 |> <| file_size := 0 |>
    <| resp_fd := -1 |> <| resp_offset := 0 |> <| resp_remain := 0 |>
    <| req_buf := zeros HTTP_HEADER_LEN |>.

(** ** Receiving a request (main.c) *)

Section http.
Context `{Sys} (fcache : list file_cache) (www_main : bytes).

(** The scan of the control messages. *)
Fixpoint scan_records (types : list Z) (data : bytes) : option req_handler_result :=
  match types with
  | [] => None
  | t :: ts =>
      if (t =? 0x15) && bool_decide (data = [1; 0]) then Some RECV_CLOSE_NOTIFY
      else if (t =? 0x16) || (t =? 0x14) then Some RECV_TLS
      else scan_records ts data
  end.

(** The first cached file with the name. *)
Fixpoint find_file (name : bytes) (l : list file_cache) (i : Z) : option (Z * file_cache) :=
  match l with
  | [] => None
  | e :: l' => if bool_decide (fullname e = name) then Some (i, e) else find_file name l' (i + 1)
  end.

(** The end of [handle_received_pkt], once the header is complete. *)
Definition parse_request (c : conn_state) : conn_state :=
  let text := c_string (req_buf c) in
  let url := http_get_url (req_buf c) in
  let req_fname := www_main ++ url in
  let c := c <| keep_alive := negb (strstr (str "connection: close") text) |> in
  if (NAME_LIMIT <=? length req_fname)%nat then c <| scode := 414 |>
  else match find_file req_fname fcache 0 with
       | Some (idx, e) => c <| scode := 200 |> <| file_idx := idx |> <| file_size := fsize e |>
       | None => c <| scode := 404 |>
       end.

Definition handle_received_pkt (i : nat) : hostM req_handler_result :=
  do c <- get_c i;
  do s <- mget;
  let data := take HTTP_HEADER_LEN (sysdata (sys_idx s)) in
  let types := sysctrl (sys_idx s) in
  do r <- syscall (Recvmsg (sock_fd c));
  if r <? 0 then
    mod_c i (fun c => c <| recv_bytes ::= fun n => n - 1 |>);;;
    ret (if - r =? EAGAIN then RECV_CONTINUE else RECV_ERR)
  else
  let received := Z.of_nat (length data) in
  mod_c i (fun c => c <| recv_bytes ::= fun n => n + received |>);;;
  if received =? 0 then ret RECV_FIN else
  match scan_records types data with
  | Some v => ret v
  | None =>
      let space_left := Z.of_nat HTTP_HEADER_LEN - req_len c - 1 in
      if space_left <? received then mod_c i (fun c => c <| scode := 414 |>);;; ret RECV_OK
      else
      let len := req_len c + received in
      let buf := wr (wr (req_buf c) (Z.to_nat (req_len c)) data) (Z.to_nat len) [0] in
      mod_c i (fun c => c <| req_buf := buf |> <| req_len := len |>);;;
      do hl <- mres (find_http_header buf len);
      if hl <=? 0 then ret RECV_CONTINUE else
      mod_c i parse_request;;;
      ret RECV_OK
  end.

(** ** Sending the response (main.c) *)

(** Errors after which the call is tried again later. *)
Definition again (r : Z) : bool := (- r =? EAGAIN) || (- r =? EINTR).

Definition response_header (c : conn_state) (date : bytes) : res bytes :=
  match scode_2_str (scode c) with
  | None => Fault Undefined_value
  | Some text =>
      Ret (str "HTTP/1.1 " ++ str (pretty (scode c)) ++ [SP] ++ text ++ [CR; LF] ++
           str "Date: " ++ date ++ [CR; LF] ++
           str "Server: Webserver of seongjong" ++ [CR; LF] ++
           str "Content-Length: " ++ str (pretty (file_size c)) ++ [CR; LF] ++
           str "connection: " ++ str (if keep_alive c then "keep-alive" else "close") ++ [CR; LF] ++
           [CR; LF])
  end.

Definition send_https_header (i : nat) : hostM Z :=
  do c <- get_c i;
  if hdr_sent c then ret 1 else
  do s <- mget;
  do ok <- (if hdr_len c =? 0 then
              do h <- mres (response_header c (strftime (sys_idx s)));
              if (HTTP_HEADER_LEN <=? length h)%nat then ret false else
              let n := Z.of_nat (length h) in
              mod_c i (fun c => c <| hdr_buf := wr (hdr_buf c) 0 (h ++ [0]) |> <| hdr_len := n |>
                                  <| hdr_offset := 0 |> <| hdr_remain := n |>);;;
              ret true
            else ret true);
  if negb ok then ret (-1) else
  do c <- get_c i;
  do sent <- syscall (Send (sock_fd c) (rdn (Z.to_nat (hdr_remain c)) (hdr_buf c) (Z.to_nat (hdr_offset c))));
  if sent <? 0 then ret (if again sent then 0 else -1) else
  mod_c i (fun c => c <| hdr_remain := u64 (hdr_remain c - sent) |> <| hdr_offset := hdr_offset c + sent |>);;;
  if u64 (hdr_remain c - sent) =? 0 then mod_c i (fun c => c <| hdr_sent := true |>);;; ret 1 else ret 0.

(** [while (conn->resp_remain > 0)]; a result of 0 leads straight to the next
    turn, so no bound holds for every kernel: [fuel] is the number of turns
    considered. *)
Fixpoint sendfile_loop (fuel : nat) (i : nat) : hostM Z :=
  do c <- get_c i;
  if resp_remain c <=? 0 then ret 1 else
  match fuel with
  | O => mfault Out_of_fuel
  | S f =>
      do sent <- syscall (Sendfile (sock_fd c) (resp_fd c) (resp_offset c) (resp_remain c));
      if 0 <? sent then
        mod_c i (fun c => c <| resp_remain := u64 (resp_remain c - sent) |> <| resp_offset := resp_offset c + sent |>);;;
        sendfile_loop f i
      else if sent <? 0 then ret (if again sent then 0 else -1)
      else sendfile_loop f i
  end.

(** [FILE_SIZE_THRESHOLD] is 0: every file with content goes through
    [sendfile]. *)
Definition send_file_content (fuel : nat) (i : nat) : hostM Z :=
  do c <- get_c i;
  if negb (scode c =? 200) then ret 1 else
  do e <- mres (if 0 <=? file_idx c then
                  match fcache !! Z.to_nat (file_idx c) with Some e => Ret e | None => Fault Out_of_bounds end
                else Fault Out_of_bounds);
  (if resp_remain c =? 0 then
     mod_c i (fun c => c <| resp_offset := 0 |> <| resp_remain := fsize e |>) else ret tt);;;
  do c <- get_c i;
  if resp_remain c <=? 0 then ret 1 else
  do ok <- (if resp_fd c <? 0 then
              mod_c i (fun c => c <| resp_fd := ffd e |>);;; ret (0 <=? ffd e)
            else ret true);
  if negb ok then ret (-1) else sendfile_loop fuel i.

Definition handle_persist_conn_after_resp_sent (i : nat) : hostM Z :=
  do c <- get_c i;
  syscall (Setsockopt (sock_fd c) (TCP_CORK 0));;;
  syscall (Setsockopt (sock_fd c) (TCP_CORK 1));;;
  mod_c i reset_conn_for_next_req;;;
  ret 1.

Definition handle_ephe_conn_after_resp_sent (i : nat) : hostM Z :=
  do c <- get_c i;
  do r <- syscall (Sendmsg_alert (sock_fd c) [1; 0]);
  if r <? 0 then ret (if again r then 0 else -1) else
  syscall (Setsockopt (sock_fd c) (TCP_CORK 0));;;
  ret 1.

Definition send_https_resp (fuel : nat) (i : nat) : hostM Z :=
  do r <- send_https_header i;
  if negb (r =? 1) then ret r else
  do r <- send_file_content fuel i;
  if negb (r =? 1) then ret r else
  do c <- get_c i;
  if resp_remain c <=? 0 then
    mod_c i (fun c => c <| resp_fd := -1 |>);;;
    do r <- (if keep_alive c then handle_persist_conn_after_resp_sent i
             else handle_ephe_conn_after_resp_sent i);
    if negb (r =? 1) then ret r else ret 0
  else ret 0.

(** [send_server_records]. *)
Definition send_server_records (i : nat) : hostM Z :=
  do c <- get_c i;
  do sent <- syscall (Send (sock_fd c) (rdn (Z.to_nat (record_len c)) (sccs_sf_buf c) 0));
  if sent <? 0 then ret (if again sent then 0 else -1) else ret 1.
End http.

(** ** The end of a header *)

(** Reference: the index of the line feed that ends the first blank line. *)
Fixpoint blank_line (text : bytes) : option nat :=
  match text with
  | [] => None
  | b :: l =>
      if (b =? LF) && bool_decide ([LF] `prefix_of` l) then Some 1%nat
      else if (b =? LF) && bool_decide ([CR; LF] `prefix_of` l) then Some 2%nat
      else S <$> blank_line l
  end.

(** Only line feeds count. *)
Lemma blank_line_skip pre l : LF ∉ pre -> blank_line (pre ++ l) = (fun r => length pre + r)%nat <$> blank_line l.
Proof.
  induction pre as [|b pre IH]; simpl; [by destruct (blank_line l)|].
  intros [Hb Hp]%not_elem_of_cons. rewrite (proj2 (Z.eqb_neq b LF)) by done. simpl. rewrite IH by done.
  by destruct (blank_line l).
Qed.
(** [strchr] on a text with its terminator. *)
Lemma strchr_none text rest : 0 ∉ text -> LF ∉ text -> strchr (text ++ 0 :: rest) LF = Ret None.
Proof.
  induction text as [|b text IH]; simpl; [done|].
  intros [H0 Ht]%not_elem_of_cons [HL Hl]%not_elem_of_cons.
  by rewrite (proj2 (Z.eqb_neq b LF)), (proj2 (Z.eqb_neq b 0)), IH by done.
Qed.
Lemma strchr_some pre rest : 0 ∉ pre -> LF ∉ pre -> strchr (pre ++ LF :: rest) LF = Ret (Some (length pre)).
Proof.
  induction pre as [|b pre IH]; simpl; [done|].
  intros [H0 Ht]%not_elem_of_cons [HL Hl]%not_elem_of_cons.
  by rewrite (proj2 (Z.eqb_neq b LF)), (proj2 (Z.eqb_neq b 0)), IH by done.
Qed.
(** The first line feed. *)
Lemma first_lf text : LF ∉ text \/ exists pre l, text = pre ++ LF :: l /\ LF ∉ pre.
Proof.
  destruct (decide (LF ∈ text)) as [Hi|]; [|by left]. right.
  apply list_elem_of_split_l in Hi as (pre & l & -> & Hp). by exists pre, l.
Qed.

Lemma ld_mid pre b l i : i = Z.of_nat (length pre) -> ld (pre ++ b :: l) i = Ret b.
Proof.
  intros ->. unfold ld. rewrite (proj2 (Z.leb_le 0 _)) by lia. rewrite Nat2Z.id.
  rewrite lookup_app_r, Nat.sub_diag by lia. done.
Qed.
Lemma ld_next pre a b l i : i = Z.of_nat (length pre) + 1 -> ld (pre ++ a :: b :: l) i = Ret b.
Proof. intros Hi. rewrite cons_middle, app_assoc. apply ld_mid. rewrite length_app. simpl. lia. Qed.

Lemma blank_line_lf l :
  blank_line (LF :: l) =
  match l with
  | a :: l' =>
      if a =? LF then Some 1%nat
      else if (a =? CR) && match l' with b :: _ => b =? LF | [] => false end then Some 2%nat
      else S <$> blank_line l
  | [] => None
  end.
Proof.
  destruct l as [|a l]; [done|]. cbn [blank_line]. rewrite Z.eqb_refl. cbn [andb].
  assert (bool_decide ([LF] `prefix_of` a :: l) = (a =? LF)) as ->.
  { destruct (Z.eqb_spec a LF) as [->|Hn]; [by apply bool_decide_eq_true_2; exists l|].
    apply bool_decide_eq_false_2. by intros [k [= -> _]]. }
  assert (bool_decide ([CR; LF] `prefix_of` a :: l) =
          (a =? CR) && match l with b :: _ => b =? LF | [] => false end) as ->; [|by destruct (a =? LF)].
  destruct (Z.eqb_spec a CR) as [->|Hn]; [|apply bool_decide_eq_false_2; by intros [k [= -> _]]].
  destruct l as [|b l]; [by apply bool_decide_eq_false_2; intros [k Hk]|]. simpl.
  destruct (Z.eqb_spec b LF) as [->|Hn]; [by apply bool_decide_eq_true_2; exists l|].
  apply bool_decide_eq_false_2. by intros [k [= -> _]].
Qed.

(** The loop, [before] being what it has passed. *)
Lemma header_loop_spec fuel before text rest : 0 ∉ text -> (length text < fuel)%nat ->
  header_loop fuel (before ++ text ++ 0 :: rest) (length before) =
  Ret (match blank_line text with Some r => Z.of_nat (length before + r) | None => 0 end).
Proof.
  revert before text. induction fuel as [|fuel IH]; intros before text H0 Hf; [lia|]. simpl.
  rewrite drop_app_length. destruct (first_lf text) as [Hn|(pre & l & -> & Hp)].
  - rewrite strchr_none by done. simpl.
    replace (blank_line text) with (blank_line (text ++ [])) by (by rewrite app_nil_r).
    by rewrite blank_line_skip by done.
  - apply not_elem_of_app in H0 as [H0p [_ H0l]%not_elem_of_cons]. rewrite length_app in Hf. simpl in Hf.
    rewrite <-app_assoc. simpl. rewrite strchr_some by done. simpl. rewrite blank_line_skip by done.
    replace (before ++ pre ++ LF :: l ++ 0 :: rest) with ((before ++ pre ++ [LF]) ++ l ++ 0 :: rest)
      by (by rewrite <-!app_assoc).
    specialize (IH (before ++ pre ++ [LF]) l H0l). rewrite !length_app in IH. simpl in IH.
    replace (length before + length pre + 1)%nat with (length before + (length pre + 1))%nat by lia.
    rewrite IH by lia. rewrite (blank_line_lf l). clear IH H0l H0p.
    destruct l as [|a l]; simpl app; rewrite ld_mid by (rewrite !length_app; simpl; lia); [done|].
    generalize (blank_line (a :: l)). intros o. simpl res_bind.
    destruct (a =? LF); [simpl; f_equal; lia|].
    destruct (a =? CR); [|simpl; destruct o; simpl; f_equal; lia].
    destruct l as [|b l]; simpl app; rewrite ld_next by (rewrite !length_app; simpl; lia); simpl res_bind.
    { destruct o; simpl; f_equal; lia. }
    destruct (b =? LF); [simpl; f_equal; lia|]. destruct o; simpl; f_equal; lia.
Qed.

(** The buffer as the text before the terminator. *)
Lemma c_string_split data len : (len < length data)%nat ->
  exists rest, <[len := 0]> data = c_string (take len data) ++ 0 :: rest /\ 0 ∉ c_string (take len data).
Proof.
  revert len. induction data as [|b data IH]; intros len Hl; simpl in Hl; [lia|].
  destruct len as [|len]; simpl; [by exists data; split; [|set_solver]|].
  destruct (Z.eqb_spec b 0) as [->|Hb].
  - eexists. split; [reflexivity|]. set_solver.
  - destruct (IH len) as (rest & E & Hn); [lia|]. exists rest. simpl. rewrite E. split; [done|].
    by rewrite not_elem_of_cons.
Qed.

(** C40: on every buffer with room for the terminator, [find_http_header]
    returns, without reading outside the buffer, the index of the line feed
    that ends the first blank line (LF LF or LF CR LF) of the received text,
    and 0 when there is none. *)
Theorem find_http_header_correct data len :
  0 <= len < Z.of_nat (length data) ->
  find_http_header data len =
  Ret (match blank_line (c_string (take (Z.to_nat len) data)) with Some r => Z.of_nat r | None => 0 end).
Proof.
  intros Hl. unfold find_http_header, st. rewrite (proj2 (Z.leb_le _ _)), (proj2 (Z.ltb_lt _ _)) by lia.
  cbn [andb res_bind]. destruct (c_string_split data (Z.to_nat len)) as (rest & -> & Hn); [lia|].
  apply (header_loop_spec _ []); [done|]. rewrite length_app. simpl. lia.
Qed.

Lemma find_http_header_correct_witness :
  find_http_header (str "GET / HTTP/1.1" ++ [CR; LF; CR; LF] ++ zeros 10) 18 = Ret 17.
Proof. rewrite find_http_header_correct; [vm_compute; reflexivity|vm_compute; split; [discriminate|reflexivity]]. Defined.
