(* ===== verification/HostLoop.v ===== *)
(** * The host's event loop (host: main.c)

    A thread waits for epoll events and advances the connection each event
    names, by the state of its socket. This file holds the dispatch, the step
    relation of a thread, and its invariant: the pool, the table and the epoll
    registrations stay consistent and no request buffer overflows, whatever
    the kernel answers. *)

From Stdlib Require Import String.
From S2P Require Import Prelude FlowTable MetaOut KeySchedule HostFilter HostConn HostHttp.

Section loop.
Context `{Sys} (fcache : list file_cache) (www_main : bytes) (tls13 : bool) (fuel : nat).

Definition set_state (i : nat) (st : sock_state_t) : hostM unit :=
  mod_c i (fun c => c <| sock_state := st |>).
Definition in_state (c : conn_state) (l : list sock_state_t) : bool := bool_decide (sock_state c ∈ l).

(** What becomes of a received packet. *)
Definition after_received (i : nat) (r : req_handler_result) : hostM unit :=
  match r with
  | RECV_OK => epoll i (EPOLL_MOD true true);;; set_state i HTTP_REQ_RECVED
  | RECV_CLOSE_NOTIFY => epoll i (EPOLL_MOD true true);;; set_state i WAIT_TCP_FIN
  | RECV_TLS => epoll i (EPOLL_MOD false true);;; set_state i TLS_HS_RECVED
  | RECV_FIN | RECV_ERR => epoll i (EPOLL_MOD false true);;; set_state i ERRORED
  | RECV_CONTINUE => ret tt
  end.

(** The chain of tests of [worker_thread] for an event on a migrated socket. *)
Definition handle_event (i : nat) (ev_in ev_out : bool) : hostM unit :=
  do c <- get_c i;
  if ev_out && in_state c [INIT] then
    do r <- mig_tls_conn i;
    if r <? 0 then ret tt else set_state i CONNECTED
  else if ev_out && in_state c [CONNECTED] then
    do r <- send_mig_fin_to_arm i;
    if r <? 0 then ret tt else
    epoll i (EPOLL_MOD true false);;;
    set_state i READY_TO_RECV
  else if ev_in && in_state c [READY_TO_RECV] then
    do r <- handle_received_pkt fcache www_main i;
    after_received i r
  else if ev_out && in_state c [HTTP_REQ_RECVED] then
    do r <- send_https_resp fcache fuel i;
    if r <? 0 then set_state i ERRORED else
    do c <- get_c i;
    if resp_remain c <=? 0 then
      epoll i (EPOLL_MOD true false);;;
      set_state i READY_TO_RECV
    else ret tt
  else if ev_out && in_state c [TLS_HS_RECVED] then
    send_server_records i;;;
    epoll i (EPOLL_MOD true false);;;
    set_state i READY_TO_RECV
  else if ev_in && in_state c [HTTP_RESP_SENT; WAIT_TCP_FIN] then close_tcp_conn i
  else if ev_out && in_state c [HTTP_RESP_SENT; ERRORED] then close_tcp_conn i
  else ret tt.

(** The state in which [worker_thread] enters its loop. *)
Definition host_start (n : nat) : host :=
  let (cs, pool) := conn_pool_init n ∅ [] in
  mk_host cs pool (create_ht NUM_BINS) (zeros RECV_META_BUF_SIZE) ∅ 0 [].

(** One event: a frame, of the 60 bytes an Ethernet frame has at least, that
    the filter of thread [core] lets through, or an event a connection is
    registered for. *)
Inductive host_step (core : nat) : host -> host -> Prop :=
| step_meta r s s' :
    bytes_ok (sysdata (sys_idx s)) -> (60 <= length (sysdata (sys_idx s)))%nat -> delivered core (sysdata (sys_idx s)) = true ->
    handle_meta_packet tls13 s = Ret (r, s') ->
    host_step core s s'
| step_event i (reg_in reg_out ev_in ev_out : bool) s s' :
    interest s !! i = Some (reg_in, reg_out) -> (ev_in = true -> reg_in = true) ->
    (ev_out = true -> reg_out = true) ->
    handle_event i ev_in ev_out s = Ret (tt, s') -> host_step core s s'.
End loop.

(** ** The invariant *)

(** The request buffer has its C size and room for the terminator. *)
Definition request_ok (c : conn_state) : Prop :=
  0 <= req_len c < Z.of_nat HTTP_HEADER_LEN /\ length (req_buf c) = HTTP_HEADER_LEN.

(** [hwf m o s]: the table represents the map [m] from clients to connections;
    [o] is a connection that is neither free nor live. *)
Record hwf (m : gmap client nat) (o : option nat) (s : host) : Prop := mk_hwf {
  hw_table : table_rep (client_of (h_conns s)) (ht_conn s) m;
  hw_nodup : NoDup (h_pool s);
  hw_pool : forall i, i ∈ h_pool s -> is_Some (h_conns s !! i);
  hw_live : forall k i, m !! k = Some i -> i ∉ h_pool s;
  hw_transit : forall i, o = Some i ->
    is_Some (h_conns s !! i) /\ (i ∉ h_pool s) /\ forall k, m !! k <> Some i;
  hw_cover : forall i, is_Some (h_conns s !! i) -> i ∈ h_pool s \/ (exists k, m !! k = Some i) \/ o = Some i;
  hw_size : Z.of_nat (base.size (h_conns s)) <= MAX_CONN;
  hw_interest : forall i, is_Some (interest s !! i) -> (exists k, m !! k = Some i) \/ o = Some i;
  hw_request : forall i c, h_conns s !! i = Some c -> request_ok c;
}.
Definition hok (s : host) : Prop := exists m, hwf m None s.

(** *** Accesses *)

Lemma get_c_run i s c : h_conns s !! i = Some c -> get_c i s = Ret (c, s).
Proof. intros E. unfold get_c. by rewrite E. Qed.
Lemma mod_c_run i f s c : h_conns s !! i = Some c ->
  mod_c i f s = Ret (tt, s <| h_conns ::= insert i (f c) |>).
Proof. intros E. unfold mod_c, bind, get_c. by rewrite E. Qed.
Lemma get_c_inv i s c s' : get_c i s = Ret (c, s') -> h_conns s !! i = Some c /\ s' = s.
Proof. unfold get_c. case_match; [|done]. by intros [= <- <-]. Qed.
Lemma mod_c_inv i f s u s' : mod_c i f s = Ret (u, s') ->
  exists c, h_conns s !! i = Some c /\ s' = s <| h_conns ::= insert i (f c) |>.
Proof.
  unfold mod_c. intros (c & s1 & [E ->]%get_c_inv & [= _ <-])%bind_inv. by exists c.
Qed.

Section inv.
Context `{Sys}.

(** States that agree on the tables. *)
Lemma hwf_ext m o s s' :
  h_conns s' = h_conns s -> h_pool s' = h_pool s -> ht_conn s' = ht_conn s -> interest s' = interest s ->
  hwf m o s -> hwf m o s'.
Proof. intros E1 E2 E3 E4 []. split; rewrite ?E1, ?E2, ?E3, ?E4; done. Qed.

Lemma hok_ext s s' :
  hok s -> h_conns s' = h_conns s -> h_pool s' = h_pool s -> ht_conn s' = ht_conn s ->
  interest s' = interest s -> hok s'.
Proof. intros [m Hw] ? ? ? ?. exists m. by eapply hwf_ext. Qed.

(** Changing one connection: its key may change only in transit. *)
Lemma hwf_put m o s i c c' :
  hwf m o s -> h_conns s !! i = Some c -> (o = Some i \/ mi_client (mi c') = mi_client (mi c)) ->
  (request_ok c -> request_ok c') -> hwf m o (s <| h_conns ::= insert i c' |>).
Proof.
  intros [] Hc Hk Hr. split; simpl; try done.
  - eapply table_rep_ext; [|done]. intros k x Hm. unfold client_of.
    destruct (decide (x = i)) as [->|]; [|by rewrite lookup_insert_ne].
    rewrite lookup_insert_eq, Hc. simpl. f_equal. destruct Hk as [->|Hk]; [|done].
    destruct (hw_transit0 i eq_refl) as (_ & _ & Hn). by destruct (Hn k).
  - intros x Hx. apply lookup_insert_is_Some'. auto.
  - intros x Hx. destruct (hw_transit0 x Hx) as (? & ? & ?). split; [|done].
    apply lookup_insert_is_Some'. auto.
  - intros x [->|Hx]%lookup_insert_is_Some'; apply hw_cover0; [by eexists|done].
  - rewrite map_size_insert_Some by (by eexists). done.
  - intros x d [[<- <-]|[Hne Hd]]%lookup_insert_Some; eauto.
Qed.

Lemma h_syscall m o c : preserves (hwf m o) (syscall c).
Proof. intros s ? ? Hw [= <- <-]. by eapply hwf_ext; [..|done]. Qed.
Lemma h_get m o i : preserves (hwf m o) (get_c i).
Proof. by intros s c s' Hw [_ ->]%get_c_inv. Qed.
Lemma h_mod m o i f :
  (forall c, mi_client (mi (f c)) = mi_client (mi c)) -> (forall c, request_ok c -> request_ok (f c)) ->
  preserves (hwf m o) (mod_c i f).
Proof.
  intros Hf Hr s u s' Hw (c & Hc & ->)%mod_c_inv. eapply hwf_put; [done|done|by right|apply Hr].
Qed.
Lemma h_mod_transit m i f : (forall c, request_ok c -> request_ok (f c)) ->
  preserves (hwf m (Some i)) (mod_c i f).
Proof. intros Hr s u s' Hw (c & Hc & ->)%mod_c_inv. eapply hwf_put; [done|done|by left|apply Hr]. Qed.
Lemma h_mod_same m o i f :
  (forall c, mi_client (mi (f c)) = mi_client (mi c) /\ req_len (f c) = req_len c /\ req_buf (f c) = req_buf c) ->
  preserves (hwf m o) (mod_c i f).
Proof.
  intros Hf. apply h_mod; intros c; destruct (Hf c) as (? & El & Eb); [done|].
  unfold request_ok. by rewrite El, Eb.
Qed.
Lemma h_epoll m o i op :
  (exists k, m !! k = Some i) \/ o = Some i -> preserves (hwf m o) (epoll i op).
Proof.
  intros Hi. unfold epoll. apply pres_bind; [apply h_get|]. intros c. apply pres_bind; [apply h_syscall|].
  intros r. apply pres_if; [done|]. apply pres_mod. intros s [].
  split; simpl; try done. intros x Hx. destruct (decide (x = i)) as [->|Hne]; [done|].
  apply hw_interest0. destruct op; simpl in Hx; by rewrite ?lookup_insert_ne, ?lookup_delete_ne in Hx by done.
Qed.
Lemma h_close m o i : preserves (hwf m o) (close_sock i).
Proof.
  unfold close_sock. apply pres_bind; [apply h_get|]. intros c. apply pres_bind; [apply h_syscall|].
  intros r. apply pres_mod. intros s []. split; simpl; try done.
  intros x [_ Hx]%lookup_delete_is_Some. by apply hw_interest0.
Qed.
#[local] Hint Resolve h_syscall h_get h_close : pres.

(** *** The pool and the table *)

Lemma h_alloc m s o s' : hwf m None s -> conn_state_alloc s = Ret (o, s') ->
  match o with
  | Some i => hwf m (Some i) s'
  | None => s' = s
  end.
Proof.
  intros Hw E. unfold conn_state_alloc, bind, mget in E. destruct (h_pool s) as [|i rest] eqn:Hp.
  { by injection E as <- <-. }
  unfold mmod in E. destruct (mod_c i _ _) as [[u s1]|] eqn:E1; [|done]. injection E as <- <-.
  apply mod_c_inv in E1 as (c & Hc & ->). simpl in Hc. destruct Hw.
  rewrite Hp in *. apply NoDup_cons in hw_nodup0 as [Hni Hnd].
  assert (hwf m (Some i) (s <| h_pool := rest |>)) as Hw.
  { split; simpl; try done.
    - intros x Hx. apply hw_pool0. by right.
    - intros k x Hm Hx. apply (hw_live0 k x Hm). by right.
    - intros x [= <-]. split; [by eexists|]. split; [done|]. intros k Hm. apply (hw_live0 k i Hm). by left.
    - intros x Hx. destruct (hw_cover0 x Hx) as [[->|?]%elem_of_cons|[?|?]]; [by right; right|by left|auto|done].
    - intros x Hx. destruct (hw_interest0 x Hx); [by left|done]. }
  eapply hwf_put; [exact Hw|exact Hc|by left|]. done.
Qed.

Lemma h_free m i s u s' : hwf m (Some i) s -> interest s !! i = None ->
  conn_state_free i s = Ret (u, s') -> hwf m None s'.
Proof.
  intros Hw Hi E. unfold conn_state_free in E. apply bind_inv in E as (c & s1 & [Hc ->]%get_c_inv & E).
  apply bind_inv in E as (v & s2 & E2 & E).
  assert (hwf m (Some i) s2 /\ interest s2 = interest s) as [Hw2 Hi2].
  { destruct (0 <=? resp_fd c); [|by injection E2 as _ <-].
    unfold bind, syscall in E2. apply mod_c_inv in E2 as (c' & Hc' & ->). split; [|done].
    eapply hwf_put; [|exact Hc'|by right|done]. by eapply hwf_ext; [..|exact Hw]. }
  unfold bind, mget in E. case_match; [done|]. injection E as <- <-. destruct Hw2.
  destruct (hw_transit0 i eq_refl) as (His & Hni & Hnm). split; simpl; try done.
  - by apply NoDup_cons.
  - intros x [->|Hx]%elem_of_cons; [done|]. by apply hw_pool0.
  - intros k x Hm [->|Hx]%elem_of_cons; [by apply (Hnm k)|]. by apply (hw_live0 k x).
  - intros x Hx. destruct (hw_cover0 x Hx) as [?|[?|[= <-]]]; [left; by right|by right; left|left; by left].
  - intros x Hx. destruct (hw_interest0 x Hx) as [?|[= <-]]; [by left|]. rewrite Hi2, Hi in Hx. by destruct Hx.
Qed.

Lemma h_find m o s k : hwf m o s -> find_conn k s = Ret (m !! k, s).
Proof.
  intros []. unfold find_conn, bind, mget, mres. by rewrite (ht_search_spec _ _ _ m).
Qed.

Lemma live_client m o s k i c : hwf m o s -> m !! k = Some i -> h_conns s !! i = Some c -> mi_client (mi c) = k.
Proof.
  intros Hw Hk Hc. destruct (rep_complete _ _ _ (hw_table _ _ _ Hw) k i Hk) as [Hki _].
  unfold client_of in Hki. rewrite Hc in Hki. by injection Hki.
Qed.

Lemma h_insert m i s c : hwf m (Some i) s -> h_conns s !! i = Some c -> m !! mi_client (mi c) = None ->
  exists t, table_insert i s = Ret (tt, s <| ht_conn := t |>) /\
    hwf (<[mi_client (mi c) := i]> m) None (s <| ht_conn := t |>).
Proof.
  intros Hw Hc Hn. destruct (hw_transit _ _ _ Hw i eq_refl) as (_ & Hni & Hnm).
  destruct (ht_insert_spec (client_of (h_conns s)) (ht_conn s) m i (mi_client (mi c))) as (t & Et & Ht);
    [apply Hw|unfold client_of; by rewrite Hc|done|].
  exists t. split; [unfold table_insert, bind, mget, mres; by rewrite Et|].
  destruct Hw. split; simpl; try done.
  - intros k x [[<- <-]|[_ Hm]]%lookup_insert_Some; [done|eauto].
  - intros x Hx. destruct (hw_cover0 x Hx) as [?|[[k Hk]|[= <-]]]; [by left| |].
    + right; left. exists k. rewrite lookup_insert_ne; [done|]. intros <-. by rewrite Hn in Hk.
    + right; left. exists (mi_client (mi c)). apply lookup_insert_eq.
  - intros x Hx. left. destruct (hw_interest0 x Hx) as [[k Hk]|[= <-]].
    + exists k. rewrite lookup_insert_ne; [done|]. intros <-. by rewrite Hn in Hk.
    + exists (mi_client (mi c)). apply lookup_insert_eq.
Qed.

Lemma h_remove m i k s u s' : hwf m None s -> m !! k = Some i -> table_remove i s = Ret (u, s') ->
  hwf (delete k m) (Some i) s' /\ interest s' = interest s.
Proof.
  intros Hw Hk E. unfold table_remove, bind, mget, mres in E. pose proof (hw_table _ _ _ Hw) as Hr.
  destruct (rep_complete _ _ _ Hr k i Hk) as (Hki & _).
  destruct (ht_remove_spec (client_of (h_conns s)) (ht_conn s) m i k Hr Hki Hk) as (t & Et & Ht).
  rewrite Et in E. injection E as <- <-. split; [|done]. destruct Hw. split; simpl; try done.
  - intros k' x [_ Hm]%lookup_delete_Some. eauto.
  - intros x [= <-]. unfold client_of in Hki. destruct (h_conns s !! i) eqn:Hi; [|done].
    split; [by eexists|]. split; [by apply (hw_live0 k)|]. intros k' [Hne Hm]%lookup_delete_Some.
    by apply Hne, (rep_inj _ _ m k k' i Hr).
  - intros x Hx. destruct (hw_cover0 x Hx) as [?|[[k' Hm]|?]]; [by left| |done].
    destruct (decide (k' = k)) as [->|]; [right; right; congruence|].
    right; left. exists k'. by rewrite lookup_delete_ne.
  - intros x Hx. destruct (hw_interest0 x Hx) as [[k' Hm]|?]; [|done].
    destruct (decide (k' = k)) as [->|]; [right; congruence|].
    left. exists k'. by rewrite lookup_delete_ne.
Qed.

(** *** The handlers *)

Lemma h_try m o c k : preserves (hwf m o) k -> preserves (hwf m o) (try c k).
Proof. intros Hk. unfold try. pres. Qed.
Lemma h_set_mig m o x : preserves (hwf m o) (set_mig_sock x).
Proof. unfold set_mig_sock. pres; repeat apply h_try; pres. Qed.
Lemma h_nonblock m o fd : preserves (hwf m o) (set_nonblock fd).
Proof. unfold set_nonblock. pres. Qed.
Lemma h_mig_tcp m o i : (exists k, m !! k = Some i) \/ o = Some i -> preserves (hwf m o) (mig_tcp_conn i).
Proof.
  intros Hi. unfold mig_tcp_conn. apply pres_bind; [apply h_get|]. intros c.
  apply pres_bind; [by apply h_epoll|]. intros _. repeat apply h_try. pres.
Qed.
Lemma h_mig_tls m o i : preserves (hwf m o) (mig_tls_conn i).
Proof. unfold mig_tls_conn. pres. apply h_try. pres. Qed.
Lemma h_mig_fin m o i : preserves (hwf m o) (send_mig_fin_to_arm i).
Proof. unfold send_mig_fin_to_arm. pres. Qed.
Lemma h_send_close m o x : preserves (hwf m o) (send_close_to_arm x).
Proof. unfold send_close_to_arm. pres. Qed.
#[local] Hint Resolve h_set_mig h_nonblock h_mig_tls h_mig_fin h_send_close : pres.

Lemma closed_interest i s u s' : close_sock i s = Ret (u, s') -> interest s' !! i = None.
Proof.
  unfold close_sock. intros (c & s1 & [_ ->]%get_c_inv & E)%bind_inv.
  unfold bind, syscall, mmod in E. injection E as _ <-. apply lookup_delete_eq.
Qed.

(** Taking a live connection down. *)
Lemma h_take_down m i k s u s' : hwf m None s -> m !! k = Some i ->
  (table_remove i;;; close_sock i;;; conn_state_free i) s = Ret (u, s') -> hok s'.
Proof.
  intros Hw Hk E. apply bind_inv in E as (v & s1 & E1 & E).
  destruct (h_remove _ _ _ _ _ _ Hw Hk E1) as [Hw1 _]. apply bind_inv in E as (v' & s2 & E2 & E).
  exists (delete k m). eapply h_free; [by eapply h_close|by eapply closed_interest|done].
Qed.

Lemma h_close_conn m i k s u s' : hwf m None s -> m !! k = Some i -> close_tcp_conn i s = Ret (u, s') -> hok s'.
Proof.
  intros Hw Hk E. unfold close_tcp_conn in E. apply bind_inv in E as (c & s1 & [Hc ->]%get_c_inv & E).
  apply bind_inv in E as (v1 & s1 & E1 & E). eapply h_send_close in E1 as Hw1; [|done].
  apply bind_inv in E as (v2 & s2 & E2 & E). eapply h_epoll in E2 as Hw2; [|by left; exists k|done].
  apply bind_inv in E as (v3 & s3 & E3 & E). eapply h_close in E3 as Hw3; [|done].
  apply closed_interest in E3 as Hi3.
  rewrite (live_client _ _ _ _ _ _ Hw Hk Hc) in E. erewrite bind_ret in E by (by apply (h_find _ _ _ _ Hw3)). rewrite Hk in E.
  apply bind_inv in E as (v4 & s4 & E4 & E). destruct (h_remove _ _ _ _ _ _ Hw3 Hk E4) as [Hw4 Hi4].
  exists (delete k m). eapply h_free; [done|by rewrite Hi4|done].
Qed.

Lemma h_migrate tls13 m buf len s r s' :
  hwf m None s -> m !! mk_client (ntohl (rd32 buf 26)) (ntohs (rd16 buf 34)) = None ->
  migrate tls13 buf len s = Ret (r, s') -> hok s'.
Proof.
  intros Hw Hk E. unfold migrate in E. apply bind_inv in E as (o & s1 & E1 & E).
  pose proof (h_alloc _ _ _ _ Hw E1) as Hw1. destruct o as [i|]; [|done].
  unfold bind at 1, mderef, ret at 1 in E. apply bind_inv in E as ([] & s2 & E2 & E).
  apply mod_c_inv in E2 as (c0 & Hc0 & ->).
  eapply (hwf_put _ _ _ _ _ (handle_meta_data tls13 buf c0)) in Hw1 as Hw2; [|done|by left|done].
  set (c1 := handle_meta_data tls13 buf c0) in *.
  erewrite bind_ret in E by (apply get_c_run; simpl; apply lookup_insert_eq).
  unfold bind at 1, mres in E. destruct (handle_sccs_sf_records buf c1) as [c|] eqn:Ec; [|done].
  unfold handle_sccs_sf_records in Ec. case_match; [done|]. injection Ec as <-.
  erewrite bind_ret in E by (apply mod_c_run; simpl; apply lookup_insert_eq).
  set (c2 := c1 <| record_len := _ |> <| sccs_sf_buf := _ |> <| sccs_sf_buf := _ |>) in E.
  eapply (hwf_put _ _ _ i _ c2) in Hw2 as Hw3; [|simpl; apply lookup_insert_eq|by left|done].
  destruct (h_insert _ _ _ c2 Hw3) as (t & Et & Hw4); [apply lookup_insert_eq|exact Hk|].
  erewrite bind_ret in E by exact Et. clear Et. change (mi_client (mi c2)) with (mi_client (mi c1)) in Hw4.
  set (k := mi_client (mi c1)) in Hw4.
  assert ((<[k:=i]> m) !! k = Some i) as Hki by apply lookup_insert_eq.
  apply bind_inv in E as (fd & s5 & E5 & E). eapply h_set_mig in E5 as Hw5; [|done].
  apply bind_inv in E as ([] & s6 & E6 & E). eapply h_mod_same in E6 as Hw6; [|done|done].
  apply bind_inv in E as (nb & s7 & E7 & E). eapply h_nonblock in E7 as Hw7; [|done].
  destruct (nb <? 0).
  { apply bind_inv in E as (v & s8 & E8 & [= _ <-]). exists (<[k:=i]> m). by eapply h_close. }
  apply bind_inv in E as (mig & s8 & E8 & E). eapply h_mig_tcp in E8 as Hw8; [|by left; exists k|done].
  destruct (mig <? 0).
  - rewrite <-!bind_assoc in E. apply bind_inv in E as (v & s9 & E9 & [= _ <-]).
    eapply h_take_down; [exact Hw8|exact Hki|]. rewrite <-E9. by rewrite !bind_assoc.
  - apply bind_inv in E as (v & s9 & E9 & [= _ <-]). exists (<[k:=i]> m). eapply h_mod_same; [|exact Hw8|exact E9]. done.
Qed.

(** *** The HTTP service *)

(** What a handler reads of a connection satisfies [request_ok]. *)
Lemma pres_get_c {A} m o i (k : conn_state -> hostM A) :
  (forall c, request_ok c -> preserves (hwf m o) (k c)) -> preserves (hwf m o) (bind (get_c i) k).
Proof.
  intros Hk s a s' Hw (c & s1 & [Hc ->]%get_c_inv & E)%bind_inv.
  eapply (Hk c); [by eapply hw_request|done..].
Qed.

Lemma received_ok c data :
  request_ok c -> Z.of_nat (length data) <= Z.of_nat HTTP_HEADER_LEN - req_len c - 1 ->
  let len := req_len c + Z.of_nat (length data) in
  0 <= len < Z.of_nat HTTP_HEADER_LEN /\
  length (wr (wr (req_buf c) (Z.to_nat (req_len c)) data) (Z.to_nat len) [0]) = HTTP_HEADER_LEN.
Proof.
  intros [Hl Hb] Hd len. split; [lia|].
  rewrite !length_wr; rewrite ?length_wr; simpl length; lia.
Qed.

Lemma h_received m o fcache www_main i : preserves (hwf m o) (handle_received_pkt fcache www_main i).
Proof.
  unfold handle_received_pkt. apply pres_get_c. intros c Hr. apply pres_bind; [auto with pres|]. intros s0.
  cbv zeta. apply pres_bind; [auto with pres|]. intros r.
  set (data := take HTTP_HEADER_LEN (sysdata (sys_idx s0))). apply pres_if.
  { apply pres_bind; [|auto with pres]. by apply h_mod_same. }
  apply pres_bind; [by apply h_mod_same|]. intros _. apply pres_if; [auto with pres|].
  case_match; [auto with pres|]. case_match eqn:El.
  - apply pres_bind; [|auto with pres]. by apply h_mod_same.
  - destruct (received_ok c data) as [Hl Hb]; [done|lia|].
    apply pres_bind; [apply h_mod; done|]. intros _. apply pres_bind; [auto with pres|]. intros hl.
    apply pres_if; [auto with pres|]. apply pres_bind; [|auto with pres]. apply h_mod_same.
    intros d. unfold parse_request. by repeat case_match.
Qed.

Lemma h_reset m o i : preserves (hwf m o) (mod_c i reset_conn_for_next_req).
Proof. by apply h_mod. Qed.
#[local] Hint Resolve h_received h_reset : pres.
#[local] Hint Extern 1 (preserves _ (mod_c _ _)) => (by apply h_mod_same) : pres.

Lemma h_header m o i : preserves (hwf m o) (send_https_header i).
Proof. unfold send_https_header. pres. Qed.
Lemma h_sendfile m o fuel i : preserves (hwf m o) (sendfile_loop fuel i).
Proof. induction fuel; simpl; pres. Qed.
#[local] Hint Resolve h_header h_sendfile : pres.
Lemma h_content m o fcache fuel i : preserves (hwf m o) (send_file_content fcache fuel i).
Proof. unfold send_file_content. pres. Qed.
#[local] Hint Resolve h_content : pres.
Lemma h_response m o fcache fuel i : preserves (hwf m o) (send_https_resp fcache fuel i).
Proof. unfold send_https_resp, handle_persist_conn_after_resp_sent, handle_ephe_conn_after_resp_sent. pres. Qed.
Lemma h_server_records m o i : preserves (hwf m o) (send_server_records i).
Proof. unfold send_server_records. pres. Qed.
#[local] Hint Resolve h_response h_server_records : pres.

Lemma h_set_state m o i x : preserves (hwf m o) (set_state i x).
Proof. by apply h_mod_same. Qed.
#[local] Hint Resolve h_set_state : pres.

Lemma h_event fcache www_main fuel m i k ev_in ev_out s s' :
  hwf m None s -> m !! k = Some i ->
  handle_event fcache www_main fuel i ev_in ev_out s = Ret (tt, s') -> hok s'.
Proof.
  intros Hw Hk E. unfold handle_event in E. apply bind_inv in E as (c & s1 & [Hc ->]%get_c_inv & E).
  assert (forall op, preserves (hwf m None) (epoll i op)) as He by (intros; apply h_epoll; by left; exists k).
  assert (forall n : hostM unit, preserves (hwf m None) n -> n s = Ret (tt, s') -> hok s') as Hn
    by (intros n Hn En; exists m; by eapply Hn).
  repeat (case_match; [first [by eapply h_close_conn | apply Hn in E; [done|]; unfold after_received; pres]|]).
  apply Hn in E; [done|]. pres.
Qed.

(** *** Meta frames *)

(** What the filter lets through is no RST meta frame. *)
Lemma delivered_type core data b :
  bytes_ok data -> (60 <= length data)%nat -> delivered core data = true ->
  validate_meta_type (wr b 0 (take RECV_META_BUF_SIZE data)) <> META_TYPE_RST_CONN.
Proof.
  intros Hok Hl Hd. assert (exists t, key_eth_types !! core = Some t) as [t Ht].
  { unfold delivered, bpf_filter_for_meta in Hd. destruct (_ !! core); [by eexists|done]. }
  rewrite (filter_spec core t data Ht) in Hd by lia.
  assert (12 + 2 <= length (take RECV_META_BUF_SIZE data))%nat as Hlt
    by (rewrite length_take; unfold RECV_META_BUF_SIZE; lia).
  unfold validate_meta_type, rd16. rewrite rdn_wr_in by lia. rewrite rdn_take by (unfold RECV_META_BUF_SIZE; lia).
  change (12 - 0)%nat with 12%nat. unfold bswap16.
  replace (le_bytes 2 _) with (rdn 2 data 12) by (symmetry; apply (le_bytes_le_val (rdn 2 data 12)); by apply rdn_ok).
  change (be_val _) with (frame_type data). apply orb_true_iff in Hd as [Ef%Z.eqb_eq|Hs].
  - rewrite Ef. apply list_elem_of_lookup_2 in Ht. by rewrite bool_decide_eq_true_2.
  - unfold second_way in Hs. rewrite !andb_true_iff, Z.eqb_eq in Hs. destruct Hs as [[[Ef _] _] _]. by rewrite Ef.
Qed.

Lemma h_key tls13 buf len s r s' : hok s -> handle_key_packet tls13 buf len s = Ret (r, s') -> hok s'.
Proof.
  intros [m Hw] E. unfold handle_key_packet in E. erewrite bind_ret in E by (by eapply h_find).
  destruct (m !! _) as [i|] eqn:Hk; [|by eapply h_migrate].
  apply bind_inv in E as (v & s1 & E1 & [= _ <-]). exists m. by eapply h_mig_fin.
Qed.

Lemma h_meta core tls13 s r s' :
  hok s -> bytes_ok (sysdata (sys_idx s)) -> (60 <= length (sysdata (sys_idx s)))%nat ->
  delivered core (sysdata (sys_idx s)) = true -> handle_meta_packet tls13 s = Ret (r, s') -> hok s'.
Proof.
  intros Hs Hok Hl Hd E. unfold handle_meta_packet in E. rewrite (bind_ret mget _ s s s) in E by done.
  erewrite (bind_ret (syscall _)) in E by done. case_match.
  { injection E as _ <-. by apply (hok_ext s). }
  erewrite (bind_ret (mmod _)) in E by done. erewrite (bind_ret mget) in E by done.
  set (s1 := s <| sys_idx ::= _ |> <| trace ::= _ |> <| meta_buf ::= _ |>) in E.
  assert (hok s1) as Hs1 by (by apply (hok_ext s)).
  pose proof (delivered_type core _ (meta_buf s) Hok Hl Hd) as Hty.
  change (wr (meta_buf s) 0 _) with (meta_buf s1) in Hty. revert E. generalize (Z.of_nat (length (take RECV_META_BUF_SIZE (sysdata (sys_idx s))))).
  clearbody s1. intros n E.
  destruct (validate_meta_type (meta_buf s1)); [by injection E as _ <-|by eapply h_key|done|].
  unfold handle_unterminated_conn in E. apply bind_inv in E as (v & s2 & E2 & [= _ <-]).
  destruct Hs1 as [m Hw]. exists m. by eapply h_send_close.
Qed.
End inv.

(** *** The start *)

Lemma pool_init_spec n cs pool :
  (forall i, i ∈ pool <-> (i < length pool)%nat) -> NoDup pool ->
  (forall i, is_Some (cs !! i) <-> i ∈ pool) -> (forall i c, cs !! i = Some c -> c = conn_state0) ->
  base.size cs = length pool ->
  let (cs', pool') := conn_pool_init n cs pool in
  NoDup pool' /\ (forall i, is_Some (cs' !! i) <-> i ∈ pool') /\
  (forall i c, cs' !! i = Some c -> c = conn_state0) /\ base.size cs' = (length pool + n)%nat.
Proof.
  revert cs pool. induction n as [|n IH]; intros cs pool Hp Hnd Hd Hc Hs; simpl.
  { split; [done|]. split; [done|]. split; [done|lia]. }
  assert (length pool ∉ pool) as Hni by (rewrite Hp; lia).
  specialize (IH (<[length pool := conn_state0]> cs) (length pool :: pool)).
  destruct (conn_pool_init _ _ _) as [cs' pool']. simpl in IH. rewrite Nat.add_succ_r. apply IH.
  - intros i. rewrite elem_of_cons, Hp. lia.
  - by apply NoDup_cons.
  - intros i. rewrite lookup_insert_is_Some', elem_of_cons, Hd. split; intros [?|?]; auto.
  - intros i c [[_ <-]|[_ ?]]%lookup_insert_Some; eauto.
  - rewrite map_size_insert_None, Hs; [done|]. apply eq_None_not_Some. by rewrite Hd.
Qed.

Lemma start_ok n : Z.of_nat n <= MAX_CONN -> hok (host_start n).
Proof.
  intros Hn. unfold host_start. pose proof (pool_init_spec n ∅ []) as Hi.
  destruct (conn_pool_init n ∅ []) as [cs pool]. destruct Hi as (Hnd & Hd & Hc & Hs).
  - intros i. by rewrite elem_of_nil; simpl; split; [|lia].
  - constructor.
  - intros i. rewrite lookup_empty, elem_of_nil. split; [by intros []|done].
  - intros i c. by rewrite lookup_empty.
  - by rewrite map_size_empty.
  - exists ∅. split; simpl; try done.
    + apply create_ht_rep.
    + intros i. apply Hd.
    + intros i Hi. left. by apply Hd.
    + rewrite Hs. simpl. lia.
    + intros i. rewrite lookup_empty. by intros [].
    + intros i c ->%Hc. split; [done|]. apply length_replicate.
Qed.

Section reachable.
Context `{Sys} (fcache : list file_cache) (www_main : bytes) (tls13 : bool) (fuel : nat) (core : nat).

Lemma host_step_ok s s' : hok s -> host_step fcache www_main tls13 fuel core s s' -> hok s'.
Proof.
  intros Hs Hst. destruct Hst as [r s s' Hok Hl Hd E|i ri ro ei eo s s' Hi _ _ E]; [by apply (h_meta core tls13 s r)|].
  destruct Hs as [m Hw]. destruct (hw_interest _ _ _ Hw i) as [[k Hk]|?]; [by eexists| |done].
  by eapply h_event.
Qed.

Lemma host_perm m s : hwf m None s -> elements (dom (h_conns s)) ≡ₚ h_pool s ++ (map_to_list m).*2.
Proof.
  intros []. eapply partition_perm; [exact hw_table0|done| | |].
  - intros i Hi. apply elem_of_dom. by apply hw_pool0.
  - intros k i Hk. split; [|by eapply hw_live0]. apply elem_of_dom.
    destruct (rep_complete _ _ _ hw_table0 k i Hk) as [Hki _]. unfold client_of in Hki.
    by destruct (h_conns s !! i).
  - intros i [?|[?|?]]%elem_of_dom%hw_cover0; [by left|by right|done].
Qed.

(** C6: in every state that a thread of the host reaches from its start, with
    any frames on its raw socket and whatever the kernel answers to its calls,
    the table represents a map from clients to connections, every connection
    is either in the pool or bound to exactly one client, epoll reports events
    only for bound connections, and the request buffer of every connection
    keeps room for the terminator. *)
Theorem host_reachable_consistent n s :
  Z.of_nat n <= MAX_CONN -> rtc (host_step fcache www_main tls13 fuel core) (host_start n) s ->
  exists m : gmap client nat,
    (forall k, find_conn k s = Ret (m !! k, s)) /\
    elements (dom (h_conns s)) ≡ₚ h_pool s ++ (map_to_list m).*2 /\
    (forall i, is_Some (interest s !! i) -> exists k, m !! k = Some i) /\
    forall i c, h_conns s !! i = Some c ->
      0 <= req_len c < Z.of_nat HTTP_HEADER_LEN /\ length (req_buf c) = HTTP_HEADER_LEN.
Proof.
  intros Hn Hr. assert (hok s) as [m Hw].
  { assert (hok (host_start n)) as H0 by (by apply start_ok).
    induction Hr as [|s0 s1 s2 Hs Hr IH]; [done|]. apply IH. by eapply host_step_ok. }
  exists m. split; [intros k; by apply (h_find m None)|]. split; [by apply host_perm|].
  split; [|apply Hw]. intros i Hi. by destruct (hw_interest _ _ _ Hw i Hi).
Qed.
End reachable.

(** ** Examples *)

(** A kernel: the results and the data of the first calls. *)
Definition kernel (rets : list Z) (data : list bytes) : Sys :=
  {| sysret n := nth n rets 0; sysdata n := nth n data []; sysctrl _ := []; strftime _ := str "now" |}.
Definition cached : list file_cache := [mk_file_cache (str "/www/a") 10 7].

(** A thread that migrates a connection: the frame, the first writable event,
    the second. *)
Definition key_meta_frame : bytes := wr (wr (wr (zeros 820) 12 [0x08; 0x01]) 26 [10; 0; 0; 1]) 34 [0xc0; 0x00].
Definition sample_sys : Sys := kernel [] [key_meta_frame].
Definition migrated : host :=
  match @handle_meta_packet sample_sys true (host_start 2) with Ret (_, s) => s | Fault _ => host_start 0 end.
Definition tls_set : host :=
  match @handle_event sample_sys cached (str "/www") 5 1 false true migrated with Ret (_, s) => s | Fault _ => host_start 0 end.
Definition serving : host :=
  match @handle_event sample_sys cached (str "/www") 5 1 false true tls_set with Ret (_, s) => s | Fault _ => host_start 0 end.

Lemma serving_reached : rtc (@host_step sample_sys cached (str "/www") true 5 0) (host_start 2) serving.
Proof.
  assert (forall (m : res (Z * host)) d, match m with Ret _ => true | Fault _ => false end = true ->
    exists r, m = Ret (r, match m with Ret (_, s) => s | Fault _ => d end)) as Hz by (intros [[]|]; by eauto).
  assert (forall (m : res (unit * host)) d, match m with Ret _ => true | Fault _ => false end = true ->
    m = Ret (tt, match m with Ret (_, s) => s | Fault _ => d end)) as Hu by (intros [[[] ?]|]; by eauto).
  destruct (Hz (@handle_meta_packet sample_sys true (host_start 2)) (host_start 0)) as [r Er]; [vm_compute; reflexivity|].
  eapply rtc_l; [eapply (step_meta cached (str "/www") true 5 0 r (host_start 2) migrated)|].
  - apply (bool_decide_eq_true_1 _). vm_compute. reflexivity.
  - apply Nat.leb_le. vm_compute. reflexivity.
  - vm_compute. reflexivity.
  - exact Er.
  - eapply rtc_l; [|apply rtc_once].
    + apply (step_event cached (str "/www") true 5 0 1 false true false true migrated tls_set); [vm_compute; reflexivity|done|done|].
      apply Hu. vm_compute. reflexivity.
    + apply (step_event cached (str "/www") true 5 0 1 false true false true tls_set serving); [vm_compute; reflexivity|done|done|].
      apply Hu. vm_compute. reflexivity.
Qed.

Lemma host_reachable_consistent_witness :
  exists m : gmap client nat,
    (forall k, find_conn k serving = Ret (m !! k, serving)) /\
    elements (dom (h_conns serving)) ≡ₚ h_pool serving ++ (map_to_list m).*2 /\
    (forall i, is_Some (interest serving !! i) -> exists k, m !! k = Some i) /\
    forall i c, h_conns serving !! i = Some c ->
      0 <= req_len c < Z.of_nat HTTP_HEADER_LEN /\ length (req_buf c) = HTTP_HEADER_LEN.
Proof.
  apply (@host_reachable_consistent sample_sys cached (str "/www") true 5 0 2 serving);
    [vm_compute; discriminate|exact serving_reached].
Defined.

(** The client of the frame is served by the second object. *)
Definition sample_client : client := mk_client 0x0a000001 0xc000.
Example serving_conn :
  (sock_state <$> h_conns serving !! 1%nat, interest serving !! 1%nat) = (Some READY_TO_RECV, Some (true, false)).
Proof. vm_compute. reflexivity. Qed.
