(* ===== verification/HostServe.v ===== *)
(** * The HTTP service of a thread of the host (host: main.c, helpers.c)

    What a thread does for a client: a request, in whatever pieces it arrives,
    is collected and its file found; the file is sent, in whatever pieces the
    socket takes; and what happens when a call fails. *)

From Stdlib Require Import String.
From S2P Require Import Prelude FlowTable MetaOut KeySchedule HostFilter HostConn HostHttp HostLoop.

(** ** Collecting a request *)

(** The connection has received [text] so far. *)
Record holds (c : conn_state) (text : bytes) : Prop := mk_holds {
  holds_ok : request_ok c;
  holds_len : req_len c = Z.of_nat (length text);
  holds_text : take (length text) (req_buf c) = text;
}.

(** The file a request for [url] names, with its index in the cache. *)
Definition file_for (fcache : list file_cache) (www_main url : bytes) : option (nat * file_cache) :=
  list_find (fun e => fullname e = www_main ++ url) fcache.

Lemma find_file_list_find fcache name j :
  find_file name fcache j = (fun '(i, e) => (j + Z.of_nat i, e)) <$> list_find (fun e => fullname e = name) fcache.
Proof.
  revert j. induction fcache as [|e l IH]; intros j; simpl; [done|].
  destruct (decide (fullname e = name)) as [Hn|Hn].
  - rewrite bool_decide_eq_true_2 by done. simpl. by rewrite Z.add_0_r.
  - rewrite bool_decide_eq_false_2 by done. rewrite IH. destruct (list_find _ l) as [[i e']|]; [|done].
    simpl. do 2 f_equal. lia.
Qed.

Lemma c_string_text text rest : 0 ∉ text -> c_string (text ++ 0 :: rest) = text.
Proof.
  induction text as [|b text IH]; simpl; [done|]. intros [Hb Ht]%not_elem_of_cons.
  by rewrite (proj2 (Z.eqb_neq b 0)), IH by done.
Qed.

Lemma c_string_id text : 0 ∉ text -> c_string text = text.
Proof.
  induction text as [|b text IH]; simpl; [done|]. intros [Hb Ht]%not_elem_of_cons.
  by rewrite (proj2 (Z.eqb_neq b 0)), IH by done.
Qed.
Lemma blank_line_pos text r : blank_line text = Some r -> (0 < r)%nat.
Proof.
  revert r. induction text as [|b text IH]; intros r; simpl; [done|].
  repeat (case_match; [intros [= <-]; lia|]). destruct (blank_line text); intros [= <-]; lia.
Qed.

(** The request line "GET url ...". *)
Lemma copy_url_word n url rest : 0 ∉ url -> SP ∉ url -> (length url <= n)%nat ->
  copy_url n (url ++ SP :: rest) = url.
Proof.
  revert n. induction url as [|b url IH]; intros n; simpl; [by destruct n|].
  intros [H0 Hz]%not_elem_of_cons [HS Hs]%not_elem_of_cons Hl. destruct n as [|n]; [lia|]. simpl.
  rewrite (proj2 (Z.eqb_neq b 0)), (proj2 (Z.eqb_neq b SP)) by done. simpl. by rewrite IH by (done || lia).
Qed.
Lemma url_of_line url rest : 0 ∉ url -> SP ∉ url -> head url = Some 47 -> (length url < URL_LEN)%nat ->
  http_get_url (str "GET " ++ url ++ SP :: rest) = url.
Proof.
  intros H0 HS Hh Hl. unfold http_get_url.
  change (drop 3 (str "GET " ++ url ++ SP :: rest)) with (SP :: url ++ SP :: rest).
  destruct url as [|b url]; [done|]. injection Hh as ->. cbn [skip_blanks]. simpl orb. cbv match.
  change (skip_blanks ((47 :: url) ++ SP :: rest)) with ((47 :: url) ++ SP :: rest).
  apply copy_url_word; [done|done|lia].
Qed.

(** What is stored of a piece. *)
Lemma collect c text data :
  holds c text -> (length text + length data < HTTP_HEADER_LEN)%nat ->
  let len := req_len c + Z.of_nat (length data) in
  let buf := wr (wr (req_buf c) (Z.to_nat (req_len c)) data) (Z.to_nat len) [0] in
  exists rest, buf = (text ++ data) ++ 0 :: rest /\ length buf = HTTP_HEADER_LEN.
Proof.
  intros [[Hl Hb] Hlen Ht] Hd len buf. subst len buf. rewrite Hlen, Nat2Z.id.
  replace (Z.to_nat _) with (length text + length data)%nat by lia.
  eexists. split; [|rewrite !length_wr; rewrite ?length_wr; simpl length; lia].
  unfold wr at 2. rewrite Ht. unfold wr. f_equal.
  rewrite app_assoc. apply take_app_length'. rewrite length_app. lia.
Qed.

Section receive.
Context `{Sys} (fcache : list file_cache) (www_main : bytes).

(** The kernel delivers [data], application data, to the next call. *)
Record receives (s : host) (data : bytes) : Prop := mk_receives {
  rc_ok : 0 <= sysret (sys_idx s);
  rc_data : sysdata (sys_idx s) = data;
  rc_some : data <> [];
  rc_types : scan_records (sysctrl (sys_idx s)) data = None;
}.

(** One piece of a request. *)
Lemma receive_run s i c text data :
  h_conns s !! i = Some c -> holds c text -> receives s data ->
  (length text + length data < HTTP_HEADER_LEN)%nat -> 0 ∉ text ++ data ->
  exists s' c' rest, h_conns s' !! i = Some c' /\ holds c' (text ++ data) /\
    req_buf c' = (text ++ data) ++ 0 :: rest /\ file_idx c' = file_idx c /\
    handle_received_pkt fcache www_main i s =
    match blank_line (text ++ data) with
    | None => Ret (RECV_CONTINUE, s')
    | Some _ => Ret (RECV_OK, s' <| h_conns ::= insert i (parse_request fcache www_main c') |>)
    end.
Proof.
  intros Hc Hh [Hret Hdata Hne Hty] Hl H0. destruct (collect c text data Hh Hl) as (rest & Hb & Hbl).
  unfold handle_received_pkt. erewrite bind_ret by (by apply get_c_run).
  rewrite (bind_ret mget _ s s s) by done. rewrite Hdata, take_ge by lia. cbv zeta.
  erewrite (bind_ret (syscall _)) by done. rewrite (proj2 (Z.ltb_ge _ _)) by done.
  set (s1 := s <| sys_idx ::= _ |> <| trace ::= _ |>).
  erewrite bind_ret by (by apply (mod_c_run i _ s1 c)).
  rewrite (proj2 (Z.eqb_neq _ _)) by (destruct data; [done|simpl; lia]). rewrite Hty.
  destruct Hh as [[Hr Hrb] Hlen Ht]. rewrite (proj2 (Z.ltb_ge _ _)) by lia.
  erewrite bind_ret by (apply mod_c_run; simpl; apply lookup_insert_eq).
  rewrite Hb in *. unfold mres. rewrite find_http_header_correct by lia.
  rewrite Hlen, <-Nat2Z.inj_add, Nat2Z.id, <-length_app, take_app_length.
  replace (c_string (text ++ data)) with (text ++ data) by (symmetry; by apply c_string_id).
  set (c1 := c <| recv_bytes ::= fun n => n + Z.of_nat (length data) |>).
  set (c2 := c1 <| req_buf := (text ++ data) ++ 0 :: rest |> <| req_len := Z.of_nat (length (text ++ data)) |>).
  exists (s1 <| h_conns ::= insert i c1 |> <| h_conns ::= insert i c2 |>), c2, rest.
  split; [apply lookup_insert_eq|]. split; [|split; [done|split; [done|]]].
  - split; [split; [|done]|done|]; simpl; [rewrite length_app; lia|apply take_app_length].
  - destruct (blank_line (text ++ data)) as [r|] eqn:Er; [|done].
    erewrite bind_ret by reflexivity.
    rewrite (proj2 (Z.leb_gt _ _)) by (pose proof (blank_line_pos _ _ Er); lia).
    erewrite bind_ret by (apply mod_c_run; apply lookup_insert_eq). done.
Qed.

(** C31: a request "GET url ..." is served whatever the pieces it arrives in:
    with [text] received so far, a further piece makes the connection hold
    both; as long as there is no blank line it waits for more; the piece that
    completes the header selects the first cached file named by the URL under
    the served directory, with status 200, or status 404 when there is none. *)
Theorem request_served s i c text data url tail :
  h_conns s !! i = Some c -> holds c text -> receives s data ->
  (length text + length data < HTTP_HEADER_LEN)%nat -> 0 ∉ text ++ data ->
  text ++ data = str "GET " ++ url ++ SP :: tail -> SP ∉ url -> head url = Some 47 ->
  (length url < URL_LEN)%nat -> (length (www_main ++ url) < NAME_LIMIT)%nat ->
  exists r s' c', handle_received_pkt fcache www_main i s = Ret (r, s') /\
    h_conns s' !! i = Some c' /\ holds c' (text ++ data) /\
    match blank_line (text ++ data) with
    | None => r = RECV_CONTINUE
    | Some _ =>
        r = RECV_OK /\ keep_alive c' = negb (strstr (str "connection: close") (text ++ data)) /\
        match file_for fcache www_main url with
        | Some (j, e) => scode c' = 200 /\ file_idx c' = Z.of_nat j /\ file_size c' = fsize e
        | None => scode c' = 404
        end
    end.
Proof.
  intros Hc Hh Hr Hl H0 Ht HS Hs Hu Hn.
  destruct (receive_run s i c text data Hc Hh Hr Hl H0) as (s' & c' & rest & Hc' & Hh' & Hb & _ & ->).
  destruct (blank_line (text ++ data)); [|by exists RECV_CONTINUE, s', c'].
  eexists RECV_OK, _, _. split; [reflexivity|]. split; [apply lookup_insert_eq|].
  assert (http_get_url (req_buf c') = url) as Eu.
  { rewrite Hb, Ht, <-!app_assoc. apply url_of_line; [|done..]. rewrite Ht in H0.
    rewrite !not_elem_of_app in H0. tauto. }
  assert (c_string (req_buf c') = text ++ data) as Es by (rewrite Hb; by apply c_string_text).
  unfold parse_request. rewrite Eu, Es, (proj2 (Nat.leb_gt _ _)) by done.
  rewrite find_file_list_find. fold (file_for fcache www_main url).
  destruct (file_for fcache www_main url) as [[j e]|]; simpl; (split; [by destruct Hh'|done]).
Qed.
End receive.

(** ** Sending a file *)

Section send.
Context `{Sys} (fcache : list file_cache).

(** The ranges asked for when the socket takes [sends] bytes in turn. *)
Fixpoint file_calls (fd in_fd off n : Z) (sends : list Z) : list call :=
  match sends with
  | [] => []
  | k :: ks => Sendfile fd in_fd off n :: file_calls fd in_fd (off + k) (n - k) ks
  end.

Definition sum (l : list Z) : Z := foldr Z.add 0 l.

(** The kernel takes [sends] bytes, and is not ready for what then remains. *)
Definition takes (at_ : nat) (n : Z) (sends : list Z) : Prop :=
  Forall (fun k => 0 < k) sends /\ sum sends <= n /\
  (forall j k, sends !! j = Some k -> sysret (at_ + j) = k) /\
  (sum sends < n -> again (sysret (at_ + length sends)) = true).

Definition calls_of (fd in_fd off n : Z) (sends : list Z) : list call :=
  file_calls fd in_fd off n sends ++
  (if sum sends <? n then [Sendfile fd in_fd (off + sum sends) (n - sum sends)] else []).

Lemma again_neg r : again r = true -> r < 0.
Proof. unfold again. intros [E%Z.eqb_eq|E%Z.eqb_eq]%orb_true_iff; unfold EAGAIN, EINTR in E; lia. Qed.

Lemma sum_nonneg l : Forall (fun k => 0 < k) l -> 0 <= sum l.
Proof. induction 1; simpl; unfold sum in *; simpl; lia. Qed.

Lemma sum_cons k ks : sum (k :: ks) = k + sum ks.
Proof. done. Qed.
Lemma takes_cons at_ n k ks : takes at_ n (k :: ks) ->
  sysret at_ = k /\ 0 < k <= n /\ takes (S at_) (n - k) ks.
Proof.
  intros (Hp & Hs & Hk & Ha). apply Forall_cons in Hp as [Hk0 Hp]. pose proof (sum_nonneg ks Hp).
  rewrite sum_cons in *. split; [by rewrite <-(Hk 0%nat k), Nat.add_0_r|]. split; [lia|].
  split; [done|]. split; [lia|]. split.
  - intros j k' Hj. rewrite <-(Hk (S j) k') by done. f_equal. lia.
  - intros Hl. rewrite <-Ha by lia. do 2 f_equal. simpl. lia.
Qed.
Lemma calls_of_cons fd in_fd off n k ks :
  calls_of fd in_fd off n (k :: ks) = Sendfile fd in_fd off n :: calls_of fd in_fd (off + k) (n - k) ks.
Proof.
  unfold calls_of. rewrite sum_cons. simpl. do 2 f_equal.
  destruct (Z.ltb_spec (k + sum ks) n); destruct (Z.ltb_spec (sum ks) (n - k)); try lia; [|done].
  do 2 f_equal; lia.
Qed.

Lemma sendfile_loop_run fuel i s c n sends :
  h_conns s !! i = Some c -> resp_remain c = n -> 0 <= n < 2 ^ 63 -> takes (sys_idx s) n sends ->
  (length sends < fuel)%nat ->
  exists s' c', sendfile_loop fuel i s = Ret ((if sum sends <? n then 0 else 1), s') /\
    h_conns s' !! i = Some c' /\ resp_remain c' = n - sum sends /\ resp_offset c' = resp_offset c + sum sends /\
    resp_fd c' = resp_fd c /\ trace s' = trace s ++ calls_of (sock_fd c) (resp_fd c) (resp_offset c) n sends.
Proof.
  revert s c n sends. induction fuel as [|fuel IH]; intros s c n sends Hc Hr Hn Ht Hf; [lia|].
  cbn [sendfile_loop]. erewrite bind_ret by (by apply get_c_run). rewrite Hr.
  destruct sends as [|k ks].
  - destruct Ht as (_ & _ & _ & Ha). unfold calls_of, sum in *. simpl in *. rewrite Z.add_0_r, Z.sub_0_r in *.
    destruct (Z.leb_spec n 0) as [H0|H0].
    { rewrite (proj2 (Z.ltb_ge 0 n)) by lia. exists s, c. rewrite app_nil_r. repeat split; done || lia. }
    rewrite (proj2 (Z.ltb_lt 0 n)) by lia. rewrite Nat.add_0_r in Ha. pose proof (again_neg _ (Ha H0)).
    erewrite (bind_ret (syscall _)) by done.
    rewrite (proj2 (Z.ltb_ge 0 _)), (proj2 (Z.ltb_lt _ 0)), Ha by lia.
    eexists _, c. split; [reflexivity|]. by repeat split.
  - apply takes_cons in Ht as (Ek & Hk & Ht). rewrite (proj2 (Z.leb_gt n 0)) by lia.
    erewrite (bind_ret (syscall _)) by done. rewrite Ek, (proj2 (Z.ltb_lt 0 k)) by lia.
    erewrite bind_ret by (by apply mod_c_run).
    set (c1 := c <| resp_remain := u64 (resp_remain c - k) |> <| resp_offset := resp_offset c + k |>).
    set (req := Sendfile (sock_fd c) (resp_fd c) (resp_offset c) n).
    destruct (IH (s <| sys_idx ::= S |> <| trace ::= fun l => l ++ [req] |> <| h_conns ::= insert i c1 |>) c1 (n - k) ks)
      as (s' & c' & E & Hc' & Hr' & Ho' & Hf' & Ht');
      [apply lookup_insert_eq|simpl; rewrite Hr; unfold u64; apply Z.mod_small; lia|lia|exact Ht|simpl in Hf; lia|].
    exists s', c'. rewrite Hr', Ho', Ht', calls_of_cons, sum_cons. simpl.
    replace (sum ks <? n - k) with (k + sum ks <? n) in E
      by (destruct (Z.ltb_spec (k + sum ks) n), (Z.ltb_spec (sum ks) (n - k)); done || lia).
    split; [exact E|]. split; [done|]. split; [lia|]. split; [lia|]. split; [done|]. by rewrite <-app_assoc.
Qed.

(** Where the transfer of a file stands: nothing left means it starts anew. *)
Definition progress (c : conn_state) (e : file_cache) : Z * Z :=
  if resp_remain c =? 0 then (0, fsize e) else (resp_offset c, resp_remain c).

(** C32: the body of a response is the file, each byte once and in order: one
    call of [send_file_content] asks for consecutive ranges from where the
    transfer stands, each starting where the socket stopped taking bytes; it
    reports completion exactly when nothing is left, and otherwise remembers
    the place at which the next call goes on. *)
Theorem file_sent fuel i s c e sends :
  h_conns s !! i = Some c -> scode c = 200 -> 0 <= file_idx c -> fcache !! Z.to_nat (file_idx c) = Some e ->
  (resp_fd c = -1 \/ resp_fd c = ffd e) -> 0 <= ffd e ->
  0 <= resp_remain c < 2 ^ 63 -> 0 < fsize e < 2 ^ 63 ->
  let (off, n) := progress c e in
  takes (sys_idx s) n sends -> (length sends < fuel)%nat ->
  exists s' c', send_file_content fcache fuel i s = Ret ((if sum sends <? n then 0 else 1), s') /\
    h_conns s' !! i = Some c' /\ resp_remain c' = n - sum sends /\ resp_offset c' = off + sum sends /\
    trace s' = trace s ++ calls_of (sock_fd c) (ffd e) off n sends.
Proof.
  intros Hc Hs Hi He Hfd Hf Hr Hz. destruct (progress c e) as [off n] eqn:Ep. intros Ht Hl.
  unfold send_file_content. erewrite bind_ret by (by apply get_c_run). rewrite Hs. change (negb (200 =? 200)) with false. cbv iota.
  rewrite (proj2 (Z.leb_le 0 (file_idx c))), He by done. erewrite (bind_ret (mres _)) by done.
  set (c1 := c <| resp_offset := off |> <| resp_remain := n |>).
  assert (exists s1, (if resp_remain c =? 0 then mod_c i (fun c => c <| resp_offset := 0 |> <| resp_remain := fsize e |>)
           else ret tt) s = Ret (tt, s1) /\ h_conns s1 !! i = Some c1 /\ sys_idx s1 = sys_idx s /\ trace s1 = trace s)
    as (s1 & E1 & Hc1 & Hx1 & Ht1).
  { unfold progress in Ep. destruct (resp_remain c =? 0); injection Ep as <- <-.
    - erewrite mod_c_run by done. eexists. split; [done|]. split; [apply lookup_insert_eq|done].
    - exists s. split; [done|]. split; [|done]. rewrite Hc. f_equal. by destruct c. }
  erewrite bind_ret by exact E1. erewrite bind_ret by (by apply get_c_run).
  assert (0 < n < 2 ^ 63) as Hn.
  { unfold progress in Ep. destruct (Z.eqb_spec (resp_remain c) 0); injection Ep as <- <-; lia. }
  change (resp_remain c1) with n. rewrite (proj2 (Z.leb_gt n 0)) by lia.
  set (c2 := c1 <| resp_fd := ffd e |>).
  assert (exists s2, (if resp_fd c1 <? 0 then mod_c i (fun c => c <| resp_fd := ffd e |>);;; ret (0 <=? ffd e)
           else ret true) s1 = Ret (true, s2) /\ h_conns s2 !! i = Some c2 /\ sys_idx s2 = sys_idx s /\ trace s2 = trace s)
    as (s2 & E2 & Hc2 & Hx2 & Ht2).
  { change (resp_fd c1) with (resp_fd c). destruct Hfd as [->|Hfd]; simpl.
    - erewrite bind_ret by (by apply mod_c_run). rewrite (proj2 (Z.leb_le 0 (ffd e))) by done.
      eexists. split; [done|]. split; [apply lookup_insert_eq|done].
    - rewrite Hfd, (proj2 (Z.ltb_ge _ 0)) by done. exists s1. split; [done|]. split; [|done].
      rewrite Hc1. f_equal. unfold c2. rewrite <-Hfd. by destruct c. }
  erewrite bind_ret by exact E2. change (negb true) with false. cbv iota.
  destruct (sendfile_loop_run fuel i s2 c2 n sends) as (s' & c' & E & ? & ? & ? & _ & Ht');
    [done|done|lia|by rewrite Hx2|done|]. exists s', c'. rewrite Ht', Ht2. done.
Qed.
End send.

(** ** Failures *)

Section failures.
Context `{Sys} (fcache : list file_cache) (www_main : bytes) (tls13 : bool) (fuel : nat).

Lemma epoll_run i op s c : h_conns s !! i = Some c -> 0 <= sysret (sys_idx s) ->
  epoll i op s =
  Ret (tt, s <| sys_idx ::= S |> <| trace ::= fun l => l ++ [Epoll_ctl (sock_fd c) op] |>
             <| interest ::= match op with
                             | EPOLL_ADD a b | EPOLL_MOD a b => insert i (a, b)
                             | EPOLL_DEL => delete i
                             end |>).
Proof.
  intros Hc Hr. unfold epoll. erewrite bind_ret by (by apply get_c_run).
  erewrite (bind_ret (syscall _)) by done. by rewrite (proj2 (Z.ltb_ge _ 0)) by done.
Qed.

(** The branch an event takes. *)
Ltac dispatch Hc Hs :=
  unfold handle_event; erewrite bind_ret by (by apply get_c_run); unfold in_state; rewrite Hs;
  repeat match goal with
    | |- context [bool_decide (?x ∈ ?l)] =>
        let b := eval vm_compute in (bool_decide (x ∈ l)) in change (bool_decide (x ∈ l)) with b
    end;
  rewrite ?andb_false_r; cbn [andb]; cbv iota.

(** The connection waits for a request, with a header of [n] bytes unsent. *)
Definition abandoned (i : nat) (n : Z) (s : host) : Prop :=
  exists c, h_conns s !! i = Some c /\ sock_state c = READY_TO_RECV /\ interest s !! i = Some (true, false) /\
    hdr_sent c = false /\ hdr_remain c = n.

(** The first attempt at the header. *)
Lemma header_eagain i s c h :
  h_conns s !! i = Some c -> hdr_sent c = false -> hdr_len c = 0 ->
  response_header c (strftime (sys_idx s)) = Ret h -> (length h < HTTP_HEADER_LEN)%nat ->
  sysret (sys_idx s) = - EAGAIN ->
  let n := Z.of_nat (length h) in
  let c1 := c <| hdr_buf := wr (hdr_buf c) 0 (h ++ [0]) |> <| hdr_len := n |> <| hdr_offset := 0 |>
              <| hdr_remain := n |> in
  send_https_header i s = Ret (0, s <| h_conns ::= insert i c1 |> <| sys_idx ::= S |>
    <| trace ::= fun l => l ++ [Send (sock_fd c) (rdn (Z.to_nat n) (hdr_buf c1) 0)] |>).
Proof.
  intros Hc Hs Hl He Hn Ha n c1. unfold send_https_header. erewrite bind_ret by (by apply get_c_run).
  rewrite Hs. rewrite (bind_ret mget _ s s s) by done. rewrite Hl, He. cbn [Z.eqb].
  rewrite bind_assoc. erewrite (bind_ret (mres _)) by done.
  rewrite (proj2 (Nat.leb_gt _ _)) by done. rewrite bind_assoc.
  erewrite bind_ret by (by apply mod_c_run). rewrite (bind_ret (ret true) _ _ true _) by done.
  change (negb true) with false. cbv iota. erewrite bind_ret by (apply get_c_run; apply lookup_insert_eq).
  erewrite (bind_ret (syscall _)) by done. cbv beta.
  match goal with |- context [sysret ?x] => change (sysret x) with (sysret (sys_idx s)) end.
  by rewrite Ha.
Qed.

(** A response whose header the socket does not take at once is never
    sent: when the first [send] of the header fails with EAGAIN, the thread
    goes back to waiting for a request, registered for input only, with the
    whole header still to be sent. *)
Theorem eagain_abandons_response i ev_in s c h :
  h_conns s !! i = Some c -> sock_state c = HTTP_REQ_RECVED -> hdr_sent c = false -> hdr_len c = 0 ->
  resp_remain c = 0 -> response_header c (strftime (sys_idx s)) = Ret h -> (length h < HTTP_HEADER_LEN)%nat ->
  sysret (sys_idx s) = - EAGAIN -> 0 <= sysret (S (sys_idx s)) ->
  exists s', handle_event fcache www_main fuel i ev_in true s = Ret (tt, s') /\
    abandoned i (Z.of_nat (length h)) s'.
Proof.
  intros Hc Hs Hh Hl Hr He Hn Ha Hp. dispatch Hc Hs.
  unfold send_https_resp. rewrite bind_assoc. erewrite bind_ret by (by eapply header_eagain).
  change (negb (0 =? 1)) with true. cbv iota. rewrite (bind_ret (ret 0) _ _ 0 _) by done.
  change (0 <? 0) with false. cbv iota. erewrite bind_ret by (apply get_c_run; apply lookup_insert_eq).
  match goal with |- context [resp_remain ?x] => change (resp_remain x) with (resp_remain c) end. rewrite Hr. change (0 <=? 0) with true. cbv iota.
  erewrite bind_ret by (apply epoll_run; [apply lookup_insert_eq|done]).
  unfold set_state. erewrite mod_c_run by (apply lookup_insert_eq).
  eexists. split; [reflexivity|]. eexists. split; [apply lookup_insert_eq|]. split; [done|].
  split; [apply lookup_insert_eq|]. done.
Qed.

(** A live connection can be taken out of the table. *)
Lemma remove_run m i k s : hwf m None s -> m !! k = Some i ->
  exists t, table_remove i s = Ret (tt, s <| ht_conn := t |>).
Proof.
  intros Hw Hk. pose proof (hw_table _ _ _ Hw) as Hr. destruct (rep_complete _ _ _ Hr k i Hk) as (Hki & _).
  destruct (ht_remove_spec (client_of (h_conns s)) (ht_conn s) m i k Hr Hki Hk) as (t & Et & _).
  exists t. unfold table_remove. rewrite (bind_ret mget _ s s s) by done.
  erewrite (bind_ret (mres _)); [|unfold mres; by rewrite Et]. done.
Qed.
(** The pool has room for a live connection. *)
Lemma room_for m i k s : hwf m None s -> m !! k = Some i -> Z.of_nat (length (h_pool s)) < MAX_CONN.
Proof.
  intros Hw Hk. pose proof (Permutation_length (host_perm m s Hw)) as Hl.
  rewrite length_app, length_fmap, length_map_to_list in Hl.
  change (length (elements (dom (h_conns s)))) with (base.size (dom (h_conns s))) in Hl. rewrite size_dom in Hl.
  assert (base.size m <> 0%nat) by (intros E%map_size_empty_inv; subst; by rewrite lookup_empty in Hk).
  destruct Hw. lia.
Qed.

(** Giving back a connection that was sending a file. *)
Lemma free_run m i s c :
  hwf m (Some i) s -> h_conns s !! i = Some c -> interest s !! i = None -> 0 <= resp_fd c ->
  Z.of_nat (length (h_pool s)) < MAX_CONN ->
  exists s', conn_state_free i s = Ret (tt, s') /\ h_pool s' = i :: h_pool s /\ interest s' = interest s /\
    trace s' = trace s ++ [Close (resp_fd c)] /\ hwf m None s'.
Proof.
  intros Hw Hc Hi Hfd Hl. assert (exists s', conn_state_free i s = Ret (tt, s') /\ h_pool s' = i :: h_pool s /\
    interest s' = interest s /\ trace s' = trace s ++ [Close (resp_fd c)]) as (s' & E & Hp & Hi' & Ht).
  { unfold conn_state_free. erewrite bind_ret by (by apply get_c_run). rewrite (proj2 (Z.leb_le 0 _)) by done.
    rewrite bind_assoc. erewrite (bind_ret (syscall _)) by done. erewrite bind_ret by (by apply mod_c_run).
    erewrite (bind_ret mget) by done. simpl h_pool. rewrite (proj2 (Z.leb_gt _ _)) by done. by eexists. }
  exists s'. split; [done|]. split; [done|]. split; [done|]. split; [done|]. by eapply (h_free m i s).
Qed.

(** Closing a live connection: the SmartNIC is told, the registration ends, and
    two descriptors are closed. *)
Definition closing_calls (c : conn_state) : list call :=
  [Sendto (arm_frame 0xfc (mi c)); Epoll_ctl (sock_fd c) EPOLL_DEL; Close (sock_fd c); Close (resp_fd c)].
Lemma close_run m k i s c :
  hwf m None s -> m !! k = Some i -> h_conns s !! i = Some c -> 0 <= resp_fd c ->
  0 <= sysret (S (sys_idx s)) ->
  exists s', close_tcp_conn i s = Ret (tt, s') /\ hwf (delete k m) None s' /\
    h_pool s' = i :: h_pool s /\ interest s' !! i = None /\
    trace s' = trace s ++ closing_calls c.
Proof.
  intros Hw Hk Hc Hfd Hr. unfold close_tcp_conn. erewrite bind_ret by (by apply get_c_run).
  set (s1 := s <| sys_idx ::= S |> <| trace ::= fun l => l ++ [Sendto (arm_frame 0xfc (mi c))] |>).
  assert (exists r, send_close_to_arm (mi c) s = Ret (r, s1)) as [r Er].
  { unfold send_close_to_arm. erewrite (bind_ret (syscall _)) by done. case_match; by eexists. }
  erewrite bind_ret by exact Er. erewrite bind_ret by (by apply (epoll_run i EPOLL_DEL s1 c)).
  match goal with |- context [_ ?x = Ret _] => set (s2 := x) end.
  assert (hwf m None s2) as Hw2.
  { eapply h_epoll; [|exact (h_send_close m None _ s r s1 Hw Er)|by apply (epoll_run i EPOLL_DEL s1 c)].
    left. by exists k. }
  unfold close_sock. rewrite bind_assoc. erewrite bind_ret by (by apply (get_c_run i s2 c)).
  rewrite bind_assoc. erewrite (bind_ret (syscall _)) by done. erewrite (bind_ret (mmod _)) by done.
  match goal with |- context [_ ?x = Ret _] => set (s3 := x) end.
  assert (hwf m None s3) as Hw3.
  { eapply (h_close m None i s2 tt); [done|]. unfold close_sock.
    erewrite bind_ret by (by apply (get_c_run i s2 c)). done. }
  rewrite (live_client _ _ _ _ _ _ Hw Hk Hc). erewrite bind_ret by (by apply (h_find m None)). rewrite Hk.
  destruct (remove_run m i k s3 Hw3 Hk) as [t Et]. destruct (h_remove _ _ _ _ _ _ Hw3 Hk Et) as [Hw4 Hi4].
  erewrite bind_ret by exact Et. set (s4 := s3 <| ht_conn := t |>) in *.
  destruct (free_run (delete k m) i s4 c) as (s' & E & Hp & Hi & Ht & Hw'); [done|done|apply lookup_delete_eq|done| |].
  { exact (room_for m i k s Hw Hk). }
  exists s'. split; [done|]. split; [done|]. split; [done|]. split; [rewrite Hi; apply lookup_delete_eq|].
  rewrite Ht. simpl. by rewrite <-!app_assoc.
Qed.

(** Closing a connection that failed while a file was being sent tells the
    SmartNIC, ends the registration, closes the socket and gives the object
    back to the pool; it also closes the descriptor of the cached file, which
    every other connection of the thread goes on using. *)
Theorem errored_close_closes_cached_file m k i ev_in s c :
  hwf m None s -> m !! k = Some i -> h_conns s !! i = Some c -> sock_state c = ERRORED -> 0 <= resp_fd c ->
  0 <= sysret (S (sys_idx s)) ->
  exists s', handle_event fcache www_main fuel i ev_in true s = Ret (tt, s') /\ hok s' /\
    h_pool s' = i :: h_pool s /\ interest s' !! i = None /\ find_conn k s' = Ret (None, s') /\
    trace s' = trace s ++ closing_calls c.
Proof.
  intros Hw Hk Hc Hs Hfd Hr. dispatch Hc Hs.
  destruct (close_run m k i s c) as (s' & E & Hw' & Hp & Hi & Ht); [done..|]. exists s'. split; [done|].
  split; [by exists (delete k m)|]. split; [done|]. split; [done|]. split; [|done].
  rewrite (h_find _ _ _ k Hw'). by rewrite lookup_delete_eq.
Qed.

(** The client a key meta frame names. *)
Definition client_in (buf : bytes) : client := mk_client (ntohl (rd32 buf 26)) (ntohs (rd16 buf 34)).

(** The records of the frame lie inside the buffer. *)
Definition records_inside (buf : bytes) : Prop :=
  0 <= s32 (rd32 buf (16 + SSL_META_SIZE)) <= Z.of_nat RECV_META_BUF_SIZE - Z.of_nat (16 + SSL_META_SIZE).

Lemma sccs_sf_run buf c : records_inside buf ->
  exists c', handle_sccs_sf_records buf c = Ret c' /\ mi c' = mi c /\ (request_ok c -> request_ok c').
Proof.
  unfold records_inside, handle_sccs_sf_records. intros Hr.
  rewrite (proj2 (Z.ltb_ge _ 0)), (proj2 (Z.ltb_ge _ _)) by lia. simpl orb. cbv iota. by eexists.
Qed.

Lemma nonblock_run fd s : exists s', set_nonblock fd s = Ret (sysret (S (sys_idx s)), s') /\
  h_conns s' = h_conns s /\ forall m o, hwf m o s -> hwf m o s'.
Proof. eexists. split; [reflexivity|]. split; [done|]. intros m o. by apply hwf_ext. Qed.

(** A frame for a new client, when no socket can be made. *)
Lemma migrate_no_socket m i rest buf len s :
  hwf m None s -> m !! client_in buf = None -> h_pool s = i :: rest -> records_inside buf ->
  (forall j, (j < 3)%nat -> sysret (sys_idx s + j) < 0) ->
  exists s' c, migrate tls13 buf len s = Ret (-1, s') /\ hwf (<[client_in buf := i]> m) None s' /\
    h_conns s' !! i = Some c /\ sock_fd c = -1 /\ interest s' !! i = None.
Proof.
  intros Hw Hm Hp Hr Hf. unfold migrate.
  assert (exists s1, conn_state_alloc s = Ret (Some i, s1) /\ h_conns s1 !! i = Some conn_state0 /\ sys_idx s1 = sys_idx s)
    as (s1 & E1 & Hc1 & Hx1).
  { destruct (hw_pool _ _ _ Hw i) as [c0 Hc0]; [rewrite Hp; by left|].
    unfold conn_state_alloc. rewrite (bind_ret mget _ s s s) by done. rewrite Hp.
    erewrite (bind_ret (mmod _)) by done. erewrite bind_ret by (by eapply mod_c_run).
    eexists. split; [done|]. split; [apply lookup_insert_eq|done]. }
  pose proof (h_alloc _ _ _ _ Hw E1) as Hw1. simpl in Hw1. erewrite bind_ret by exact E1.
  erewrite (bind_ret (mderef _)) by done. erewrite bind_ret by (by apply mod_c_run).
  set (c1 := handle_meta_data tls13 buf conn_state0).
  erewrite bind_ret by (apply get_c_run, lookup_insert_eq).
  destruct (sccs_sf_run buf c1 Hr) as (c2 & Ec2 & Hmi2 & Hok2). rewrite Ec2. erewrite (bind_ret (mres _)) by done.
  erewrite bind_ret by (apply mod_c_run, lookup_insert_eq).
  match goal with |- context [bind (table_insert i) _ ?x] => set (s2 := x) end.
  set (c3 := c2 <| sccs_sf_buf := wr (sccs_sf_buf c2) 0 (rdn (Z.to_nat len) buf 0) |>) in s2.
  assert (hwf m (Some i) s2) as Hw2.
  { eapply (hwf_put _ _ _ i c1); [|apply lookup_insert_eq|by left|exact Hok2].
    eapply hwf_put; [exact Hw1|exact Hc1|by left|done]. }
  assert (mi_client (mi c3) = client_in buf) as Ek by (change (mi c3) with (mi c2); by rewrite Hmi2).
  destruct (h_insert m i s2 c3 Hw2) as (t & Et & Hw3); [apply lookup_insert_eq|by rewrite Ek|].
  rewrite Ek in Hw3. erewrite bind_ret by exact Et. set (s3 := s2 <| ht_conn := t |>) in *.
  assert (h_conns s3 !! i = Some c3) as Hc3 by apply lookup_insert_eq.
  assert (sys_idx s3 = sys_idx s) as Hx3 by exact Hx1. clearbody s3.
  pose proof (Hf 0%nat) as F0. pose proof (Hf 2%nat) as F2. rewrite Nat.add_0_r in F0.
  assert (set_mig_sock (mi c2) s3 = Ret (-1, s3 <| sys_idx ::= S |> <| trace ::= fun l => l ++ [Socket] |>)) as E4.
  { unfold set_mig_sock. erewrite (bind_ret (syscall _)) by done. rewrite (proj2 (Z.ltb_lt _ 0)); [done|].
    rewrite Hx3. apply F0. lia. }
  pose proof (h_set_mig _ _ _ _ _ _ Hw3 E4) as Hw4. erewrite bind_ret by exact E4.
  erewrite bind_ret by (by apply mod_c_run). set (c5 := c3 <| sock_fd := -1 |>).
  match goal with |- context [bind (set_nonblock _) _ ?x] => set (s5 := x) end.
  assert (hwf (<[client_in buf := i]> m) None s5) as Hw5 by (eapply hwf_put; [exact Hw4|exact Hc3|by right|done]).
  assert (h_conns s5 !! i = Some c5) as Hc5 by apply lookup_insert_eq.
  assert (sys_idx s5 = S (sys_idx s)) as Hx5 by (by rewrite <-Hx3). clearbody s5.
  destruct (nonblock_run (-1) s5) as (s6 & E6 & Hc6 & Hw6). erewrite bind_ret by exact E6.
  rewrite Hx5. replace (S (S (sys_idx s))) with (sys_idx s + 2)%nat by lia.
  rewrite (proj2 (Z.ltb_lt _ 0)) by (apply F2; lia).
  assert (exists s7, close_sock i s6 = Ret (tt, s7) /\ h_conns s7 = h_conns s6) as (s7 & E7 & Hc7).
  { unfold close_sock. erewrite bind_ret by (apply (get_c_run i s6 c5); by rewrite Hc6). by eexists. }
  erewrite bind_ret by exact E7. exists s7, c5. split; [done|].
  split; [eapply h_close; [by apply Hw6|exact E7]|]. split; [by rewrite Hc7, Hc6|]. split; [done|].
  by eapply closed_interest.
Qed.

(** A migration that fails is still acknowledged: when no socket can be
    made for a new client, the connection stays in the table without a socket
    and unknown to epoll, and the same key meta frame, retransmitted, is
    answered with the frame that tells the SmartNIC the migration succeeded. *)
Theorem failed_migration_acknowledged m i rest buf len s :
  hwf m None s -> m !! client_in buf = None -> h_pool s = i :: rest -> records_inside buf ->
  (forall j, (j < 3)%nat -> sysret (sys_idx s + j) < 0) ->
  exists s1 s2 c, handle_key_packet tls13 buf len s = Ret (-1, s1) /\
    find_conn (client_in buf) s1 = Ret (Some i, s1) /\ h_conns s1 !! i = Some c /\ sock_fd c = -1 /\
    interest s1 !! i = None /\
    handle_key_packet tls13 buf len s1 = Ret (-1, s2) /\ trace s2 = trace s1 ++ [Sendto (mig_fin_frame c)].
Proof.
  intros Hw Hm Hp Hr Hf.
  destruct (migrate_no_socket m i rest buf len s) as (s1 & c & E & Hw1 & Hc & Hfd & Hi); [done..|].
  assert (find_conn (client_in buf) s1 = Ret (Some i, s1)) as Ef
    by (rewrite (h_find _ _ _ _ Hw1); by rewrite lookup_insert_eq).
  assert (exists r s2, send_mig_fin_to_arm i s1 = Ret (r, s2) /\ trace s2 = trace s1 ++ [Sendto (mig_fin_frame c)])
    as (r & s2 & E2 & Ht2).
  { unfold send_mig_fin_to_arm. erewrite bind_ret by (by apply get_c_run).
    erewrite (bind_ret (syscall _)) by done. case_match; by eexists _, _. }
  exists s1, s2, c. unfold handle_key_packet. fold (client_in buf).
  erewrite bind_ret by (by apply (h_find m None)). rewrite Hm, E. split; [done|].
  split; [done|]. split; [done|]. split; [done|]. split; [done|].
  erewrite bind_ret by exact Ef. cbv iota. erewrite bind_ret by exact E2. done.
Qed.
End failures.

(** ** Examples *)

Definition request : bytes := str "GET /a HTTP/1.1" ++ [CR; LF; CR; LF].
Definition one_conn (c : conn_state) : host := (host_start 1) <| h_conns := {[0%nat := c]} |>.

Lemma holds_nothing : holds conn_state0 [].
Proof. by split; [split; [split; reflexivity || lia|apply length_replicate]|..]. Qed.

Lemma request_served_witness :
  exists r s' c', @handle_received_pkt (kernel [19] [request]) cached (str "/www") 0 (one_conn conn_state0) = Ret (r, s') /\
    h_conns s' !! 0%nat = Some c' /\ holds c' ([] ++ request) /\
    r = RECV_OK /\ keep_alive c' = true /\ scode c' = 200 /\ file_idx c' = 0 /\ file_size c' = 10.
Proof.
  apply (@request_served (kernel [19] [request]) cached (str "/www") (one_conn conn_state0) 0 conn_state0 [] request
    (str "/a") (drop 7 request)).
  - reflexivity.
  - apply holds_nothing.
  - split; vm_compute; [discriminate|reflexivity|discriminate|reflexivity].
  - apply Nat.ltb_lt. vm_compute. reflexivity.
  - apply (bool_decide_eq_true_1 _). vm_compute. reflexivity.
  - vm_compute. reflexivity.
  - apply (bool_decide_eq_true_1 _). vm_compute. reflexivity.
  - reflexivity.
  - apply Nat.ltb_lt. vm_compute. reflexivity.
  - apply Nat.ltb_lt. vm_compute. reflexivity.
Defined.

(** Six of the ten bytes are taken. *)
Definition found : conn_state := conn_state0 <| scode := 200 |> <| file_idx := 0 |> <| file_size := 10 |>.
Lemma file_sent_witness :
  exists s' c', @send_file_content (kernel [6; - EAGAIN] []) cached 5 0 (one_conn found) = Ret (0, s') /\
    h_conns s' !! 0%nat = Some c' /\ resp_remain c' = 4 /\ resp_offset c' = 6 /\
    trace s' = [Sendfile 0 7 0 10; Sendfile 0 7 6 4].
Proof.
  apply (@file_sent (kernel [6; - EAGAIN] []) cached 5 0 (one_conn found) found (mk_file_cache (str "/www/a") 10 7) [6]).
  - reflexivity.
  - reflexivity.
  - simpl. lia.
  - reflexivity.
  - by left.
  - simpl. lia.
  - simpl. lia.
  - simpl. lia.
  - split; [repeat constructor|]. split; [vm_compute; discriminate|]. split.
    + intros [|j] k Hj; [by injection Hj as <-|by destruct j].
    + intros _. vm_compute. reflexivity.
  - simpl. lia.
Defined.

Definition waiting : conn_state := found <| sock_state := HTTP_REQ_RECVED |> <| keep_alive := true |>.
Definition waiting_header : bytes :=
  match response_header waiting (str "now") with Ret h => h | Fault _ => [] end.
Lemma eagain_abandons_response_witness :
  exists s', @handle_event (kernel [- EAGAIN] []) cached (str "/www") 5 0 false true (one_conn waiting) = Ret (tt, s') /\
    abandoned 0 (Z.of_nat (length waiting_header)) s'.
Proof.
  apply (@eagain_abandons_response (kernel [- EAGAIN] []) cached (str "/www") 5 0 false (one_conn waiting) waiting
    waiting_header).
  all: try (vm_compute; reflexivity).
  - apply Nat.ltb_lt. vm_compute. reflexivity.
  - vm_compute. discriminate.
Defined.

(** What the table of a consistent state holds. *)
Definition bound (k : client) (s : host) : option nat :=
  match find_conn k s with Ret (r, _) => r | Fault _ => None end.
Lemma bound_lookup m s k : hwf m None s -> m !! k = bound k s.
Proof. intros Hw. unfold bound. by rewrite (h_find m None). Qed.

(** The served connection of [serving], after an error while it sent a file. *)
Definition sending : conn_state := default conn_state0 (h_conns serving !! 1%nat).
Definition broken : conn_state := sending <| sock_state := ERRORED |> <| resp_fd := 7 |>.
Definition broken_host : host := serving <| h_conns ::= insert 1%nat broken |>.
Lemma sending_at : h_conns serving !! 1%nat = Some sending.
Proof.
  unfold sending. assert (bool_decide (is_Some (h_conns serving !! 1%nat)) = true) as E by (by vm_compute).
  apply bool_decide_eq_true in E as [c ->]. done.
Qed.
Lemma serving_ok : hok serving.
Proof.
  assert (hok (host_start 2)) as H0 by (apply start_ok; vm_compute; discriminate).
  pose proof serving_reached as Hr. induction Hr as [|s0 s1 s2 Hs Hr IH]; [done|]. apply IH.
  by eapply host_step_ok.
Qed.
Lemma hwf_break m s i c : hwf m None s -> h_conns s !! i = Some c ->
  hwf m None (s <| h_conns ::= insert i (c <| sock_state := ERRORED |> <| resp_fd := 7 |>) |>).
Proof. intros Hw Hc. eapply hwf_put; [exact Hw|exact Hc|by right|done]. Qed.
Lemma broken_ok : hok broken_host.
Proof. destruct serving_ok as [m Hw]. exists m. exact (hwf_break m serving 1 sending Hw sending_at). Qed.

Lemma errored_close_closes_cached_file_witness :
  exists s', @handle_event sample_sys cached (str "/www") 5 1 false true broken_host = Ret (tt, s') /\ hok s' /\
    h_pool s' = 1%nat :: h_pool broken_host /\ interest s' !! 1%nat = None /\
    find_conn sample_client s' = Ret (None, s') /\
    trace s' = trace broken_host ++ closing_calls broken.
Proof.
  destruct broken_ok as [m Hw].
  apply (@errored_close_closes_cached_file sample_sys cached (str "/www") 5 m sample_client 1 false broken_host broken Hw).
  - rewrite (bound_lookup _ _ _ Hw). vm_compute. reflexivity.
  - apply lookup_insert_eq.
  - reflexivity.
  - simpl. lia.
  - vm_compute. discriminate.
Defined.

Lemma failed_migration_acknowledged_witness :
  exists s1 s2 c, @handle_key_packet (kernel [-24; -9; -9] []) true key_meta_frame 820 (host_start 2) = Ret (-1, s1) /\
    find_conn (client_in key_meta_frame) s1 = Ret (Some 1%nat, s1) /\ h_conns s1 !! 1%nat = Some c /\ sock_fd c = -1 /\
    interest s1 !! 1%nat = None /\
    @handle_key_packet (kernel [-24; -9; -9] []) true key_meta_frame 820 s1 = Ret (-1, s2) /\
    trace s2 = trace s1 ++ [Sendto (mig_fin_frame c)].
Proof.
  destruct (start_ok 2) as [m Hw]; [vm_compute; discriminate|].
  apply (@failed_migration_acknowledged (kernel [-24; -9; -9] []) true m 1 [0%nat] key_meta_frame 820 (host_start 2) Hw).
  - rewrite (bound_lookup _ _ _ Hw). vm_compute. reflexivity.
  - reflexivity.
  - vm_compute. split; discriminate.
  - intros [|[|[|j]]] Hj; [vm_compute; reflexivity..|lia].
Defined.
